(** * ripples: a shallow embedding of the DNS vectorloop core

    The development follows the layout of the C sources:
    - [Wire]       rip_ns_utils.c / rip_ns_utils.h (big-endian accessors,
                   domain-name codec),
    - [Query]      query.h, query.c, query_parse.c, query_pack.c,
                   query_resolve.c,
    - [Conn]       conn.c (intrusive FIFO queues, TCP id bookkeeping),
    - [Vectorloop] vectorloop.c (TCP accept, TCP write, TCP release stages),
    - [Resource]   ripples.c (resource loop acknowledgement wait).

    Conventions.  A C byte is a [Z] in [0, 256); a buffer is a [list Z];
    a pointer into a buffer is a [Z] offset from the start of that buffer.
    Fixed-width unsigned arithmetic is written out with [mod].  Reads are
    done with [rd], which yields 0 outside the modelled buffer; writes are
    done with [wr], which leaves the buffer unchanged outside its range. *)

From Stdlib Require Import ZArith List Lia Bool.
From stdpp Require Import base tactics option list gmap.
Import ListNotations.

Local Open Scope Z_scope.

(* ===================================================================== *)
(** * Machine integers and buffers *)
(* ===================================================================== *)

Definition u8  (x : Z) : Z := x mod 256.
Definition u16 (x : Z) : Z := x mod 65536.
Definition u32 (x : Z) : Z := x mod 4294967296.

(** [*(buf + p)].  A read outside the buffer, which is undefined in C,
    gives 0. *)
Definition rd (buf : list Z) (p : Z) : Z :=
  if p <? 0 then 0 else default 0 (buf !! Z.to_nat p).

(** [*(buf + p) = v].  A store outside the buffer, which is undefined in C,
    leaves the buffer as it is: what is proved about stored bytes is
    proved for offsets inside the buffer. *)
Definition wr (buf : list Z) (p : Z) (v : Z) : list Z :=
  if p <? 0 then buf else <[Z.to_nat p := v]> buf.

(** [memcpy(buf + p, src, length src)] *)
Fixpoint wr_bytes (buf : list Z) (p : Z) (src : list Z) : list Z :=
  match src with
  | [] => buf
  | b :: src' => wr_bytes (wr buf p b) (p + 1) src'
  end.

(** The [n] bytes of [buf] starting at offset [p]. *)
Definition rd_bytes (buf : list Z) (p : Z) (n : Z) : list Z :=
  map (fun i => rd buf (p + Z.of_nat i)) (seq 0 (Z.to_nat n)).

(** Every element of a buffer is a byte. *)
Definition bytes (l : list Z) : Prop := Forall (fun b => 0 <= b < 256) l.

(** [b] has the length of [a] and agrees with it below offset [p]. *)
Definition frame_from (p : Z) (a b : list Z) : Prop :=
  length b = length a /\ forall j, j < p -> rd b j = rd a j.

(** [b] has the length of [a] and differs from it inside [[lo, hi)] only. *)
Definition confined (lo hi : Z) (a b : list Z) : Prop :=
  length b = length a /\ forall j, j < lo \/ hi <= j -> rd b j = rd a j.

(* ===================================================================== *)
(** * rip_ns_utils: wire codec *)
(* ===================================================================== *)

Module Wire.

Definition RIP_NS_PACKETSZ  : Z := 512.
Definition RIP_NS_UDP_MAXMSG : Z := 4096.
Definition RIP_NS_MAXMSG    : Z := 65535.
Definition RIP_NS_MAXCDNAME : Z := 255.
Definition RIP_NS_RRFIXEDSZ : Z := 10.
Definition RIP_NS_INADDRSZ  : Z := 4.
Definition RIP_NS_IN6ADDRSZ : Z := 16.
Definition RIP_NS_CMPRSFLGS : Z := 192.
Definition RIP_NS_CDNAME_COMP_BUF_LEN : Z := 256.
Definition HFIXEDSZ : Z := 12. (* sizeof(rip_ns_header_t) *)

(* rip_ns_rcode_t *)
Definition rip_ns_r_noerror  : Z := 0.
Definition rip_ns_r_formerr  : Z := 1.
Definition rip_ns_r_servfail : Z := 2.
Definition rip_ns_r_notimpl  : Z := 4.
Definition rip_ns_r_badvers  : Z := 16.
Definition rip_ns_r_rip_unknown     : Z := -1.
Definition rip_ns_r_rip_shortheader : Z := -2.
Definition rip_ns_r_rip_toolarge    : Z := -3.
Definition rip_ns_r_rip_query_tc    : Z := -4.
Definition rip_ns_r_rip_tcp_write_err   : Z := -6.
Definition rip_ns_r_rip_tcp_write_close : Z := -7.

(* rip_ns_type_t, rip_ns_class_t, rip_ns_opcode_t, rip_ns_ext_opt_code_t *)
Definition rip_ns_t_invalid : Z := 0.
Definition rip_ns_t_a    : Z := 1.
Definition rip_ns_t_ns   : Z := 2.
Definition rip_ns_t_aaaa : Z := 28.
Definition rip_ns_t_opt  : Z := 41.
Definition rip_ns_c_invalid : Z := 0.
Definition rip_ns_c_in   : Z := 1.
Definition rip_ns_o_query : Z := 0.
Definition rip_ns_ext_opt_c_cs : Z := 8.

(** RIP_NS_GET16: the value read; the caller advances its pointer by 2. *)
Definition RIP_NS_GET16 (buf : list Z) (cp : Z) : Z :=
  Z.lor (Z.shiftl (rd buf cp) 8) (rd buf (cp + 1)).

(** RIP_NS_PUT16 / rip_ns_put16: [s] is converted to uint16_t first. *)
Definition RIP_NS_PUT16 (s : Z) (buf : list Z) (cp : Z) : list Z :=
  let t_s := u16 s in
  wr (wr buf cp (u8 (Z.shiftr t_s 8))) (cp + 1) (u8 t_s).

Definition rip_ns_put16 (dst : list Z) (p : Z) (num : Z) : list Z :=
  wr (wr dst p (u8 (Z.shiftr (u16 num) 8))) (p + 1) (u8 (u16 num)).

(** RIP_NS_PUT32 *)
Definition RIP_NS_PUT32 (l : Z) (buf : list Z) (cp : Z) : list Z :=
  let t_l := u32 l in
  wr (wr (wr (wr buf cp (u8 (Z.shiftr t_l 24)))
             (cp + 1) (u8 (Z.shiftr t_l 16)))
         (cp + 2) (u8 (Z.shiftr t_l 8)))
     (cp + 3) (u8 t_l).

Definition rip_ns_rr_type_supported (query_type : Z) : bool :=
  existsb (fun t => query_type =? t) [rip_ns_t_a].

Definition rip_ns_rr_class_supported (query_class : Z) : bool :=
  query_class =? rip_ns_c_in.

(** ** rip_ns_name_unpack

    [msg] is the message starting at its first byte, [eom] the offset of its
    last byte, [src] the offset of the name.  The result is the return value
    together with the bytes stored in [dst].  The while loop is run on
    [fuel]; [None] means the fuel ran out. *)
Fixpoint rip_ns_name_unpack_loop (fuel : nat) (msg : list Z) (eom src dstsiz : Z)
    (srcp : Z) (dst : list Z) (len checked : Z) : option (Z * list Z) :=
  match fuel with
  | O => None
  | S fuel' =>
    let n := rd msg srcp in
    let srcp := srcp + 1 in
    if n =? 0 then
      (* *dstp = 0; if (len < 0) len = srcp - src; return len *)
      Some (if len <? 0 then srcp - src else len, dst ++ [0])
    else
      let sw := Z.land n RIP_NS_CMPRSFLGS in
      if sw =? 0 then
        if n >=? 64 then Some (-1, dst)
        else if (n + 1 >=? dstsiz - Z.of_nat (length dst)) || (n >=? eom - srcp)
        then Some (-1, dst)
        else rip_ns_name_unpack_loop fuel' msg eom src dstsiz (srcp + n)
               (dst ++ n :: rd_bytes msg srcp n) len (checked + (n + 1))
      else if sw =? RIP_NS_CMPRSFLGS then
        if srcp >=? eom then Some (-1, dst)
        else
          let len := if len <? 0 then srcp - src + 1 else len in
          let target := Z.lor (Z.shiftl (Z.land n 63) 8) (rd msg srcp) in
          if target >=? eom then Some (-1, dst)
          else
            let checked := checked + 2 in
            if checked >=? eom then Some (-1, dst)
            else rip_ns_name_unpack_loop fuel' msg eom src dstsiz target
                   dst len checked
      else Some (-1, dst)
  end.

Definition rip_ns_name_unpack (msg : list Z) (eom src dstsiz : Z)
    : option (Z * list Z) :=
  if (src <? 0) || (src >=? eom) then Some (-1, [])
  else rip_ns_name_unpack_loop (Z.to_nat (dstsiz + eom + 2)) msg eom src dstsiz
         src [] (-1) 0.

(** ** rip_ns_name_ntop *)

Definition special (ch : Z) : bool :=
  (ch =? 34) (* double quote *) || (ch =? 46) (* . *) || (ch =? 59) (* ; *)
  || (ch =? 92) (* backslash *) || (ch =? 40) (* ( *) || (ch =? 41) (* ) *)
  || (ch =? 64) (* @ *) || (ch =? 36) (* $ *).

Definition printable (ch : Z) : bool := (32 <? ch) && (ch <? 127).

(** End of [rip_ns_name_ntop], after the while loop. *)
Definition ntop_finish (dstsiz : Z) (dst : list Z) : Z * list Z :=
  let dn0 := Z.of_nat (length dst) in
  if (dn0 =? 0) && (dn0 >=? dstsiz) then (-1, dst)
  else
    let dst := if dn0 =? 0 then dst ++ [46] else dst in
    let dn := Z.of_nat (length dst) in
    if dn >=? dstsiz then (-1, dst)
    else (dn + 1 - 1, dst ++ [0]).

(** The two nested loops of [rip_ns_name_ntop] as one recursion on the
    source bytes: [l] is the count of bytes left in the current label, and
    [l = 0] means that the next byte is a length byte.  A source that ends
    before its terminating zero byte is outside the contract of the C
    function (it would read past the buffer); the model returns -1 there. *)
Fixpoint rip_ns_name_ntop_loop (src : list Z) (l : Z) (dstsiz : Z)
    (dst : list Z) : Z * list Z :=
  match src with
  | [] => (-1, dst)
  | c :: src' =>
    let room := dstsiz - Z.of_nat (length dst) in
    if l =? 0 then
      (* (l = *cp++) != 0 *)
      if c =? 0 then ntop_finish dstsiz dst
      else if c >=? 64 then (-1, dst)
      else if negb (Z.of_nat (length dst) =? 0) then
        if room <=? 0 then (-1, dst)
        else rip_ns_name_ntop_loop src' c dstsiz (dst ++ [46])
      else rip_ns_name_ntop_loop src' c dstsiz dst
    else
      (* c = *cp++ inside the for loop *)
      if special c then
        if room <? 2 then (-1, dst)
        else rip_ns_name_ntop_loop src' (l - 1) dstsiz (dst ++ [92; c])
      else if negb (printable c) then
        if room <? 4 then (-1, dst)
        else rip_ns_name_ntop_loop src' (l - 1) dstsiz
               (dst ++ [92; 48 + c / 100; 48 + (c mod 100) / 10; 48 + c mod 10])
      else
        if room <? 2 then (-1, dst)
        else rip_ns_name_ntop_loop src' (l - 1) dstsiz (dst ++ [c])
  end.

Definition rip_ns_name_ntop (src : list Z) (dstsiz : Z) : Z * list Z :=
  rip_ns_name_ntop_loop src 0 dstsiz [].

(** ** rip_ns_name_pton

    [src] is a C string: it ends at its first zero byte or at the end of the
    list.  The destination is kept in two parts: [done], the bytes before the
    slot of the current label's length byte ([label - dst = length done]),
    and [cur], the bytes stored after that slot
    ([bp - dst = length done + 1 + length cur]).  The result is the return
    value and the bytes of [dst] written; when -1 is returned no caller
    looks at [dst] and the model returns the empty list. *)

Definition is_digit (c : Z) : bool := (48 <=? c) && (c <=? 57).

(** [*label = c], then the common tail of the fully-qualified and the
    end-of-string exits. *)
Definition pton_close (dstsiz : Z) (done cur : list Z) (ret : Z)
    : Z * list Z :=
  let c := Z.of_nat (length cur) in
  let label := Z.of_nat (length done) in
  let bp := label + 1 + c in
  if negb (Z.land c RIP_NS_CMPRSFLGS =? 0) then (-1, [])
  else if label >=? dstsiz then (-1, [])
  else if negb (c =? 0) then
    if bp >=? dstsiz then (-1, [])
    else if bp + 1 >? RIP_NS_MAXCDNAME then (-1, [])
    else (ret, done ++ u8 c :: cur ++ [0])
  else if bp >? RIP_NS_MAXCDNAME then (-1, [])
  else (ret, done ++ u8 c :: cur).

Fixpoint rip_ns_name_pton_loop (src : list Z) (dstsiz : Z) (escaped : bool)
    (done cur : list Z) : Z * list Z :=
  let bp := Z.of_nat (length done) + 1 + Z.of_nat (length cur) in
  let at_end := if escaped then (-1, []) else pton_close dstsiz done cur 0 in
  match src with
  | [] => at_end
  | c :: src' =>
    if c =? 0 then at_end
    else if escaped then
      if is_digit c then
        match src' with
        | [] => (-1, [])
        | c2 :: src2 =>
          if (c2 =? 0) || negb (is_digit c2) then (-1, [])
          else
            match src2 with
            | [] => (-1, [])
            | c3 :: src3 =>
              if (c3 =? 0) || negb (is_digit c3) then (-1, [])
              else
                let n := (c - 48) * 100 + (c2 - 48) * 10 + (c3 - 48) in
                if n >? 255 then (-1, [])
                else if bp >=? dstsiz then (-1, [])
                else rip_ns_name_pton_loop src3 dstsiz false done
                       (cur ++ [u8 n])
            end
        end
      else
        if bp >=? dstsiz then (-1, [])
        else rip_ns_name_pton_loop src' dstsiz false done (cur ++ [u8 c])
    else if c =? 92 then rip_ns_name_pton_loop src' dstsiz true done cur
    else if c =? 46 then
      let n := Z.of_nat (length cur) in
      if negb (Z.land n RIP_NS_CMPRSFLGS =? 0) then (-1, [])
      else if Z.of_nat (length done) >=? dstsiz then (-1, [])
      else
        let nxt := match src' with [] => 0 | x :: _ => x end in
        if nxt =? 0 then pton_close dstsiz done cur 1
        else if (n =? 0) || (nxt =? 46) then (-1, [])
        else rip_ns_name_pton_loop src' dstsiz false (done ++ u8 n :: cur) []
    else
      if bp >=? dstsiz then (-1, [])
      else rip_ns_name_pton_loop src' dstsiz false done (cur ++ [u8 c])
  end.

Definition rip_ns_name_pton (src : list Z) (dstsiz : Z) : Z * list Z :=
  rip_ns_name_pton_loop src dstsiz false [] [].

(** ** rip_rr_name_get: unpack, then render as a C string.

    [dst] and [query_label_len] are the caller's current values; they are
    returned unchanged on the paths that do not write them. *)
Definition rip_rr_name_get (msg : list Z) (eom src : Z) (dst : list Z)
    (dstsiz : Z) (query_label_len : Z) : option (Z * list Z * Z) :=
  '(ret_u, compressed_name) ← rip_ns_name_unpack msg eom src 256;
  if ret_u <? 0 then Some (ret_u, dst, query_label_len)
  else
    let '(ret_c, dst') := rip_ns_name_ntop compressed_name dstsiz in
    if ret_c <? 0 then Some (ret_c, dst', query_label_len)
    else Some (ret_u, dst', u16 ret_c).

(** ** rip_dn_find and rip_ns_name_pack

    The message being built is [buf]; [msg] is the offset of its first
    byte (dnptrs[0]) and every other pointer ([sp], [cp], [dstp], the
    entries of the dnptrs array) is an offset into [buf] as well.  [domain]
    is the name searched for, from its current label on.  The array of
    previously packed names is a [list (option Z)], [None] standing for
    NULL.  The loops that follow compression pointers run on fuel. *)

Inductive dn_match_t := DnFound | DnNext | DnIllegal.

Definition bytes_eqb (a b : list Z) : bool :=
  (length a =? length b)%nat && forallb (fun p => fst p =? snd p) (combine a b).

(** [while ((n = *cp++) != 0) { ... }] of rip_dn_find, for one start [sp].
    The C loop goes on for as long as [cp] finds compression pointers; it
    has no other way not to end, since every label it matches advances
    [dn] in [domain].  [dn_hops] follows the pointers met in a row and
    hands over to [next] once a label has matched and [domain] goes on.
    A pointer leads to one of 16384 offsets of the message and [dn] is not
    changed on the way, so pointers that have been followed 16385 times in
    a row have come back to an offset visited before, with the same
    state: running out of [hfuel] is the C loop not ending. *)
Definition hop_fuel : nat := Z.to_nat 16385.

Fixpoint dn_hops (next : Z -> Z -> option dn_match_t) (hfuel : nat)
    (buf : list Z) (msg : Z) (domain : list Z) (dn cp : Z)
    : option dn_match_t :=
  match hfuel with
  | O => None
  | S hfuel' =>
    let n := rd buf cp in
    let cp := cp + 1 in
    if n =? 0 then Some DnNext
    else
      let sw := Z.land n RIP_NS_CMPRSFLGS in
      if sw =? 0 then
        if negb (n =? rd domain dn) then Some DnNext
        else
          let dn := dn + 1 in
          if negb (bytes_eqb (rd_bytes domain dn n) (rd_bytes buf cp n))
          then Some DnNext
          else
            let dn := dn + n in
            let cp := cp + n in
            if (rd domain dn =? 0) && (rd buf cp =? 0) then Some DnFound
            else if negb (rd domain dn =? 0) then next dn cp
            else Some DnNext
      else if sw =? RIP_NS_CMPRSFLGS then
        dn_hops next hfuel' buf msg domain dn
          (msg + Z.lor (Z.shiftl (Z.land n 63) 8) (rd buf cp))
      else Some DnIllegal
  end.

(** [lfuel] counts the labels of [domain] that are left to match: a match
    moves [dn] past a label of at least two bytes and the loop goes on
    only while the byte at [dn] is not zero, so [S (length domain)] is
    never used up. *)
Fixpoint dn_match (lfuel : nat) (buf : list Z) (msg : Z) (domain : list Z)
    (dn cp : Z) : option dn_match_t :=
  match lfuel with
  | O => None
  | S lfuel' =>
    dn_hops (fun dn cp => dn_match lfuel' buf msg domain dn cp) hop_fuel
      buf msg domain dn cp
  end.

(** The while loop over the labels of one packed name starting at [sp]:
    [Some (Some r)] is [return r], [Some None] is falling out of the loop.
    Each pass moves [sp] past a label, by two bytes at least, and the loop
    stops at offset 0x4000 of the message. *)
Fixpoint dn_find_name (fuel : nat) (buf : list Z) (msg : Z) (domain : list Z)
    (sp : Z) : option (option Z) :=
  match fuel with
  | O => None
  | S fuel' =>
    if negb (rd buf sp =? 0) && (Z.land (rd buf sp) RIP_NS_CMPRSFLGS =? 0)
       && (sp - msg <? 16384)
    then
      m ← dn_match (S (length domain)) buf msg domain 0 sp;
      match m with
      | DnFound => Some (Some (sp - msg))
      | DnIllegal => Some (Some (-1))
      | DnNext => dn_find_name fuel' buf msg domain (sp + (rd buf sp + 1))
      end
    else Some None
  end.

(** The for loop over the entries [cpp < lastdnptr] of the array. *)
Fixpoint dn_find_entries (buf : list Z) (msg : Z) (domain : list Z)
    (entries : list (option Z)) : option Z :=
  match entries with
  | [] => Some (-1)
  | e :: rest =>
    match e with
    | None => None (* a NULL entry below the end of the list is never stored *)
    | Some sp =>
      r ← dn_find_name (S (Z.to_nat (16384 - (sp - msg)))) buf msg domain sp;
      match r with
      | Some v => Some v
      | None => dn_find_entries buf msg domain rest
      end
    end
  end.

(** [rip_dn_find (domain, msg, &arr[1], &arr[lpp])] *)
Definition rip_dn_find (buf : list Z) (msg : Z) (domain : list Z)
    (arr : list (option Z)) (lpp : nat) : option Z :=
  dn_find_entries buf msg domain (drop 1 (take lpp arr)).

(** First do-while of rip_ns_name_pack: is the name legal? *)
Fixpoint name_pack_legal (fuel : nat) (src : list Z) (srcp l : Z) : option bool :=
  match fuel with
  | O => None
  | S fuel' =>
    let n := rd src srcp in
    if n >=? 64 then Some false
    else
      let l := l + (n + 1) in
      if l >? RIP_NS_MAXCDNAME then Some false
      else if negb (n =? 0) then name_pack_legal fuel' src (srcp + (n + 1)) l
      else Some true
  end.

(** Index of the first NULL entry at or after index 1
    ([for (cpp = dnptrs; *cpp != NULL; cpp++)]). *)
Fixpoint first_null (arr : list (option Z)) (i : nat) : nat :=
  match arr with
  | [] => i
  | None :: _ => i
  | Some _ :: rest => first_null rest (S i)
  end.

(** Second do-while of rip_ns_name_pack.  [lastdnptr] is the index of the
    last array entry.  The result is the return value, the message and the
    array. *)
Fixpoint name_pack_loop (fuel : nat) (src : list Z) (buf : list Z)
    (dst eob : Z) (msg : option Z) (arr : list (option Z))
    (lpp lastdnptr : nat) (srcp dstp : Z) (cpp : nat) (first : bool)
    : option (Z * list Z * list (option Z)) :=
  let cleanup (arr : list (option Z)) :=
    Some (-1, buf, if msg is Some _ then <[lpp := None]> arr else arr) in
  match fuel with
  | O => None
  | S fuel' =>
    let n := rd src srcp in
    found ←
      match msg with
      | Some m =>
        if negb (n =? 0) then rip_dn_find buf m (drop (Z.to_nat srcp) src) arr lpp
        else Some (-1)
      | None => Some (-1)
      end;
    if found >=? 0 then
      if eob - dstp <=? 1 then cleanup arr
      else
        let buf := wr buf dstp (u8 (Z.lor (Z.shiftr found 8) RIP_NS_CMPRSFLGS)) in
        let buf := wr buf (dstp + 1) (u8 (found mod 256)) in
        Some (dstp + 2 - dst, buf, arr)
    else
      let save :=
        match msg with
        | Some m => negb (n =? 0) && (cpp <? lastdnptr - 1)%nat
                    && (dstp - m <? 16384) && first
        | None => false
        end in
      let arr := if save then <[S cpp := None]> (<[cpp := Some dstp]> arr)
                 else arr in
      let cpp := if save then S cpp else cpp in
      let first := if save then false else first in
      if n >=? 64 then cleanup arr
      else if n + 1 >? eob - dstp then cleanup arr
      else
        let buf := wr_bytes buf dstp (rd_bytes src srcp (n + 1)) in
        let srcp := srcp + (n + 1) in
        let dstp := dstp + (n + 1) in
        if negb (n =? 0) then
          name_pack_loop fuel' src buf dst eob msg arr lpp lastdnptr
            srcp dstp cpp first
        else if dstp >? eob
        then Some (-1, buf, if msg is Some _ then <[lpp := None]> arr else arr)
        else Some (dstp - dst, buf, arr)
  end.

(** A legal name has at most 255 bytes, so neither do-while loop of
    rip_ns_name_pack runs more than 256 times. *)
Definition name_fuel : nat := 257.

Definition rip_ns_name_pack (src : list Z) (buf : list Z) (dst dstsiz : Z)
    (arr : list (option Z)) (lastdnptr : nat)
    : option (Z * list Z * list (option Z)) :=
  let msg := default None (arr !! 0%nat) in
  let lpp := if msg is Some _ then first_null (drop 1 arr) 1 else 0%nat in
  legal ← name_pack_legal name_fuel src 0 0;
  if negb legal then Some (-1, buf, arr)
  else name_pack_loop name_fuel src buf dst (dst + dstsiz) msg arr lpp lastdnptr
         0 dst lpp true.

(** ** rip_ns_name_put: [src] is a C string. *)
Definition rip_ns_name_put (src : list Z) (buf : list Z) (dst dstsiz : Z)
    (arr : list (option Z)) (lastdnptr : nat)
    : option (Z * list Z * list (option Z)) :=
  let '(ret_c, compressed_name) :=
    rip_ns_name_pton src RIP_NS_CDNAME_COMP_BUF_LEN in
  if ret_c <? 0 then Some (ret_c, buf, arr)
  else rip_ns_name_pack compressed_name buf dst dstsiz arr lastdnptr.

End Wire.

(* ===================================================================== *)
(** * query.h, query.c: the query object *)
(* ===================================================================== *)

Module Query.
Import Wire.

Definition AF_INET  : Z := 2.
Definition AF_INET6 : Z := 10.
Definition DNS_RESPONSE_COMPRESSED_NAMES_MAX : Z := 64.

(** struct sockaddr_storage, as far as the parser fills it: the address
    family and the address bytes (4 for sockaddr_in, 16 for sockaddr_in6). *)
Record sockaddr_storage := {
  ss_family : Z;
  ss_addr : list Z;
}.

(** Pointers into the request are offsets from [request_hdr]. *)
Record edns_client_subnet_t := {
  edns_cs_raw_buf : Z;
  edns_cs_raw_buf_len : Z;
  edns_cs_valid : bool;
  family : Z;
  ip : sockaddr_storage;
  source_mask : Z;
  scope_mask : Z;
}.

Record edns_t := {
  edns_raw_buf : Z;
  edns_raw_buf_len : Z;
  edns_valid : bool;
  extended_rcode : Z;
  version : Z;
  udp_resp_len : Z;
  dnssec : bool;
  client_subnet : edns_client_subnet_t;
}.

(** rr_record.h.  [name] is a C string. *)
Record rr_record_t := {
  name : list Z;
  name_len : Z;
  type : Z;
  class : Z;
  ttl : Z;
  rdata_len : Z;
  rdata : list Z;
}.

(** [request_msg] is the request from [request_hdr] on (for TCP the two
    length bytes come before it and are not part of it).
    [response_buffer] is the whole response buffer and [response_hdr] the
    offset of the response header in it.  [query_label] holds the bytes
    stored by the last successful name rendering (a C string with its
    terminator).  [dnptrs] holds offsets into [response_buffer]. *)
Record query_t := {
  protocol : Z;
  request_msg : list Z;
  request_buffer_len : Z;
  query_label : list Z;
  query_label_size : Z;
  query_label_len : Z;
  query_q_type : Z;
  query_q_class : Z;
  edns : edns_t;
  response_buffer : list Z;
  response_buffer_size : Z;
  response_buffer_len : Z;
  response_hdr : Z;
  answer_section : list rr_record_t;
  answer_section_count : Z;
  authority_section : list rr_record_t;
  authority_section_count : Z;
  additional_section : list rr_record_t;
  additional_section_count : Z;
  end_code : Z;
  dnptrs : list (option Z);
}.

(** Field updates ([q->f = v]). *)
Definition set_cs_valid (v : bool) (cs : edns_client_subnet_t) :=
  {| edns_cs_raw_buf := edns_cs_raw_buf cs;
     edns_cs_raw_buf_len := edns_cs_raw_buf_len cs;
     edns_cs_valid := v; family := family cs; ip := ip cs;
     source_mask := source_mask cs; scope_mask := scope_mask cs |}.

Definition set_cs_ip (v : sockaddr_storage) (cs : edns_client_subnet_t) :=
  {| edns_cs_raw_buf := edns_cs_raw_buf cs;
     edns_cs_raw_buf_len := edns_cs_raw_buf_len cs;
     edns_cs_valid := edns_cs_valid cs; family := family cs; ip := v;
     source_mask := source_mask cs; scope_mask := scope_mask cs |}.

Definition set_cs_raw (p len : Z) (cs : edns_client_subnet_t) :=
  {| edns_cs_raw_buf := p; edns_cs_raw_buf_len := len;
     edns_cs_valid := edns_cs_valid cs; family := family cs; ip := ip cs;
     source_mask := source_mask cs; scope_mask := scope_mask cs |}.

Definition set_edns_raw_buf (v : Z) (e : edns_t) :=
  {| edns_raw_buf := v; edns_raw_buf_len := edns_raw_buf_len e;
     edns_valid := edns_valid e; extended_rcode := extended_rcode e;
     version := version e; udp_resp_len := udp_resp_len e;
     dnssec := dnssec e; client_subnet := client_subnet e |}.

Definition set_edns_raw_buf_len (v : Z) (e : edns_t) :=
  {| edns_raw_buf := edns_raw_buf e; edns_raw_buf_len := v;
     edns_valid := edns_valid e; extended_rcode := extended_rcode e;
     version := version e; udp_resp_len := udp_resp_len e;
     dnssec := dnssec e; client_subnet := client_subnet e |}.

Definition set_edns_valid (v : bool) (e : edns_t) :=
  {| edns_raw_buf := edns_raw_buf e; edns_raw_buf_len := edns_raw_buf_len e;
     edns_valid := v; extended_rcode := extended_rcode e;
     version := version e; udp_resp_len := udp_resp_len e;
     dnssec := dnssec e; client_subnet := client_subnet e |}.

Definition set_extended_rcode (v : Z) (e : edns_t) :=
  {| edns_raw_buf := edns_raw_buf e; edns_raw_buf_len := edns_raw_buf_len e;
     edns_valid := edns_valid e; extended_rcode := v;
     version := version e; udp_resp_len := udp_resp_len e;
     dnssec := dnssec e; client_subnet := client_subnet e |}.

Definition set_version (v : Z) (e : edns_t) :=
  {| edns_raw_buf := edns_raw_buf e; edns_raw_buf_len := edns_raw_buf_len e;
     edns_valid := edns_valid e; extended_rcode := extended_rcode e;
     version := v; udp_resp_len := udp_resp_len e;
     dnssec := dnssec e; client_subnet := client_subnet e |}.

Definition set_udp_resp_len (v : Z) (e : edns_t) :=
  {| edns_raw_buf := edns_raw_buf e; edns_raw_buf_len := edns_raw_buf_len e;
     edns_valid := edns_valid e; extended_rcode := extended_rcode e;
     version := version e; udp_resp_len := v;
     dnssec := dnssec e; client_subnet := client_subnet e |}.

Definition set_dnssec (v : bool) (e : edns_t) :=
  {| edns_raw_buf := edns_raw_buf e; edns_raw_buf_len := edns_raw_buf_len e;
     edns_valid := edns_valid e; extended_rcode := extended_rcode e;
     version := version e; udp_resp_len := udp_resp_len e;
     dnssec := v; client_subnet := client_subnet e |}.

Definition set_client_subnet (v : edns_client_subnet_t) (e : edns_t) :=
  {| edns_raw_buf := edns_raw_buf e; edns_raw_buf_len := edns_raw_buf_len e;
     edns_valid := edns_valid e; extended_rcode := extended_rcode e;
     version := version e; udp_resp_len := udp_resp_len e;
     dnssec := dnssec e; client_subnet := v |}.

Definition set_request_buffer_len (v : Z) (q : query_t) : query_t :=
  {| protocol := protocol q; request_msg := request_msg q;
     request_buffer_len := v; query_label := query_label q;
     query_label_size := query_label_size q;
     query_label_len := query_label_len q; query_q_type := query_q_type q;
     query_q_class := query_q_class q; edns := edns q;
     response_buffer := response_buffer q;
     response_buffer_size := response_buffer_size q;
     response_buffer_len := response_buffer_len q;
     response_hdr := response_hdr q; answer_section := answer_section q;
     answer_section_count := answer_section_count q;
     authority_section := authority_section q;
     authority_section_count := authority_section_count q;
     additional_section := additional_section q;
     additional_section_count := additional_section_count q;
     end_code := end_code q; dnptrs := dnptrs q |}.

Definition set_query_label (v : list Z) (q : query_t) : query_t :=
  {| protocol := protocol q; request_msg := request_msg q;
     request_buffer_len := request_buffer_len q; query_label := v;
     query_label_size := query_label_size q;
     query_label_len := query_label_len q; query_q_type := query_q_type q;
     query_q_class := query_q_class q; edns := edns q;
     response_buffer := response_buffer q;
     response_buffer_size := response_buffer_size q;
     response_buffer_len := response_buffer_len q;
     response_hdr := response_hdr q; answer_section := answer_section q;
     answer_section_count := answer_section_count q;
     authority_section := authority_section q;
     authority_section_count := authority_section_count q;
     additional_section := additional_section q;
     additional_section_count := additional_section_count q;
     end_code := end_code q; dnptrs := dnptrs q |}.

Definition set_query_label_len (v : Z) (q : query_t) : query_t :=
  {| protocol := protocol q; request_msg := request_msg q;
     request_buffer_len := request_buffer_len q;
     query_label := query_label q; query_label_size := query_label_size q;
     query_label_len := v; query_q_type := query_q_type q;
     query_q_class := query_q_class q; edns := edns q;
     response_buffer := response_buffer q;
     response_buffer_size := response_buffer_size q;
     response_buffer_len := response_buffer_len q;
     response_hdr := response_hdr q; answer_section := answer_section q;
     answer_section_count := answer_section_count q;
     authority_section := authority_section q;
     authority_section_count := authority_section_count q;
     additional_section := additional_section q;
     additional_section_count := additional_section_count q;
     end_code := end_code q; dnptrs := dnptrs q |}.

Definition set_query_q_type (v : Z) (q : query_t) : query_t :=
  {| protocol := protocol q; request_msg := request_msg q;
     request_buffer_len := request_buffer_len q;
     query_label := query_label q; query_label_size := query_label_size q;
     query_label_len := query_label_len q; query_q_type := v;
     query_q_class := query_q_class q; edns := edns q;
     response_buffer := response_buffer q;
     response_buffer_size := response_buffer_size q;
     response_buffer_len := response_buffer_len q;
     response_hdr := response_hdr q; answer_section := answer_section q;
     answer_section_count := answer_section_count q;
     authority_section := authority_section q;
     authority_section_count := authority_section_count q;
     additional_section := additional_section q;
     additional_section_count := additional_section_count q;
     end_code := end_code q; dnptrs := dnptrs q |}.

Definition set_query_q_class (v : Z) (q : query_t) : query_t :=
  {| protocol := protocol q; request_msg := request_msg q;
     request_buffer_len := request_buffer_len q;
     query_label := query_label q; query_label_size := query_label_size q;
     query_label_len := query_label_len q; query_q_type := query_q_type q;
     query_q_class := v; edns := edns q;
     response_buffer := response_buffer q;
     response_buffer_size := response_buffer_size q;
     response_buffer_len := response_buffer_len q;
     response_hdr := response_hdr q; answer_section := answer_section q;
     answer_section_count := answer_section_count q;
     authority_section := authority_section q;
     authority_section_count := authority_section_count q;
     additional_section := additional_section q;
     additional_section_count := additional_section_count q;
     end_code := end_code q; dnptrs := dnptrs q |}.

Definition set_edns (v : edns_t) (q : query_t) : query_t :=
  {| protocol := protocol q; request_msg := request_msg q;
     request_buffer_len := request_buffer_len q;
     query_label := query_label q; query_label_size := query_label_size q;
     query_label_len := query_label_len q; query_q_type := query_q_type q;
     query_q_class := query_q_class q; edns := v;
     response_buffer := response_buffer q;
     response_buffer_size := response_buffer_size q;
     response_buffer_len := response_buffer_len q;
     response_hdr := response_hdr q; answer_section := answer_section q;
     answer_section_count := answer_section_count q;
     authority_section := authority_section q;
     authority_section_count := authority_section_count q;
     additional_section := additional_section q;
     additional_section_count := additional_section_count q;
     end_code := end_code q; dnptrs := dnptrs q |}.

Definition set_response_buffer (v : list Z) (q : query_t) : query_t :=
  {| protocol := protocol q; request_msg := request_msg q;
     request_buffer_len := request_buffer_len q;
     query_label := query_label q; query_label_size := query_label_size q;
     query_label_len := query_label_len q; query_q_type := query_q_type q;
     query_q_class := query_q_class q; edns := edns q; response_buffer := v;
     response_buffer_size := response_buffer_size q;
     response_buffer_len := response_buffer_len q;
     response_hdr := response_hdr q; answer_section := answer_section q;
     answer_section_count := answer_section_count q;
     authority_section := authority_section q;
     authority_section_count := authority_section_count q;
     additional_section := additional_section q;
     additional_section_count := additional_section_count q;
     end_code := end_code q; dnptrs := dnptrs q |}.

Definition set_response_buffer_len (v : Z) (q : query_t) : query_t :=
  {| protocol := protocol q; request_msg := request_msg q;
     request_buffer_len := request_buffer_len q;
     query_label := query_label q; query_label_size := query_label_size q;
     query_label_len := query_label_len q; query_q_type := query_q_type q;
     query_q_class := query_q_class q; edns := edns q;
     response_buffer := response_buffer q;
     response_buffer_size := response_buffer_size q;
     response_buffer_len := v; response_hdr := response_hdr q;
     answer_section := answer_section q;
     answer_section_count := answer_section_count q;
     authority_section := authority_section q;
     authority_section_count := authority_section_count q;
     additional_section := additional_section q;
     additional_section_count := additional_section_count q;
     end_code := end_code q; dnptrs := dnptrs q |}.

Definition set_answer_section (v : list rr_record_t) (q : query_t) : query_t :=
  {| protocol := protocol q; request_msg := request_msg q;
     request_buffer_len := request_buffer_len q;
     query_label := query_label q; query_label_size := query_label_size q;
     query_label_len := query_label_len q; query_q_type := query_q_type q;
     query_q_class := query_q_class q; edns := edns q;
     response_buffer := response_buffer q;
     response_buffer_size := response_buffer_size q;
     response_buffer_len := response_buffer_len q;
     response_hdr := response_hdr q; answer_section := v;
     answer_section_count := answer_section_count q;
     authority_section := authority_section q;
     authority_section_count := authority_section_count q;
     additional_section := additional_section q;
     additional_section_count := additional_section_count q;
     end_code := end_code q; dnptrs := dnptrs q |}.

Definition set_answer_section_count (v : Z) (q : query_t) : query_t :=
  {| protocol := protocol q; request_msg := request_msg q;
     request_buffer_len := request_buffer_len q;
     query_label := query_label q; query_label_size := query_label_size q;
     query_label_len := query_label_len q; query_q_type := query_q_type q;
     query_q_class := query_q_class q; edns := edns q;
     response_buffer := response_buffer q;
     response_buffer_size := response_buffer_size q;
     response_buffer_len := response_buffer_len q;
     response_hdr := response_hdr q; answer_section := answer_section q;
     answer_section_count := v; authority_section := authority_section q;
     authority_section_count := authority_section_count q;
     additional_section := additional_section q;
     additional_section_count := additional_section_count q;
     end_code := end_code q; dnptrs := dnptrs q |}.

Definition set_authority_section (v : list rr_record_t) (q : query_t) : query_t :=
  {| protocol := protocol q; request_msg := request_msg q;
     request_buffer_len := request_buffer_len q;
     query_label := query_label q; query_label_size := query_label_size q;
     query_label_len := query_label_len q; query_q_type := query_q_type q;
     query_q_class := query_q_class q; edns := edns q;
     response_buffer := response_buffer q;
     response_buffer_size := response_buffer_size q;
     response_buffer_len := response_buffer_len q;
     response_hdr := response_hdr q; answer_section := answer_section q;
     answer_section_count := answer_section_count q; authority_section := v;
     authority_section_count := authority_section_count q;
     additional_section := additional_section q;
     additional_section_count := additional_section_count q;
     end_code := end_code q; dnptrs := dnptrs q |}.

Definition set_authority_section_count (v : Z) (q : query_t) : query_t :=
  {| protocol := protocol q; request_msg := request_msg q;
     request_buffer_len := request_buffer_len q;
     query_label := query_label q; query_label_size := query_label_size q;
     query_label_len := query_label_len q; query_q_type := query_q_type q;
     query_q_class := query_q_class q; edns := edns q;
     response_buffer := response_buffer q;
     response_buffer_size := response_buffer_size q;
     response_buffer_len := response_buffer_len q;
     response_hdr := response_hdr q; answer_section := answer_section q;
     answer_section_count := answer_section_count q;
     authority_section := authority_section q; authority_section_count := v;
     additional_section := additional_section q;
     additional_section_count := additional_section_count q;
     end_code := end_code q; dnptrs := dnptrs q |}.

Definition set_additional_section (v : list rr_record_t) (q : query_t) : query_t :=
  {| protocol := protocol q; request_msg := request_msg q;
     request_buffer_len := request_buffer_len q;
     query_label := query_label q; query_label_size := query_label_size q;
     query_label_len := query_label_len q; query_q_type := query_q_type q;
     query_q_class := query_q_class q; edns := edns q;
     response_buffer := response_buffer q;
     response_buffer_size := response_buffer_size q;
     response_buffer_len := response_buffer_len q;
     response_hdr := response_hdr q; answer_section := answer_section q;
     answer_section_count := answer_section_count q;
     authority_section := authority_section q;
     authority_section_count := authority_section_count q;
     additional_section := v;
     additional_section_count := additional_section_count q;
     end_code := end_code q; dnptrs := dnptrs q |}.

Definition set_additional_section_count (v : Z) (q : query_t) : query_t :=
  {| protocol := protocol q; request_msg := request_msg q;
     request_buffer_len := request_buffer_len q;
     query_label := query_label q; query_label_size := query_label_size q;
     query_label_len := query_label_len q; query_q_type := query_q_type q;
     query_q_class := query_q_class q; edns := edns q;
     response_buffer := response_buffer q;
     response_buffer_size := response_buffer_size q;
     response_buffer_len := response_buffer_len q;
     response_hdr := response_hdr q; answer_section := answer_section q;
     answer_section_count := answer_section_count q;
     authority_section := authority_section q;
     authority_section_count := authority_section_count q;
     additional_section := additional_section q;
     additional_section_count := v; end_code := end_code q;
     dnptrs := dnptrs q |}.

Definition set_end_code (v : Z) (q : query_t) : query_t :=
  {| protocol := protocol q; request_msg := request_msg q;
     request_buffer_len := request_buffer_len q;
     query_label := query_label q; query_label_size := query_label_size q;
     query_label_len := query_label_len q; query_q_type := query_q_type q;
     query_q_class := query_q_class q; edns := edns q;
     response_buffer := response_buffer q;
     response_buffer_size := response_buffer_size q;
     response_buffer_len := response_buffer_len q;
     response_hdr := response_hdr q; answer_section := answer_section q;
     answer_section_count := answer_section_count q;
     authority_section := authority_section q;
     authority_section_count := authority_section_count q;
     additional_section := additional_section q;
     additional_section_count := additional_section_count q; end_code := v;
     dnptrs := dnptrs q |}.

Definition set_dnptrs (v : list (option Z)) (q : query_t) : query_t :=
  {| protocol := protocol q; request_msg := request_msg q;
     request_buffer_len := request_buffer_len q;
     query_label := query_label q; query_label_size := query_label_size q;
     query_label_len := query_label_len q; query_q_type := query_q_type q;
     query_q_class := query_q_class q; edns := edns q;
     response_buffer := response_buffer q;
     response_buffer_size := response_buffer_size q;
     response_buffer_len := response_buffer_len q;
     response_hdr := response_hdr q; answer_section := answer_section q;
     answer_section_count := answer_section_count q;
     authority_section := authority_section q;
     authority_section_count := authority_section_count q;
     additional_section := additional_section q;
     additional_section_count := additional_section_count q;
     end_code := end_code q; dnptrs := v |}.

End Query.

(* ===================================================================== *)
(** * rip_ns_header_t: the bit fields of the 12-byte DNS header *)
(* ===================================================================== *)

Module Header.
Import Wire.

(** Both layouts of the C struct place the fields where the wire format has
    them: byte 2 is [qr:1 opcode:4 aa:1 tc:1 rd:1] and byte 3 is
    [ra:1 unused:1 ad:1 cd:1 rcode:4], most significant bit first. *)
Definition get_bits (buf : list Z) (p lo width : Z) : Z :=
  Z.land (Z.shiftr (rd buf p) lo) (Z.ones width).

Definition set_bits (buf : list Z) (p lo width v : Z) : list Z :=
  let mask := Z.shiftl (Z.ones width) lo in
  wr buf p (Z.lor (Z.land (rd buf p) (255 - mask))
                  (Z.shiftl (Z.land v (Z.ones width)) lo)).

Definition hdr_rd     (m : list Z) (h : Z) : Z := get_bits m (h + 2) 0 1.
Definition hdr_tc     (m : list Z) (h : Z) : Z := get_bits m (h + 2) 1 1.
Definition hdr_aa     (m : list Z) (h : Z) : Z := get_bits m (h + 2) 2 1.
Definition hdr_opcode (m : list Z) (h : Z) : Z := get_bits m (h + 2) 3 4.
Definition hdr_qr     (m : list Z) (h : Z) : Z := get_bits m (h + 2) 7 1.
Definition hdr_rcode  (m : list Z) (h : Z) : Z := get_bits m (h + 3) 0 4.

(** [ntohs(hdr->qdcount)] and friends. *)
Definition hdr_qdcount (m : list Z) (h : Z) : Z := RIP_NS_GET16 m (h + 4).
Definition hdr_ancount (m : list Z) (h : Z) : Z := RIP_NS_GET16 m (h + 6).
Definition hdr_nscount (m : list Z) (h : Z) : Z := RIP_NS_GET16 m (h + 8).
Definition hdr_arcount (m : list Z) (h : Z) : Z := RIP_NS_GET16 m (h + 10).

Definition set_hdr_rd     (v : Z) (m : list Z) (h : Z) := set_bits m (h + 2) 0 1 v.
Definition set_hdr_tc     (v : Z) (m : list Z) (h : Z) := set_bits m (h + 2) 1 1 v.
Definition set_hdr_aa     (v : Z) (m : list Z) (h : Z) := set_bits m (h + 2) 2 1 v.
Definition set_hdr_opcode (v : Z) (m : list Z) (h : Z) := set_bits m (h + 2) 3 4 v.
Definition set_hdr_qr     (v : Z) (m : list Z) (h : Z) := set_bits m (h + 2) 7 1 v.
Definition set_hdr_rcode  (v : Z) (m : list Z) (h : Z) := set_bits m (h + 3) 0 4 v.

(** [hdr->ancount = htons(v)] and friends: [v] is converted to uint16_t. *)
Definition set_hdr_ancount (v : Z) (m : list Z) (h : Z) := RIP_NS_PUT16 v m (h + 6).
Definition set_hdr_nscount (v : Z) (m : list Z) (h : Z) := RIP_NS_PUT16 v m (h + 8).
Definition set_hdr_arcount (v : Z) (m : list Z) (h : Z) := RIP_NS_PUT16 v m (h + 10).

End Header.

(* ===================================================================== *)
(** * query_parse.c *)
(* ===================================================================== *)

Module QueryParse.
Import Wire Header Query.

(** [memcpy] of [n] request bytes into an address of [size] zeroed bytes. *)
Definition addr_copy (mem : list Z) (p n size : Z) : list Z :=
  take (Z.to_nat size)
       (rd_bytes mem p n ++ repeat 0 (Z.to_nat (size - n))).

(** query_parse_edns_ext_cs after the family branches: the address length
    and trailing-bit checks.  [buf] points at the address bytes. *)
Definition cs_check_address (mem : list Z) (buf bytes_to_copy : Z)
    (family source_mask scope_mask : Z) (cs : edns_client_subnet_t)
    : Z * edns_client_subnet_t :=
  let r := u8 (source_mask mod 8) in
  let addr_len := u8 (source_mask / 8) in
  let addr_len := if r >? 0 then u8 (addr_len + 1) else addr_len in
  let comp := if r >? 0 then rd mem (buf + addr_len - 1) else 0 in
  if negb (addr_len =? bytes_to_copy) then (-5, cs)
  else
    let shift := u8 (Z.shiftl 255 (8 - r)) in
    if (comp >? 0) && negb (Z.land shift comp =? comp) then (-6, cs)
    else
      (0, {| edns_cs_raw_buf := edns_cs_raw_buf cs;
             edns_cs_raw_buf_len := edns_cs_raw_buf_len cs;
             edns_cs_valid := true;
             family := family;
             ip := ip cs;
             source_mask := source_mask;
             scope_mask := scope_mask |}).

(** query_parse_edns_ext_cs.  [mem] is the request the raw-buffer pointer
    of [cs] points into. *)
Definition query_parse_edns_ext_cs (mem : list Z) (cs : edns_client_subnet_t)
    : Z * edns_client_subnet_t :=
  let buf := edns_cs_raw_buf cs in
  let buf_len := edns_cs_raw_buf_len cs in
  let cs := set_cs_valid false cs in
  if buf_len <? 4 then (-1, cs)
  else
    let family := RIP_NS_GET16 mem buf in
    let source_mask := rd mem (buf + 2) in
    let scope_mask := rd mem (buf + 3) in
    let buf := buf + 4 in
    (* uint8_t bytes_to_copy = buf_len - 4; *)
    let bytes_to_copy := u8 (buf_len - 4) in
    if family =? 1 then
      if (source_mask >? 32) || negb (scope_mask =? 0)
         || (bytes_to_copy >? RIP_NS_INADDRSZ)
      then (-2, cs)
      else cs_check_address mem buf bytes_to_copy family source_mask scope_mask
             (set_cs_ip {| ss_family := AF_INET;
                           ss_addr := addr_copy mem buf bytes_to_copy 4 |} cs)
    else if family =? 2 then
      if (source_mask >? 128) || negb (scope_mask =? 0)
         || (bytes_to_copy >? RIP_NS_IN6ADDRSZ)
      then (-3, cs)
      else cs_check_address mem buf bytes_to_copy family source_mask scope_mask
             (set_cs_ip {| ss_family := AF_INET6;
                           ss_addr := addr_copy mem buf bytes_to_copy 16 |} cs)
    else (-4, cs).

(** query_parse_edns_ext.  The while loop runs on [fuel]. *)
Fixpoint query_parse_edns_ext_loop (fuel : nat) (q : query_t) (buf eobuf : Z)
    : option (Z * query_t) :=
  match fuel with
  | O => None
  | S fuel' =>
    if buf <? eobuf then
      if buf + 3 >? eobuf then Some (-1, q)
      else
        let opt_code := RIP_NS_GET16 (request_msg q) buf in
        let opt_len := RIP_NS_GET16 (request_msg q) (buf + 2) in
        let buf := buf + 4 in
        if buf + opt_len - 1 >? eobuf then Some (-1, q)
        else if opt_code =? rip_ns_ext_opt_c_cs then
          let cs := set_cs_raw buf opt_len (client_subnet (edns q)) in
          let '(r, cs') := query_parse_edns_ext_cs (request_msg q) cs in
          let q' := set_edns (set_client_subnet cs' (edns q)) q in
          if negb (r =? 0) then Some (-1, q')
          else query_parse_edns_ext_loop fuel' q' (buf + opt_len) eobuf
        else query_parse_edns_ext_loop fuel' q (buf + opt_len) eobuf
    else Some (0, q)
  end.

Definition query_parse_edns_ext (q : query_t) (buf eobuf : Z)
    : option (Z * query_t) :=
  query_parse_edns_ext_loop (Z.to_nat (eobuf - buf) + 1) q buf eobuf.

Definition formerr (q : query_t) : option (Z * query_t) :=
  Some (-1, set_end_code rip_ns_r_formerr q).

(** The body taken when the OPT record is found. [ptr] points at TYPE. *)
Definition parse_opt_rr (q : query_t) (eom ptr unpack : Z)
    : option (Z * query_t * Z) :=
  let msg := request_msg q in
  let q := set_edns (set_edns_raw_buf (ptr - unpack) (edns q)) q in
  let ptr := ptr + 2 in
  let len := RIP_NS_GET16 msg ptr in
  let ptr := ptr + 2 in
  let len := if len <? RIP_NS_PACKETSZ then RIP_NS_PACKETSZ
             else if len >? RIP_NS_UDP_MAXMSG then RIP_NS_UDP_MAXMSG
             else len in
  let q := set_edns (set_udp_resp_len len (edns q)) q in
  (* q->edns.version = *ptr; *)
  let q := set_edns (set_version (rd msg ptr) (edns q)) q in
  if negb (version (edns q) =? 0) then
    let q := set_edns (set_udp_resp_len 512 (edns q)) q in
    Some (-1, set_end_code rip_ns_r_badvers q, ptr)
  else
    let ptr := ptr + 2 in
    let q := if Z.land (rd msg ptr) 128 =? 128
             then set_edns (set_dnssec true (edns q)) q else q in
    let ptr := ptr + 2 in
    let rdata_len := RIP_NS_GET16 msg ptr in
    let ptr := ptr + 2 in
    let finish (q : query_t) :=
      let q := set_edns (set_edns_raw_buf_len
                           (u16 (unpack + RIP_NS_RRFIXEDSZ + rdata_len))
                           (edns q)) q in
      Some (0, set_edns (set_edns_valid true (edns q)) q, ptr) in
    if rdata_len >? 0 then
      if (ptr >=? eom) || (ptr + rdata_len - 1 >? eom)
      then Some (-1, set_end_code rip_ns_r_formerr q, ptr)
      else
        '(r, q) ← query_parse_edns_ext q ptr (ptr + rdata_len - 1);
        if negb (r =? 0) then Some (-1, set_end_code rip_ns_r_formerr q, ptr)
        else finish q
    else finish q.

(** The while loop of query_parse_request_rr_additional_edns.  The result
    is the return value and the query; [start] is the initial [ptr]. *)
Fixpoint additional_loop (fuel : nat) (q : query_t) (eom start ptr : Z)
    (rr_count : Z) : option (Z * query_t) :=
  let msg := request_msg q in
  (* after the loop *)
  let after (q : query_t) (ptr rr_count : Z) :=
    if negb (rr_count =? hdr_ancount msg 0) then formerr q
    else Some (ptr - start, q) in
  match fuel with
  | O => None
  | S fuel' =>
    if ptr <? eom then
      '(unpack, adr_name) ← rip_ns_name_unpack msg eom ptr 256;
      if unpack <? 1 then formerr q
      else
        let ptr := ptr + unpack in
        if (ptr >=? eom) || (ptr + RIP_NS_RRFIXEDSZ - 1 >? eom) then formerr q
        else if (unpack =? 1) && (rd adr_name 0 =? 0)
                && (RIP_NS_GET16 msg ptr =? rip_ns_t_opt)
        then
          '(r, q, ptr) ← parse_opt_rr q eom ptr unpack;
          if r <? 0 then Some (-1, q)
          else after q ptr rr_count (* break *)
        else
          (* Not EDNS, skip RR. *)
          let ptr := ptr + (unpack + 8) in
          if ptr + 1 >? eom then formerr q
          else
            let rdata_len := RIP_NS_GET16 msg ptr in
            let ptr := ptr + 2 in
            let ptr := ptr + rdata_len in
            additional_loop fuel' q eom start ptr (rr_count + 1)
    else after q ptr rr_count
  end.

(** [eom] is [q->request_hdr + q->request_buffer_len - 1] cast to a byte
    pointer: the sum is taken on a pointer to rip_ns_header_t, so it
    advances by
    sizeof(rip_ns_header_t) = 12 bytes for each unit, and [eom] is the
    offset 12 * (request_buffer_len - 1), not the last byte of the request
    as in query_parse and query_parse_request_rr_question. *)
Definition query_parse_request_rr_additional_edns (q : query_t) (ptr : Z)
    : option (Z * query_t) :=
  let eom := HFIXEDSZ * (request_buffer_len q - 1) in
  if ptr + RIP_NS_RRFIXEDSZ >? eom then formerr q
  else additional_loop (Z.to_nat (eom - ptr) + 1) q eom ptr ptr 0.

Definition query_parse_request_rr_question (q : query_t)
    : option (Z * query_t) :=
  let msg := request_msg q in
  let eom := request_buffer_len q - 1 in
  '(unpack, label, label_len) ←
     rip_rr_name_get msg eom HFIXEDSZ (query_label q) (query_label_size q)
       (query_label_len q);
  let q := set_query_label_len label_len (set_query_label label q) in
  if unpack <? 1 then formerr q
  else
    let ptr := HFIXEDSZ + unpack in
    if ptr + 3 >? eom then formerr q
    else
      let q := set_query_q_type (RIP_NS_GET16 msg ptr) q in
      if negb (rip_ns_rr_type_supported (query_q_type q))
      then Some (-1, set_end_code rip_ns_r_notimpl q)
      else
        let q := set_query_q_class (RIP_NS_GET16 msg (ptr + 2)) q in
        if negb (rip_ns_rr_class_supported (query_q_class q))
        then Some (-1, set_end_code rip_ns_r_notimpl q)
        else Some (unpack + 4, q).

Definition query_parse (q : query_t) : option query_t :=
  let msg := request_msg q in
  let q := set_end_code (-1) q in
  if request_buffer_len q <? HFIXEDSZ
  then Some (set_end_code rip_ns_r_rip_shortheader q)
  else if negb (hdr_tc msg 0 =? 0)
  then Some (set_end_code rip_ns_r_rip_query_tc q)
  else if negb (hdr_opcode msg 0 =? rip_ns_o_query)
  then Some (set_end_code rip_ns_r_notimpl q)
  else if negb (hdr_qr msg 0 =? 0)
  then Some (set_end_code rip_ns_r_formerr q)
  else if negb (hdr_qdcount msg 0 =? 1)
  then (if hdr_qdcount msg 0 =? 0
        then Some (set_end_code rip_ns_r_formerr q)
        else Some (set_end_code rip_ns_r_notimpl q))
  else if negb (hdr_ancount msg 0 =? 0) || negb (hdr_nscount msg 0 =? 0)
  then Some (set_end_code rip_ns_r_formerr q)
  else
    let q := set_dnptrs (<[0%nat := Some (response_hdr q)]> (dnptrs q)) q in
    '(unpack, q) ← query_parse_request_rr_question q;
    if unpack <? 0 then Some q
    else
      let ptr := HFIXEDSZ + unpack in
      if hdr_arcount msg 0 >? 0 then
        '(_, q) ← query_parse_request_rr_additional_edns q ptr;
        Some q
      else Some q.

End QueryParse.

(* ===================================================================== *)
(** * query.c: query_init and query_reset *)
(* ===================================================================== *)

Module QueryInit.
Import Wire Query.

Definition edns_cs_zero : edns_client_subnet_t :=
  {| edns_cs_raw_buf := 0; edns_cs_raw_buf_len := 0; edns_cs_valid := false;
     family := 0; ip := {| ss_family := 0; ss_addr := [] |};
     source_mask := 0; scope_mask := 0 |}.

Definition edns_zero : edns_t :=
  {| edns_raw_buf := 0; edns_raw_buf_len := 0; edns_valid := false;
     extended_rcode := 0; version := 0; udp_resp_len := 0; dnssec := false;
     client_subnet := edns_cs_zero |}.

Definition dnptrs_init (response_hdr : Z) : list (option Z) :=
  Some response_hdr
  :: repeat None (Z.to_nat (DNS_RESPONSE_COMPRESSED_NAMES_MAX - 1)).

(** query_init.  [tcp_writebuff_size] is the configuration value; malloc'ed
    buffers are modelled as zero-filled. *)
Definition query_init (tcp_writebuff_size : Z) (protocol : Z) : query_t :=
  let size := if protocol =? 0 then RIP_NS_UDP_MAXMSG else tcp_writebuff_size in
  let hdr := if protocol =? 0 then 0 else 2 in
  {| protocol := if protocol =? 0 then 0 else 1;
     request_msg := [];
     request_buffer_len := 0;
     query_label := [];
     query_label_size := RIP_NS_MAXCDNAME + 1;
     query_label_len := 0;
     query_q_type := 0;
     query_q_class := 0;
     edns := edns_zero;
     response_buffer := repeat 0 (Z.to_nat size);
     response_buffer_size := size;
     response_buffer_len := 0;
     response_hdr := hdr;
     answer_section := [];
     answer_section_count := 0;
     authority_section := [];
     authority_section_count := 0;
     additional_section := [];
     additional_section_count := 0;
     end_code := -1;
     dnptrs := dnptrs_init hdr |}.

Definition query_reset (q : query_t) : query_t :=
  let e := edns q in
  let cs := client_subnet e in
  let cs := set_cs_valid false (set_cs_raw (edns_cs_raw_buf cs) 0 cs) in
  let e := set_client_subnet cs (set_edns_valid false (set_edns_raw_buf_len 0 e)) in
  {| protocol := protocol q;
     request_msg := request_msg q;
     request_buffer_len := 0;
     query_label := query_label q;
     query_label_size := query_label_size q;
     query_label_len := 0;
     query_q_type := rip_ns_t_invalid;
     query_q_class := rip_ns_c_invalid;
     edns := e;
     response_buffer := response_buffer q;
     response_buffer_size := response_buffer_size q;
     response_buffer_len := 0;
     response_hdr := response_hdr q;
     answer_section := answer_section q;
     answer_section_count := 0;
     authority_section := authority_section q;
     authority_section_count := 0;
     additional_section := additional_section q;
     additional_section_count := 0;
     end_code := rip_ns_r_rip_unknown;
     dnptrs := dnptrs_init (response_hdr q) |}.

(** A request [msg] of [len] bytes placed in a query (what the read stages
    do before the parse stage runs). *)
Definition with_request (msg : list Z) (len : Z) (q : query_t) : query_t :=
  set_request_buffer_len len
    {| protocol := protocol q; request_msg := msg;
       request_buffer_len := request_buffer_len q;
       query_label := query_label q; query_label_size := query_label_size q;
       query_label_len := query_label_len q; query_q_type := query_q_type q;
       query_q_class := query_q_class q; edns := edns q;
       response_buffer := response_buffer q;
       response_buffer_size := response_buffer_size q;
       response_buffer_len := response_buffer_len q;
       response_hdr := response_hdr q; answer_section := answer_section q;
       answer_section_count := answer_section_count q;
       authority_section := authority_section q;
       authority_section_count := authority_section_count q;
       additional_section := additional_section q;
       additional_section_count := additional_section_count q;
       end_code := end_code q; dnptrs := dnptrs q |}.

End QueryInit.

(* ===================================================================== *)
(** * query_resolve.c: the reference resolver *)
(* ===================================================================== *)

Module QueryResolve.
Import Wire Query.

(** "ns.example.com" *)
Definition ns_name : list Z :=
  [110; 115; 46; 101; 120; 97; 109; 112; 108; 101; 46; 99; 111; 109].

(** The four static records.  [label] and [label_len] are the contents of
    the query label buffer the static A and NS records were bound to when
    they were first initialised. *)
Definition example_com_rr_A (label : list Z) (label_len : Z) : rr_record_t :=
  {| name := label; name_len := label_len; type := rip_ns_t_a;
     class := rip_ns_c_in; ttl := 60; rdata_len := 4;
     rdata := [127; 0; 0; 1] |}.

Definition example_com_rr_NS (label : list Z) (label_len : Z) : rr_record_t :=
  {| name := label; name_len := label_len; type := rip_ns_t_ns;
     class := rip_ns_c_in; ttl := 60; rdata_len := 16;
     rdata := snd (rip_ns_name_pton ns_name 16) |}.

Definition example_com_rr_NS_A : rr_record_t :=
  {| name := ns_name; name_len := 14; type := rip_ns_t_a;
     class := rip_ns_c_in; ttl := 60; rdata_len := 4;
     rdata := [127; 0; 0; 1] |}.

Definition example_com_rr_NS_AAAA : rr_record_t :=
  {| name := ns_name; name_len := 14; type := rip_ns_t_aaaa;
     class := rip_ns_c_in; ttl := 60; rdata_len := 16;
     rdata := [0; 0; 0; 0; 0; 0; 0; 0; 0; 0; 0; 0; 0; 0; 0; 1] |}.

(** [arr[count] = rr; count += 1] on a uint8_t count. *)
Definition section_add (arr : list rr_record_t) (count : Z) (rr : rr_record_t)
    : list rr_record_t * Z :=
  (take (Z.to_nat count) arr ++ [rr], u8 (count + 1)).

Definition query_resolve (label : list Z) (label_len : Z) (q : query_t)
    : query_t :=
  let q := set_end_code rip_ns_r_noerror q in
  let '(an, anc) := section_add (answer_section q) (answer_section_count q)
                      (example_com_rr_A label label_len) in
  let q := set_answer_section_count anc (set_answer_section an q) in
  let '(ns, nsc) := section_add (authority_section q)
                      (authority_section_count q)
                      (example_com_rr_NS label label_len) in
  let q := set_authority_section_count nsc (set_authority_section ns q) in
  let '(ad, adc) := section_add (additional_section q)
                      (additional_section_count q) example_com_rr_NS_A in
  let '(ad, adc) := section_add ad adc example_com_rr_NS_AAAA in
  set_additional_section_count adc (set_additional_section ad q).

End QueryResolve.

(* ===================================================================== *)
(** * query_pack.c *)
(* ===================================================================== *)

Module QueryPack.
Import Wire Header Query.

(** query_pack_edns.  [buf] is the response buffer, [p] the offset to pack
    at.  The result is the return value and the buffer. *)
Definition query_pack_edns (buf : list Z) (p : Z) (buf_len : Z) (e : edns_t)
    : Z * list Z :=
  if negb (edns_valid e) then (0, buf)
  else
    let cs := client_subnet e in
    let opts_len := u16 (1 + RIP_NS_RRFIXEDSZ) in
    let cs_ip_len :=
      if edns_cs_valid cs then
        let l := u8 (source_mask cs / 8) in
        if u8 (source_mask cs mod 8) >? 0 then u8 (l + 1) else l
      else 0 in
    let cs_opt_len := if edns_cs_valid cs then u8 (4 + cs_ip_len) else 0 in
    let opts_len := if edns_cs_valid cs then u16 (opts_len + (4 + cs_opt_len))
                    else opts_len in
    if buf_len <? opts_len then (-1, buf)
    else
      let buf := wr buf p 0 in
      let buf := RIP_NS_PUT16 rip_ns_t_opt buf (p + 1) in
      let buf := RIP_NS_PUT16 (udp_resp_len e) buf (p + 3) in
      let buf := wr buf (p + 5) (u8 (extended_rcode e)) in
      let buf := wr buf (p + 6) 0 in
      let buf := wr buf (p + 7) (u8 (Z.shiftl (if dnssec e then 1 else 0) 7)) in
      let buf := wr buf (p + 8) 0 in
      let buf := RIP_NS_PUT16 (opts_len - 1 - RIP_NS_RRFIXEDSZ) buf (p + 9) in
      let buf :=
        if edns_cs_valid cs then
          let buf := RIP_NS_PUT16 rip_ns_ext_opt_c_cs buf (p + 11) in
          let buf := RIP_NS_PUT16 cs_opt_len buf (p + 13) in
          let buf := RIP_NS_PUT16 (family cs) buf (p + 15) in
          let buf := wr buf (p + 17) (u8 (source_mask cs)) in
          let buf := wr buf (p + 18) (u8 (scope_mask cs)) in
          wr_bytes buf (p + 19) (rd_bytes (ss_addr (ip cs)) 0 cs_ip_len)
        else buf in
      (opts_len, buf).

(** query_pack_rr with [name == NULL] (the only way it is called).
    [buf_len] is the uint16_t argument. *)
Definition query_pack_rr (rr : rr_record_t) (buf : list Z) (p : Z)
    (buf_len : Z) (arr : list (option Z))
    : option (Z * list Z * list (option Z)) :=
  '(packed_name_len, buf, arr) ←
     rip_ns_name_put (name rr) buf p buf_len arr
       (Z.to_nat (DNS_RESPONSE_COMPRESSED_NAMES_MAX - 1));
  if packed_name_len <? 0 then Some (-3, buf, arr)
  else
    let p := p + packed_name_len in
    let packed_len := packed_name_len + RIP_NS_RRFIXEDSZ + rdata_len rr in
    if packed_len >? buf_len then Some (-3, buf, arr)
    else
      let buf := RIP_NS_PUT16 (type rr) buf p in
      let buf := RIP_NS_PUT16 (class rr) buf (p + 2) in
      let buf := RIP_NS_PUT32 (ttl rr) buf (p + 4) in
      let buf := RIP_NS_PUT16 (rdata_len rr) buf (p + 8) in
      let buf := wr_bytes buf (p + 10) (rd_bytes (rdata rr) 0 (rdata_len rr)) in
      Some (packed_len, buf, arr).

(** State threaded through the section loops of query_response_pack:
    the response buffer, the dnptrs array and [rrs_packed_len].  The C
    variable [buf] always equals [response_hdr + rrs_packed_len]. *)
Record pack_st := {
  ps_buf : list Z;
  ps_dnptrs : list (option Z);
  ps_len : Z;
}.

(** One section loop.  [inl st] is the state after the loop ran to its end;
    [inr (st, i)] is the state at the [goto END] taken when record [i] of
    the section did not fit (the TC bit already set). *)
Fixpoint pack_section (rrs : list rr_record_t) (i : Z) (size hdr : Z)
    (st : pack_st) : option (pack_st + pack_st * Z) :=
  match rrs with
  | [] => Some (inl st)
  | rr :: rest =>
    '(pack_len, buf, arr) ←
       query_pack_rr rr (ps_buf st) (hdr + ps_len st)
         (u16 (size - ps_len st)) (ps_dnptrs st);
    if pack_len <? 0 then
      Some (inr ({| ps_buf := set_hdr_tc 1 buf hdr; ps_dnptrs := arr;
                    ps_len := ps_len st |}, i))
    else
      pack_section rest (i + 1) size hdr
        {| ps_buf := buf; ps_dnptrs := arr; ps_len := ps_len st + pack_len |}
  end.

(** Where the packing of the sections ended. *)
Inductive pack_exit :=
| ExitAnswer (i : Z)       (* goto END from the answer loop, at record i *)
| ExitAuthority (i : Z)    (* goto END from the authority loop *)
| ExitAdditional (i : Z)   (* goto END from the additional loop *)
| ExitEdns                 (* goto END after query_pack_edns failed *)
| ExitDone.                (* fell through to END *)

(** The start of query_response_pack: the response header is zeroed and
    its fields are set; the result is the response buffer. *)
Definition pack_header (q : query_t) : list Z :=
  let hdr := response_hdr q in
  let buf := wr_bytes (response_buffer q) hdr (repeat 0 (Z.to_nat HFIXEDSZ)) in
  let buf := wr_bytes buf hdr (rd_bytes (request_msg q) 0 2) in
  let buf := set_hdr_rd (hdr_rd (request_msg q) 0) buf hdr in
  let buf := set_hdr_tc 0 buf hdr in
  let buf := set_hdr_aa 1 buf hdr in
  let buf := set_hdr_opcode rip_ns_o_query buf hdr in
  let buf := set_hdr_qr 1 buf hdr in
  let buf := set_hdr_rcode 0 buf hdr in
  let buf := set_hdr_ancount 0 buf hdr in
  let buf := set_hdr_nscount 0 buf hdr in
  let buf := set_hdr_arcount 0 buf hdr in
  if end_code q <? 16 then set_hdr_rcode (end_code q) buf hdr else buf.

(** [q->edns.extended_rcode = (q->end_code >> 4)] when end_code >= 16. *)
Definition pack_extended_rcode (q : query_t) : query_t :=
  if end_code q <? 16 then q
  else set_edns (set_extended_rcode (u8 (Z.shiftr (end_code q) 4)) (edns q)) q.

(** What END stores back into the query. *)
Definition pack_fin (ret : Z) (st : pack_st) (q : query_t) (e : pack_exit)
    : option (Z * query_t * Z * pack_exit) :=
  Some (ret, set_dnptrs (ps_dnptrs st) (set_response_buffer (ps_buf st) q),
        ps_len st, e).

(** [hdr->ancount = htons(count)] (and nscount) on the state. *)
Definition st_set_ancount (count hdr : Z) (st : pack_st) : pack_st :=
  {| ps_buf := set_hdr_ancount count (ps_buf st) hdr;
     ps_dnptrs := ps_dnptrs st; ps_len := ps_len st |}.

Definition st_set_nscount (count hdr : Z) (st : pack_st) : pack_st :=
  {| ps_buf := set_hdr_nscount count (ps_buf st) hdr;
     ps_dnptrs := ps_dnptrs st; ps_len := ps_len st |}.

(** The first [count] entries of a section array. *)
Definition sect (s : list rr_record_t) (count : Z) : list rr_record_t :=
  take (Z.to_nat count) s.

(** The end of the packing: query_pack_edns and its outcome. *)
Definition pack_edns_step (q : query_t) (size hdr : Z) (st : pack_st)
    : option (Z * query_t * Z * pack_exit) :=
  let '(pack_len, buf) :=
    query_pack_edns (ps_buf st) (hdr + ps_len st)
      (u16 (size - ps_len st)) (edns q) in
  if pack_len <? 0 then
    pack_fin (-1) {| ps_buf := set_hdr_tc 1 buf hdr;
                     ps_dnptrs := ps_dnptrs st; ps_len := ps_len st |}
      q ExitEdns
  else
    let q := if pack_len >? 0
             then set_additional_section_count
                    (u8 (additional_section_count q + 1)) q
             else q in
    pack_fin 0 {| ps_buf := buf; ps_dnptrs := ps_dnptrs st;
                  ps_len := ps_len st + pack_len |} q ExitDone.

(** query_response_pack up to the label END: the header and the sections.
    The result is [ret], the query, [rrs_packed_len] and the exit taken. *)
Definition pack_sections (q : query_t)
    : option (Z * query_t * Z * pack_exit) :=
  let hdr := response_hdr q in
  let size := response_buffer_size q in
  let buf := pack_header q in
  let q := pack_extended_rcode q in
  let st := {| ps_buf := buf; ps_dnptrs := dnptrs q; ps_len := HFIXEDSZ |} in
  (* Pack answer section *)
  let st := st_set_ancount (answer_section_count q) hdr st in
  r ← pack_section (sect (answer_section q) (answer_section_count q)) 0
        size hdr st;
  match r with
  | inr (st, i) => pack_fin (-1) st q (ExitAnswer i)
  | inl st =>
    (* Pack authority section *)
    let st := st_set_nscount (authority_section_count q) hdr st in
    r ← pack_section (sect (authority_section q) (authority_section_count q))
          0 size hdr st;
    match r with
    | inr (st, i) => pack_fin (-1) st q (ExitAuthority i)
    | inl st =>
      (* Pack additional section *)
      r ← pack_section
            (sect (additional_section q) (additional_section_count q))
            0 size hdr st;
      match r with
      | inr (st, i) => pack_fin (-1) st q (ExitAdditional i)
      | inl st => pack_edns_step q size hdr st
      end
    end
  end.

(** query_response_pack: the part after END. *)
Definition query_response_pack_exit (q : query_t)
    : option (Z * query_t * pack_exit) :=
  '(ret, q, rrs_packed_len, e) ← pack_sections q;
  let hdr := response_hdr q in
  let q := set_response_buffer
             (set_hdr_arcount (additional_section_count q)
                (response_buffer q) hdr) q in
  let q := set_response_buffer_len rrs_packed_len q in
  let q :=
    if protocol q =? 1 then
      let q := set_response_buffer
                 (rip_ns_put16 (response_buffer q) 0
                    (u16 (response_buffer_len q))) q in
      set_response_buffer_len (response_buffer_len q + 2) q
    else q in
  Some (ret, q, e).

Definition query_response_pack (q : query_t) : option (Z * query_t) :=
  '(ret, q, _) ← query_response_pack_exit q;
  Some (ret, q).


(** [rdata_len] of a record is a uint16_t. *)
Definition rr_wf (rr : rr_record_t) : bool :=
  (0 <=? rdata_len rr) && (rdata_len rr <? 65536).

(** What query_init and query_reset guarantee about a query before it is
    packed: the response header lies inside the response buffer, after the
    two length bytes when the transport is TCP, the section counts are
    uint8_t values and the records of the sections hold uint16_t lengths. *)
Definition pack_ready (q : query_t) : bool :=
  (0 <=? response_hdr q)
  && implb (protocol q =? 1) (2 <=? response_hdr q)
  && (response_hdr q + HFIXEDSZ <=? Z.of_nat (length (response_buffer q)))
  && (0 <=? answer_section_count q) && (answer_section_count q <? 256)
  && (0 <=? authority_section_count q) && (authority_section_count q <? 256)
  && (0 <=? additional_section_count q) && (additional_section_count q <? 256)
  && forallb rr_wf (answer_section q)
  && forallb rr_wf (authority_section q)
  && forallb rr_wf (additional_section q).

End QueryPack.


(* ===================================================================== *)
(** * conn.h, conn.c: connection objects and their FIFO queues *)
(* ===================================================================== *)

Module Conn.
Import Wire Query.

Inductive conn_tcp_state_t :=
| TCP_CONN_ST_ASSIGN_CONN_ID_ERR
| TCP_CONN_ST_WAIT_FOR_QUERY
| TCP_CONN_ST_WAIT_FOR_QUERY_DATA
| TCP_CONN_ST_WAIT_FOR_WRITE
| TCP_CONN_ST_CLOSED_FOR_READ
| TCP_CONN_ST_READ_ERR
| TCP_CONN_ST_CLOSED_FOR_WRITE
| TCP_CONN_ST_WRITE_ERR
| TCP_CONN_ST_QUERY_SIZE_TOOLARGE.

(** struct timespec *)
Record timespec := { tv_sec : Z; tv_nsec : Z }.

(** conn_tcp_t: the fields used by the accept, write and release stages. *)
Record conn_tcp_t := {
  query_write_index : Z;
  write_index : Z;
  queries : list query_t;
  queries_size : Z;
  queries_count : Z;
  state : conn_tcp_state_t;
  start_time : timespec;
  timeout : timespec;
  end_time : timespec;
}.

(** conn_t.  A [conn_t *] is a [nat] address in the heap of connection
    objects; NULL is [None]. *)
Record conn_t := {
  cid : Z;
  lc : bool;
  proto : Z;
  ip_version : Z;
  waiting_for_read : bool;
  waiting_for_write : bool;
  in_read_queue : bool;
  in_write_queue : bool;
  in_release_queue : bool;
  read_q_handle : option nat;
  write_q_handle : option nat;
  gen_q_handle : option nat;
  fd : Z;
  tcp : option conn_tcp_t;
}.

Record conn_fifo_queue_t := {
  head : option nat;
  tail : option nat;
}.

Definition queue_empty : conn_fifo_queue_t := {| head := None; tail := None |}.

Definition set_query_write_index (v : Z) (t : conn_tcp_t) : conn_tcp_t :=
  {| query_write_index := v; write_index := write_index t;
     queries := queries t; queries_size := queries_size t;
     queries_count := queries_count t; state := state t;
     start_time := start_time t; timeout := timeout t;
     end_time := end_time t |}.

Definition set_write_index (v : Z) (t : conn_tcp_t) : conn_tcp_t :=
  {| query_write_index := query_write_index t; write_index := v;
     queries := queries t; queries_size := queries_size t;
     queries_count := queries_count t; state := state t;
     start_time := start_time t; timeout := timeout t;
     end_time := end_time t |}.

Definition set_queries (v : list query_t) (t : conn_tcp_t) : conn_tcp_t :=
  {| query_write_index := query_write_index t; write_index := write_index t;
     queries := v; queries_size := queries_size t;
     queries_count := queries_count t; state := state t;
     start_time := start_time t; timeout := timeout t;
     end_time := end_time t |}.

Definition set_queries_count (v : Z) (t : conn_tcp_t) : conn_tcp_t :=
  {| query_write_index := query_write_index t; write_index := write_index t;
     queries := queries t; queries_size := queries_size t;
     queries_count := v; state := state t; start_time := start_time t;
     timeout := timeout t; end_time := end_time t |}.

Definition set_state (v : conn_tcp_state_t) (t : conn_tcp_t) : conn_tcp_t :=
  {| query_write_index := query_write_index t; write_index := write_index t;
     queries := queries t; queries_size := queries_size t;
     queries_count := queries_count t; state := v;
     start_time := start_time t; timeout := timeout t;
     end_time := end_time t |}.

Definition set_timeout (v : timespec) (t : conn_tcp_t) : conn_tcp_t :=
  {| query_write_index := query_write_index t; write_index := write_index t;
     queries := queries t; queries_size := queries_size t;
     queries_count := queries_count t; state := state t;
     start_time := start_time t; timeout := v; end_time := end_time t |}.

Definition set_end_time (v : timespec) (t : conn_tcp_t) : conn_tcp_t :=
  {| query_write_index := query_write_index t; write_index := write_index t;
     queries := queries t; queries_size := queries_size t;
     queries_count := queries_count t; state := state t;
     start_time := start_time t; timeout := timeout t; end_time := v |}.

Definition set_cid (v : Z) (c : conn_t) : conn_t :=
  {| cid := v; lc := lc c; proto := proto c; ip_version := ip_version c;
     waiting_for_read := waiting_for_read c;
     waiting_for_write := waiting_for_write c;
     in_read_queue := in_read_queue c; in_write_queue := in_write_queue c;
     in_release_queue := in_release_queue c;
     read_q_handle := read_q_handle c; write_q_handle := write_q_handle c;
     gen_q_handle := gen_q_handle c; fd := fd c; tcp := tcp c |}.

Definition set_waiting_for_read (v : bool) (c : conn_t) : conn_t :=
  {| cid := cid c; lc := lc c; proto := proto c; ip_version := ip_version c;
     waiting_for_read := v; waiting_for_write := waiting_for_write c;
     in_read_queue := in_read_queue c; in_write_queue := in_write_queue c;
     in_release_queue := in_release_queue c;
     read_q_handle := read_q_handle c; write_q_handle := write_q_handle c;
     gen_q_handle := gen_q_handle c; fd := fd c; tcp := tcp c |}.

Definition set_waiting_for_write (v : bool) (c : conn_t) : conn_t :=
  {| cid := cid c; lc := lc c; proto := proto c; ip_version := ip_version c;
     waiting_for_read := waiting_for_read c; waiting_for_write := v;
     in_read_queue := in_read_queue c; in_write_queue := in_write_queue c;
     in_release_queue := in_release_queue c;
     read_q_handle := read_q_handle c; write_q_handle := write_q_handle c;
     gen_q_handle := gen_q_handle c; fd := fd c; tcp := tcp c |}.

Definition set_in_read_queue (v : bool) (c : conn_t) : conn_t :=
  {| cid := cid c; lc := lc c; proto := proto c; ip_version := ip_version c;
     waiting_for_read := waiting_for_read c;
     waiting_for_write := waiting_for_write c; in_read_queue := v;
     in_write_queue := in_write_queue c;
     in_release_queue := in_release_queue c;
     read_q_handle := read_q_handle c; write_q_handle := write_q_handle c;
     gen_q_handle := gen_q_handle c; fd := fd c; tcp := tcp c |}.

Definition set_in_write_queue (v : bool) (c : conn_t) : conn_t :=
  {| cid := cid c; lc := lc c; proto := proto c; ip_version := ip_version c;
     waiting_for_read := waiting_for_read c;
     waiting_for_write := waiting_for_write c;
     in_read_queue := in_read_queue c; in_write_queue := v;
     in_release_queue := in_release_queue c;
     read_q_handle := read_q_handle c; write_q_handle := write_q_handle c;
     gen_q_handle := gen_q_handle c; fd := fd c; tcp := tcp c |}.

Definition set_in_release_queue (v : bool) (c : conn_t) : conn_t :=
  {| cid := cid c; lc := lc c; proto := proto c; ip_version := ip_version c;
     waiting_for_read := waiting_for_read c;
     waiting_for_write := waiting_for_write c;
     in_read_queue := in_read_queue c; in_write_queue := in_write_queue c;
     in_release_queue := v; read_q_handle := read_q_handle c;
     write_q_handle := write_q_handle c; gen_q_handle := gen_q_handle c;
     fd := fd c; tcp := tcp c |}.

Definition set_read_q_handle (v : option nat) (c : conn_t) : conn_t :=
  {| cid := cid c; lc := lc c; proto := proto c; ip_version := ip_version c;
     waiting_for_read := waiting_for_read c;
     waiting_for_write := waiting_for_write c;
     in_read_queue := in_read_queue c; in_write_queue := in_write_queue c;
     in_release_queue := in_release_queue c; read_q_handle := v;
     write_q_handle := write_q_handle c; gen_q_handle := gen_q_handle c;
     fd := fd c; tcp := tcp c |}.

Definition set_write_q_handle (v : option nat) (c : conn_t) : conn_t :=
  {| cid := cid c; lc := lc c; proto := proto c; ip_version := ip_version c;
     waiting_for_read := waiting_for_read c;
     waiting_for_write := waiting_for_write c;
     in_read_queue := in_read_queue c; in_write_queue := in_write_queue c;
     in_release_queue := in_release_queue c;
     read_q_handle := read_q_handle c; write_q_handle := v;
     gen_q_handle := gen_q_handle c; fd := fd c; tcp := tcp c |}.

Definition set_gen_q_handle (v : option nat) (c : conn_t) : conn_t :=
  {| cid := cid c; lc := lc c; proto := proto c; ip_version := ip_version c;
     waiting_for_read := waiting_for_read c;
     waiting_for_write := waiting_for_write c;
     in_read_queue := in_read_queue c; in_write_queue := in_write_queue c;
     in_release_queue := in_release_queue c;
     read_q_handle := read_q_handle c; write_q_handle := write_q_handle c;
     gen_q_handle := v; fd := fd c; tcp := tcp c |}.

Definition set_fd (v : Z) (c : conn_t) : conn_t :=
  {| cid := cid c; lc := lc c; proto := proto c; ip_version := ip_version c;
     waiting_for_read := waiting_for_read c;
     waiting_for_write := waiting_for_write c;
     in_read_queue := in_read_queue c; in_write_queue := in_write_queue c;
     in_release_queue := in_release_queue c;
     read_q_handle := read_q_handle c; write_q_handle := write_q_handle c;
     gen_q_handle := gen_q_handle c; fd := v; tcp := tcp c |}.

Definition set_tcp (v : option conn_tcp_t) (c : conn_t) : conn_t :=
  {| cid := cid c; lc := lc c; proto := proto c; ip_version := ip_version c;
     waiting_for_read := waiting_for_read c;
     waiting_for_write := waiting_for_write c;
     in_read_queue := in_read_queue c; in_write_queue := in_write_queue c;
     in_release_queue := in_release_queue c;
     read_q_handle := read_q_handle c; write_q_handle := write_q_handle c;
     gen_q_handle := gen_q_handle c; fd := fd c; tcp := v |}.

(** The heap of connection objects.  Every function below returns [None]
    when it dereferences an address that is not allocated (or NULL), and
    when a loop runs out of fuel. *)
Abbreviation heap := (gmap nat conn_t).

(** conn_fifo_enqueue_read *)
Definition conn_fifo_enqueue_read (h : heap) (queue : conn_fifo_queue_t)
    (conn : nat) : option (heap * conn_fifo_queue_t) :=
  c ← h !! conn;
  if negb (in_read_queue c) then
    let h := alter (set_read_q_handle None) conn h in
    '(h, queue) ←
      match head queue with
      | None => Some (h, {| head := Some conn; tail := Some conn |})
      | Some _ =>
        t ← tail queue;
        _ ← h !! t;
        Some (alter (set_read_q_handle (Some conn)) t h,
              {| head := head queue; tail := Some conn |})
      end;
    Some (alter (set_in_read_queue true) conn h, queue)
  else Some (h, queue).

(** conn_fifo_dequeue_read *)
Definition conn_fifo_dequeue_read (h : heap) (queue : conn_fifo_queue_t)
    : option (option nat * heap * conn_fifo_queue_t) :=
  let conn := head queue in
  queue ←
    (if decide (head queue = tail queue) then Some queue_empty
     else p ← conn; c ← h !! p;
          Some {| head := read_q_handle c; tail := tail queue |});
  match conn with
  | Some p => _ ← h !! p; Some (conn, alter (set_in_read_queue false) p h, queue)
  | None => Some (conn, h, queue)
  end.

(** conn_fifo_enqueue_write *)
Definition conn_fifo_enqueue_write (h : heap) (queue : conn_fifo_queue_t)
    (conn : nat) : option (heap * conn_fifo_queue_t) :=
  c ← h !! conn;
  if negb (in_write_queue c) then
    let h := alter (set_write_q_handle None) conn h in
    '(h, queue) ←
      match head queue with
      | None => Some (h, {| head := Some conn; tail := Some conn |})
      | Some _ =>
        t ← tail queue;
        _ ← h !! t;
        Some (alter (set_write_q_handle (Some conn)) t h,
              {| head := head queue; tail := Some conn |})
      end;
    Some (alter (set_in_write_queue true) conn h, queue)
  else Some (h, queue).

(** conn_fifo_dequeue_write *)
Definition conn_fifo_dequeue_write (h : heap) (queue : conn_fifo_queue_t)
    : option (option nat * heap * conn_fifo_queue_t) :=
  let conn := head queue in
  queue ←
    (if decide (head queue = tail queue) then Some queue_empty
     else p ← conn; c ← h !! p;
          Some {| head := write_q_handle c; tail := tail queue |});
  match conn with
  | Some p => _ ← h !! p; Some (conn, alter (set_in_write_queue false) p h, queue)
  | None => Some (conn, h, queue)
  end.

(** conn_fifo_enqueue_gen *)
Definition conn_fifo_enqueue_gen (h : heap) (queue : conn_fifo_queue_t)
    (conn : nat) : option (heap * conn_fifo_queue_t) :=
  _ ← h !! conn;
  let h := alter (set_gen_q_handle None) conn h in
  match head queue with
  | None => Some (h, {| head := Some conn; tail := Some conn |})
  | Some _ =>
    t ← tail queue;
    _ ← h !! t;
    Some (alter (set_gen_q_handle (Some conn)) t h,
          {| head := head queue; tail := Some conn |})
  end.

(** conn_fifo_enqueue_release *)
Definition conn_fifo_enqueue_release (h : heap) (queue : conn_fifo_queue_t)
    (conn : nat) : option (heap * conn_fifo_queue_t) :=
  c ← h !! conn;
  if negb (in_release_queue c) then
    let h := alter (set_gen_q_handle None) conn h in
    '(h, queue) ←
      match head queue with
      | None => Some (h, {| head := Some conn; tail := Some conn |})
      | Some _ =>
        t ← tail queue;
        _ ← h !! t;
        Some (alter (set_gen_q_handle (Some conn)) t h,
              {| head := head queue; tail := Some conn |})
      end;
    Some (alter (set_in_release_queue true) conn h, queue)
  else Some (h, queue).

(** conn_fifo_dequeue_release *)
Definition conn_fifo_dequeue_release (h : heap) (queue : conn_fifo_queue_t)
    : option (option nat * heap * conn_fifo_queue_t) :=
  let conn := head queue in
  queue ←
    (if decide (head queue = tail queue) then Some queue_empty
     else p ← conn; c ← h !! p;
          Some {| head := gen_q_handle c; tail := tail queue |});
  match conn with
  | Some p =>
    _ ← h !! p; Some (conn, alter (set_in_release_queue false) p h, queue)
  | None => Some (conn, h, queue)
  end.

(** The while loop of conn_fifo_remove_from_read_queue: entries that are
    kept are enqueued into [queue] itself. *)
Fixpoint remove_from_read_loop (fuel : nat) (h : heap)
    (queue : conn_fifo_queue_t) (conn_rm : nat)
    : option (heap * conn_fifo_queue_t) :=
  match fuel with
  | O => None
  | S fuel' =>
    '(conn, h, queue) ← conn_fifo_dequeue_read h queue;
    match conn with
    | None => Some (h, queue)
    | Some p =>
      if decide (p = conn_rm) then remove_from_read_loop fuel' h queue conn_rm
      else
        '(h, queue) ← conn_fifo_enqueue_read h queue p;
        remove_from_read_loop fuel' h queue conn_rm
    end
  end.

Definition remove_fuel : nat := 4096.

(** conn_fifo_remove_from_read_queue.  [new_queue] stays empty, so the
    final repopulation does nothing. *)
Definition conn_fifo_remove_from_read_queue (h : heap)
    (queue : conn_fifo_queue_t) (conn_rm : nat)
    : option (heap * conn_fifo_queue_t) :=
  c ← h !! conn_rm;
  if in_read_queue c then remove_from_read_loop remove_fuel h queue conn_rm
  else Some (h, queue).

Fixpoint remove_from_write_loop (fuel : nat) (h : heap)
    (queue : conn_fifo_queue_t) (conn_rm : nat)
    : option (heap * conn_fifo_queue_t) :=
  match fuel with
  | O => None
  | S fuel' =>
    '(conn, h, queue) ← conn_fifo_dequeue_write h queue;
    match conn with
    | None => Some (h, queue)
    | Some p =>
      if decide (p = conn_rm) then remove_from_write_loop fuel' h queue conn_rm
      else
        '(h, queue) ← conn_fifo_enqueue_write h queue p;
        remove_from_write_loop fuel' h queue conn_rm
    end
  end.

(** conn_fifo_remove_from_write_queue: the guard reads [in_read_queue]. *)
Definition conn_fifo_remove_from_write_queue (h : heap)
    (queue : conn_fifo_queue_t) (conn_rm : nat)
    : option (heap * conn_fifo_queue_t) :=
  c ← h !! conn_rm;
  if in_read_queue c then remove_from_write_loop remove_fuel h queue conn_rm
  else Some (h, queue).

(** The connections linked into a queue through the write handles, from the
    head to the tail.  The walk stops at the tail, at a NULL handle, or at
    an address that is no longer allocated. *)
Fixpoint write_queue_walk (fuel : nat) (h : heap) (p : option nat)
    (tail : option nat) : list nat :=
  match fuel, p with
  | S fuel', Some a =>
    a :: (if decide (Some a = tail) then []
          else match h !! a with
               | Some c => write_queue_walk fuel' h (write_q_handle c) tail
               | None => []
               end)
  | _, _ => []
  end.

Definition write_queue_members (h : heap) (queue : conn_fifo_queue_t)
    : list nat :=
  write_queue_walk remove_fuel h (head queue) (tail queue).

Fixpoint read_queue_walk (fuel : nat) (h : heap) (p : option nat)
    (tail : option nat) : list nat :=
  match fuel, p with
  | S fuel', Some a =>
    a :: (if decide (Some a = tail) then []
          else match h !! a with
               | Some c => read_queue_walk fuel' h (read_q_handle c) tail
               | None => []
               end)
  | _, _ => []
  end.

Definition read_queue_members (h : heap) (queue : conn_fifo_queue_t)
    : list nat :=
  read_queue_walk remove_fuel h (head queue) (tail queue).

(** The LRU cache of TCP connections (uthash keyed by [cid]): the entries
    in insertion order, each a pair of the key and the connection. *)
Abbreviation lru_cache := (list (Z * nat)).

(** HASH_FIND *)
Definition lru_find (lru : lru_cache) (id : Z) : option nat :=
  snd <$> find (fun e => fst e =? id) lru.

(** LRU_CACHE_ADD *)
Definition LRU_CACHE_ADD (lru : lru_cache) (id : Z) (conn : nat) : lru_cache :=
  lru ++ [(id, conn)].

(** LRU_CACHE_DEL *)
Definition LRU_CACHE_DEL (lru : lru_cache) (conn : nat) : lru_cache :=
  filter (fun e => snd e ≠ conn) lru.

Definition UINTMAX_MAX : Z := 18446744073709551615.
Definition u64 (x : Z) : Z := x mod 18446744073709551616.

(** One for loop of conn_tcp_id_assign: the first [i] in [[i, limit)] that
    is not a key of the cache.  At most [length lru + 1] keys have to be
    looked at, which is the fuel given by the caller. *)
Fixpoint id_scan (fuel : nat) (lru : lru_cache) (i limit : Z) : option Z :=
  match fuel with
  | O => None
  | S fuel' =>
    if i <? limit then
      match lru_find lru i with
      | None => Some i
      | Some _ => id_scan fuel' lru (i + 1) limit
      end
    else None
  end.

(** conn_tcp_id_assign: [Some id] is [*id = *base = id; return true]. *)
Definition conn_tcp_id_assign (lru : lru_cache) (base : Z) : option Z :=
  match id_scan (S (length lru)) lru (u64 (base + 1)) UINTMAX_MAX with
  | Some i => Some i
  | None => id_scan (S (length lru)) lru 0 base
  end.

End Conn.


(* ===================================================================== *)
(** * vectorloop.c: the TCP accept, TCP write and TCP release stages *)
(* ===================================================================== *)

Module Vectorloop.
Import Wire Query QueryInit Conn.

Definition EAGAIN : Z := 11.
Definition EWOULDBLOCK : Z := 11.

(* app_log_msg_id_t values sent by the stages below; the numbers only tell
   the messages apart. *)
Definition APP_LOG_MSG_CUSTOM : Z := 0.
Definition APP_LOG_MSG_VL_FN_TCP_CONN_CLIENT_IP_FAM : Z := 1.
Definition APP_LOG_MSG_VL_FN_TCP_CONN_GETSOCKNAME : Z := 2.
Definition APP_LOG_MSG_VL_FN_TCP_CONN_LOCAL_IP_FAM : Z := 3.

(** config_t: the settings the three stages read. *)
Record config_t := {
  tcp_conns_per_vl_max : Z;
  tcp_listener_max_accept_new_conn : Z;
  tcp_query_recv_timeout : Z;
  tcp_conn_simultaneous_queries_count : Z;
  tcp_writebuff_size : Z;
}.

(** What the kernel has for one accept4() call on a listener, together
    with what getsockname() reports for the new socket ([None] is success,
    [Some e] is failure with errno [e]). *)
Record pending_conn := {
  pc_fd : Z;
  pc_client_family : Z;
  pc_getsockname : option Z;
  pc_local_family : Z;
}.

Inductive accept_result :=
| AcceptOk (pc : pending_conn)
| AcceptErr (e : Z).

(** vectorloop_t, with the part of the outside world the stages talk to:
    [conns] is the heap of connection objects and [next_addr] the next
    address malloc returns; [backlog] maps a listener socket to the results
    of its next accept4() calls (EAGAIN once the list is used up);
    [write_results] lists the results (return value, errno) of the next
    write() calls (EAGAIN once used up); [clock] is the real-time clock;
    [app_log] collects the messages sent on the application log channel
    (message id and fatal flag).  Metrics and the epoll registrations are
    not modelled. *)
Record vectorloop_t := {
  cfg : config_t;
  loop_timestamp : timespec;
  conns_tcp_active : Z;
  conn_tcp_lru_cache : lru_cache;
  conn_tcp_id_base : Z;
  conn_tcp_accept_conns_queue : conn_fifo_queue_t;
  conn_tcp_read_queue : conn_fifo_queue_t;
  conn_tcp_write_queue : conn_fifo_queue_t;
  conn_tcp_release_queue : conn_fifo_queue_t;
  query_log_queue : conn_fifo_queue_t;
  conns : heap;
  next_addr : nat;
  errno : Z;
  app_log : list (Z * bool);
  clock : timespec;
  backlog : gmap Z (list accept_result);
  write_results : list (Z * Z);
}.

Definition set_conns_tcp_active (v : Z) (vl : vectorloop_t) : vectorloop_t :=
  {| cfg := cfg vl; loop_timestamp := loop_timestamp vl;
     conns_tcp_active := v; conn_tcp_lru_cache := conn_tcp_lru_cache vl;
     conn_tcp_id_base := conn_tcp_id_base vl;
     conn_tcp_accept_conns_queue := conn_tcp_accept_conns_queue vl;
     conn_tcp_read_queue := conn_tcp_read_queue vl;
     conn_tcp_write_queue := conn_tcp_write_queue vl;
     conn_tcp_release_queue := conn_tcp_release_queue vl;
     query_log_queue := query_log_queue vl; conns := conns vl;
     next_addr := next_addr vl; errno := errno vl; app_log := app_log vl;
     clock := clock vl; backlog := backlog vl;
     write_results := write_results vl |}.

Definition set_conn_tcp_lru_cache (v : lru_cache) (vl : vectorloop_t) : vectorloop_t :=
  {| cfg := cfg vl; loop_timestamp := loop_timestamp vl;
     conns_tcp_active := conns_tcp_active vl; conn_tcp_lru_cache := v;
     conn_tcp_id_base := conn_tcp_id_base vl;
     conn_tcp_accept_conns_queue := conn_tcp_accept_conns_queue vl;
     conn_tcp_read_queue := conn_tcp_read_queue vl;
     conn_tcp_write_queue := conn_tcp_write_queue vl;
     conn_tcp_release_queue := conn_tcp_release_queue vl;
     query_log_queue := query_log_queue vl; conns := conns vl;
     next_addr := next_addr vl; errno := errno vl; app_log := app_log vl;
     clock := clock vl; backlog := backlog vl;
     write_results := write_results vl |}.

Definition set_conn_tcp_id_base (v : Z) (vl : vectorloop_t) : vectorloop_t :=
  {| cfg := cfg vl; loop_timestamp := loop_timestamp vl;
     conns_tcp_active := conns_tcp_active vl;
     conn_tcp_lru_cache := conn_tcp_lru_cache vl; conn_tcp_id_base := v;
     conn_tcp_accept_conns_queue := conn_tcp_accept_conns_queue vl;
     conn_tcp_read_queue := conn_tcp_read_queue vl;
     conn_tcp_write_queue := conn_tcp_write_queue vl;
     conn_tcp_release_queue := conn_tcp_release_queue vl;
     query_log_queue := query_log_queue vl; conns := conns vl;
     next_addr := next_addr vl; errno := errno vl; app_log := app_log vl;
     clock := clock vl; backlog := backlog vl;
     write_results := write_results vl |}.

Definition set_conn_tcp_accept_conns_queue (v : conn_fifo_queue_t) (vl : vectorloop_t) : vectorloop_t :=
  {| cfg := cfg vl; loop_timestamp := loop_timestamp vl;
     conns_tcp_active := conns_tcp_active vl;
     conn_tcp_lru_cache := conn_tcp_lru_cache vl;
     conn_tcp_id_base := conn_tcp_id_base vl;
     conn_tcp_accept_conns_queue := v;
     conn_tcp_read_queue := conn_tcp_read_queue vl;
     conn_tcp_write_queue := conn_tcp_write_queue vl;
     conn_tcp_release_queue := conn_tcp_release_queue vl;
     query_log_queue := query_log_queue vl; conns := conns vl;
     next_addr := next_addr vl; errno := errno vl; app_log := app_log vl;
     clock := clock vl; backlog := backlog vl;
     write_results := write_results vl |}.

Definition set_conn_tcp_read_queue (v : conn_fifo_queue_t) (vl : vectorloop_t) : vectorloop_t :=
  {| cfg := cfg vl; loop_timestamp := loop_timestamp vl;
     conns_tcp_active := conns_tcp_active vl;
     conn_tcp_lru_cache := conn_tcp_lru_cache vl;
     conn_tcp_id_base := conn_tcp_id_base vl;
     conn_tcp_accept_conns_queue := conn_tcp_accept_conns_queue vl;
     conn_tcp_read_queue := v;
     conn_tcp_write_queue := conn_tcp_write_queue vl;
     conn_tcp_release_queue := conn_tcp_release_queue vl;
     query_log_queue := query_log_queue vl; conns := conns vl;
     next_addr := next_addr vl; errno := errno vl; app_log := app_log vl;
     clock := clock vl; backlog := backlog vl;
     write_results := write_results vl |}.

Definition set_conn_tcp_write_queue (v : conn_fifo_queue_t) (vl : vectorloop_t) : vectorloop_t :=
  {| cfg := cfg vl; loop_timestamp := loop_timestamp vl;
     conns_tcp_active := conns_tcp_active vl;
     conn_tcp_lru_cache := conn_tcp_lru_cache vl;
     conn_tcp_id_base := conn_tcp_id_base vl;
     conn_tcp_accept_conns_queue := conn_tcp_accept_conns_queue vl;
     conn_tcp_read_queue := conn_tcp_read_queue vl;
     conn_tcp_write_queue := v;
     conn_tcp_release_queue := conn_tcp_release_queue vl;
     query_log_queue := query_log_queue vl; conns := conns vl;
     next_addr := next_addr vl; errno := errno vl; app_log := app_log vl;
     clock := clock vl; backlog := backlog vl;
     write_results := write_results vl |}.

Definition set_conn_tcp_release_queue (v : conn_fifo_queue_t) (vl : vectorloop_t) : vectorloop_t :=
  {| cfg := cfg vl; loop_timestamp := loop_timestamp vl;
     conns_tcp_active := conns_tcp_active vl;
     conn_tcp_lru_cache := conn_tcp_lru_cache vl;
     conn_tcp_id_base := conn_tcp_id_base vl;
     conn_tcp_accept_conns_queue := conn_tcp_accept_conns_queue vl;
     conn_tcp_read_queue := conn_tcp_read_queue vl;
     conn_tcp_write_queue := conn_tcp_write_queue vl;
     conn_tcp_release_queue := v; query_log_queue := query_log_queue vl;
     conns := conns vl; next_addr := next_addr vl; errno := errno vl;
     app_log := app_log vl; clock := clock vl; backlog := backlog vl;
     write_results := write_results vl |}.

Definition set_query_log_queue (v : conn_fifo_queue_t) (vl : vectorloop_t) : vectorloop_t :=
  {| cfg := cfg vl; loop_timestamp := loop_timestamp vl;
     conns_tcp_active := conns_tcp_active vl;
     conn_tcp_lru_cache := conn_tcp_lru_cache vl;
     conn_tcp_id_base := conn_tcp_id_base vl;
     conn_tcp_accept_conns_queue := conn_tcp_accept_conns_queue vl;
     conn_tcp_read_queue := conn_tcp_read_queue vl;
     conn_tcp_write_queue := conn_tcp_write_queue vl;
     conn_tcp_release_queue := conn_tcp_release_queue vl;
     query_log_queue := v; conns := conns vl; next_addr := next_addr vl;
     errno := errno vl; app_log := app_log vl; clock := clock vl;
     backlog := backlog vl; write_results := write_results vl |}.

Definition set_conns (v : heap) (vl : vectorloop_t) : vectorloop_t :=
  {| cfg := cfg vl; loop_timestamp := loop_timestamp vl;
     conns_tcp_active := conns_tcp_active vl;
     conn_tcp_lru_cache := conn_tcp_lru_cache vl;
     conn_tcp_id_base := conn_tcp_id_base vl;
     conn_tcp_accept_conns_queue := conn_tcp_accept_conns_queue vl;
     conn_tcp_read_queue := conn_tcp_read_queue vl;
     conn_tcp_write_queue := conn_tcp_write_queue vl;
     conn_tcp_release_queue := conn_tcp_release_queue vl;
     query_log_queue := query_log_queue vl; conns := v;
     next_addr := next_addr vl; errno := errno vl; app_log := app_log vl;
     clock := clock vl; backlog := backlog vl;
     write_results := write_results vl |}.

Definition set_next_addr (v : nat) (vl : vectorloop_t) : vectorloop_t :=
  {| cfg := cfg vl; loop_timestamp := loop_timestamp vl;
     conns_tcp_active := conns_tcp_active vl;
     conn_tcp_lru_cache := conn_tcp_lru_cache vl;
     conn_tcp_id_base := conn_tcp_id_base vl;
     conn_tcp_accept_conns_queue := conn_tcp_accept_conns_queue vl;
     conn_tcp_read_queue := conn_tcp_read_queue vl;
     conn_tcp_write_queue := conn_tcp_write_queue vl;
     conn_tcp_release_queue := conn_tcp_release_queue vl;
     query_log_queue := query_log_queue vl; conns := conns vl;
     next_addr := v; errno := errno vl; app_log := app_log vl;
     clock := clock vl; backlog := backlog vl;
     write_results := write_results vl |}.

Definition set_errno (v : Z) (vl : vectorloop_t) : vectorloop_t :=
  {| cfg := cfg vl; loop_timestamp := loop_timestamp vl;
     conns_tcp_active := conns_tcp_active vl;
     conn_tcp_lru_cache := conn_tcp_lru_cache vl;
     conn_tcp_id_base := conn_tcp_id_base vl;
     conn_tcp_accept_conns_queue := conn_tcp_accept_conns_queue vl;
     conn_tcp_read_queue := conn_tcp_read_queue vl;
     conn_tcp_write_queue := conn_tcp_write_queue vl;
     conn_tcp_release_queue := conn_tcp_release_queue vl;
     query_log_queue := query_log_queue vl; conns := conns vl;
     next_addr := next_addr vl; errno := v; app_log := app_log vl;
     clock := clock vl; backlog := backlog vl;
     write_results := write_results vl |}.

Definition set_app_log (v : list (Z * bool)) (vl : vectorloop_t) : vectorloop_t :=
  {| cfg := cfg vl; loop_timestamp := loop_timestamp vl;
     conns_tcp_active := conns_tcp_active vl;
     conn_tcp_lru_cache := conn_tcp_lru_cache vl;
     conn_tcp_id_base := conn_tcp_id_base vl;
     conn_tcp_accept_conns_queue := conn_tcp_accept_conns_queue vl;
     conn_tcp_read_queue := conn_tcp_read_queue vl;
     conn_tcp_write_queue := conn_tcp_write_queue vl;
     conn_tcp_release_queue := conn_tcp_release_queue vl;
     query_log_queue := query_log_queue vl; conns := conns vl;
     next_addr := next_addr vl; errno := errno vl; app_log := v;
     clock := clock vl; backlog := backlog vl;
     write_results := write_results vl |}.

Definition set_backlog (v : gmap Z (list accept_result)) (vl : vectorloop_t) : vectorloop_t :=
  {| cfg := cfg vl; loop_timestamp := loop_timestamp vl;
     conns_tcp_active := conns_tcp_active vl;
     conn_tcp_lru_cache := conn_tcp_lru_cache vl;
     conn_tcp_id_base := conn_tcp_id_base vl;
     conn_tcp_accept_conns_queue := conn_tcp_accept_conns_queue vl;
     conn_tcp_read_queue := conn_tcp_read_queue vl;
     conn_tcp_write_queue := conn_tcp_write_queue vl;
     conn_tcp_release_queue := conn_tcp_release_queue vl;
     query_log_queue := query_log_queue vl; conns := conns vl;
     next_addr := next_addr vl; errno := errno vl; app_log := app_log vl;
     clock := clock vl; backlog := v; write_results := write_results vl |}.

Definition set_write_results (v : list (Z * Z)) (vl : vectorloop_t) : vectorloop_t :=
  {| cfg := cfg vl; loop_timestamp := loop_timestamp vl;
     conns_tcp_active := conns_tcp_active vl;
     conn_tcp_lru_cache := conn_tcp_lru_cache vl;
     conn_tcp_id_base := conn_tcp_id_base vl;
     conn_tcp_accept_conns_queue := conn_tcp_accept_conns_queue vl;
     conn_tcp_read_queue := conn_tcp_read_queue vl;
     conn_tcp_write_queue := conn_tcp_write_queue vl;
     conn_tcp_release_queue := conn_tcp_release_queue vl;
     query_log_queue := query_log_queue vl; conns := conns vl;
     next_addr := next_addr vl; errno := errno vl; app_log := app_log vl;
     clock := clock vl; backlog := backlog vl; write_results := v |}.

(** [int] and [uint64_t] conversions used by the accept stage. *)
Definition to_int (x : Z) : Z :=
  let y := x mod 4294967296 in
  if y >=? 2147483648 then y - 4294967296 else y.

(** accept4(): the file descriptor (or -1, with errno set). *)
Definition accept4 (vl : vectorloop_t) (lfd : Z)
    : Z * option pending_conn * vectorloop_t :=
  match backlog vl !! lfd with
  | Some (AcceptOk pc :: rest) =>
    (pc_fd pc, Some pc, set_backlog (<[lfd := rest]> (backlog vl)) vl)
  | Some (AcceptErr e :: rest) =>
    (-1, None, set_errno e (set_backlog (<[lfd := rest]> (backlog vl)) vl))
  | _ => (-1, None, set_errno EAGAIN vl)
  end.

Definition log_send (id : Z) (fatal : bool) (vl : vectorloop_t) : vectorloop_t :=
  set_app_log (app_log vl ++ [(id, fatal)]) vl.

(** conn_new_tcp *)
Definition conn_new_tcp (fd : Z) (cfg : config_t) (ip_version : Z) : conn_t :=
  {| cid := 0; lc := true; proto := 1; ip_version := ip_version;
     waiting_for_read := false; waiting_for_write := false;
     in_read_queue := false; in_write_queue := false;
     in_release_queue := false;
     read_q_handle := None; write_q_handle := None; gen_q_handle := None;
     fd := fd;
     tcp := Some
       {| query_write_index := 0; write_index := 0;
          queries := repeat (query_init (tcp_writebuff_size cfg) 1)
                       (Z.to_nat (tcp_conn_simultaneous_queries_count cfg));
          queries_size := tcp_conn_simultaneous_queries_count cfg;
          queries_count := 0;
          state := TCP_CONN_ST_ASSIGN_CONN_ID_ERR;
          start_time := {| tv_sec := 0; tv_nsec := 0 |};
          timeout := {| tv_sec := 0; tv_nsec := 0 |};
          end_time := {| tv_sec := 0; tv_nsec := 0 |} |} |}.

(** The body of the inner while loop of vl_fn_tcp_accept_conns for one
    accepted socket. *)
Definition accept_one (vl : vectorloop_t) (pc : pending_conn)
    : option vectorloop_t :=
  let fd := pc_fd pc in
  if negb ((pc_client_family pc =? AF_INET) || (pc_client_family pc =? AF_INET6))
  then (* close(fd); continue *)
    Some (log_send APP_LOG_MSG_VL_FN_TCP_CONN_CLIENT_IP_FAM false vl)
  else
    let ip_version := if pc_client_family pc =? AF_INET then 0 else 1 in
    match pc_getsockname pc with
    | Some e =>
      Some (log_send APP_LOG_MSG_VL_FN_TCP_CONN_GETSOCKNAME false
              (set_errno e vl))
    | None =>
      if negb (pc_local_family pc =? AF_INET)
         && negb (pc_local_family pc =? AF_INET6)
      then Some (log_send APP_LOG_MSG_VL_FN_TCP_CONN_LOCAL_IP_FAM false vl)
      else
        (* Create TCP conn object. *)
        let tcp_conn := next_addr vl in
        let c := conn_new_tcp fd (cfg vl) ip_version in
        t ← tcp c;
        let tmo := {| tv_sec := tv_sec (loop_timestamp vl)
                                + tcp_query_recv_timeout (cfg vl);
                      tv_nsec := tv_nsec (loop_timestamp vl) |} in
        let t := {| query_write_index := query_write_index t;
                    write_index := write_index t;
                    queries := queries t; queries_size := queries_size t;
                    queries_count := queries_count t;
                    state := TCP_CONN_ST_WAIT_FOR_QUERY_DATA;
                    start_time := loop_timestamp vl;
                    timeout := tmo; end_time := end_time t |} in
        let c := set_tcp (Some t) c in
        let vl := set_next_addr (S tcp_conn) vl in
        match conn_tcp_id_assign (conn_tcp_lru_cache vl) (conn_tcp_id_base vl) with
        | None =>
          let c := set_tcp (Some (set_state TCP_CONN_ST_ASSIGN_CONN_ID_ERR t))
                     (set_fd (-1) c) in
          let vl := set_conns (<[tcp_conn := c]> (conns vl)) vl in
          '(h, rq) ← conn_fifo_enqueue_release (conns vl)
                        (conn_tcp_release_queue vl) tcp_conn;
          Some (set_conn_tcp_release_queue rq (set_conns h vl))
        | Some id =>
          let c := set_waiting_for_read true (set_cid id c) in
          let vl := set_conn_tcp_id_base id vl in
          let vl := set_conn_tcp_lru_cache
                      (LRU_CACHE_ADD (conn_tcp_lru_cache vl) id tcp_conn) vl in
          let vl := set_conns (<[tcp_conn := c]> (conns vl)) vl in
          Some (set_conns_tcp_active (u64 (conns_tcp_active vl + 1)) vl)
        end
    end.

(** The inner while loop:
    [while ((fd = accept4(...)) > -1 && accept_count < max_accept_new_conn)].
    The result is the last [fd], [accept_count] and the state. *)
Fixpoint accept_inner (fuel : nat) (vl : vectorloop_t) (lfd : Z)
    (accept_count : Z) : option (Z * Z * vectorloop_t) :=
  match fuel with
  | O => None
  | S fuel' =>
    let '(fd, pc, vl) := accept4 vl lfd in
    if (fd >? -1)
       && (accept_count <? tcp_listener_max_accept_new_conn (cfg vl))
    then
      pc ← pc;
      vl ← accept_one vl pc;
      accept_inner fuel' vl lfd (accept_count + 1)
    else Some (fd, accept_count, vl)
  end.

(** The outer while loop over the accept queue.  [inl] is the fatal
    [return 0]; [inr] carries [accept_count] and [new_queue]. *)
Fixpoint accept_outer (fuel : nat) (vl : vectorloop_t) (accept_count : Z)
    (new_queue : conn_fifo_queue_t)
    : option (vectorloop_t + vectorloop_t * Z * conn_fifo_queue_t) :=
  match fuel with
  | O => None
  | S fuel' =>
    '(conn, h, aq) ← conn_fifo_dequeue_read (conns vl)
                       (conn_tcp_accept_conns_queue vl);
    let vl := set_conn_tcp_accept_conns_queue aq (set_conns h vl) in
    match conn with
    | None => Some (inr (vl, accept_count, new_queue))
    | Some conn =>
      l ← conns vl !! conn;
      let max_new := tcp_listener_max_accept_new_conn (cfg vl) in
      let accept_max :=
        to_int (u64 (tcp_conns_per_vl_max (cfg vl) - conns_tcp_active vl)) in
      let accept_max :=
        if u64 accept_max >? max_new then to_int max_new else accept_max in
      '(fd, accept_count, vl) ←
         accept_inner (Z.to_nat (max_new - accept_count) + 1) vl (fd l)
           accept_count;
      if (fd <? 0) || (accept_max <=? 0) then
        if (errno vl =? EWOULDBLOCK) || (errno vl =? EAGAIN) then
          let vl := set_conns (alter (set_waiting_for_read true) conn
                                 (conns vl)) vl in
          accept_outer fuel' vl accept_count new_queue
        else Some (inl (log_send APP_LOG_MSG_CUSTOM true vl))
      else
        '(h, new_queue) ← conn_fifo_enqueue_read (conns vl) new_queue conn;
        accept_outer fuel' (set_conns h vl) accept_count new_queue
    end
  end.

(** vl_fn_tcp_accept_conns: the return value and the state. *)
Definition vl_fn_tcp_accept_conns (vl : vectorloop_t)
    : option (Z * vectorloop_t) :=
  r ← accept_outer remove_fuel vl 0 queue_empty;
  match r with
  | inl vl => Some (0, vl)
  | inr (vl, accept_count, new_queue) =>
    let vl := if head new_queue is Some _
              then set_conn_tcp_accept_conns_queue new_queue vl else vl in
    Some (accept_count, vl)
  end.

(** How vl_fn_tcp_write classifies the result of one write() call.  The
    first test compares the ssize_t [ret] with the size_t [write_len], so
    [ret] is converted to unsigned; the would-block test compares [ret]
    itself with the errno constants. *)
Inductive write_outcome :=
| WriteFull | WritePartial | WriteWouldBlock | WriteErr | WriteClosed.

Definition classify_write (ret write_len : Z) : write_outcome :=
  if u64 ret =? write_len then WriteFull
  else if ret >? 0 then WritePartial
  else if ret <? 0 then
    if (ret =? EAGAIN) || (ret =? EWOULDBLOCK) then WriteWouldBlock
    else WriteErr
  else WriteClosed.

(** write(): the next result of the socket, or would-block. *)
Definition sys_write (vl : vectorloop_t) : Z * vectorloop_t :=
  match write_results vl with
  | (ret, e) :: rest =>
    (ret, set_write_results rest (if ret <? 0 then set_errno e vl else vl))
  | [] => (-1, set_errno EAGAIN vl)
  end.

(** The for loop over the queries of one connection.  The result is
    [done], [count], [new_queue] and the state. *)
Fixpoint tcp_write_queries (fuel : nat) (vl : vectorloop_t) (conn : nat)
    (i : Z) (count : Z) (new_queue : conn_fifo_queue_t)
    : option (bool * Z * conn_fifo_queue_t * vectorloop_t) :=
  match fuel with
  | O => None
  | S fuel' =>
    c ← conns vl !! conn;
    conn_tcp ← tcp c;
    if i <? queries_count conn_tcp then
      query ← queries conn_tcp !! Z.to_nat i;
      let count := count + 1 in
      if end_code query >=? 0 then
        let write_len := u64 (response_buffer_len query - write_index conn_tcp) in
        let '(ret, vl) := sys_write vl in
        let upd (f : conn_tcp_t → conn_tcp_t) (vl : vectorloop_t) :=
          set_conns (alter (fun c => set_tcp (f <$> tcp c) c) conn (conns vl)) vl in
        let upd_query (f : query_t → query_t) :=
          upd (fun t => set_queries (alter f (Z.to_nat i) (queries t)) t) in
        match classify_write ret write_len with
        | WriteFull =>
          (* Full query written. *)
          tcp_write_queries fuel' (upd (set_write_index 0) vl) conn (i + 1)
            count new_queue
        | WritePartial =>
          let vl := upd (fun t => set_query_write_index i
                            (set_write_index (u64 (write_index t + ret)) t)) vl in
          '(h, new_queue) ← conn_fifo_enqueue_write (conns vl) new_queue conn;
          Some (true, count, new_queue, set_conns h vl)
        | WriteWouldBlock => Some (true, count, new_queue, vl)
        | WriteErr =>
          let vl := upd_query (set_end_code rip_ns_r_rip_tcp_write_err) vl in
          let vl := upd (fun t => set_end_time (clock vl)
                            (set_state TCP_CONN_ST_WRITE_ERR t)) vl in
          Some (false, count, new_queue, vl)
        | WriteClosed =>
          let vl := upd_query (set_end_code rip_ns_r_rip_tcp_write_close) vl in
          let vl := upd (fun t => set_end_time (clock vl)
                            (set_state TCP_CONN_ST_CLOSED_FOR_WRITE t)) vl in
          Some (false, count, new_queue, vl)
        end
      else tcp_write_queries fuel' vl conn (i + 1) count new_queue
    else Some (false, count, new_queue, vl)
  end.

(** The while loop over the TCP write queue. *)
Fixpoint tcp_write_loop (fuel : nat) (vl : vectorloop_t) (count : Z)
    (new_queue : conn_fifo_queue_t)
    : option (vectorloop_t * Z * conn_fifo_queue_t) :=
  match fuel with
  | O => None
  | S fuel' =>
    '(conn, h, wq) ← conn_fifo_dequeue_write (conns vl)
                       (conn_tcp_write_queue vl);
    let vl := set_conn_tcp_write_queue wq (set_conns h vl) in
    match conn with
    | None => Some (vl, count, new_queue)
    | Some conn =>
      c ← conns vl !! conn;
      conn_tcp ← tcp c;
      '(done', count, new_queue, vl) ←
         tcp_write_queries
           (Z.to_nat (queries_count conn_tcp - query_write_index conn_tcp) + 1)
           vl conn (query_write_index conn_tcp) count new_queue;
      if (done' : bool) then tcp_write_loop fuel' vl count new_queue
      else
        (* Move conn to log queue. *)
        '(h, lq) ← conn_fifo_enqueue_gen (conns vl) (query_log_queue vl) conn;
        tcp_write_loop fuel' (set_query_log_queue lq (set_conns h vl))
          count new_queue
    end
  end.

(** vl_fn_tcp_write.  The requeue at the end stores [new_queue.head] in
    both [head] and [tail]. *)
Definition vl_fn_tcp_write (vl : vectorloop_t) : option (Z * vectorloop_t) :=
  '(vl, count, new_queue) ← tcp_write_loop remove_fuel vl 0 queue_empty;
  let vl := if head new_queue is Some _
            then set_conn_tcp_write_queue
                   {| head := head new_queue; tail := head new_queue |} vl
            else vl in
  Some (count, vl).

(** The while loop of vl_fn_tcp_conn_release. *)
Fixpoint tcp_conn_release_loop (fuel : nat) (vl : vectorloop_t)
    : option vectorloop_t :=
  match fuel with
  | O => None
  | S fuel' =>
    '(conn, h, rq) ← conn_fifo_dequeue_release (conns vl)
                       (conn_tcp_release_queue vl);
    let vl := set_conn_tcp_release_queue rq (set_conns h vl) in
    match conn with
    | None => Some vl
    | Some conn =>
      (* Remove TCP conn from TCP CONN TRACK LRU HASH. *)
      let vl := set_conn_tcp_lru_cache
                  (LRU_CACHE_DEL (conn_tcp_lru_cache vl) conn) vl in
      (* Deregister fd from epoll, close it. *)
      c ← conns vl !! conn;
      let vl := if fd c >=? 0
                then set_conns (alter (set_fd (-1)) conn (conns vl)) vl
                else vl in
      (* Remove conn from read or write queue. *)
      '(h, rdq) ← conn_fifo_remove_from_read_queue (conns vl)
                     (conn_tcp_read_queue vl) conn;
      let vl := set_conn_tcp_read_queue rdq (set_conns h vl) in
      '(h, wrq) ← conn_fifo_remove_from_write_queue (conns vl)
                     (conn_tcp_write_queue vl) conn;
      let vl := set_conn_tcp_write_queue wrq (set_conns h vl) in
      (* conn_release(conn): the object is freed. *)
      let vl := set_conns (delete conn (conns vl)) vl in
      let vl := set_conns_tcp_active (u64 (conns_tcp_active vl - 1)) vl in
      tcp_conn_release_loop fuel' vl
    end
  end.

Definition vl_fn_tcp_conn_release (vl : vectorloop_t) : option vectorloop_t :=
  tcp_conn_release_loop remove_fuel vl.

End Vectorloop.

(* ===================================================================== *)
(** * ripples.c: the resource loop waiting for acknowledgements *)
(* ===================================================================== *)

Module Resource.

(** constants.h.  The unit of the maximum wait is nanoseconds. *)
Definition VL_RESOURCE_NOTIFY_WAIT_TIME_MAX : Z := 1000000000.
Definition CHANNEL_BSS_QUEUE_LEN : nat := 2.

Inductive resource_loop_states :=
| CHECK_RESOURCE
| GET_NEXT_RESOURCE
| WAIT_FOR_RESOURCE_UPDATE.

(** channel_bss_msg_t *)
Record channel_bss_msg_t := {
  msg_id : Z;
  msg_op : Z;
  msg_p : option Z;
  msg_result : Z;
}.

(** channel_bss_t: [ch_bss] carries messages from the resource thread to
    the vectorloop, [ch_vl] the replies of the vectorloop. *)
Record channel_bss_t := {
  ch_bss : list channel_bss_msg_t;
  ch_vl : list channel_bss_msg_t;
}.

(** The local variables of resource_loop that the broadcast and the wait
    use, the channels, the messages sent to the application log (text id
    and fatal flag) and the time spent in clock_nanosleep, in nanoseconds. *)
Record resource_loop_t := {
  state : resource_loop_states;
  vl_notifications : list bool;
  vectorloop_update_wait_time : Z;
  channel_msg_id_base : Z;
  current_resource : option Z;
  incoming_resource : option Z;
  released : list Z;
  resource_channels : list channel_bss_t;
  app_log : list (Z * bool);
  slept_ns : Z;
}.

(** Text id of the one message the wait can log. *)
Definition MSG_RESOURCE_UPDATE_TIMED_OUT : Z := 1.

(** channel_bss_send: 1 on success, 0 when the queue is full. *)
Definition channel_bss_send (ch : channel_bss_t) (m : channel_bss_msg_t)
    : Z * channel_bss_t :=
  if (length (ch_bss ch) <? CHANNEL_BSS_QUEUE_LEN)%nat
  then (1, {| ch_bss := ch_bss ch ++ [m]; ch_vl := ch_vl ch |})
  else (0, ch).

(** channel_bssvl_recv *)
Definition channel_bssvl_recv (ch : channel_bss_t)
    : option channel_bss_msg_t * channel_bss_t :=
  match ch_vl ch with
  | m :: rest => (Some m, {| ch_bss := ch_bss ch; ch_vl := rest |})
  | [] => (None, ch)
  end.

(** resource_vls_notified: the for loop from index [i] on. *)
Fixpoint resource_vls_notified (chans : list channel_bss_t)
    (notifs : list bool) : bool * list channel_bss_t * list bool :=
  match chans, notifs with
  | ch :: chans', n :: notifs' =>
    if negb n then
      match channel_bssvl_recv ch with
      | (Some _, ch') =>
        let '(r, cs, ns) := resource_vls_notified chans' notifs' in
        (r, ch' :: cs, true :: ns)
      | (None, _) => (false, chans, notifs)
      end
    else
      let '(r, cs, ns) := resource_vls_notified chans' notifs' in
      (r, ch :: cs, n :: ns)
  | _, _ => (true, chans, notifs)
  end.

(** The broadcast of case CHECK_RESOURCE when check_load returned 1 with
    the new resource [new_resource]. *)
Fixpoint broadcast (chans : list channel_bss_t) (id_base op new_resource : Z)
    : Z * list channel_bss_t :=
  match chans with
  | [] => (id_base, [])
  | ch :: rest =>
    let id := id_base + 1 in
    let m := {| msg_id := id; msg_op := op; msg_p := Some new_resource;
                msg_result := 0 |} in
    let '(id_base', rest') := broadcast rest id op new_resource in
    (id_base', snd (channel_bss_send ch m) :: rest')
  end.

Definition check_resource_updated (op new_resource : Z) (st : resource_loop_t)
    : resource_loop_t :=
  let '(id_base, chans) :=
    broadcast (resource_channels st) (channel_msg_id_base st) op new_resource in
  {| state := WAIT_FOR_RESOURCE_UPDATE;
     vl_notifications := map (fun _ => false) (resource_channels st);
     vectorloop_update_wait_time := 0;
     channel_msg_id_base := id_base;
     current_resource := current_resource st;
     incoming_resource := Some new_resource;
     released := released st;
     resource_channels := chans;
     app_log := app_log st;
     slept_ns := slept_ns st |}.

(** One pass through case WAIT_FOR_RESOURCE_UPDATE of the switch. *)
Definition wait_for_resource_update (st : resource_loop_t) : resource_loop_t :=
  let '(all, chans, notifs) :=
    resource_vls_notified (resource_channels st) (vl_notifications st) in
  if all then
    {| state := GET_NEXT_RESOURCE;
       vl_notifications := notifs;
       vectorloop_update_wait_time := vectorloop_update_wait_time st;
       channel_msg_id_base := channel_msg_id_base st;
       current_resource := incoming_resource st;
       incoming_resource := None;
       released := released st ++ option_list (current_resource st);
       resource_channels := chans;
       app_log := app_log st;
       slept_ns := slept_ns st |}
  else
    {| state := state st;
       vl_notifications := notifs;
       vectorloop_update_wait_time := vectorloop_update_wait_time st;
       channel_msg_id_base := channel_msg_id_base st;
       current_resource := current_resource st;
       incoming_resource := incoming_resource st;
       released := released st;
       resource_channels := chans;
       app_log :=
         if vectorloop_update_wait_time st >? VL_RESOURCE_NOTIFY_WAIT_TIME_MAX
         then app_log st ++ [(MSG_RESOURCE_UPDATE_TIMED_OUT, true)]
         else app_log st;
       slept_ns := slept_ns st + 1000 |}.

(** [n] passes of the while loop starting in state WAIT_FOR_RESOURCE_UPDATE;
    the passes stop counting once the state is left. *)
Fixpoint wait_passes (n : nat) (st : resource_loop_t) : resource_loop_t :=
  match n with
  | O => st
  | S n' =>
    match state st with
    | WAIT_FOR_RESOURCE_UPDATE => wait_passes n' (wait_for_resource_update st)
    | _ => st
    end
  end.

(** No reply has arrived from the first shard that still has to
    acknowledge: resource_vls_notified returns false and changes nothing. *)
Definition unanswered (st : resource_loop_t) : Prop :=
  resource_vls_notified (resource_channels st) (vl_notifications st)
  = (false, resource_channels st, vl_notifications st).

End Resource.

(* ===================================================================== *)
(** * The specification's reading of a Client Subnet option *)
(* ===================================================================== *)

Module CsSpec.
Import Wire Query QueryParse.

(** The acceptance condition as the specification words it, for the option
    of [buf_len] bytes at offset [buf] of [mem]: at least 4 bytes; family 1
    with source mask <= 32 and at most 4 address bytes, or family 2 with
    source mask <= 128 and at most 16 address bytes; scope mask 0; the
    address byte count (the option length minus the 4 header bytes) equals
    ceil(source_mask / 8); and the bits of the last address byte beyond the
    source mask are zero. *)
Definition spec_cs_accepts (mem : list Z) (buf buf_len : Z) : bool :=
  let family := RIP_NS_GET16 mem buf in
  let source := rd mem (buf + 2) in
  let scope := rd mem (buf + 3) in
  let address_bytes := buf_len - 4 in
  let last := rd mem (buf + 4 + address_bytes - 1) in
  (4 <=? buf_len)
  && (((family =? 1) && (source <=? 32) && (address_bytes <=? 4))
      || ((family =? 2) && (source <=? 128) && (address_bytes <=? 16)))
  && (scope =? 0)
  && (address_bytes =? (source + 7) / 8)
  && ((source mod 8 =? 0) || (last mod 2 ^ (8 - source mod 8) =? 0)).

(** A client subnet object whose raw buffer is the [buf_len] bytes at [buf]. *)
Definition cs_at (buf buf_len : Z) : edns_client_subnet_t :=
  set_cs_raw buf buf_len QueryInit.edns_cs_zero.

(** The two trailing-bit tests side by side, for a remainder [r] and a last
    byte [comp]: the C test and the specification's. *)
Definition c_trailing_ok (r comp : Z) : bool :=
  negb ((comp >? 0) && negb (Z.land (u8 (Z.shiftl 255 (8 - r))) comp =? comp)).

Definition spec_trailing_ok (r comp : Z) : bool := comp mod 2 ^ (8 - r) =? 0.

End CsSpec.

(* ===================================================================== *)
(** * The contents of a FIFO queue *)
(* ===================================================================== *)

Module QueueSpec.
Import Conn.

(** The connections [l], in order, are linked through their read handles:
    each one is allocated and points to the next (the handle of the last is
    not looked at). *)
Definition read_chain (h : heap) (l : list nat) : Prop :=
  forall i a, l !! i = Some a ->
    exists c, h !! a = Some c
      /\ forall b, l !! S i = Some b -> read_q_handle c = Some b.

(** [queue] holds exactly the connections [l], front first. *)
Definition read_queue_is (h : heap) (queue : conn_fifo_queue_t)
    (l : list nat) : Prop :=
  NoDup l /\ read_chain h l
  /\ head queue = l !! 0%nat /\ tail queue = last l.

End QueueSpec.

(* ===================================================================== *)
(** * The records of a packed message, read back from its bytes *)
(* ===================================================================== *)

Module MsgSpec.
Import Wire Header Query QueryPack.

(** A packed name at offset [p] of [buf] that ends just before offset [e]:
    labels of 1 to 63 bytes up to the zero byte of the root, or up to a
    compression pointer.  The target of a pointer, an offset from [msg], is
    a label of a name packed earlier, which ends at or before [p].  Every
    byte the name depends on lies between [lo] and [e]. *)
Inductive name_at (buf : list Z) (msg lo : Z) : Z -> Z -> Prop :=
| name_at_end (p : Z) :
    lo <= p -> rd buf p = 0 -> name_at buf msg lo p (p + 1)
| name_at_label (p e : Z) :
    lo <= p -> 1 <= rd buf p <= 63 ->
    name_at buf msg lo (p + 1 + rd buf p) e ->
    name_at buf msg lo p e
| name_at_ptr (p t e' : Z) :
    lo <= p ->
    Z.land (rd buf p) RIP_NS_CMPRSFLGS = RIP_NS_CMPRSFLGS ->
    t = msg + Z.lor (Z.shiftl (Z.land (rd buf p) 63) 8) (rd buf (p + 1)) ->
    1 <= rd buf t <= 63 ->
    name_at buf msg lo t e' -> e' <= p ->
    name_at buf msg lo p (p + 2).

(** The names the array of previously packed names points to (entries 1
    to [lpp - 1]) are packed names that end at or before [hi]. *)
Definition names_ok (buf : list Z) (msg lo hi : Z) (arr : list (option Z))
    (lpp : nat) : Prop :=
  forall i, (1 <= i < lpp)%nat ->
    exists sp e, arr !! i = Some (Some sp)
                 /\ name_at buf msg lo sp e /\ e <= hi.

(** The array of previously packed names of a message whose names end at
    or before [hi]: entry 0 is the start of the message, and the entries up
    to the first NULL are packed names. *)
Definition names_inv (buf : list Z) (msg lo hi : Z) (arr : list (option Z))
    : Prop :=
  arr !! 0%nat = Some (Some msg)
  /\ names_ok buf msg lo hi arr (first_null (drop 1 arr) 1).

(** [k] resource records packed one after the other from [p] to [e]: each
    is a packed name of at most 255 bytes, the 10 fixed bytes and as many
    bytes of rdata as its RDLENGTH field says. *)
Inductive rrs_at (buf : list Z) (msg lo : Z) : nat -> Z -> Z -> Prop :=
| rrs_at_nil (p : Z) : rrs_at buf msg lo 0 p p
| rrs_at_snoc (k : nat) (p e e1 : Z) :
    rrs_at buf msg lo k p e ->
    name_at buf msg lo e e1 -> e1 - e <= RIP_NS_MAXCDNAME ->
    0 <= RIP_NS_GET16 buf (e1 + 8) ->
    rrs_at buf msg lo (S k) p
      (e1 + RIP_NS_RRFIXEDSZ + RIP_NS_GET16 buf (e1 + 8)).

(** The wire form of a name in a buffer of its own: labels of 1 to 63
    bytes from [p] to the zero byte at [e - 1]. *)
Inductive labels_to (src : list Z) : Z -> Z -> Prop :=
| labels_to_end (p : Z) : rd src p = 0 -> labels_to src p (p + 1)
| labels_to_label (p e : Z) :
    1 <= rd src p <= 63 -> labels_to src (p + 1 + rd src p) e ->
    labels_to src p e.






(** The most bytes the packer can use: a name of RIP_NS_MAXCDNAME bytes,
    the fixed bytes and the rdata for every record, and an OPT record with
    a Client Subnet option whose lengths are uint8_t values. *)
Definition rr_room (rr : rr_record_t) : Z :=
  RIP_NS_MAXCDNAME + RIP_NS_RRFIXEDSZ + rdata_len rr.

Definition section_room (rrs : list rr_record_t) : Z :=
  fold_right (fun rr a => rr_room rr + a) 0 rrs.

Definition edns_room : Z := 1 + RIP_NS_RRFIXEDSZ + 4 + 255.

Definition pack_room (q : query_t) : Z :=
  HFIXEDSZ
  + section_room (sect (answer_section q) (answer_section_count q))
  + section_room (sect (authority_section q) (authority_section_count q))
  + section_room (sect (additional_section q) (additional_section_count q))
  + edns_room.

(** Every section array holds the records its count announces, and the
    count of the additional section leaves room for the OPT record. *)
Definition sections_filled (q : query_t) : bool :=
  (answer_section_count q <=? Z.of_nat (length (answer_section q)))
  && (authority_section_count q <=? Z.of_nat (length (authority_section q)))
  && (additional_section_count q
      <=? Z.of_nat (length (additional_section q)))
  && (additional_section_count q <? 255).

End MsgSpec.

(* ===================================================================== *)
(** * Uncompressed names and their presentation form *)
(* ===================================================================== *)

Module NameSpec.
Import Wire.

(** An uncompressed name in wire format, given by its labels: every label
    preceded by its length byte, then the zero byte of the root. *)
Definition wire_of (labels : list (list Z)) : list Z :=
  flat_map (fun l => Z.of_nat (length l) :: l) labels ++ [0].

(** A label holds 1 to 63 bytes. *)
Definition label_valid (l : list Z) : bool :=
  (1 <=? Z.of_nat (length l)) && (Z.of_nat (length l) <=? 63)
  && forallb (fun c => (0 <=? c) && (c <? 256)) l.

(** A valid name: valid labels and at most RIP_NS_MAXCDNAME bytes in all. *)
Definition name_valid (labels : list (list Z)) : bool :=
  forallb label_valid labels
  && (Z.of_nat (length (wire_of labels)) <=? RIP_NS_MAXCDNAME).

(** The characters rip_ns_name_ntop writes for one byte of a label. *)
Definition esc (c : Z) : list Z :=
  if special c then [92; c]
  else if negb (printable c)
  then [92; 48 + c / 100; 48 + (c mod 100) / 10; 48 + c mod 10]
  else [c].

Definition esc_label (l : list Z) : list Z := flat_map esc l.

(** The presentation form of a name: "." for the root, otherwise the
    escaped labels separated by dots, with no trailing dot. *)
Definition text_of (labels : list (list Z)) : list Z :=
  match labels with
  | [] => [46]
  | l :: ls => esc_label l ++ flat_map (fun l => 46 :: esc_label l) ls
  end.

(** www.example.com *)
Definition www_example_com : list (list Z) :=
  [[119; 119; 119]; [101; 120; 97; 109; 112; 108; 101]; [99; 111; 109]].

End NameSpec.

(* ===================================================================== *)
(** * Concrete requests and states used by the evaluation lemmas *)
(* ===================================================================== *)

Module Scenario.
Import Wire Header Query QueryParse QueryInit QueryResolve QueryPack.

(** A 260-byte Client Subnet option: family 1, source mask 0, scope mask 0,
    followed by 256 address bytes. *)
Definition cs_option_260 : list Z := [0; 1; 0; 0] ++ repeat 255 256.

(** The three per-query stages of the vectorloop for one UDP query, in the
    order vl_run calls them: parse; resolve when end_code is still -1; pack
    when end_code >= 0.  The static resolver records are bound to this
    query's label, as on the first query a process serves. *)
Definition serve_udp (request : list Z) : option query_t :=
  let q := with_request request (Z.of_nat (length request))
             (query_reset (query_init 1542 0)) in
  q ← (if request_buffer_len q >? RIP_NS_PACKETSZ
       then Some (set_end_code rip_ns_r_rip_toolarge q)
       else query_parse q);
  let q := if end_code q =? -1
           then query_resolve (query_label q) (query_label_len q) q else q in
  if end_code q >=? 0 then snd <$> query_response_pack q else Some q.

(** The bytes sent for a served query. *)
Definition response_bytes (q : query_t) : list Z :=
  take (Z.to_nat (response_buffer_len q)) (response_buffer q).

(** Header id 0x1ff9, RD set, QDCOUNT 1 and the given ARCOUNT, then the
    question www.example.com A IN. *)
Definition www_question (arcount : Z) : list Z :=
  [31; 249; 1; 32; 0; 1; 0; 0; 0; 0; 0; arcount;
   3; 119; 119; 119; 7; 101; 120; 97; 109; 112; 108; 101; 3; 99; 111; 109; 0;
   0; 1; 0; 1].

(** An OPT record: root name, TYPE 41, CLASS 4096, then the four TTL bytes
    (extended rcode, version, flags), RDLEN 0. *)
Definition opt_rr (ext_rcode version : Z) : list Z :=
  [0; 0; 41; 16; 0; ext_rcode; version; 0; 0; 0; 0].

(** Scenario "EDNS BADVERS": a valid question plus OPT with version 1. *)
Definition request_edns_version_1 : list Z := www_question 1 ++ opt_rr 0 1.

(** The same request with version 0 and the extended-rcode byte set to 1. *)
Definition request_edns_ext_rcode_1 : list Z := www_question 1 ++ opt_rr 1 0.

(** Question "." A IN followed by one additional record that is not OPT
    (root name, A, IN, TTL 0, RDLEN 4, 127.0.0.1); ARCOUNT is 1. *)
Definition request_one_additional : list Z :=
  [18; 52; 1; 0; 0; 1; 0; 0; 0; 0; 0; 1;
   0; 0; 1; 0; 1;
   0; 0; 1; 0; 1; 0; 0; 0; 0; 0; 4; 127; 0; 0; 1].

(** The per-query stages for one query received on a TCP connection whose
    buffers have the default size (3 * 514 bytes). *)
Definition serve_tcp (request : list Z) : option query_t :=
  let q := with_request request (Z.of_nat (length request))
             (query_reset (query_init 1542 1)) in
  q ← query_parse q;
  let q := if end_code q =? -1
           then query_resolve (query_label q) (query_label_len q) q else q in
  if end_code q >=? 0 then snd <$> query_response_pack q else Some q.

(** A TCP query holding one answer record of 600 bytes of rdata in a
    response buffer of 514 bytes. *)
Definition query_large_answer : query_t :=
  let q := query_reset (query_init 514 1) in
  let rr := {| name := [119; 119; 119]; name_len := 3; type := rip_ns_t_a;
               class := rip_ns_c_in; ttl := 60; rdata_len := 600;
               rdata := repeat 1 600 |} in
  set_end_code 0
    (set_answer_section_count 1 (set_answer_section [rr] q)).

(** The same answer record in a query that query_resolve has filled for
    "www.example.com": the authority section holds one record and the
    additional section two. *)
Definition query_large_answer_with_authority : query_t :=
  let q := query_resolve
             [119; 119; 119; 46; 101; 120; 97; 109; 112; 108; 101; 46; 99;
              111; 109] 15
             (query_reset (query_init 514 1)) in
  let rr := {| name := [119; 119; 119]; name_len := 3; type := rip_ns_t_a;
               class := rip_ns_c_in; ttl := 60; rdata_len := 600;
               rdata := repeat 1 600 |} in
  set_answer_section [rr] q.

(** A TCP query for "www.example.com" as query_resolve leaves it, in
    buffers of the default size. *)
Definition query_resolved_tcp : query_t :=
  query_resolve
    [119; 119; 119; 46; 101; 120; 97; 109; 112; 108; 101; 46; 99; 111; 109] 15
    (query_reset (query_init 1542 1)).

End Scenario.

Module VlScenario.
Import Wire Query QueryInit Conn Vectorloop.

Definition config (max_conns max_accept : Z) : config_t :=
  {| tcp_conns_per_vl_max := max_conns;
     tcp_listener_max_accept_new_conn := max_accept;
     tcp_query_recv_timeout := 2000;
     tcp_conn_simultaneous_queries_count := 1;
     tcp_writebuff_size := 514 |}.

(** The IPv4 TCP listener, socket 3, queued for accept. *)
Definition listener : conn_t :=
  {| cid := 0; lc := false; proto := 1; ip_version := 0;
     waiting_for_read := false; waiting_for_write := false;
     in_read_queue := true; in_write_queue := false;
     in_release_queue := false;
     read_q_handle := None; write_q_handle := None; gen_q_handle := None;
     fd := 3; tcp := None |}.

(** An IPv4 client connecting to an IPv4 local address. *)
Definition pending (i : nat) : accept_result :=
  AcceptOk {| pc_fd := 10 + Z.of_nat i; pc_client_family := AF_INET;
              pc_getsockname := None; pc_local_family := AF_INET |}.

(** A shard with no TCP connection yet, the listener (at address 0) in the
    accept queue and [n] clients waiting in its backlog. *)
Definition vl_listening (max_conns max_accept : Z) (n : nat) : vectorloop_t :=
  {| cfg := config max_conns max_accept;
     loop_timestamp := {| tv_sec := 100; tv_nsec := 0 |};
     conns_tcp_active := 0;
     conn_tcp_lru_cache := [];
     conn_tcp_id_base := 0;
     conn_tcp_accept_conns_queue := {| head := Some 0%nat; tail := Some 0%nat |};
     conn_tcp_read_queue := queue_empty;
     conn_tcp_write_queue := queue_empty;
     conn_tcp_release_queue := queue_empty;
     query_log_queue := queue_empty;
     conns := {[ 0%nat := listener ]};
     next_addr := 1;
     errno := 0;
     app_log := [];
     clock := {| tv_sec := 100; tv_nsec := 5 |};
     backlog := {[ 3 := map pending (seq 0 n) ]};
     write_results := [] |}.

(** An established connection (address 1, id 1, socket 10) with one query
    whose response of 120 bytes has been packed, queued for write as
    vl_fn_query_response_pack leaves it. *)
Definition conn_with_response : conn_t :=
  let q := set_response_buffer_len 120
             (set_end_code 0 (query_reset (query_init 514 1))) in
  {| cid := 1; lc := true; proto := 1; ip_version := 0;
     waiting_for_read := false; waiting_for_write := false;
     in_read_queue := false; in_write_queue := true;
     in_release_queue := false;
     read_q_handle := None; write_q_handle := None; gen_q_handle := None;
     fd := 10;
     tcp := Some
       {| query_write_index := 0; write_index := 0;
          queries := [q]; queries_size := 1; queries_count := 1;
          state := TCP_CONN_ST_WAIT_FOR_WRITE;
          start_time := {| tv_sec := 90; tv_nsec := 0 |};
          timeout := {| tv_sec := 102; tv_nsec := 0 |};
          end_time := {| tv_sec := 0; tv_nsec := 0 |} |} |}.

(** A shard whose only connection is [conn_with_response], with the given
    results of the coming write() calls. *)
Definition vl_writing (results : list (Z * Z)) : vectorloop_t :=
  {| cfg := config 100000 8;
     loop_timestamp := {| tv_sec := 100; tv_nsec := 0 |};
     conns_tcp_active := 1;
     conn_tcp_lru_cache := [(1, 1%nat)];
     conn_tcp_id_base := 1;
     conn_tcp_accept_conns_queue := queue_empty;
     conn_tcp_read_queue := queue_empty;
     conn_tcp_write_queue := {| head := Some 1%nat; tail := Some 1%nat |};
     conn_tcp_release_queue := queue_empty;
     query_log_queue := queue_empty;
     conns := {[ 1%nat := conn_with_response ]};
     next_addr := 2;
     errno := 0;
     app_log := [];
     clock := {| tv_sec := 100; tv_nsec := 5 |};
     backlog := ∅;
     write_results := results |}.

(** The write stage writes 10 of the 120 bytes, which keeps the connection
    in the write queue; then the timeout stage finds the connection expired
    and enqueues it for release; then the release stage runs. *)
Definition partial_write_then_release : option vectorloop_t :=
  '(_, vl) ← vl_fn_tcp_write (vl_writing [(10, 0)]);
  '(h, rq) ← conn_fifo_enqueue_release (conns vl) (conn_tcp_release_queue vl) 1;
  vl_fn_tcp_conn_release (set_conn_tcp_release_queue rq (set_conns h vl)).

(** What the lemmas look at in a connection. *)
Definition conn_view (vl : vectorloop_t) (a : nat) :=
  c ← conns vl !! a;
  t ← tcp c;
  Some (state t, waiting_for_write c, in_write_queue c,
        end_code <$> queries t).

(** Two connections (addresses 1 and 2) linked into a read queue, 1 at the
    front, and a third (address 3) that is in no queue. *)
Definition conn_queued (next : option nat) : conn_t :=
  set_read_q_handle next (set_in_read_queue true listener).

Definition heap_two_queued : heap :=
  {[ 1%nat := conn_queued (Some 2%nat); 2%nat := conn_queued None;
     3%nat := set_in_read_queue false listener ]}.

Definition queue_two : conn_fifo_queue_t :=
  {| head := Some 1%nat; tail := Some 2%nat |}.

End VlScenario.

Module ResScenario.
Import Resource.

(** A resource loop serving [n] shards, idle, with empty channels. *)
Definition idle (n : nat) : resource_loop_t :=
  {| state := CHECK_RESOURCE;
     vl_notifications := repeat false n;
     vectorloop_update_wait_time := 0;
     channel_msg_id_base := 0;
     current_resource := None;
     incoming_resource := None;
     released := [];
     resource_channels := repeat {| ch_bss := []; ch_vl := [] |} n;
     app_log := [];
     slept_ns := 0 |}.

End ResScenario.


(* ===================================================================== *)
(** * Properties *)
(* ===================================================================== *)

(** [lia] after turning divisions and remainders into equations. *)
Ltac dlia := Z.div_mod_to_equations; lia.

Section Bytes.

Lemma rd_byte (buf : list Z) (p : Z) : bytes buf -> 0 <= rd buf p < 256.
Proof.
  intros Hb. unfold rd. destruct (p <? 0); [lia|].
  destruct (buf !! Z.to_nat p) as [b|] eqn:E; simpl; [|lia].
  eapply Forall_lookup_1 in Hb; eauto.
Qed.

Lemma wr_length (buf : list Z) (p v : Z) : length (wr buf p v) = length buf.
Proof. unfold wr. destruct (p <? 0); [done|]. apply length_insert. Qed.

Lemma wr_bytes_length (src buf : list Z) (p : Z) :
  length (wr_bytes buf p src) = length buf.
Proof.
  revert buf p. induction src as [|b src IH]; intros buf p; simpl; [done|].
  rewrite IH. apply wr_length.
Qed.

Lemma rd_wr_eq (buf : list Z) (p v : Z) :
  0 <= p < Z.of_nat (length buf) -> rd (wr buf p v) p = v.
Proof.
  intros Hp. unfold rd, wr. destruct (p <? 0) eqn:E; [lia|].
  rewrite list_lookup_insert_eq; [done|lia].
Qed.

Lemma rd_wr_ne (buf : list Z) (p p' v : Z) :
  p <> p' -> rd (wr buf p v) p' = rd buf p'.
Proof.
  intros Hne. unfold rd, wr.
  destruct (p' <? 0) eqn:E'; [done|]. destruct (p <? 0) eqn:E; [done|].
  rewrite list_lookup_insert_ne; [done|lia].
Qed.

Lemma rd_wr_bytes_lt (src buf : list Z) (p p' : Z) :
  p' < p -> rd (wr_bytes buf p src) p' = rd buf p'.
Proof.
  revert buf p. induction src as [|b src IH]; intros buf p Hlt; simpl; [done|].
  rewrite IH by lia. apply rd_wr_ne. lia.
Qed.

(** A boolean test that holds on a whole integer range, decided by running
    it on the range. *)
Lemma range_forallb (P : Z -> bool) (lo : Z) (n : nat) :
  forallb P (map (fun i => lo + Z.of_nat i) (seq 0 n)) = true ->
  forall x, lo <= x < lo + Z.of_nat n -> P x = true.
Proof.
  intros H x Hx. rewrite forallb_forall in H. apply H.
  apply in_map_iff. exists (Z.to_nat (x - lo)). split; [lia|].
  apply in_seq. lia.
Qed.

End Bytes.

(* --------------------------------------------------------------------- *)
(** ** EDNS Client Subnet parsing *)
(* --------------------------------------------------------------------- *)

Section ClientSubnet.
Import Wire Query QueryParse QueryInit CsSpec Scenario.

(** For a remainder 1..7 and a byte, the C test on the trailing bits and the
    specification's test agree. *)
Lemma trailing_tests_agree (r comp : Z) :
  1 <= r <= 7 -> 0 <= comp < 256 ->
  c_trailing_ok r comp = spec_trailing_ok r comp.
Proof.
  intros Hr Hc.
  pose (P := fun r => forallb
    (fun c => eqb (c_trailing_ok r c) (spec_trailing_ok r c))
    (map (fun i => 0 + Z.of_nat i) (seq 0 256))).
  assert (HP : P r = true).
  { apply (range_forallb P 1 7); [vm_compute; reflexivity | lia]. }
  unfold P in HP.
  apply eqb_prop.
  apply (range_forallb _ 0 256 HP). lia.
Qed.

(** The checks after the family branches, for an address of
    [n = buf_len - 4] bytes. *)
Lemma cs_check_address_spec (mem : list Z) (buf n fam src scp : Z)
    (cs : edns_client_subnet_t) :
  bytes mem -> 0 <= src < 256 -> 0 <= n < 256 ->
  edns_cs_valid cs = false ->
  let r := cs_check_address mem (buf + 4) n fam src scp cs in
  (fst r = 0 <->
     (n =? (src + 7) / 8)
     && ((src mod 8 =? 0)
         || (rd mem (buf + 4 + n - 1) mod 2 ^ (8 - src mod 8) =? 0)) = true)
  /\ edns_cs_valid (snd r) = (fst r =? 0)
  /\ (fst r <> 0 -> fst r < 0).
Proof.
  intros Hb Hs Hn Hv.
  pose proof (Z.mod_pos_bound src 8 ltac:(lia)) as Hm8.
  pose proof (Z.div_mod src 8 ltac:(lia)) as Hd8.
  assert (Hceil : (src + 7) / 8
                  = if src mod 8 >? 0 then src / 8 + 1 else src / 8).
  { destruct (src mod 8 >? 0) eqn:E; dlia. }
  unfold cs_check_address.
  assert (Hr : u8 (src mod 8) = src mod 8) by (apply Z.mod_small; lia).
  assert (Hq : u8 (src / 8) = src / 8) by (apply Z.mod_small; lia).
  assert (Hq1 : u8 (src / 8 + 1) = src / 8 + 1) by (apply Z.mod_small; lia).
  rewrite Hr, Hq, Hq1, Hceil. cbv zeta.
  destruct (src mod 8 >? 0) eqn:Er.
  - assert ((src mod 8 =? 0) = false) as -> by lia.
    rewrite orb_false_l.
    destruct (src / 8 + 1 =? n) eqn:Ea.
    + assert (n = src / 8 + 1) as -> by lia.
      rewrite Z.eqb_refl. cbn [negb andb].
      set (comp := rd mem (buf + 4 + (src / 8 + 1) - 1)).
      pose proof (rd_byte mem (buf + 4 + (src / 8 + 1) - 1) Hb) as Hc.
      fold comp in Hc.
      pose proof (trailing_tests_agree (src mod 8) comp ltac:(lia) Hc) as Ht.
      unfold c_trailing_ok, spec_trailing_ok in Ht. rewrite <- Ht.
      destruct ((comp >? 0)
                && negb (Z.land (u8 (Z.shiftl 255 (8 - src mod 8))) comp =? comp));
        cbn [negb fst snd edns_cs_valid].
      * rewrite Hv. split; [|split]; [split; [lia|done]|done|lia].
      * split; [|split]; [split; [done|lia]|done|lia].
    + assert ((n =? src / 8 + 1) = false) as -> by lia.
      cbn [negb andb fst snd]. rewrite Hv.
      split; [|split]; [split; [lia|done]|done|lia].
  - assert ((src mod 8 =? 0) = true) as -> by lia.
    rewrite orb_true_l, andb_true_r.
    destruct (src / 8 =? n) eqn:Ea.
    + assert ((n =? src / 8) = true) as -> by lia.
      cbn [negb andb fst snd edns_cs_valid].
      assert ((0 >? 0) = false) as -> by done. cbn [andb fst snd edns_cs_valid].
      split; [|split]; [split; [done|lia]|done|lia].
    + assert ((n =? src / 8) = false) as -> by lia.
      cbn [negb fst snd]. rewrite Hv.
      split; [|split]; [split; [lia|done]|done|lia].
Qed.

(** X13. Below 260 bytes the parser accepts exactly the options the
    specification describes; [edns_cs_valid] tells success, and a failure
    is reported by a negative code. *)
Lemma cs_parse_matches_spec_below_260 (mem : list Z) (buf buf_len : Z) :
  bytes mem -> 0 <= buf_len < 260 ->
  let r := query_parse_edns_ext_cs mem (cs_at buf buf_len) in
  (fst r = 0 <-> spec_cs_accepts mem buf buf_len = true)
  /\ edns_cs_valid (snd r) = (fst r =? 0)
  /\ (fst r <> 0 -> fst r < 0).
Proof.
  intros Hb Hlen.
  pose proof (rd_byte mem (buf + 2) Hb) as Hs.
  pose proof (rd_byte mem (buf + 3) Hb) as Hsc.
  unfold query_parse_edns_ext_cs, spec_cs_accepts, cs_at.
  cbn [edns_cs_raw_buf edns_cs_raw_buf_len set_cs_raw set_cs_valid].
  set (fam := RIP_NS_GET16 mem buf).
  set (src := rd mem (buf + 2)) in *.
  set (scp := rd mem (buf + 3)) in *.
  clearbody fam src scp.
  destruct (buf_len <? 4) eqn:E4.
  { cbn [fst snd edns_cs_valid].
    assert ((4 <=? buf_len) = false) as -> by lia.
    split; [|split]; [split; [lia|done]|done|lia]. }
  assert ((4 <=? buf_len) = true) as -> by lia.
  assert (Hu : u8 (buf_len - 4) = buf_len - 4) by (apply Z.mod_small; lia).
  rewrite Hu. unfold RIP_NS_INADDRSZ, RIP_NS_IN6ADDRSZ.
  rewrite andb_true_l.
  destruct (fam =? 1) eqn:Ef1.
  - assert ((fam =? 2) = false) as -> by lia.
    rewrite !andb_true_l, !andb_false_l, orb_false_r.
    destruct ((src >? 32) || negb (scp =? 0) || (buf_len - 4 >? 4)) eqn:Eg.
    + cbn [fst snd edns_cs_valid].
      split; [|split]; [|done|lia].
      split; [lia|]. intros H.
      destruct (src <=? 32) eqn:?, (buf_len - 4 <=? 4) eqn:?,
               (scp =? 0) eqn:?; simpl in *; try done; lia.
    + assert ((src <=? 32) = true) as -> by lia.
      assert ((buf_len - 4 <=? 4) = true) as -> by lia.
      assert ((scp =? 0) = true) as -> by lia.
      rewrite !andb_true_l.
      apply (cs_check_address_spec mem buf (buf_len - 4)); [done|lia|lia|done].
  - rewrite !andb_false_l, orb_false_l.
    destruct (fam =? 2) eqn:Ef2.
    + rewrite !andb_true_l.
      destruct ((src >? 128) || negb (scp =? 0) || (buf_len - 4 >? 16)) eqn:Eg.
      * cbn [fst snd edns_cs_valid].
        split; [|split]; [|done|lia].
        split; [lia|]. intros H.
        destruct (src <=? 128) eqn:?, (buf_len - 4 <=? 16) eqn:?,
                 (scp =? 0) eqn:?; simpl in *; try done; lia.
      * assert ((src <=? 128) = true) as -> by lia.
        assert ((buf_len - 4 <=? 16) = true) as -> by lia.
        assert ((scp =? 0) = true) as -> by lia.
        rewrite !andb_true_l.
        apply (cs_check_address_spec mem buf (buf_len - 4)); [done|lia|lia|done].
    + cbn [fst snd edns_cs_valid andb].
      split; [|split]; [split; [lia|done]|done|lia].
Qed.

End ClientSubnet.

(* --------------------------------------------------------------------- *)
(** ** rip_ns_name_ntop and rip_ns_name_pton *)
(* --------------------------------------------------------------------- *)

Section NameText.
Import Wire NameSpec.

(** What the escapes of a byte look like to rip_ns_name_pton. *)
Lemma esc_facts (c : Z) :
  0 <= c < 256 ->
  (if special c then negb (c =? 0) && negb (is_digit c)
   else if printable c
   then negb (c =? 0) && negb (c =? 92) && negb (c =? 46)
   else is_digit (48 + c / 100) && is_digit (48 + (c mod 100) / 10)
        && is_digit (48 + c mod 10)
        && (c / 100 * 100 + (c mod 100) / 10 * 10 + c mod 10 =? c)) = true.
Proof.
  intros Hc.
  apply (range_forallb
           (fun c =>
              if special c then negb (c =? 0) && negb (is_digit c)
              else if printable c
              then negb (c =? 0) && negb (c =? 92) && negb (c =? 46)
              else is_digit (48 + c / 100) && is_digit (48 + (c mod 100) / 10)
                   && is_digit (48 + c mod 10)
                   && (c / 100 * 100 + (c mod 100) / 10 * 10 + c mod 10 =? c))
           0 256); [vm_compute; reflexivity|lia].
Qed.

Lemma label_len_flags (n : Z) :
  0 <= n < 64 -> (Z.land n RIP_NS_CMPRSFLGS =? 0) = true.
Proof.
  intros Hn.
  apply (range_forallb (fun n => Z.land n RIP_NS_CMPRSFLGS =? 0) 0 64);
    [vm_compute; reflexivity|lia].
Qed.

Lemma u8_small (c : Z) : 0 <= c < 256 -> u8 c = c.
Proof. intros H. unfold u8. apply Z.mod_small. lia. Qed.

(** *** One step of the loop of rip_ns_name_pton *)

Lemma pton_step_plain (c : Z) (src : list Z) (d : Z) (done cur : list Z) :
  c <> 0 -> c <> 92 -> c <> 46 ->
  Z.of_nat (length done) + 1 + Z.of_nat (length cur) < d ->
  rip_ns_name_pton_loop (c :: src) d false done cur
  = rip_ns_name_pton_loop src d false done (cur ++ [u8 c]).
Proof.
  intros H0 H1 H2 Hd. cbn [rip_ns_name_pton_loop].
  rewrite (proj2 (Z.eqb_neq c 0) H0), (proj2 (Z.eqb_neq c 92) H1),
    (proj2 (Z.eqb_neq c 46) H2).
  destruct (Z.of_nat (length done) + 1 + Z.of_nat (length cur) >=? d) eqn:E;
    [lia|reflexivity].
Qed.

Lemma pton_step_backslash (src : list Z) (d : Z) (done cur : list Z) :
  rip_ns_name_pton_loop (92 :: src) d false done cur
  = rip_ns_name_pton_loop src d true done cur.
Proof. reflexivity. Qed.

Lemma pton_step_escaped_char (c : Z) (src : list Z) (d : Z)
    (done cur : list Z) :
  c <> 0 -> is_digit c = false ->
  Z.of_nat (length done) + 1 + Z.of_nat (length cur) < d ->
  rip_ns_name_pton_loop (c :: src) d true done cur
  = rip_ns_name_pton_loop src d false done (cur ++ [u8 c]).
Proof.
  intros H0 H1 Hd. cbn [rip_ns_name_pton_loop].
  rewrite (proj2 (Z.eqb_neq c 0) H0), H1.
  destruct (Z.of_nat (length done) + 1 + Z.of_nat (length cur) >=? d) eqn:E;
    [lia|reflexivity].
Qed.

Lemma is_digit_nonzero (c : Z) : is_digit c = true -> (c =? 0) = false.
Proof. unfold is_digit. lia. Qed.

Lemma pton_step_escaped_digits (c1 c2 c3 : Z) (src : list Z) (d : Z)
    (done cur : list Z) :
  is_digit c1 = true -> is_digit c2 = true -> is_digit c3 = true ->
  (c1 - 48) * 100 + (c2 - 48) * 10 + (c3 - 48) <= 255 ->
  Z.of_nat (length done) + 1 + Z.of_nat (length cur) < d ->
  rip_ns_name_pton_loop (c1 :: c2 :: c3 :: src) d true done cur
  = rip_ns_name_pton_loop src d false done
      (cur ++ [u8 ((c1 - 48) * 100 + (c2 - 48) * 10 + (c3 - 48))]).
Proof.
  intros H1 H2 H3 Hn Hd. cbn [rip_ns_name_pton_loop].
  rewrite (is_digit_nonzero c1 H1), (is_digit_nonzero c2 H2),
    (is_digit_nonzero c3 H3), H1, H2, H3.
  cbn [negb orb].
  destruct ((c1 - 48) * 100 + (c2 - 48) * 10 + (c3 - 48) >? 255) eqn:E1;
    [lia|].
  destruct (Z.of_nat (length done) + 1 + Z.of_nat (length cur) >=? d) eqn:E;
    [lia|reflexivity].
Qed.

Lemma pton_step_dot (x : Z) (src : list Z) (d : Z) (done cur : list Z) :
  x <> 0 -> x <> 46 ->
  1 <= Z.of_nat (length cur) < 64 ->
  Z.of_nat (length done) < d ->
  rip_ns_name_pton_loop (46 :: x :: src) d false done cur
  = rip_ns_name_pton_loop (x :: src) d false
      (done ++ Z.of_nat (length cur) :: cur) [].
Proof.
  intros H0 H1 Hc Hd.
  change (rip_ns_name_pton_loop (46 :: x :: src) d false done cur)
    with (let n := Z.of_nat (length cur) in
          if negb (Z.land n RIP_NS_CMPRSFLGS =? 0) then (-1, [])
          else if Z.of_nat (length done) >=? d then (-1, [])
          else if x =? 0 then pton_close d done cur 1
          else if (n =? 0) || (x =? 46) then (-1, [])
          else rip_ns_name_pton_loop (x :: src) d false
                 (done ++ u8 n :: cur) []).
  cbv zeta. rewrite label_len_flags by lia. cbn [negb].
  rewrite (proj2 (Z.eqb_neq x 0) H0), (proj2 (Z.eqb_neq x 46) H1).
  rewrite u8_small by lia.
  destruct (Z.of_nat (length done) >=? d) eqn:E; [lia|].
  destruct (Z.of_nat (length cur) =? 0) eqn:E0; [lia|]. reflexivity.
Qed.

Lemma pton_step_end (junk : list Z) (d : Z) (done cur : list Z) :
  rip_ns_name_pton_loop (0 :: junk) d false done cur
  = pton_close d done cur 0.
Proof. reflexivity. Qed.

(** *** The escapes of one byte, of a label *)

Lemma pton_esc (c : Z) (tail : list Z) (d : Z) (done cur : list Z) :
  0 <= c < 256 ->
  Z.of_nat (length done) + 1 + Z.of_nat (length cur) < d ->
  rip_ns_name_pton_loop (esc c ++ tail) d false done cur
  = rip_ns_name_pton_loop tail d false done (cur ++ [c]).
Proof.
  intros Hc Hd. pose proof (esc_facts c Hc) as F. unfold esc.
  destruct (special c).
  - apply andb_true_iff in F. destruct F as [F0 F1].
    cbn [app]. rewrite pton_step_backslash.
    rewrite pton_step_escaped_char; [|lia|destruct (is_digit c); done|done].
    rewrite u8_small by done. reflexivity.
  - destruct (printable c); cbn [negb].
    + cbn [app]. rewrite pton_step_plain by lia.
      rewrite u8_small by done. reflexivity.
    + rewrite !andb_true_iff in F. destruct F as (((F1 & F2) & F3) & F4).
      cbn [app]. rewrite pton_step_backslash.
      rewrite pton_step_escaped_digits; [|done|done|done|lia|done].
      replace (48 + c / 100 - 48) with (c / 100) by lia.
      replace (48 + c mod 100 / 10 - 48) with (c mod 100 / 10) by lia.
      replace (48 + c mod 10 - 48) with (c mod 10) by lia.
      apply Z.eqb_eq in F4. rewrite F4, u8_small by done. reflexivity.
Qed.

Lemma pton_esc_label (tail : list Z) (d : Z) (done : list Z) :
  forall (l cur : list Z),
  bytes l ->
  Z.of_nat (length done) + 1 + Z.of_nat (length cur) + Z.of_nat (length l)
    <= d ->
  rip_ns_name_pton_loop (esc_label l ++ tail) d false done cur
  = rip_ns_name_pton_loop tail d false done (cur ++ l).
Proof.
  induction l as [|c l IH]; intros cur Hb Hd.
  - cbn [esc_label flat_map app]. rewrite app_nil_r. reflexivity.
  - apply Forall_cons in Hb. destruct Hb as [Hc Hb].
    cbn [esc_label flat_map]. rewrite <- app_assoc.
    cbn [length] in Hd.
    rewrite pton_esc by (done || lia).
    fold (esc_label l). rewrite IH; [|done|rewrite length_app; cbn [length]; lia].
    rewrite <- app_assoc. reflexivity.
Qed.

(** The first character written for a byte is neither NUL nor a dot. *)
Lemma esc_head (c : Z) :
  0 <= c < 256 -> exists x t, esc c = x :: t /\ x <> 0 /\ x <> 46.
Proof.
  intros Hc. pose proof (esc_facts c Hc) as F. unfold esc.
  destruct (special c); [exists 92, [c]; repeat split; lia|].
  destruct (printable c); cbn [negb].
  - exists c, []. repeat split; lia.
  - eexists 92, _. repeat split; lia.
Qed.

Lemma label_valid_elim (l : list Z) :
  label_valid l = true ->
  1 <= Z.of_nat (length l) <= 63 /\ bytes l.
Proof.
  unfold label_valid. rewrite !andb_true_iff. intros [[H1 H2] H3].
  split; [lia|]. unfold bytes. apply Forall_forall. intros c Hin.
  rewrite forallb_forall in H3. apply list_elem_of_In in Hin.
  specialize (H3 c Hin). lia.
Qed.

Lemma esc_label_head (l : list Z) (tail : list Z) :
  label_valid l = true ->
  exists x t, esc_label l ++ tail = x :: t /\ x <> 0 /\ x <> 46.
Proof.
  intros Hv. apply label_valid_elim in Hv. destruct Hv as [Hl Hb].
  destruct l as [|c l]; [cbn [length] in Hl; lia|].
  apply Forall_cons in Hb. destruct Hb as [Hc _].
  destruct (esc_head c Hc) as (x & t & E & H0 & H1).
  exists x, (t ++ esc_label l ++ tail).
  cbn [esc_label flat_map]. rewrite E. rewrite <- app_assoc.
  repeat split; done.
Qed.

Lemma wire_of_cons (l : list Z) (ls : list (list Z)) :
  wire_of (l :: ls) = Z.of_nat (length l) :: l ++ wire_of ls.
Proof.
  unfold wire_of. cbn [flat_map]. rewrite <- app_assoc. reflexivity.
Qed.

Lemma wire_of_cons_length (l : list Z) (ls : list (list Z)) :
  Z.of_nat (length (wire_of (l :: ls)))
  = 1 + Z.of_nat (length l) + Z.of_nat (length (wire_of ls)).
Proof. rewrite wire_of_cons. cbn [length]. rewrite length_app. lia. Qed.

(** *** rip_ns_name_pton on the presentation form *)

Lemma pton_labels (junk : list Z) (d : Z) :
  forall (ls : list (list Z)) (done cur : list Z),
  forallb label_valid ls = true ->
  1 <= Z.of_nat (length cur) < 64 ->
  Z.of_nat (length done) + 1 + Z.of_nat (length cur)
    + Z.of_nat (length (wire_of ls)) <= d ->
  Z.of_nat (length done) + 1 + Z.of_nat (length cur)
    + Z.of_nat (length (wire_of ls)) <= RIP_NS_MAXCDNAME ->
  rip_ns_name_pton_loop
    (flat_map (fun l => 46 :: esc_label l) ls ++ 0 :: junk) d false done cur
  = (0, done ++ Z.of_nat (length cur) :: cur ++ wire_of ls).
Proof.
  unfold RIP_NS_MAXCDNAME.
  induction ls as [|l ls IH]; intros done cur Hv Hc Hd Hm.
  - cbn [flat_map app]. rewrite pton_step_end. unfold pton_close. cbv zeta.
    unfold wire_of in *. cbn [flat_map app length] in *.
    rewrite label_len_flags by lia. cbn [negb].
    unfold RIP_NS_MAXCDNAME.
    destruct (Z.of_nat (length done) >=? d) eqn:E1; [lia|].
    destruct (Z.of_nat (length cur) =? 0) eqn:E2; [lia|]. cbn [negb].
    destruct (Z.of_nat (length done) + 1 + Z.of_nat (length cur) >=? d)
      eqn:E3; [lia|].
    destruct (Z.of_nat (length done) + 1 + Z.of_nat (length cur) + 1 >? 255)
      eqn:E4; [lia|].
    rewrite u8_small by lia. reflexivity.
  - cbn [forallb] in Hv. apply andb_true_iff in Hv. destruct Hv as [Hl Hv].
    pose proof (label_valid_elim l Hl) as [Hl1 Hlb].
    assert (Hw : Z.of_nat (length (wire_of (l :: ls)))
                 = 1 + Z.of_nat (length l) + Z.of_nat (length (wire_of ls))).
    { apply wire_of_cons_length. }
    rewrite Hw in Hd, Hm.
    cbn [flat_map]. rewrite <- !app_assoc. cbn [app].
    destruct (esc_label_head l
                (flat_map (fun l => 46 :: esc_label l) ls ++ 0 :: junk) Hl)
      as (x & t & E & H0 & H1).
    rewrite E, pton_step_dot by (done || lia). rewrite <- E.
    rewrite pton_esc_label; [|done|rewrite length_app; cbn [length]; lia].
    cbn [app].
    rewrite IH; [|done|lia|rewrite length_app; cbn [length]; lia
                 |rewrite length_app; cbn [length]; lia].
    f_equal. rewrite <- app_assoc. cbn [app]. f_equal. f_equal.
    unfold wire_of. cbn [flat_map]. rewrite <- !app_assoc. reflexivity.
Qed.

Lemma pton_text (labels : list (list Z)) (junk : list Z) (d : Z) :
  name_valid labels = true ->
  Z.of_nat (length (wire_of labels)) <= d ->
  rip_ns_name_pton (text_of labels ++ 0 :: junk) d
  = (match labels with [] => 1 | _ => 0 end, wire_of labels).
Proof.
  unfold name_valid. rewrite andb_true_iff. intros [Hv Hm] Hd.
  apply Z.leb_le in Hm. unfold rip_ns_name_pton.
  destruct labels as [|l ls].
  - cbn [text_of app wire_of flat_map length] in *.
    change (rip_ns_name_pton_loop (46 :: 0 :: junk) d false [] [])
      with (if 0 >=? d then (-1, []) else pton_close d [] [] 1).
    destruct (0 >=? d) eqn:E; [lia|].
    unfold pton_close. cbn [length]. change (Z.of_nat 0) with 0.
    cbv zeta. rewrite E. reflexivity.
  - cbn [forallb] in Hv. apply andb_true_iff in Hv. destruct Hv as [Hl Hv].
    pose proof (label_valid_elim l Hl) as [Hl1 Hlb].
    assert (Hw : Z.of_nat (length (wire_of (l :: ls)))
                 = 1 + Z.of_nat (length l) + Z.of_nat (length (wire_of ls))).
    { apply wire_of_cons_length. }
    rewrite Hw in Hd, Hm.
    cbn [text_of]. rewrite <- app_assoc.
    rewrite pton_esc_label; [|done|cbn [length]; lia].
    cbn [app].
    rewrite pton_labels; [|done|lia|cbn [length]; lia|cbn [length]; lia].
    cbn [app]. unfold wire_of. cbn [flat_map]. rewrite <- !app_assoc.
    reflexivity.
Qed.

(** *** rip_ns_name_ntop on the wire form *)

Lemma ntop_label (rest : list Z) (d : Z) :
  forall (l dst : list Z),
  bytes l ->
  let r := rip_ns_name_ntop_loop (l ++ rest) (Z.of_nat (length l)) d dst in
  let k := rip_ns_name_ntop_loop rest 0 d (dst ++ esc_label l) in
  (Z.of_nat (length dst) + Z.of_nat (length (esc_label l)) < d -> r = k)
  /\ (r = k \/ fst r = -1).
Proof.
  induction l as [|c l IH]; intros dst Hb; cbv zeta.
  - cbn [app length esc_label flat_map]. rewrite app_nil_r.
    change (Z.of_nat 0) with 0. split; [done|left; done].
  - apply Forall_cons in Hb. destruct Hb as [Hc Hb].
    cbn [app rip_ns_name_ntop_loop].
    destruct (Z.of_nat (length (c :: l)) =? 0) eqn:E0;
      [cbn [length] in E0; apply Z.eqb_eq in E0; lia|].
    replace (Z.of_nat (length (c :: l)) - 1) with (Z.of_nat (length l))
      by (cbn [length]; lia).
    cbn [esc_label flat_map]. fold (esc_label l). unfold esc.
    rewrite length_app.
    destruct (special c).
    + specialize (IH (dst ++ [92; c]) Hb). cbv zeta in IH.
      rewrite <- app_assoc in IH. rewrite length_app in IH.
      cbn [length app] in IH |- *.
      destruct (d - Z.of_nat (length dst) <? 2) eqn:E.
      * split; [lia|right; done].
      * destruct IH as [IH1 IH2]. split; [intros; apply IH1; lia|exact IH2].
    + destruct (printable c); cbn [negb].
      * specialize (IH (dst ++ [c]) Hb). cbv zeta in IH.
        rewrite <- app_assoc in IH. rewrite length_app in IH.
        cbn [length app] in IH |- *.
        destruct (d - Z.of_nat (length dst) <? 2) eqn:E.
        -- split; [lia|right; done].
        -- destruct IH as [IH1 IH2]. split; [intros; apply IH1; lia|exact IH2].
      * specialize (IH (dst ++ [92; 48 + c / 100; 48 + c mod 100 / 10;
                                48 + c mod 10]) Hb).
        cbv zeta in IH.
        rewrite <- app_assoc in IH. rewrite length_app in IH.
        cbn [length app] in IH |- *.
        destruct (d - Z.of_nat (length dst) <? 4) eqn:E.
        -- split; [lia|right; done].
        -- destruct IH as [IH1 IH2]. split; [intros; apply IH1; lia|exact IH2].
Qed.

Lemma ntop_labels (rest : list Z) (d : Z) :
  forall (ls : list (list Z)) (dst : list Z),
  forallb label_valid ls = true ->
  1 <= Z.of_nat (length dst) ->
  let r := rip_ns_name_ntop_loop (wire_of ls ++ rest) 0 d dst in
  let t := dst ++ flat_map (fun l => 46 :: esc_label l) ls in
  (Z.of_nat (length t) < d -> r = (Z.of_nat (length t), t ++ [0]))
  /\ (r = (Z.of_nat (length t), t ++ [0]) \/ fst r = -1).
Proof.
  induction ls as [|l ls IH]; intros dst Hv Hn; cbv zeta.
  - unfold wire_of. cbn [flat_map app]. rewrite app_nil_r.
    cbn [rip_ns_name_ntop_loop]. change (0 =? 0) with true. cbv iota.
    unfold ntop_finish. cbv zeta.
    destruct (Z.of_nat (length dst) =? 0) eqn:E0; [lia|]. cbn [andb].
    destruct (Z.of_nat (length dst) >=? d) eqn:E1.
    + split; [lia|right; done].
    + replace (Z.of_nat (length dst) + 1 - 1) with (Z.of_nat (length dst))
        by lia.
      split; [done|left; done].
  - cbn [forallb] in Hv. apply andb_true_iff in Hv. destruct Hv as [Hl Hv].
    pose proof (label_valid_elim l Hl) as [Hl1 Hlb].
    rewrite wire_of_cons. cbn [app]. rewrite <- app_assoc.
    cbn [rip_ns_name_ntop_loop]. change (0 =? 0) with true. cbv iota.
    destruct (Z.of_nat (length l) =? 0) eqn:E0; [lia|].
    destruct (Z.of_nat (length l) >=? 64) eqn:E1; [lia|].
    destruct (Z.of_nat (length dst) =? 0) eqn:E2; [lia|]. cbn [negb].
    destruct (d - Z.of_nat (length dst) <=? 0) eqn:E3.
    { split; [intros Hd; rewrite length_app in Hd; lia|right; done]. }
    pose proof (ntop_label (wire_of ls ++ rest) d l (dst ++ [46]) Hlb)
      as [L1 L2].
    assert (Hn' : 1 <= Z.of_nat (length ((dst ++ [46]) ++ esc_label l))).
    { rewrite !length_app. lia. }
    destruct (IH ((dst ++ [46]) ++ esc_label l) Hv Hn') as [I1 I2].
    replace (dst ++ flat_map (fun l0 => 46 :: esc_label l0) (l :: ls))
      with (((dst ++ [46]) ++ esc_label l) ++
            flat_map (fun l0 => 46 :: esc_label l0) ls)
      by (cbn [flat_map]; rewrite <- !app_assoc; reflexivity).
    split.
    + intros Hd. rewrite L1; [exact (I1 Hd)|].
      rewrite (length_app (_ ++ esc_label l)), (length_app _ (esc_label l))
        in Hd. lia.
    + destruct L2 as [L2|L2]; [rewrite L2; exact I2|right; exact L2].
Qed.

Lemma ntop_wire (labels : list (list Z)) (rest : list Z) (d : Z) :
  forallb label_valid labels = true ->
  let r := rip_ns_name_ntop (wire_of labels ++ rest) d in
  let t := text_of labels in
  (Z.of_nat (length t) < d -> r = (Z.of_nat (length t), t ++ [0]))
  /\ (r = (Z.of_nat (length t), t ++ [0]) \/ fst r = -1).
Proof.
  intros Hv. cbv zeta. unfold rip_ns_name_ntop.
  destruct labels as [|l ls].
  - unfold wire_of. cbn [flat_map app text_of length].
    cbn [rip_ns_name_ntop_loop]. change (0 =? 0) with true. cbv iota.
    unfold ntop_finish. cbn [length app]. cbv zeta.
    change (Z.of_nat 0) with 0. change (0 =? 0) with true. cbn [andb].
    destruct (0 >=? d) eqn:E0; [split; [lia|right; done]|].
    cbn [length]. change (Z.of_nat 1) with 1.
    destruct (1 >=? d) eqn:E1; [split; [lia|right; done]|].
    split; [done|left; done].
  - cbn [forallb] in Hv. apply andb_true_iff in Hv. destruct Hv as [Hl Hv].
    pose proof (label_valid_elim l Hl) as [Hl1 Hlb].
    rewrite wire_of_cons. cbn [app]. rewrite <- app_assoc.
    cbn [rip_ns_name_ntop_loop]. change (0 =? 0) with true. cbv iota.
    destruct (Z.of_nat (length l) =? 0) eqn:E0; [lia|].
    destruct (Z.of_nat (length l) >=? 64) eqn:E1; [lia|].
    cbn [length]. change (Z.of_nat 0 =? 0) with true. cbn [negb].
    pose proof (ntop_label (wire_of ls ++ rest) d l [] Hlb) as [L1 L2].
    cbn [app length] in L1, L2. change (Z.of_nat 0) with 0 in L1.
    assert (He : 1 <= Z.of_nat (length (esc_label l))).
    { destruct (esc_label_head l [] Hl) as (x & t & E & _).
      rewrite app_nil_r in E. rewrite E. cbn [length]. lia. }
    pose proof (ntop_labels rest d ls (esc_label l) Hv He) as [I1 I2].
    cbn [text_of]. split.
    + intros Hd. rewrite L1; [apply I1; exact Hd|].
      rewrite length_app in Hd. lia.
    + destruct L2 as [L2|L2]; [rewrite L2; exact I2|right; exact L2].
Qed.

(** The presentation form is shorter than four times the wire form. *)
Lemma esc_label_length (l : list Z) :
  Z.of_nat (length (esc_label l)) <= 4 * Z.of_nat (length l).
Proof.
  induction l as [|c l IH]; [cbn; lia|].
  cbn [esc_label flat_map]. fold (esc_label l). rewrite length_app.
  cbn [length]. unfold esc.
  destruct (special c); [cbn [length]; lia|].
  destruct (printable c); cbn [negb length]; lia.
Qed.

Lemma dotted_length (ls : list (list Z)) :
  Z.of_nat (length (flat_map (fun l => 46 :: esc_label l) ls)) + 4
  <= 4 * Z.of_nat (length (wire_of ls)).
Proof.
  induction ls as [|l ls IH]; [cbn; lia|].
  rewrite wire_of_cons_length. cbn [flat_map]. rewrite length_app.
  cbn [length]. pose proof (esc_label_length l). lia.
Qed.

Lemma text_length (labels : list (list Z)) :
  Z.of_nat (length (text_of labels))
  < 4 * Z.of_nat (length (wire_of labels)).
Proof.
  destruct labels as [|l ls]; [cbn; lia|].
  rewrite wire_of_cons_length. cbn [text_of]. rewrite length_app.
  pose proof (esc_label_length l). pose proof (dotted_length ls). lia.
Qed.

(** C9. For a valid uncompressed wire-format name (labels of 1 to 63
    bytes, at most 255 bytes in all), followed by any bytes,
    rip_ns_name_ntop succeeds whenever the destination has four times the
    length of the name, and whenever it succeeds rip_ns_name_pton applied to
    the string it wrote, with a destination that can hold the name,
    succeeds and writes the original wire-format name (returning 1 for the
    root and 0 otherwise). *)
Theorem C9_name_ntop_then_pton_round_trip (labels : list (list Z))
    (rest : list Z) (dstsiz dstsiz' : Z) :
  name_valid labels = true ->
  Z.of_nat (length (wire_of labels)) <= dstsiz' ->
  let r := rip_ns_name_ntop (wire_of labels ++ rest) dstsiz in
  (4 * Z.of_nat (length (wire_of labels)) <= dstsiz -> 0 <= fst r)
  /\ (0 <= fst r ->
      rip_ns_name_pton (snd r) dstsiz'
      = (match labels with [] => 1 | _ => 0 end, wire_of labels)).
Proof.
  intros Hv Hd r.
  assert (Hl : forallb label_valid labels = true).
  { unfold name_valid in Hv. apply andb_true_iff in Hv. tauto. }
  pose proof (ntop_wire labels rest dstsiz Hl) as [N1 N2]. fold r in N1, N2.
  pose proof (text_length labels) as Ht.
  split.
  - intros Hs. rewrite N1 by lia. cbn [fst]. lia.
  - intros Hr. destruct N2 as [N2|N2]; [|lia].
    rewrite N2. cbn [snd]. apply pton_text; done.
Qed.

Lemma C9_name_ntop_then_pton_round_trip_witness :
  name_valid www_example_com = true
  /\ Z.of_nat (length (wire_of www_example_com)) <= 256
  /\ 0 <= fst (rip_ns_name_ntop (wire_of www_example_com) 256)
  /\ rip_ns_name_pton (snd (rip_ns_name_ntop (wire_of www_example_com) 256))
       256
     = (0, wire_of www_example_com).
Proof.
  assert (V : name_valid www_example_com = true) by (vm_compute; reflexivity).
  assert (L : Z.of_nat (length (wire_of www_example_com)) <= 256)
    by (vm_compute; discriminate).
  pose proof (C9_name_ntop_then_pton_round_trip www_example_com [] 256 256 V L)
    as [H1 H2].
  rewrite app_nil_r in H1, H2.
  assert (P : 0 <= fst (rip_ns_name_ntop (wire_of www_example_com) 256)).
  { apply H1. vm_compute. discriminate. }
  split; [exact V|]. split; [exact L|]. split; [exact P|]. exact (H2 P).
Defined.

End NameText.

(* --------------------------------------------------------------------- *)
(** ** Writes into the response buffer *)
(* --------------------------------------------------------------------- *)

Section Frames.
Import Wire Header.

Lemma frame_refl (p : Z) (a : list Z) : frame_from p a a.
Proof. split; done. Qed.

Lemma frame_trans (p : Z) (a b c : list Z) :
  frame_from p a b -> frame_from p b c -> frame_from p a c.
Proof.
  intros [L1 R1] [L2 R2]. split; [congruence|].
  intros j Hj. rewrite R2, R1; done.
Qed.

Lemma frame_mono (p p' : Z) (a b : list Z) :
  p' <= p -> frame_from p a b -> frame_from p' a b.
Proof. intros Hp [L R]. split; [done|]. intros j Hj. apply R. lia. Qed.

Lemma frame_wr (p p' v : Z) (buf : list Z) :
  p <= p' -> frame_from p buf (wr buf p' v).
Proof.
  intros Hp. split; [apply wr_length|].
  intros j Hj. apply rd_wr_ne. lia.
Qed.

Lemma frame_wr_bytes (p p' : Z) (src buf : list Z) :
  p <= p' -> frame_from p buf (wr_bytes buf p' src).
Proof.
  intros Hp. split; [apply wr_bytes_length|].
  intros j Hj. apply rd_wr_bytes_lt. lia.
Qed.

Lemma frame_put16 (p p' v : Z) (buf : list Z) :
  p <= p' -> frame_from p buf (RIP_NS_PUT16 v buf p').
Proof.
  intros Hp. unfold RIP_NS_PUT16. cbv zeta.
  eapply frame_trans; apply frame_wr; lia.
Qed.

Lemma frame_put32 (p p' v : Z) (buf : list Z) :
  p <= p' -> frame_from p buf (RIP_NS_PUT32 v buf p').
Proof.
  intros Hp. unfold RIP_NS_PUT32. cbv zeta.
  repeat (eapply frame_trans; [|apply frame_wr; lia]). apply frame_refl.
Qed.

Lemma put16_length (v p : Z) (buf : list Z) :
  length (RIP_NS_PUT16 v buf p) = length buf.
Proof. unfold RIP_NS_PUT16. cbv zeta. rewrite !wr_length. done. Qed.

Lemma rd_put16_other (v p j : Z) (buf : list Z) :
  j <> p -> j <> p + 1 -> rd (RIP_NS_PUT16 v buf p) j = rd buf j.
Proof.
  intros H1 H2. unfold RIP_NS_PUT16. cbv zeta.
  rewrite !rd_wr_ne by lia. done.
Qed.

Lemma set_bits_length (buf : list Z) (p lo w v : Z) :
  length (set_bits buf p lo w v) = length buf.
Proof. apply wr_length. Qed.

Lemma rd_set_bits_other (buf : list Z) (p lo w v j : Z) :
  j <> p -> rd (set_bits buf p lo w v) j = rd buf j.
Proof. intros H. unfold set_bits. cbv zeta. apply rd_wr_ne. lia. Qed.

(** Two bytes written big-endian read back as the 16-bit value. *)
Lemma be16_bytes (a b : Z) :
  0 <= a < 256 -> 0 <= b < 256 -> Z.lor (Z.shiftl a 8) b = 256 * a + b.
Proof.
  intros Ha Hb.
  pose (P := fun a => forallb (fun b => Z.lor (Z.shiftl a 8) b =? 256 * a + b)
                        (map (fun i => 0 + Z.of_nat i) (seq 0 256))).
  assert (HP : P a = true).
  { apply (range_forallb P 0 256); [vm_compute; reflexivity | lia]. }
  unfold P in HP.
  pose proof (range_forallb _ 0 256 HP b ltac:(lia)) as H. simpl in H. lia.
Qed.

Lemma be16_join (t : Z) :
  0 <= t < 65536 -> Z.lor (Z.shiftl (u8 (Z.shiftr t 8)) 8) (u8 t) = t.
Proof.
  intros Ht. unfold u8. rewrite Z.shiftr_div_pow2 by lia.
  change (2 ^ 8) with 256.
  rewrite (Z.mod_small (t / 256)) by dlia.
  rewrite be16_bytes by dlia. dlia.
Qed.

Lemma get16_put16 (v p : Z) (buf : list Z) :
  0 <= p -> p + 1 < Z.of_nat (length buf) ->
  RIP_NS_GET16 (RIP_NS_PUT16 v buf p) p = u16 v.
Proof.
  intros Hp Hl. unfold RIP_NS_GET16, RIP_NS_PUT16. cbv zeta.
  rewrite rd_wr_ne by lia. rewrite rd_wr_eq by lia.
  rewrite rd_wr_eq by (rewrite wr_length; lia).
  apply be16_join. unfold u16. apply Z.mod_pos_bound. lia.
Qed.

Lemma get16_put16_other (v p p' : Z) (buf : list Z) :
  p' + 1 < p \/ p + 1 < p' ->
  RIP_NS_GET16 (RIP_NS_PUT16 v buf p) p' = RIP_NS_GET16 buf p'.
Proof.
  intros H. unfold RIP_NS_GET16. rewrite !rd_put16_other by lia. done.
Qed.

(** Setting the TC bit and reading it back. *)
Lemma hdr_tc_set (buf : list Z) (h : Z) :
  0 <= h + 2 < Z.of_nat (length buf) -> hdr_tc (set_hdr_tc 1 buf h) h = 1.
Proof.
  intros Hh. unfold hdr_tc, set_hdr_tc, get_bits, set_bits. cbv zeta.
  rewrite rd_wr_eq by lia.
  change (Z.ones 1) with 1. change (Z.shiftl 1 1) with 2.
  change (255 - 2) with 253. change (Z.land 1 1) with 1.
  change (Z.shiftl 1 1) with 2.
  set (x := Z.lor (Z.land (rd buf (h + 2)) 253) 2).
  assert (Hb : Z.testbit x 1 = true).
  { unfold x. rewrite Z.lor_spec. apply orb_true_r. }
  apply Z.testbit_true in Hb; [|lia].
  change 1 with (Z.ones 1) at 2. rewrite Z.land_ones by lia.
  rewrite Z.shiftr_div_pow2 by lia. exact Hb.
Qed.

End Frames.

(* --------------------------------------------------------------------- *)
(** ** Name encoding yields bytes, name packing writes at or after [dst] *)
(* --------------------------------------------------------------------- *)

Section NamePack.
Import Wire.

Lemma u8_byte (x : Z) : 0 <= u8 x < 256.
Proof. unfold u8. apply Z.mod_pos_bound. lia. Qed.

Lemma bytes_app (a b : list Z) : bytes a -> bytes b -> bytes (a ++ b).
Proof. intros. apply Forall_app; done. Qed.

Lemma pton_close_bytes (dstsiz ret : Z) (done cur : list Z) :
  bytes done -> bytes cur -> bytes (snd (pton_close dstsiz done cur ret)).
Proof.
  intros Hd Hc. unfold pton_close. cbv zeta.
  repeat case_match; simpl; try apply Forall_nil_2;
    apply bytes_app; try done;
    apply Forall_cons; (split; [apply u8_byte|]); try done;
    apply bytes_app; [done|]; apply Forall_cons; split; [lia|apply Forall_nil_2].
Qed.

Lemma pton_loop_bytes (src : list Z) (dstsiz : Z) (escaped : bool)
    (done cur : list Z) :
  bytes done -> bytes cur ->
  bytes (snd (rip_ns_name_pton_loop src dstsiz escaped done cur)).
Proof.
  remember (length src) as n eqn:Hn.
  revert src Hn escaped done cur.
  induction n as [n IH] using lt_wf_ind.
  intros src Hn escaped done cur Hd Hc.
  assert (Hend : bytes (snd (if escaped then (-1, [])
                             else pton_close dstsiz done cur 0))).
  { destruct escaped; [apply Forall_nil_2 | by apply pton_close_bytes]. }
  assert (Hcur : forall x, bytes (cur ++ [u8 x])).
  { intros x. apply bytes_app; [done|].
    apply Forall_cons; split; [apply u8_byte | apply Forall_nil_2]. }
  destruct src as [|c src]; [exact Hend|].
  cbn [rip_ns_name_pton_loop].
  destruct (c =? 0); [exact Hend|].
  destruct escaped.
  - destruct (is_digit c).
    + destruct src as [|c2 src]; [apply Forall_nil_2|].
      destruct ((c2 =? 0) || negb (is_digit c2)); [apply Forall_nil_2|].
      destruct src as [|c3 src]; [apply Forall_nil_2|].
      destruct ((c3 =? 0) || negb (is_digit c3)); [apply Forall_nil_2|].
      cbv zeta. repeat case_match; try apply Forall_nil_2.
      eapply IH; [| reflexivity | done | apply Hcur]. subst n. simpl. lia.
    + case_match; [apply Forall_nil_2|].
      eapply IH; [| reflexivity | done | apply Hcur]. subst n. simpl. lia.
  - destruct (c =? 92).
    { eapply IH; [| reflexivity | done | done]. subst n. simpl. lia. }
    destruct (c =? 46).
    + cbv zeta. repeat case_match; try apply Forall_nil_2;
        try (by apply pton_close_bytes).
      eapply IH; [| reflexivity | | apply Forall_nil_2].
      * subst n. simpl. lia.
      * apply bytes_app; [done|].
        apply Forall_cons; split; [apply u8_byte | done].
    + case_match; [apply Forall_nil_2|].
      eapply IH; [| reflexivity | done | apply Hcur]. subst n. simpl. lia.
Qed.

Lemma pton_bytes (src : list Z) (dstsiz : Z) :
  bytes (snd (rip_ns_name_pton src dstsiz)).
Proof. apply pton_loop_bytes; apply Forall_nil_2. Qed.

Lemma name_pack_loop_frame (fuel : nat) :
  forall (src buf : list Z) (dst eob : Z) (msg : option Z)
         (arr : list (option Z)) (lpp lastdnptr : nat) (srcp dstp : Z)
         (cpp : nat) (first : bool) ret buf' arr',
  bytes src -> dst <= dstp ->
  name_pack_loop fuel src buf dst eob msg arr lpp lastdnptr srcp dstp cpp first
  = Some (ret, buf', arr') ->
  frame_from dst buf buf'.
Proof.
  induction fuel as [|fuel IH]; intros src buf dst eob msg arr lpp lastdnptr
    srcp dstp cpp first ret buf' arr' Hb Hd H; [discriminate|].
  cbn [name_pack_loop] in H.
  pose proof (rd_byte src srcp Hb) as Hn.
  set (n := rd src srcp) in *.
  match type of H with (mbind _ ?f) = _ => destruct f as [found|] eqn:Ef end;
    [|discriminate].
  cbn [mbind option_bind] in H.
  destruct (found >=? 0).
  - destruct (eob - dstp <=? 1).
    + inversion H; subst. apply frame_refl.
    + inversion H; subst.
      eapply frame_trans; apply frame_wr; lia.
  - cbv zeta in H.
    match type of H with
      context [if ?s then <[S cpp:=None]> _ else arr] => set (save := s) in *
    end.
    destruct (n >=? 64).
    { inversion H; subst. apply frame_refl. }
    destruct (n + 1 >? eob - dstp).
    { inversion H; subst. apply frame_refl. }
    destruct (negb (n =? 0)).
    + apply IH in H; [|done|lia].
      eapply frame_trans; [|exact H]. apply frame_wr_bytes. lia.
    + destruct (dstp + (n + 1) >? eob); inversion H; subst;
        apply frame_wr_bytes; lia.
Qed.

Lemma name_pack_frame (src buf : list Z) (dst dstsiz : Z)
    (arr : list (option Z)) (lastdnptr : nat) ret buf' arr' :
  bytes src ->
  rip_ns_name_pack src buf dst dstsiz arr lastdnptr = Some (ret, buf', arr') ->
  frame_from dst buf buf'.
Proof.
  intros Hb. unfold rip_ns_name_pack.
  generalize name_fuel. intros fuel.
  generalize (default None (arr !! 0%nat)). intros msg.
  generalize (if msg is Some _ then first_null (drop 1 arr) 1 else 0%nat).
  intros lpp.
  destruct (name_pack_legal fuel src 0 0) as [legal|]; [|discriminate].
  change (Some legal ≫= ?f) with (f legal). cbv beta.
  destruct (negb legal).
  - intros [= <- <- <-]. apply frame_refl.
  - intros H.
    apply (name_pack_loop_frame _ _ _ _ _ _ _ _ _ _ _ _ _ _ _ _
             Hb (Z.le_refl dst) H).
Qed.

Lemma name_put_frame (src buf : list Z) (dst dstsiz : Z)
    (arr : list (option Z)) (lastdnptr : nat) ret buf' arr' :
  rip_ns_name_put src buf dst dstsiz arr lastdnptr = Some (ret, buf', arr') ->
  frame_from dst buf buf'.
Proof.
  intros H. unfold rip_ns_name_put in H.
  pose proof (pton_bytes src RIP_NS_CDNAME_COMP_BUF_LEN) as Hb.
  destruct (rip_ns_name_pton src RIP_NS_CDNAME_COMP_BUF_LEN) as [ret_c cn].
  simpl in Hb.
  destruct (ret_c <? 0).
  - inversion H; subst. apply frame_refl.
  - eapply name_pack_frame; eauto.
Qed.

End NamePack.

(* --------------------------------------------------------------------- *)
(** ** query_response_pack *)
(* --------------------------------------------------------------------- *)

Section Pack.
Import Wire Header Query QueryPack.

Lemma query_pack_rr_spec (rr : rr_record_t) (buf : list Z) (p buf_len : Z)
    (arr : list (option Z)) pack_len buf' arr' :
  rr_wf rr = true ->
  query_pack_rr rr buf p buf_len arr = Some (pack_len, buf', arr') ->
  frame_from p buf buf'
  /\ ((pack_len <? 0) = false -> 0 <= pack_len <= buf_len).
Proof.
  intros Hw H. unfold query_pack_rr in H.
  unfold rr_wf in Hw. apply andb_true_iff in Hw. destruct Hw as [Hw _].
  unfold RIP_NS_RRFIXEDSZ in *.
  destruct (rip_ns_name_put (name rr) buf p buf_len arr
              (Z.to_nat (DNS_RESPONSE_COMPRESSED_NAMES_MAX - 1)))
    as [[[pnl b1] a1]|] eqn:En; [|discriminate].
  apply name_put_frame in En.
  cbn [mbind option_bind] in H.
  destruct (pnl <? 0) eqn:Ep.
  { inversion H; subst. split; [done|]. intros; lia. }
  cbv zeta in H.
  destruct (pnl + 10 + rdata_len rr >? buf_len) eqn:Eg.
  { inversion H; subst. split; [done|]. intros; lia. }
  inversion H; subst. split; [|intros; lia].
  eapply frame_trans; [|apply frame_wr_bytes; lia].
  eapply frame_trans; [|apply frame_put16; lia].
  eapply frame_trans; [|apply frame_put32; lia].
  eapply frame_trans; [|apply frame_put16; lia].
  eapply frame_trans; [|apply frame_put16; lia].
  exact En.
Qed.

Lemma query_pack_edns_spec (buf : list Z) (p buf_len : Z) (e : edns_t)
    ret buf' :
  query_pack_edns buf p buf_len e = (ret, buf') ->
  frame_from p buf buf'
  /\ ((ret <? 0) = false -> 0 <= ret /\ (0 <= buf_len -> ret <= buf_len)).
Proof.
  intros H. unfold query_pack_edns in H.
  destruct (negb (edns_valid e)).
  { inversion H; subst. split; [apply frame_refl|]. intros; lia. }
  cbv zeta in H.
  match type of H with
    (if buf_len <? ?o then _ else _) = _ => set (opts_len := o) in *
  end.
  assert (Ho : 0 <= opts_len).
  { unfold opts_len. destruct (edns_cs_valid (client_subnet e));
      unfold u16; apply Z.mod_pos_bound; lia. }
  destruct (buf_len <? opts_len) eqn:El.
  { inversion H; subst. split; [apply frame_refl|]. intros; lia. }
  inversion H; subst ret buf'. split; [|intros; lia].
  repeat first
    [ apply frame_refl
    | eapply frame_trans; [|apply frame_wr; lia]
    | eapply frame_trans; [|apply frame_put16; lia]
    | eapply frame_trans; [|apply frame_wr_bytes; lia]
    | match goal with
      | |- frame_from _ _ (if ?c then _ else _) => destruct c
      end ].
Qed.

(** The fields of the header depend on bytes 2 to 11 of the header only. *)
Lemma hdr_fields_eq (a b : list Z) (h : Z) :
  (forall j, h + 2 <= j < h + 10 -> rd b j = rd a j) ->
  hdr_tc b h = hdr_tc a h
  /\ hdr_ancount b h = hdr_ancount a h
  /\ hdr_nscount b h = hdr_nscount a h.
Proof.
  intros H. unfold hdr_tc, hdr_ancount, hdr_nscount, get_bits, RIP_NS_GET16.
  rewrite !H by lia. done.
Qed.

Lemma pack_header_length (q : query_t) :
  length (pack_header q) = length (response_buffer q).
Proof.
  unfold pack_header. cbv zeta.
  unfold set_hdr_rcode, set_hdr_arcount, set_hdr_nscount, set_hdr_ancount,
    set_hdr_qr, set_hdr_opcode, set_hdr_aa, set_hdr_tc, set_hdr_rd.
  destruct (end_code q <? 16);
    rewrite ?set_bits_length, ?put16_length, ?set_bits_length,
      ?wr_bytes_length; done.
Qed.

(** After the header is initialised ANCOUNT and NSCOUNT read 0. *)
Lemma pack_header_counts (q : query_t) :
  0 <= response_hdr q ->
  response_hdr q + HFIXEDSZ <= Z.of_nat (length (response_buffer q)) ->
  hdr_ancount (pack_header q) (response_hdr q) = 0
  /\ hdr_nscount (pack_header q) (response_hdr q) = 0.
Proof.
  intros H0 Hl. unfold HFIXEDSZ in Hl. unfold pack_header. cbv zeta.
  set (h := response_hdr q) in *.
  set (b0 := set_hdr_rcode 0 _ h).
  assert (Lb0 : length b0 = length (response_buffer q)).
  { unfold b0, set_hdr_rcode, set_hdr_qr, set_hdr_opcode, set_hdr_aa,
      set_hdr_tc, set_hdr_rd.
    rewrite !set_bits_length, !wr_bytes_length. done. }
  assert (Hc : hdr_ancount (set_hdr_arcount 0 (set_hdr_nscount 0
                 (set_hdr_ancount 0 b0 h) h) h) h = 0
               /\ hdr_nscount (set_hdr_arcount 0 (set_hdr_nscount 0
                 (set_hdr_ancount 0 b0 h) h) h) h = 0).
  { unfold hdr_ancount, hdr_nscount, set_hdr_arcount, set_hdr_nscount,
      set_hdr_ancount.
    split.
    - rewrite !get16_put16_other by lia.
      rewrite get16_put16 by lia. done.
    - rewrite get16_put16_other by lia.
      rewrite get16_put16 by (rewrite ?put16_length; lia). done. }
  destruct (end_code q <? 16); [|exact Hc].
  destruct Hc as [Ha Hn]. split.
  - etransitivity; [|exact Ha].
    unfold hdr_ancount, RIP_NS_GET16, set_hdr_rcode.
    rewrite !rd_set_bits_other by lia. done.
  - etransitivity; [|exact Hn].
    unfold hdr_nscount, RIP_NS_GET16, set_hdr_rcode.
    rewrite !rd_set_bits_other by lia. done.
Qed.

(** One section loop: the header bytes are kept (but for the TC bit on the
    truncation exit), [rrs_packed_len] grows and stays within a buffer size
    of at most 65535. *)
Lemma pack_section_spec (rrs : list rr_record_t) :
  forall (i size hdr : Z) (st : pack_st) r,
  forallb rr_wf rrs = true ->
  HFIXEDSZ <= ps_len st ->
  pack_section rrs i size hdr st = Some r ->
  exists b st' ,
    frame_from (hdr + HFIXEDSZ) (ps_buf st) b
    /\ ps_len st <= ps_len st'
    /\ (size <= 65535 -> ps_len st <= size -> ps_len st' <= size)
    /\ match r with
       | inl s => s = st' /\ ps_buf st' = b
       | inr (s, k) => s = st' /\ ps_buf st' = set_hdr_tc 1 b hdr
                       /\ i <= k < i + Z.of_nat (length rrs)
       end.
Proof.
  induction rrs as [|rr rest IH]; intros i size hdr st r Hw Hlen H.
  - simpl in H. inversion H; subst. exists (ps_buf st), st.
    split; [apply frame_refl|]. repeat split; lia.
  - cbn [pack_section] in H.
    cbn [forallb] in Hw. apply andb_true_iff in Hw. destruct Hw as [Hw Hws].
    destruct (query_pack_rr rr (ps_buf st) (hdr + ps_len st)
                (u16 (size - ps_len st)) (ps_dnptrs st))
      as [[[pack_len buf] arr]|] eqn:Er; [|discriminate].
    cbn [mbind option_bind] in H.
    apply query_pack_rr_spec in Er; [|exact Hw]. destruct Er as [Hf Hp].
    apply (frame_mono _ (hdr + HFIXEDSZ)) in Hf; [|lia].
    destruct (pack_len <? 0) eqn:Ep.
    + inversion H; subst r.
      exists buf, {| ps_buf := set_hdr_tc 1 buf hdr; ps_dnptrs := arr;
                     ps_len := ps_len st |}.
      split; [exact Hf|]. cbn [ps_len ps_buf].
      split; [lia|]. split; [lia|]. split; [done|]. split; [done|].
      cbn [length]. lia.
    + specialize (Hp eq_refl).
      apply IH in H; [|exact Hws|cbn [ps_len]; lia].
      destruct H as (b & st' & Hf' & Hl' & Hs' & Hr).
      cbn [ps_len ps_buf] in *.
      exists b, st'. split; [eapply frame_trans; eauto|].
      split; [lia|]. split.
      * intros Hs1 Hs2. apply Hs'; [done|].
        assert (u16 (size - ps_len st) = size - ps_len st).
        { unfold u16. apply Z.mod_small. unfold HFIXEDSZ in *. lia. }
        lia.
      * destruct r as [s|[s k]]; [done|].
        destruct Hr as (? & ? & ?). repeat split; try done; cbn [length]; lia.
Qed.

Lemma pack_extended_rcode_fields (q : query_t) :
  let q' := pack_extended_rcode q in
  answer_section q' = answer_section q
  /\ answer_section_count q' = answer_section_count q
  /\ authority_section q' = authority_section q
  /\ authority_section_count q' = authority_section_count q
  /\ additional_section q' = additional_section q
  /\ additional_section_count q' = additional_section_count q
  /\ response_hdr q' = response_hdr q
  /\ protocol q' = protocol q.
Proof.
  unfold pack_extended_rcode. destruct (end_code q <? 16);
    repeat split; reflexivity.
Qed.

Lemma sect_length (s : list rr_record_t) (count : Z) :
  0 <= count -> Z.of_nat (length (sect s count)) <= count.
Proof. intros H. unfold sect. rewrite length_take. lia. Qed.

Lemma sect_wf (s : list rr_record_t) (count : Z) :
  forallb rr_wf s = true -> forallb rr_wf (sect s count) = true.
Proof.
  unfold sect. generalize (Z.to_nat count). intros n. revert s.
  induction n as [|n IH]; intros [|rr s] H; try reflexivity.
  cbn [take forallb] in *. apply andb_true_iff in H. destruct H as [H1 H2].
  rewrite H1, (IH s H2). reflexivity.
Qed.

Lemma pack_ready_elim (q : query_t) :
  pack_ready q = true ->
  0 <= response_hdr q
  /\ (protocol q = 1 -> 2 <= response_hdr q)
  /\ response_hdr q + HFIXEDSZ <= Z.of_nat (length (response_buffer q))
  /\ 0 <= answer_section_count q < 256
  /\ 0 <= authority_section_count q < 256
  /\ 0 <= additional_section_count q < 256
  /\ forallb rr_wf (answer_section q) = true
  /\ forallb rr_wf (authority_section q) = true
  /\ forallb rr_wf (additional_section q) = true.
Proof.
  unfold pack_ready. rewrite !andb_true_iff.
  intros (((((((((((H1 & H2) & H3) & H4) & H5) & H6) & H7) & H8) & H9)
            & W1) & W2) & W3).
  assert (protocol q = 1 -> 2 <= response_hdr q).
  { intros Hp. rewrite Hp in H2. simpl in H2. lia. }
  repeat split; try lia; try done.
Qed.

(** A buffer framed from [a] above the header, with or without the TC bit
    set afterwards, has the counts of [a]. *)
Lemma framed_counts (a b : list Z) (h : Z) :
  frame_from (h + HFIXEDSZ) a b ->
  hdr_ancount b h = hdr_ancount a h /\ hdr_nscount b h = hdr_nscount a h.
Proof.
  intros [_ Hr]. unfold HFIXEDSZ in Hr.
  destruct (hdr_fields_eq a b h) as (_ & ? & ?); [|done].
  intros j Hj. apply Hr. lia.
Qed.

Lemma framed_tc_counts (a b : list Z) (h : Z) :
  0 <= h -> h + HFIXEDSZ <= Z.of_nat (length a) ->
  frame_from (h + HFIXEDSZ) a b ->
  hdr_tc (set_hdr_tc 1 b h) h = 1
  /\ hdr_ancount (set_hdr_tc 1 b h) h = hdr_ancount a h
  /\ hdr_nscount (set_hdr_tc 1 b h) h = hdr_nscount a h.
Proof.
  intros H0 Hl Hf. pose proof (framed_counts a b h Hf) as [Ha Hn].
  destruct Hf as [Hlen _]. unfold HFIXEDSZ in Hl.
  split; [apply hdr_tc_set; lia|].
  rewrite <- Ha, <- Hn.
  unfold hdr_ancount, hdr_nscount, RIP_NS_GET16, set_hdr_tc.
  rewrite !rd_set_bits_other by lia. done.
Qed.

(** query_response_pack up to END. *)
Lemma pack_fin_spec (ret0 : Z) (st : pack_st) (q0 : query_t) (e0 : pack_exit)
    ret q1 n e :
  pack_fin ret0 st q0 e0 = Some (ret, q1, n, e) ->
  ret = ret0 /\ e = e0 /\ n = ps_len st
  /\ response_buffer q1 = ps_buf st
  /\ response_hdr q1 = response_hdr q0
  /\ protocol q1 = protocol q0.
Proof.
  unfold pack_fin. intros H. inversion H; subst. repeat split; reflexivity.
Qed.

Lemma pack_sections_spec (q : query_t) ret q1 n e :
  pack_ready q = true ->
  pack_sections q = Some (ret, q1, n, e) ->
  length (response_buffer q1) = length (response_buffer q)
  /\ response_hdr q1 = response_hdr q
  /\ protocol q1 = protocol q
  /\ HFIXEDSZ <= n
  /\ (HFIXEDSZ <= response_buffer_size q <= 65535 ->
      n <= response_buffer_size q)
  /\ match e with
     | ExitAnswer i =>
       ret = -1
       /\ hdr_tc (response_buffer q1) (response_hdr q) = 1
       /\ hdr_ancount (response_buffer q1) (response_hdr q)
          = answer_section_count q
       /\ hdr_nscount (response_buffer q1) (response_hdr q) = 0
       /\ 0 <= i < answer_section_count q
     | ExitAuthority i =>
       ret = -1
       /\ hdr_tc (response_buffer q1) (response_hdr q) = 1
       /\ hdr_ancount (response_buffer q1) (response_hdr q)
          = answer_section_count q
       /\ hdr_nscount (response_buffer q1) (response_hdr q)
          = authority_section_count q
       /\ 0 <= i < authority_section_count q
     | _ => True
     end.
Proof.
  intros Hr H. apply pack_ready_elim in Hr.
  destruct Hr as (H0 & Hp2 & Hl & Han & Hns & Har & W1 & W2 & W3).
  unfold pack_sections in H. cbv zeta in H.
  destruct (pack_extended_rcode_fields q)
    as (E1 & E2 & E3 & E4 & E5 & E6 & E7 & E8).
  cbv zeta in E1, E2, E3, E4, E5, E6, E7, E8.
  set (q0 := pack_extended_rcode q) in *.
  rewrite E1, E2, E3, E4, E5, E6 in H.
  set (h := response_hdr q) in *.
  set (size := response_buffer_size q) in *.
  pose proof (pack_header_length q) as Lh.
  pose proof (pack_header_counts q H0 Hl) as [Ca Cn]. fold h in Ca, Cn.
  unfold HFIXEDSZ in Hl.
  (* the header with ANCOUNT written *)
  set (b1 := set_hdr_ancount (answer_section_count q) (pack_header q) h).
  assert (Lb1 : length b1 = length (response_buffer q)).
  { unfold b1, set_hdr_ancount. rewrite put16_length. done. }
  assert (Ab1 : hdr_ancount b1 h = answer_section_count q).
  { unfold b1, hdr_ancount, set_hdr_ancount. rewrite get16_put16 by lia.
    apply Z.mod_small. lia. }
  assert (Nb1 : hdr_nscount b1 h = 0).
  { unfold b1, hdr_nscount, set_hdr_ancount.
    rewrite get16_put16_other by lia. exact Cn. }
  (* answer section *)
  match type of H with (mbind _ ?f) = _ => destruct f as [r1|] eqn:R1 end;
    [|discriminate].
  cbn [mbind option_bind] in H.
  apply pack_section_spec in R1;
    [|apply sect_wf; exact W1|cbn [ps_len st_set_ancount]; lia].
  destruct R1 as (c1 & s1 & F1 & G1 & S1 & M1).
  cbn [st_set_ancount ps_buf ps_len] in F1, G1, S1. fold b1 in F1.
  pose proof (sect_length (answer_section q) (answer_section_count q)
                ltac:(lia)) as Sl1.
  assert (Lc1 : length c1 = length (response_buffer q)).
  { destruct F1 as [L _]. congruence. }
  destruct r1 as [st1|[st1 k1]].
  2:{ destruct M1 as (-> & Bs & Kr).
      apply pack_fin_spec in H.
      destruct H as (-> & -> & -> & Hb & Hh & Hp).
      rewrite Hb, Hh, Hp, Bs.
      destruct (framed_tc_counts b1 c1 h H0 ltac:(unfold HFIXEDSZ; lia) F1)
        as (T & A & N).
      split; [unfold set_hdr_tc; rewrite set_bits_length; exact Lc1|].
      split; [exact E7|]. split; [exact E8|]. split; [exact G1|].
      split; [intros; apply S1; lia|].
      split; [reflexivity|]. split; [exact T|].
      split; [congruence|]. split; [congruence|]. lia. }
  destruct M1 as (-> & Bs1).
  (* authority section *)
  set (b2 := set_hdr_nscount (authority_section_count q) (ps_buf s1) h) in *.
  assert (L1 : length (ps_buf s1) = length (response_buffer q)).
  { rewrite Bs1. exact Lc1. }
  assert (Lb2 : length b2 = length (response_buffer q)).
  { unfold b2, set_hdr_nscount. rewrite put16_length. done. }
  assert (Ab2 : hdr_ancount b2 h = answer_section_count q).
  { unfold b2, hdr_ancount, set_hdr_nscount.
    rewrite get16_put16_other by lia. rewrite Bs1.
    destruct (framed_counts b1 c1 h F1) as [A _].
    unfold hdr_ancount in A. rewrite A. exact Ab1. }
  assert (Nb2 : hdr_nscount b2 h = authority_section_count q).
  { unfold b2, hdr_nscount, set_hdr_nscount. rewrite get16_put16 by lia.
    apply Z.mod_small. lia. }
  match type of H with (mbind _ ?f) = _ => destruct f as [r2|] eqn:R2 end;
    [|discriminate].
  cbn [mbind option_bind] in H.
  apply pack_section_spec in R2;
    [|apply sect_wf; exact W2|cbn [ps_len st_set_nscount]; exact G1].
  destruct R2 as (c2 & s2 & F2 & G2 & S2 & M2).
  cbn [st_set_nscount ps_buf ps_len] in F2, G2, S2. fold b2 in F2.
  pose proof (sect_length (authority_section q) (authority_section_count q)
                ltac:(lia)) as Sl2.
  assert (Lc2 : length c2 = length (response_buffer q)).
  { destruct F2 as [L _]. congruence. }
  destruct r2 as [st2|[st2 k2]].
  2:{ destruct M2 as (-> & Bs & Kr).
      apply pack_fin_spec in H.
      destruct H as (-> & -> & -> & Hb & Hh & Hp).
      rewrite Hb, Hh, Hp, Bs.
      destruct (framed_tc_counts b2 c2 h H0 ltac:(unfold HFIXEDSZ; lia) F2)
        as (T & A & N).
      split; [unfold set_hdr_tc; rewrite set_bits_length; exact Lc2|].
      split; [exact E7|]. split; [exact E8|]. split; [lia|].
      split; [intros; apply S2; [lia|]; apply S1; lia|].
      split; [reflexivity|]. split; [exact T|].
      split; [congruence|]. split; [congruence|]. lia. }
  destruct M2 as (-> & Bs2).
  assert (L2 : length (ps_buf s2) = length (response_buffer q)).
  { rewrite Bs2. exact Lc2. }
  (* additional section *)
  match type of H with (mbind _ ?f) = _ => destruct f as [r3|] eqn:R3 end;
    [|discriminate].
  cbn [mbind option_bind] in H.
  apply pack_section_spec in R3; [|apply sect_wf; exact W3|lia].
  destruct R3 as (c3 & s3 & F3 & G3 & S3 & M3).
  assert (Lc3 : length c3 = length (response_buffer q)).
  { destruct F3 as [L _]. congruence. }
  assert (Hs3 : HFIXEDSZ <= size <= 65535 -> ps_len s3 <= size).
  { intros; apply S3; [lia|]. apply S2; [lia|]. apply S1; lia. }
  destruct r3 as [st3|[st3 k3]].
  2:{ destruct M3 as (-> & Bs & Kr).
      apply pack_fin_spec in H.
      destruct H as (-> & -> & -> & Hb & Hh & Hp).
      rewrite Hb, Hh, Hp, Bs.
      split; [unfold set_hdr_tc; rewrite set_bits_length; exact Lc3|].
      split; [exact E7|]. split; [exact E8|]. split; [lia|].
      split; [exact Hs3|]. exact I. }
  destruct M3 as (-> & Bs3).
  assert (L3 : length (ps_buf s3) = length (response_buffer q)).
  { rewrite Bs3. exact Lc3. }
  (* EDNS *)
  unfold pack_edns_step in H.
  destruct (query_pack_edns (ps_buf s3) (h + ps_len s3)
              (u16 (size - ps_len s3)) (edns q0)) as [pl be] eqn:Ee.
  apply query_pack_edns_spec in Ee. destruct Ee as [[Le _] Pe].
  destruct (pl <? 0) eqn:Epl.
  - apply pack_fin_spec in H.
    destruct H as (-> & -> & -> & Hb & Hh & Hp).
    rewrite Hb, Hh, Hp. cbn [ps_buf ps_len].
    split; [unfold set_hdr_tc; rewrite set_bits_length; congruence|].
    split; [exact E7|]. split; [exact E8|]. split; [lia|].
    split; [exact Hs3|]. exact I.
  - specialize (Pe eq_refl). destruct Pe as [Pe0 Pe1].
    cbv zeta in H. apply pack_fin_spec in H.
    destruct H as (-> & -> & -> & Hb & Hh & Hp).
    rewrite Hb, Hh, Hp. cbn [ps_buf ps_len].
    split; [congruence|].
    split; [destruct (pl >? 0); exact E7|].
    split; [destruct (pl >? 0); exact E8|].
    split; [lia|]. split; [|exact I].
    intros Hs. specialize (Hs3 Hs). unfold HFIXEDSZ in *.
    assert (u16 (size - ps_len s3) = size - ps_len s3) as Hu.
    { unfold u16. apply Z.mod_small. lia. }
    rewrite Hu in Pe1. lia.
Qed.

End Pack.

(* --------------------------------------------------------------------- *)
(** ** query_response_pack: after END *)
(* --------------------------------------------------------------------- *)

Section PackEnd.
Import Wire Header Query QueryInit QueryPack Scenario.

(** The writes after END (ARCOUNT, and bytes 0 and 1 for TCP) keep the TC
    bit, ANCOUNT and NSCOUNT of the header. *)
Lemma pack_end_keeps_counts (b : list Z) (h v w : Z) (tcp : bool) :
  (tcp = true -> 2 <= h) ->
  let b1 := set_hdr_arcount v b h in
  let b2 := if tcp then rip_ns_put16 b1 0 w else b1 in
  hdr_tc b2 h = hdr_tc b h
  /\ hdr_ancount b2 h = hdr_ancount b h
  /\ hdr_nscount b2 h = hdr_nscount b h.
Proof.
  intros Hh b1 b2. apply hdr_fields_eq. intros j Hj.
  assert (E1 : rd b1 j = rd b j).
  { unfold b1, set_hdr_arcount. apply rd_put16_other; lia. }
  unfold b2. destruct tcp; [|exact E1].
  specialize (Hh eq_refl).
  change (rip_ns_put16 b1 0 w) with (RIP_NS_PUT16 w b1 0).
  rewrite rd_put16_other by lia. exact E1.
Qed.

Lemma query_response_pack_exit_unfold (q : query_t) ret q' e :
  query_response_pack_exit q = Some (ret, q', e) ->
  exists q1 n,
    pack_sections q = Some (ret, q1, n, e)
    /\ response_hdr q' = response_hdr q1
    /\ response_buffer_len q' = (if protocol q1 =? 1 then n + 2 else n)
    /\ response_buffer q'
       = (let b1 := set_hdr_arcount (additional_section_count q1)
                      (response_buffer q1) (response_hdr q1) in
          if protocol q1 =? 1 then rip_ns_put16 b1 0 (u16 n) else b1).
Proof.
  unfold query_response_pack_exit. intros H.
  destruct (pack_sections q) as [[[[r q1] n] e1]|]; [|discriminate].
  cbn [mbind option_bind] in H. cbv zeta in H.
  exists q1, n.
  assert (Hp : forall b l, protocol (set_response_buffer_len l
                             (set_response_buffer b q1)) = protocol q1)
    by reflexivity.
  rewrite Hp in H.
  destruct (protocol q1 =? 1); inversion H; subst; repeat split; reflexivity.
Qed.

End PackEnd.

Section TcpPrefix.
Import Wire Header Query QueryInit QueryPack Scenario.


End TcpPrefix.

Section Truncation.
Import Wire Header Query QueryInit QueryPack Scenario.

(** C10. When query_response_pack leaves the answer loop at record [i]
    because the record did not fit, it returns -1 with the TC bit set, and
    the header still carries in ANCOUNT the full [answer_section_count]
    written before the loop, although only the [i] records before it were
    packed ([i < answer_section_count]); NSCOUNT, which is written only
    once the answer loop has ended, is still 0.  When it leaves the
    authority loop at record [i], ANCOUNT and NSCOUNT carry the full
    [answer_section_count] and [authority_section_count], with
    [i < authority_section_count]. *)
Theorem C10_truncated_response_keeps_full_counts (q : query_t) ret q' e :
  pack_ready q = true ->
  query_response_pack_exit q = Some (ret, q', e) ->
  match e with
  | ExitAnswer i =>
    ret = -1
    /\ hdr_tc (response_buffer q') (response_hdr q') = 1
    /\ hdr_ancount (response_buffer q') (response_hdr q')
       = answer_section_count q
    /\ hdr_nscount (response_buffer q') (response_hdr q') = 0
    /\ 0 <= i < answer_section_count q
  | ExitAuthority i =>
    ret = -1
    /\ hdr_tc (response_buffer q') (response_hdr q') = 1
    /\ hdr_ancount (response_buffer q') (response_hdr q')
       = answer_section_count q
    /\ hdr_nscount (response_buffer q') (response_hdr q')
       = authority_section_count q
    /\ 0 <= i < authority_section_count q
  | _ => True
  end.
Proof.
  intros Hr H.
  apply query_response_pack_exit_unfold in H.
  destruct H as (q1 & n & Hs & Hh & _ & Hb).
  pose proof (pack_sections_spec q ret q1 n e Hr Hs)
    as (_ & H1 & P1 & _ & _ & He).
  apply pack_ready_elim in Hr. destruct Hr as (_ & Hp2 & _).
  rewrite Hh, H1, Hb, H1, P1.
  destruct (pack_end_keeps_counts (response_buffer q1) (response_hdr q)
              (additional_section_count q1) (u16 n) (protocol q =? 1))
    as (T & A & N).
  { intros Hp. apply Z.eqb_eq in Hp. auto. }
  cbv zeta in T, A, N |- *.
  destruct e; try exact I; rewrite T, A, N; exact He.
Qed.

Lemma C10_truncated_response_keeps_full_counts_witness :
  exists ret q',
    pack_ready query_large_answer = true
    /\ query_response_pack_exit query_large_answer
       = Some (ret, q', ExitAnswer 0)
    /\ ret = -1
    /\ hdr_tc (response_buffer q') (response_hdr q') = 1
    /\ hdr_ancount (response_buffer q') (response_hdr q') = 1
    /\ response_buffer_len q' = HFIXEDSZ + 2.
Proof.
  destruct (query_response_pack_exit query_large_answer)
    as [[[ret q'] e]|] eqn:E; [|vm_compute in E; discriminate].
  exists ret, q'.
  assert (R : pack_ready query_large_answer = true) by (vm_compute; reflexivity).
  pose proof (C10_truncated_response_keeps_full_counts
                query_large_answer ret q' e R E) as H.
  assert (e = ExitAnswer 0 /\ response_buffer_len q' = HFIXEDSZ + 2) as [-> Hl].
  { vm_compute in E. injection E as _ <- <-. split; reflexivity. }
  destruct H as (Hret & Ht & Ha & _ & _).
  split; [exact R|]. split; [reflexivity|]. split; [exact Hret|].
  split; [exact Ht|]. split; [exact Ha|]. exact Hl.
Defined.

(** C10, where the packing stops in the answer section: NSCOUNT is
    written after the answer loop only.  With one answer record too large
    for the buffer and one authority record, query_response_pack leaves
    the answer loop at record 0 and returns -1 with the TC bit set;
    ANCOUNT is 1 and NSCOUNT is 0, not the 1 of [authority_section_count]. *)
Lemma C10_answer_exit_leaves_nscount_unwritten :
  exists q',
    query_response_pack_exit query_large_answer_with_authority
    = Some (-1, q', ExitAnswer 0)
    /\ answer_section_count query_large_answer_with_authority = 1
    /\ authority_section_count query_large_answer_with_authority = 1
    /\ hdr_tc (response_buffer q') (response_hdr q') = 1
    /\ hdr_ancount (response_buffer q') (response_hdr q') = 1
    /\ hdr_nscount (response_buffer q') (response_hdr q') = 0
    /\ hdr_nscount (response_buffer q') (response_hdr q')
       <> authority_section_count query_large_answer_with_authority.
Proof.
  destruct (query_response_pack_exit query_large_answer_with_authority)
    as [[[ret q'] e]|] eqn:E; [|vm_compute in E; discriminate].
  vm_compute in E. injection E as <- <- <-. eexists. split; [reflexivity|].
  vm_compute. repeat split; discriminate.
Qed.

End Truncation.

(* --------------------------------------------------------------------- *)
(** ** Evaluations of the parser and of the per-query stages *)
(* --------------------------------------------------------------------- *)

Section ParseEvaluations.
Import Wire Header Query QueryParse QueryInit QueryResolve QueryPack.
Import CsSpec Scenario.

(** C8.  A Client Subnet option of 260 bytes with family 1, source mask 0
    and scope mask 0 carries 256 address bytes, where ceil(0/8) = 0 are
    allowed and at most 4 fit an IPv4 address; the specification's
    condition is false for it.  query_parse_edns_ext_cs keeps the address
    byte count in a uint8_t (260 - 4 = 256 becomes 0), returns 0 and sets
    edns_cs_valid. *)
Theorem C8_client_subnet_length_wraps :
  let r := query_parse_edns_ext_cs cs_option_260 (cs_at 0 260) in
  fst r = 0
  /\ edns_cs_valid (snd r) = true
  /\ source_mask (snd r) = 0
  /\ spec_cs_accepts cs_option_260 0 260 = false.
Proof. vm_compute. repeat split; reflexivity. Qed.

(** The same option inside a request of 292 bytes: the request parses with
    end_code still -1 (to be resolved), EDNS valid and the client subnet
    valid. *)
Lemma client_subnet_260_in_request :
  let request :=
    www_question 1 ++ [0; 0; 41; 16; 0; 0; 0; 0; 0; 1; 8; 0; 8; 1; 4]
    ++ cs_option_260 in
  (fun q => (end_code q, edns_valid (edns q),
             edns_cs_valid (client_subnet (edns q)),
             edns_cs_raw_buf_len (client_subnet (edns q))))
    <$> query_parse (with_request request (Z.of_nat (length request))
                       (query_reset (query_init 1542 0)))
  = Some (-1, true, true, 260).
Proof. vm_compute. reflexivity. Qed.

(** C1.  Scenario "EDNS BADVERS": a valid question plus an OPT record with
    version 1.  The parser takes the version from the first TTL byte (the
    extended rcode) instead of the second, so this request is served as
    EDNS version 0: end_code NOERROR, header rcode 0, and an OPT record at
    the end of the response with class 4096 (the advertised size is not
    forced to 512) and extended rcode 0.  When the first TTL byte is not 0
    the parser does set end_code to BADVERS (16), but edns_valid stays
    false, so the response is the bare 12-byte header with rcode 0 and no
    OPT record. *)
Theorem C1_edns_version_1_not_answered_badvers :
  (fun q => (end_code q, hdr_rcode (response_buffer q) (response_hdr q),
             version (edns q), udp_resp_len (edns q), response_bytes q))
    <$> serve_udp request_edns_version_1
  = Some (rip_ns_r_noerror, 0, 0, 4096,
      [31; 249; 133; 0; 0; 0; 0; 1; 0; 1; 0; 3;
       3; 119; 119; 119; 7; 101; 120; 97; 109; 112; 108; 101; 3; 99; 111; 109; 0;
       0; 1; 0; 1; 0; 0; 0; 60; 0; 4; 127; 0; 0; 1;
       192; 12; 0; 2; 0; 1; 0; 0; 0; 60; 0; 16;
       2; 110; 115; 7; 101; 120; 97; 109; 112; 108; 101; 3; 99; 111; 109; 0;
       2; 110; 115; 192; 16; 0; 1; 0; 1; 0; 0; 0; 60; 0; 4; 127; 0; 0; 1;
       192; 71; 0; 28; 0; 1; 0; 0; 0; 60; 0; 16;
       0; 0; 0; 0; 0; 0; 0; 0; 0; 0; 0; 0; 0; 0; 0; 1;
       0; 0; 41; 16; 0; 0; 0; 0; 0; 0; 0])
  /\ (fun q => (end_code q, edns_valid (edns q), udp_resp_len (edns q),
                hdr_rcode (response_buffer q) (response_hdr q),
                response_bytes q))
       <$> serve_udp request_edns_ext_rcode_1
     = Some (rip_ns_r_badvers, false, 512, 0,
             [31; 249; 133; 0; 0; 0; 0; 0; 0; 0; 0; 0]).
Proof. split; vm_compute; reflexivity. Qed.

(** C3.  A request with ARCOUNT 1 whose additional section holds exactly
    one record, not an OPT record: the parser counts one record and
    compares the count with the header's ANCOUNT (which is 0 in every
    request that gets this far), so end_code is FORMERR. *)
Theorem C3_one_additional_record_is_formerr :
  hdr_arcount request_one_additional 0 = 1
  /\ end_code <$> serve_udp request_one_additional = Some rip_ns_r_formerr.
Proof. split; vm_compute; reflexivity. Qed.

(** With an OPT record alone the count stays 0 and the request parses,
    whatever ARCOUNT says (here 5). *)
Lemma opt_alone_parses_for_any_arcount :
  (fun q => (end_code q, edns_valid (edns q)))
    <$> query_parse
          (with_request (www_question 5 ++ opt_rr 0 0) 44
             (query_reset (query_init 1542 0)))
  = Some (-1, true).
Proof. vm_compute. reflexivity. Qed.

End ParseEvaluations.

(* --------------------------------------------------------------------- *)
(** ** Evaluations of the vectorloop stages *)
(* --------------------------------------------------------------------- *)

Section StageEvaluations.
Import Wire Query QueryInit Conn Vectorloop VlScenario.

(** C2.  tcp_conns_per_vl_max is 514, tcp_listener_max_accept_new_conn is
    1024, the shard has no connection and 515 clients wait on the listener:
    one run of the accept stage accepts all 515, and 515 connections are
    active.  [accept_max] is computed but the inner loop is bounded by
    tcp_listener_max_accept_new_conn only. *)
Theorem C2_accept_exceeds_conns_per_vl_max :
  (fun r => (fst r, conns_tcp_active (snd r),
             length (conn_tcp_lru_cache (snd r))))
    <$> vl_fn_tcp_accept_conns (vl_listening 514 1024 515)
  = Some (515, 515, 515%nat)
  /\ tcp_conns_per_vl_max (cfg (vl_listening 514 1024 515)) = 514.
Proof. split; vm_compute; reflexivity. Qed.

(** A negative result of write() is never classified as would-block: the
    test compares the result itself with EAGAIN. *)
Lemma classify_write_negative (ret write_len : Z) :
  - 2 ^ 63 <= ret < 0 -> 0 <= write_len < 2 ^ 63 ->
  classify_write ret write_len = WriteErr.
Proof.
  intros Hr Hw. unfold classify_write, u64, EAGAIN, EWOULDBLOCK.
  assert (ret mod 18446744073709551616 = ret + 18446744073709551616) as ->.
  { symmetry. apply (Z.mod_unique _ _ (-1)); lia. }
  assert ((ret + 18446744073709551616 =? write_len) = false) as -> by lia.
  assert ((ret >? 0) = false) as -> by lia.
  assert ((ret <? 0) = true) as -> by lia.
  assert ((ret =? 11) = false) as -> by lia.
  reflexivity.
Qed.

(** C4.  One connection is queued for write with a packed response and
    write() reports would-block (-1 with errno EAGAIN).  After the write
    stage the connection is in state WRITE_ERR, its query has end_code
    TCP_WRITE_ERR (-6), waiting_for_write is still clear, and the
    connection has been moved to the query-log queue (from where it is
    released). *)
Theorem C4_would_block_is_write_error :
  (fun r => (conn_view (snd r) 1, query_log_queue (snd r),
             conn_tcp_write_queue (snd r), errno (snd r)))
    <$> vl_fn_tcp_write (vl_writing [(-1, EAGAIN)])
  = Some (Some (TCP_CONN_ST_WRITE_ERR, false, false,
                [rip_ns_r_rip_tcp_write_err]),
          {| head := Some 1%nat; tail := Some 1%nat |},
          queue_empty, EAGAIN).
Proof. vm_compute. reflexivity. Qed.

(** C6.  A connection that a partial write left in the TCP write queue
    times out and is released.  Its in_read_queue flag is clear, and
    conn_fifo_remove_from_write_queue tests that flag, so nothing is
    removed: after the release stage the connection object is freed and
    its address is still the head of the TCP write queue. *)
Theorem C6_released_conn_stays_in_write_queue :
  (fun vl => (write_queue_members (conns vl) (conn_tcp_write_queue vl),
              conns vl !! 1%nat, conn_tcp_release_queue vl))
    <$> partial_write_then_release
  = Some ([1%nat], None, queue_empty).
Proof. vm_compute. reflexivity. Qed.

End StageEvaluations.

(* --------------------------------------------------------------------- *)
(** ** The resource loop never times out *)
(* --------------------------------------------------------------------- *)

Section ResourceWait.
Import Resource ResScenario.

Lemma wait_pass_unanswered (st : resource_loop_t) :
  unanswered st -> vectorloop_update_wait_time st = 0 ->
  state st = WAIT_FOR_RESOURCE_UPDATE ->
  let st' := wait_for_resource_update st in
  state st' = WAIT_FOR_RESOURCE_UPDATE
  /\ vectorloop_update_wait_time st' = 0
  /\ app_log st' = app_log st
  /\ slept_ns st' = slept_ns st + 1000
  /\ resource_channels st' = resource_channels st
  /\ vl_notifications st' = vl_notifications st.
Proof.
  intros Hu Hw Hs. unfold wait_for_resource_update.
  unfold unanswered in Hu. rewrite Hu. simpl.
  rewrite Hw, Hs. repeat split; reflexivity.
Qed.

Lemma wait_passes_unanswered (n : nat) (st : resource_loop_t) :
  unanswered st -> vectorloop_update_wait_time st = 0 ->
  state st = WAIT_FOR_RESOURCE_UPDATE ->
  let st' := wait_passes n st in
  state st' = WAIT_FOR_RESOURCE_UPDATE
  /\ app_log st' = app_log st
  /\ slept_ns st' = slept_ns st + 1000 * Z.of_nat n.
Proof.
  revert st. induction n as [|n IH]; intros st Hu Hw Hs.
  - simpl. repeat split; [done|lia].
  - cbn [wait_passes]. rewrite Hs.
    destruct (wait_pass_unanswered st Hu Hw Hs) as (Hs' & Hw' & Hl & Hsl & Hc & Hn).
    assert (Hu' : unanswered (wait_for_resource_update st)).
    { unfold unanswered. rewrite Hc, Hn. exact Hu. }
    destruct (IH _ Hu' Hw' Hs') as (H1 & H2 & H3).
    cbv zeta. rewrite H1, H2, H3, Hl, Hsl. repeat split; lia.
Qed.

(** C5.  The resource worker has broadcast an update to one shard that does
    not reply.  Each pass of the wait sleeps 1000 ns (1 microsecond), but
    vectorloop_update_wait_time is never advanced, so the test against
    VL_RESOURCE_NOTIFY_WAIT_TIME_MAX never holds: after any number [n] of
    passes, that is after [n] microseconds of sleep, the worker is still
    waiting and has logged nothing.  With n = 10,000,001 more than 10
    seconds have passed. *)
Theorem C5_resource_wait_never_times_out (n : nat) :
  let st := wait_passes n (check_resource_updated 1 7 (idle 1)) in
  state st = WAIT_FOR_RESOURCE_UPDATE
  /\ app_log st = []
  /\ slept_ns st = 1000 * Z.of_nat n.
Proof.
  pose proof (wait_passes_unanswered n (check_resource_updated 1 7 (idle 1)))
    as H.
  destruct H as (H1 & H2 & H3); [| reflexivity | reflexivity |].
  - repeat split; reflexivity.
  - cbv zeta. rewrite H1, H2, H3. repeat split; reflexivity || (simpl; lia).
Qed.

End ResourceWait.

(** Boolean comparisons in the hypotheses turned into propositions. *)
Ltac zbool :=
  repeat match goal with
  | H : (_ =? _) = true |- _ => apply Z.eqb_eq in H
  | H : (_ =? _) = false |- _ => apply Z.eqb_neq in H
  | H : (_ <? _) = true |- _ => apply Z.ltb_lt in H
  | H : (_ <? _) = false |- _ => apply Z.ltb_ge in H
  | H : (_ <=? _) = true |- _ => apply Z.leb_le in H
  | H : (_ <=? _) = false |- _ => apply Z.leb_gt in H
  | H : (_ >? _) = true |- _ => rewrite Z.gtb_ltb in H; apply Z.ltb_lt in H
  | H : (_ >? _) = false |- _ => rewrite Z.gtb_ltb in H; apply Z.ltb_ge in H
  | H : (_ >=? _) = true |- _ => rewrite Z.geb_leb in H; apply Z.leb_le in H
  | H : (_ >=? _) = false |- _ => rewrite Z.geb_leb in H; apply Z.leb_gt in H
  end.

Ltac blia := zbool; lia.

(* --------------------------------------------------------------------- *)
(** ** rip_ns_utils: accessors and the name codec on arbitrary input *)
(* --------------------------------------------------------------------- *)

Section WireBounds.
Import Wire NameSpec.

(** X1. RIP_NS_PUT16 followed by RIP_NS_GET16 at the same place inside the
    buffer reads back the value as a uint16_t; the write keeps the length
    of the buffer and every byte other than the two it stores. *)
Theorem put16_then_get16 (v p : Z) (buf : list Z) :
  0 <= p -> p + 1 < Z.of_nat (length buf) ->
  RIP_NS_GET16 (RIP_NS_PUT16 v buf p) p = u16 v
  /\ length (RIP_NS_PUT16 v buf p) = length buf
  /\ (forall j, j <> p -> j <> p + 1 ->
      rd (RIP_NS_PUT16 v buf p) j = rd buf j).
Proof.
  intros Hp Hl. split; [apply get16_put16; done|].
  split; [apply put16_length|]. intros j H1 H2. apply rd_put16_other; done.
Qed.

Lemma put16_then_get16_witness :
  0 <= 1 /\ 1 + 1 < Z.of_nat (length [7; 7; 7; 7])
  /\ RIP_NS_GET16 (RIP_NS_PUT16 70000 [7; 7; 7; 7] 1) 1 = u16 70000.
Proof.
  split; [lia|]. split; [simpl; lia|].
  apply (put16_then_get16 70000 1 [7; 7; 7; 7]); simpl; lia.
Defined.

Lemma ntop_finish_bound (d : Z) (dst : list Z) :
  Z.of_nat (length dst) <= d ->
  let r := ntop_finish d dst in
  Z.of_nat (length (snd r)) <= d
  /\ (fst r = -1 \/ 0 <= fst r)
  /\ (0 <= fst r ->
      fst r = Z.of_nat (length (snd r)) - 1 /\ last (snd r) = Some 0).
Proof.
  intros Hl. unfold ntop_finish. cbv zeta.
  destruct (Z.of_nat (length dst) =? 0) eqn:E0.
  - destruct (Z.of_nat (length dst) >=? d) eqn:E1; cbn [andb].
    + cbn [fst snd]. split; [done|]. split; [left; done|intros; blia].
    + rewrite length_app. cbn [length].
      destruct (Z.of_nat (length dst + 1) >=? d) eqn:E2; cbn [fst snd].
      * rewrite length_app. cbn [length]. split; [blia|].
        split; [left; done|intros; blia].
      * rewrite !length_app. cbn [length]. split; [blia|].
        split; [right; blia|]. intros _. split; [blia|apply last_snoc].
  - cbn [andb].
    destruct (Z.of_nat (length dst) >=? d) eqn:E2; cbn [fst snd].
    + split; [done|]. split; [left; done|intros; blia].
    + rewrite !length_app. cbn [length]. split; [blia|].
      split; [right; blia|]. intros _. split; [blia|apply last_snoc].
Qed.

Lemma ntop_loop_bound (d : Z) :
  forall (src : list Z) (l : Z) (dst : list Z),
  Z.of_nat (length dst) <= d ->
  let r := rip_ns_name_ntop_loop src l d dst in
  Z.of_nat (length (snd r)) <= d
  /\ (fst r = -1 \/ 0 <= fst r)
  /\ (0 <= fst r ->
      fst r = Z.of_nat (length (snd r)) - 1 /\ last (snd r) = Some 0).
Proof.
  induction src as [|c src IH]; intros l dst Hl; cbv zeta.
  - cbn [rip_ns_name_ntop_loop fst snd]. split; [done|].
    split; [left; done|intros; blia].
  - cbn [rip_ns_name_ntop_loop].
    assert (Fail : forall x : list Z,
      Z.of_nat (length x) <= d ->
      Z.of_nat (length (snd (-1, x))) <= d
      /\ (fst (-1, x) = -1 \/ 0 <= fst (-1, x))
      /\ (0 <= fst (-1, x) ->
          fst (-1, x) = Z.of_nat (length (snd (-1, x))) - 1
          /\ last (snd (-1, x)) = Some 0)).
    { intros x Hx. cbn [fst snd]. split; [done|]. split; [left; done|intros; blia]. }
    destruct (l =? 0).
    + destruct (c =? 0); [apply ntop_finish_bound; done|].
      destruct (c >=? 64); [apply Fail; done|].
      destruct (negb (Z.of_nat (length dst) =? 0)); [|apply IH; done].
      destruct (d - Z.of_nat (length dst) <=? 0) eqn:E; [apply Fail; done|].
      apply IH. rewrite length_app. cbn [length]. blia.
    + destruct (special c).
      * destruct (d - Z.of_nat (length dst) <? 2) eqn:E; [apply Fail; done|].
        apply IH. rewrite length_app. cbn [length]. blia.
      * destruct (negb (printable c)).
        -- destruct (d - Z.of_nat (length dst) <? 4) eqn:E;
             [apply Fail; done|].
           apply IH. rewrite length_app. cbn [length]. blia.
        -- destruct (d - Z.of_nat (length dst) <? 2) eqn:E;
             [apply Fail; done|].
           apply IH. rewrite length_app. cbn [length]. blia.
Qed.

Lemma rip_ns_name_ntop_bound_aux (src : list Z) (dstsiz : Z) :
  0 <= dstsiz ->
  Z.of_nat (length (snd (rip_ns_name_ntop src dstsiz))) <= dstsiz.
Proof.
  intros Hd. unfold rip_ns_name_ntop.
  apply (ntop_loop_bound dstsiz src 0 []). cbn [length]. lia.
Qed.

(** X2. Whatever the source bytes, rip_ns_name_ntop stores at most
    [dstsiz] bytes; it returns -1 or, on success, the length of the string
    it stored, which ends with the NUL byte that the length leaves out. *)
Theorem rip_ns_name_ntop_within_dstsiz (src : list Z) (dstsiz : Z) :
  0 <= dstsiz ->
  let r := rip_ns_name_ntop src dstsiz in
  Z.of_nat (length (snd r)) <= dstsiz
  /\ (fst r = -1 \/ 0 <= fst r)
  /\ (0 <= fst r ->
      fst r = Z.of_nat (length (snd r)) - 1 /\ last (snd r) = Some 0).
Proof.
  intros Hd. unfold rip_ns_name_ntop. apply ntop_loop_bound. cbn [length]. lia.
Qed.

Lemma rip_ns_name_ntop_within_dstsiz_witness :
  0 <= 6
  /\ Z.of_nat (length (snd (rip_ns_name_ntop (wire_of www_example_com) 6)))
     <= 6
  /\ fst (rip_ns_name_ntop (wire_of www_example_com) 6) = -1.
Proof.
  split; [lia|].
  split; [|vm_compute; reflexivity].
  apply (rip_ns_name_ntop_within_dstsiz (wire_of www_example_com) 6). lia.
Defined.

(** X3. For a valid uncompressed name rip_ns_name_ntop succeeds exactly
    when the presentation form and its NUL byte fit the destination, and
    then it stores the escaped labels separated by dots ("." for the root)
    and returns their length. *)
Theorem rip_ns_name_ntop_presentation (labels : list (list Z))
    (rest : list Z) (dstsiz : Z) :
  name_valid labels = true -> 0 <= dstsiz ->
  let r := rip_ns_name_ntop (wire_of labels ++ rest) dstsiz in
  (0 <= fst r <-> Z.of_nat (length (text_of labels)) < dstsiz)
  /\ (0 <= fst r ->
      r = (Z.of_nat (length (text_of labels)), text_of labels ++ [0])).
Proof.
  intros Hv Hd r.
  assert (Hl : forallb label_valid labels = true).
  { unfold name_valid in Hv. apply andb_true_iff in Hv. tauto. }
  pose proof (ntop_wire labels rest dstsiz Hl) as [N1 N2]. fold r in N1, N2.
  pose proof (rip_ns_name_ntop_bound_aux (wire_of labels ++ rest) dstsiz Hd)
    as B. fold r in B.
  assert (S : 0 <= fst r ->
              r = (Z.of_nat (length (text_of labels)), text_of labels ++ [0])).
  { intros Hr. destruct N2 as [N2|N2]; [exact N2|lia]. }
  split; [|exact S]. split.
  - intros Hr. rewrite (S Hr) in B. cbn [snd] in B.
    rewrite length_app in B. cbn [length] in B. lia.
  - intros Ht. rewrite (N1 Ht). cbn [fst]. lia.
Qed.

Lemma rip_ns_name_ntop_presentation_witness :
  name_valid www_example_com = true /\ 0 <= 16
  /\ rip_ns_name_ntop (wire_of www_example_com) 16
     = (15, text_of www_example_com ++ [0]).
Proof.
  assert (V : name_valid www_example_com = true) by (vm_compute; reflexivity).
  assert (D : 0 <= 16) by lia.
  pose proof (rip_ns_name_ntop_presentation www_example_com [] 16 V D)
    as [H1 H2].
  rewrite app_nil_r in H1, H2.
  split; [exact V|]. split; [exact D|].
  apply H2. apply H1. vm_compute. reflexivity.
Defined.

Lemma pton_close_result (d ret : Z) (done cur : list Z) :
  let r := pton_close d done cur ret in
  fst r = -1
  \/ (fst r = ret /\ 1 <= Z.of_nat (length (snd r)) <= RIP_NS_MAXCDNAME
      /\ Z.of_nat (length (snd r)) <= d /\ last (snd r) = Some 0).
Proof.
  unfold pton_close, RIP_NS_MAXCDNAME. cbv zeta.
  destruct (negb (Z.land (Z.of_nat (length cur)) RIP_NS_CMPRSFLGS =? 0));
    [left; done|].
  destruct (Z.of_nat (length done) >=? d) eqn:E1; [left; done|].
  destruct (Z.of_nat (length cur) =? 0) eqn:E2; cbn [negb].
  - destruct (Z.of_nat (length done) + 1 + Z.of_nat (length cur) >? 255)
      eqn:E3; [left; done|].
    right. cbn [fst snd]. split; [done|].
    assert (cur = []) as -> by (destruct cur; [done|cbn [length] in E2; blia]).
    rewrite length_app. cbn [length] in *.
    split; [blia|]. split; [blia|].
    change (done ++ [u8 0]) with (done ++ [0]). apply last_snoc.
  - destruct (Z.of_nat (length done) + 1 + Z.of_nat (length cur) >=? d)
      eqn:E3; [left; done|].
    destruct (Z.of_nat (length done) + 1 + Z.of_nat (length cur) + 1 >? 255)
      eqn:E4; [left; done|].
    right. cbn [fst snd]. split; [done|].
    rewrite length_app. cbn [length]. rewrite length_app. cbn [length].
    split; [blia|]. split; [blia|].
    change (done ++ u8 (Z.of_nat (length cur)) :: cur ++ [0])
      with (done ++ (u8 (Z.of_nat (length cur)) :: cur) ++ [0]).
    rewrite app_assoc. apply last_snoc.
Qed.

(** Every result of the loop of rip_ns_name_pton is -1 or comes from one
    of the two exits that store the last length byte. *)
Lemma pton_loop_exits (P : Z * list Z -> Prop) (d : Z) :
  P (-1, []) ->
  (forall done cur ret, ret = 0 \/ ret = 1 -> P (pton_close d done cur ret)) ->
  forall (src : list Z) (escaped : bool) (done cur : list Z),
  P (rip_ns_name_pton_loop src d escaped done cur).
Proof.
  intros Hfail Hclose src.
  remember (length src) as n eqn:Hn. revert src Hn.
  induction n as [n IH] using lt_wf_ind.
  intros src Hn escaped done cur.
  assert (Hend : P (if escaped then (-1, [])
                    else pton_close d done cur 0)).
  { destruct escaped; [exact Hfail|apply Hclose; left; done]. }
  destruct src as [|c src]; [exact Hend|].
  cbn [rip_ns_name_pton_loop].
  destruct (c =? 0); [exact Hend|].
  destruct escaped.
  - destruct (is_digit c).
    + destruct src as [|c2 src]; [exact Hfail|].
      destruct ((c2 =? 0) || negb (is_digit c2)); [exact Hfail|].
      destruct src as [|c3 src]; [exact Hfail|].
      destruct ((c3 =? 0) || negb (is_digit c3)); [exact Hfail|].
      cbv zeta. repeat case_match; try exact Hfail.
      eapply IH; [|reflexivity]. subst n. simpl. lia.
    + case_match; [exact Hfail|].
      eapply IH; [|reflexivity]. subst n. simpl. lia.
  - destruct (c =? 92).
    { eapply IH; [|reflexivity]. subst n. simpl. lia. }
    destruct (c =? 46).
    + cbv zeta. repeat case_match; try exact Hfail;
        try (apply Hclose; right; done).
      eapply IH; [|reflexivity]. subst n. simpl. lia.
    + case_match; [exact Hfail|].
      eapply IH; [|reflexivity]. subst n. simpl. lia.
Qed.

(** X4. Whatever the source string, rip_ns_name_pton returns -1, 0 or 1;
    when it does not fail the name it stored has between 1 and
    RIP_NS_MAXCDNAME bytes, fits [dstsiz] and ends with the zero byte of
    the root.  The bytes stored are uint8_t values. *)
Theorem rip_ns_name_pton_result (src : list Z) (dstsiz : Z) :
  let r := rip_ns_name_pton src dstsiz in
  bytes (snd r)
  /\ (fst r = -1
      \/ ((fst r = 0 \/ fst r = 1)
          /\ 1 <= Z.of_nat (length (snd r)) <= RIP_NS_MAXCDNAME
          /\ Z.of_nat (length (snd r)) <= dstsiz
          /\ last (snd r) = Some 0)).
Proof.
  cbv zeta. split; [apply pton_bytes|].
  unfold rip_ns_name_pton.
  apply (pton_loop_exits
           (fun r => fst r = -1
              \/ ((fst r = 0 \/ fst r = 1)
                  /\ 1 <= Z.of_nat (length (snd r)) <= RIP_NS_MAXCDNAME
                  /\ Z.of_nat (length (snd r)) <= dstsiz
                  /\ last (snd r) = Some 0))).
  - left. reflexivity.
  - intros done cur ret Hret.
    destruct (pton_close_result dstsiz ret done cur) as [H|(H1 & H2 & H3 & H4)];
      [left; exact H|right].
    split; [rewrite H1; exact Hret|]. split; [exact H2|].
    split; [exact H3|exact H4].
Qed.

End WireBounds.

(* --------------------------------------------------------------------- *)
(** ** rip_ns_name_pack and rip_ns_name_put stay inside their window *)
(* --------------------------------------------------------------------- *)

Section NameWindow.
Import Wire NameSpec.

Lemma confined_refl (lo hi : Z) (a : list Z) : confined lo hi a a.
Proof. split; done. Qed.

Lemma confined_trans (lo hi : Z) (a b c : list Z) :
  confined lo hi a b -> confined lo hi b c -> confined lo hi a c.
Proof.
  intros [L1 R1] [L2 R2]. split; [congruence|].
  intros j Hj. rewrite R2, R1; done.
Qed.

Lemma confined_wr (lo hi p v : Z) (buf : list Z) :
  lo <= p < hi -> confined lo hi buf (wr buf p v).
Proof.
  intros Hp. split; [apply wr_length|].
  intros j Hj. apply rd_wr_ne. lia.
Qed.

Lemma rd_wr_bytes_ge (src : list Z) :
  forall (buf : list Z) (p j : Z),
  p + Z.of_nat (length src) <= j -> rd (wr_bytes buf p src) j = rd buf j.
Proof.
  induction src as [|b src IH]; intros buf p j Hj; [done|].
  cbn [wr_bytes length] in *. rewrite IH by lia. apply rd_wr_ne. lia.
Qed.

Lemma confined_wr_bytes (lo hi p : Z) (src buf : list Z) :
  lo <= p -> p + Z.of_nat (length src) <= hi ->
  confined lo hi buf (wr_bytes buf p src).
Proof.
  intros H1 H2. split; [apply wr_bytes_length|].
  intros j [Hj|Hj]; [apply rd_wr_bytes_lt; lia|apply rd_wr_bytes_ge; lia].
Qed.

Lemma rd_bytes_length (buf : list Z) (p n : Z) :
  length (rd_bytes buf p n) = Z.to_nat n.
Proof. unfold rd_bytes. rewrite length_map, length_seq. done. Qed.

Lemma name_pack_loop_confined (fuel : nat) :
  forall (src buf : list Z) (dst eob : Z) (msg : option Z)
         (arr : list (option Z)) (lpp lastdnptr : nat) (srcp dstp : Z)
         (cpp : nat) (first : bool) ret buf' arr',
  bytes src -> dst <= dstp ->
  name_pack_loop fuel src buf dst eob msg arr lpp lastdnptr srcp dstp cpp first
  = Some (ret, buf', arr') ->
  confined dst eob buf buf' /\ (ret = -1 \/ 1 <= ret <= eob - dst).
Proof.
  induction fuel as [|fuel IH]; intros src buf dst eob msg arr lpp lastdnptr
    srcp dstp cpp first ret buf' arr' Hb Hd H; [discriminate|].
  cbn [name_pack_loop] in H.
  pose proof (rd_byte src srcp Hb) as Hn.
  set (n := rd src srcp) in *.
  match type of H with (mbind _ ?f) = _ => destruct f as [found|] eqn:Ef end;
    [|discriminate].
  cbn [mbind option_bind] in H.
  destruct (found >=? 0).
  - destruct (eob - dstp <=? 1) eqn:E1.
    + inversion H; subst. split; [apply confined_refl|left; done].
    + inversion H; subst. apply Z.leb_gt in E1. split; [|right; lia].
      eapply confined_trans; apply confined_wr; lia.
  - cbv zeta in H.
    match type of H with
      context [if ?s then <[S cpp:=None]> _ else arr] => set (save := s) in *
    end.
    destruct (n >=? 64).
    { inversion H; subst. split; [apply confined_refl|left; done]. }
    destruct (n + 1 >? eob - dstp) eqn:E2.
    { inversion H; subst. split; [apply confined_refl|left; done]. }
    rewrite Z.gtb_ltb in E2. apply Z.ltb_ge in E2.
    assert (C : confined dst eob buf
                  (wr_bytes buf dstp (rd_bytes src srcp (n + 1)))).
    { apply confined_wr_bytes; [done|]. rewrite rd_bytes_length. lia. }
    destruct (negb (n =? 0)).
    + apply IH in H; [|done|lia]. destruct H as [H1 H2].
      split; [|exact H2]. eapply confined_trans; [exact C|exact H1].
    + destruct (dstp + (n + 1) >? eob) eqn:E3; inversion H; subst.
      * split; [exact C|left; done].
      * split; [exact C|right; lia].
Qed.

Lemma name_pack_confined (src buf : list Z) (dst dstsiz : Z)
    (arr : list (option Z)) (lastdnptr : nat) ret buf' arr' :
  bytes src ->
  rip_ns_name_pack src buf dst dstsiz arr lastdnptr = Some (ret, buf', arr') ->
  confined dst (dst + dstsiz) buf buf'
  /\ (ret = -1 \/ 1 <= ret <= dstsiz).
Proof.
  intros Hb. unfold rip_ns_name_pack.
  generalize name_fuel. intros fuel.
  generalize (default None (arr !! 0%nat)). intros msg.
  generalize (if msg is Some _ then first_null (drop 1 arr) 1 else 0%nat).
  intros lpp.
  destruct (name_pack_legal fuel src 0 0) as [legal|]; [|discriminate].
  change (Some legal ≫= ?f) with (f legal). cbv beta.
  destruct (negb legal).
  - intros [= <- <- <-]. split; [apply confined_refl|left; reflexivity].
  - intros H.
    destruct (name_pack_loop_confined _ _ _ _ _ _ _ _ _ _ _ _ _ _ _ _
                Hb (Z.le_refl dst) H) as [H1 H2].
    split; [exact H1|].
    destruct H2 as [H2|H2]; [left; exact H2|right].
    replace (dst + dstsiz - dst) with dstsiz in H2 by ring. exact H2.
Qed.

Lemma name_put_confined (src buf : list Z) (dst dstsiz : Z)
    (arr : list (option Z)) (lastdnptr : nat) ret buf' arr' :
  rip_ns_name_put src buf dst dstsiz arr lastdnptr = Some (ret, buf', arr') ->
  confined dst (dst + dstsiz) buf buf' /\ (ret < 0 \/ 1 <= ret <= dstsiz).
Proof.
  intros H. unfold rip_ns_name_put in H.
  pose proof (pton_bytes src RIP_NS_CDNAME_COMP_BUF_LEN) as Hb.
  destruct (rip_ns_name_pton src RIP_NS_CDNAME_COMP_BUF_LEN) as [ret_c cn].
  cbn [snd] in Hb.
  destruct (ret_c <? 0) eqn:E.
  - inversion H; subst. apply Z.ltb_lt in E.
    split; [apply confined_refl|left; exact E].
  - destruct (name_pack_confined cn buf dst dstsiz arr lastdnptr ret buf' arr'
                Hb H) as [C B].
    split; [exact C|].
    destruct B as [B|B]; [left; rewrite B; reflexivity|right; exact B].
Qed.

(** X5. rip_ns_name_put (rip_ns_name_pton into a 256-byte scratch buffer,
    then rip_ns_name_pack) changes no byte of the message outside the
    [dstsiz] bytes at [dst] and returns a negative value or the count of
    bytes it used there, between 1 and [dstsiz]. *)
Theorem rip_ns_name_put_stays_in_window (src buf : list Z) (dst dstsiz : Z)
    (arr : list (option Z)) (lastdnptr : nat) ret buf' arr' :
  rip_ns_name_put src buf dst dstsiz arr lastdnptr = Some (ret, buf', arr') ->
  length buf' = length buf
  /\ (forall j, j < dst \/ dst + dstsiz <= j -> rd buf' j = rd buf j)
  /\ (ret < 0 \/ 1 <= ret <= dstsiz).
Proof.
  intros H. destruct (name_put_confined _ _ _ _ _ _ _ _ _ H) as [[L R] B].
  split; [exact L|]. split; [exact R|exact B].
Qed.

Lemma rip_ns_name_put_stays_in_window_witness :
  exists buf' arr',
    rip_ns_name_put [119; 119; 119] (repeat 7 20) 12 8 [Some 0; None; None] 2
    = Some (5, buf', arr')
    /\ length buf' = length (repeat 7 20)
    /\ rd buf' 11 = rd (repeat 7 20) 11.
Proof.
  destruct (rip_ns_name_put [119; 119; 119] (repeat 7 20) 12 8
              [Some 0; None; None] 2) as [[[ret buf'] arr']|] eqn:E;
    [|vm_compute in E; discriminate].
  exists buf', arr'.
  destruct (rip_ns_name_put_stays_in_window _ _ _ _ _ _ _ _ _ E)
    as (L & R & _).
  assert (ret = 5) as ->.
  { vm_compute in E. injection E as E _ _. symmetry. exact E. }
  split; [reflexivity|]. split; [exact L|]. apply R. left. lia.
Defined.

End NameWindow.

(* --------------------------------------------------------------------- *)
(** ** Uncompressed names in a message *)
(* --------------------------------------------------------------------- *)

Section NameInMessage.
Import Wire NameSpec.

Lemma rd_at (pre rest : list Z) (x : Z) :
  rd (pre ++ x :: rest) (Z.of_nat (length pre)) = x.
Proof.
  unfold rd. destruct (Z.of_nat (length pre) <? 0) eqn:E; [blia|].
  rewrite Nat2Z.id, lookup_app_r by blia.
  rewrite Nat.sub_diag. reflexivity.
Qed.

Lemma rd_bytes_at (pre l rest : list Z) :
  rd_bytes (pre ++ l ++ rest) (Z.of_nat (length pre)) (Z.of_nat (length l))
  = l.
Proof.
  unfold rd_bytes. rewrite Nat2Z.id. apply list_eq. intros i.
  rewrite list_lookup_fmap.
  destruct (decide (i < length l)%nat) as [Hi|Hi].
  - rewrite lookup_seq_lt by done. cbn [fmap option_fmap option_map].
    unfold rd. cbn [Nat.add].
    destruct (Z.of_nat (length pre) + Z.of_nat i <? 0) eqn:E; [blia|].
    replace (Z.to_nat (Z.of_nat (length pre) + Z.of_nat i))
      with (length pre + i)%nat by blia.
    rewrite lookup_app_r by blia.
    replace (length pre + i - length pre)%nat with i by blia.
    rewrite lookup_app_l by done.
    destruct (l !! i) eqn:El; [reflexivity|].
    apply lookup_ge_None in El. blia.
  - rewrite lookup_seq_ge by blia. symmetry. apply lookup_ge_None. blia.
Qed.

Lemma unpack_labels_loop (post : list Z) (eom src dstsiz : Z) :
  forall (ls : list (list Z)) (pre dst : list Z) (checked : Z) (fuel : nat),
  forallb label_valid ls = true ->
  Z.of_nat (length pre) + Z.of_nat (length (wire_of ls)) <= eom ->
  Z.of_nat (length dst) + Z.of_nat (length (wire_of ls)) <= dstsiz ->
  (length ls < fuel)%nat ->
  rip_ns_name_unpack_loop fuel (pre ++ wire_of ls ++ post) eom src dstsiz
    (Z.of_nat (length pre)) dst (-1) checked
  = Some (Z.of_nat (length pre) + Z.of_nat (length (wire_of ls)) - src,
          dst ++ wire_of ls).
Proof.
  induction ls as [|l ls IH]; intros pre dst checked fuel Hv He Hd Hf.
  - destruct fuel as [|fuel]; [cbn [length] in Hf; blia|].
    unfold wire_of. cbn [flat_map app length].
    cbn [rip_ns_name_unpack_loop]. rewrite rd_at.
    change (0 =? 0) with true. cbv iota. change (-1 <? 0) with true.
    cbv iota. reflexivity.
  - destruct fuel as [|fuel]; [cbn [length] in Hf; blia|].
    cbn [forallb] in Hv. apply andb_true_iff in Hv. destruct Hv as [Hl Hv].
    pose proof (label_valid_elim l Hl) as [Hl1 Hlb].
    rewrite wire_of_cons_length in He, Hd.
    pose proof (wire_of_cons l ls) as Hw. rewrite Hw.
    cbn [app]. cbn [rip_ns_name_unpack_loop]. rewrite rd_at.
    destruct (Z.of_nat (length l) =? 0) eqn:E0; [blia|].
    rewrite (proj1 (Z.eqb_eq _ _)
               (label_len_flags (Z.of_nat (length l)) ltac:(blia))).
    change (0 =? 0) with true. cbv iota.
    destruct (Z.of_nat (length l) >=? 64) eqn:E1; [blia|].
    assert (Hw1 : 1 <= Z.of_nat (length (wire_of ls))).
    { unfold wire_of. rewrite length_app. cbn [length]. blia. }
    destruct ((Z.of_nat (length l) + 1 >=? dstsiz - Z.of_nat (length dst))
              || (Z.of_nat (length l) >=? eom - (Z.of_nat (length pre) + 1)))
      eqn:E2.
    { apply orb_true_iff in E2. destruct E2; blia. }
    assert (Hm : pre ++ Z.of_nat (length l) :: (l ++ wire_of ls) ++ post
                 = (pre ++ [Z.of_nat (length l)]) ++ l ++ wire_of ls ++ post).
    { rewrite <- !app_assoc. reflexivity. }
    assert (Hp : Z.of_nat (length pre) + 1
                 = Z.of_nat (length (pre ++ [Z.of_nat (length l)]))).
    { rewrite length_app. cbn [length]. blia. }
    rewrite Hm, Hp. rewrite rd_bytes_at.
    assert (Hm' : (pre ++ [Z.of_nat (length l)]) ++ l ++ wire_of ls ++ post
                  = ((pre ++ [Z.of_nat (length l)]) ++ l)
                    ++ wire_of ls ++ post).
    { rewrite <- !app_assoc. reflexivity. }
    assert (Hp' : Z.of_nat (length (pre ++ [Z.of_nat (length l)]))
                  + Z.of_nat (length l)
                  = Z.of_nat (length ((pre ++ [Z.of_nat (length l)]) ++ l))).
    { rewrite (length_app (pre ++ [Z.of_nat (length l)]) l). blia. }
    rewrite Hm', Hp'.
    rewrite IH; [|done| | |cbn [length] in Hf; blia].
    + rewrite !length_app. cbn [length]. rewrite !length_app.
      f_equal. f_equal; [blia|].
      rewrite <- !app_assoc. reflexivity.
    + rewrite !length_app. cbn [length]. blia.
    + rewrite length_app. cbn [length]. blia.
Qed.

Lemma wire_longer_than_labels (ls : list (list Z)) :
  Z.of_nat (length ls) < Z.of_nat (length (wire_of ls)).
Proof.
  induction ls as [|l ls IH]; [cbn; blia|].
  rewrite wire_of_cons_length. cbn [length]. blia.
Qed.

Lemma unpack_uncompressed (labels : list (list Z)) (pre post : list Z)
    (eom dstsiz : Z) :
  name_valid labels = true ->
  Z.of_nat (length pre) + Z.of_nat (length (wire_of labels)) <= eom ->
  Z.of_nat (length (wire_of labels)) <= dstsiz ->
  rip_ns_name_unpack (pre ++ wire_of labels ++ post) eom
    (Z.of_nat (length pre)) dstsiz
  = Some (Z.of_nat (length (wire_of labels)), wire_of labels).
Proof.
  intros Hv He Hd.
  assert (Hl : forallb label_valid labels = true).
  { unfold name_valid in Hv. apply andb_true_iff in Hv. tauto. }
  pose proof (wire_longer_than_labels labels) as Hn.
  unfold rip_ns_name_unpack.
  destruct ((Z.of_nat (length pre) <? 0) || (Z.of_nat (length pre) >=? eom))
    eqn:E; [blia|].
  rewrite (unpack_labels_loop post eom (Z.of_nat (length pre)) dstsiz
             labels pre [] 0); [|done|done|cbn [length]; blia|blia].
  cbn [app]. f_equal. f_equal. blia.
Qed.

(** X6. rip_ns_name_unpack on a valid uncompressed name that lies in the
    message before its last byte, with a destination that can hold it:
    the name is copied as it is and the return value is its length, the
    count of message bytes consumed. *)
Theorem rip_ns_name_unpack_uncompressed (labels : list (list Z))
    (pre post : list Z) (eom dstsiz : Z) :
  name_valid labels = true ->
  Z.of_nat (length pre) + Z.of_nat (length (wire_of labels)) <= eom ->
  Z.of_nat (length (wire_of labels)) <= dstsiz ->
  rip_ns_name_unpack (pre ++ wire_of labels ++ post) eom
    (Z.of_nat (length pre)) dstsiz
  = Some (Z.of_nat (length (wire_of labels)), wire_of labels).
Proof. apply unpack_uncompressed. Qed.

Lemma rip_ns_name_unpack_uncompressed_witness :
  name_valid www_example_com = true
  /\ Z.of_nat (length [1; 2; 3]) + Z.of_nat (length (wire_of www_example_com))
     <= 24
  /\ Z.of_nat (length (wire_of www_example_com)) <= 256
  /\ rip_ns_name_unpack ([1; 2; 3] ++ wire_of www_example_com ++ [0; 1; 0; 1])
       24 (Z.of_nat (length [1; 2; 3])) 256
     = Some (17, wire_of www_example_com).
Proof.
  assert (V : name_valid www_example_com = true) by (vm_compute; reflexivity).
  assert (E : Z.of_nat (length [1; 2; 3])
              + Z.of_nat (length (wire_of www_example_com)) <= 24)
    by (vm_compute; discriminate).
  assert (D : Z.of_nat (length (wire_of www_example_com)) <= 256)
    by (vm_compute; discriminate).
  split; [exact V|]. split; [exact E|]. split; [exact D|].
  exact (rip_ns_name_unpack_uncompressed www_example_com [1; 2; 3]
           [0; 1; 0; 1] 24 256 V E D).
Defined.


(** X7. rip_rr_name_get on such a name: when the presentation form and
    its NUL byte fit the destination it returns the count of message bytes
    consumed, stores the presentation form and sets the label length to
    the length of the string; otherwise it returns -1 and leaves the label
    length as it was. *)
Theorem rip_rr_name_get_uncompressed (labels : list (list Z))
    (pre post dst : list Z) (eom dstsiz qll : Z) :
  name_valid labels = true ->
  Z.of_nat (length pre) + Z.of_nat (length (wire_of labels)) <= eom ->
  0 <= dstsiz ->
  let r := rip_rr_name_get (pre ++ wire_of labels ++ post) eom
             (Z.of_nat (length pre)) dst dstsiz qll in
  (Z.of_nat (length (text_of labels)) < dstsiz ->
   r = Some (Z.of_nat (length (wire_of labels)), text_of labels ++ [0],
             Z.of_nat (length (text_of labels))))
  /\ (dstsiz <= Z.of_nat (length (text_of labels)) ->
      exists d, r = Some (-1, d, qll)).
Proof.
  intros Hv He Hd r.
  assert (Hm : Z.of_nat (length (wire_of labels)) <= 256).
  { unfold name_valid, RIP_NS_MAXCDNAME in Hv.
    apply andb_true_iff in Hv. blia. }
  assert (Hl : forallb label_valid labels = true).
  { unfold name_valid in Hv. apply andb_true_iff in Hv. tauto. }
  unfold r, rip_rr_name_get.
  rewrite (unpack_uncompressed labels pre post eom 256 Hv He Hm).
  cbn [mbind option_bind].
  destruct (Z.of_nat (length (wire_of labels)) <? 0) eqn:E0; [blia|].
  pose proof (ntop_wire labels [] dstsiz Hl) as [N1 N2].
  rewrite app_nil_r in N1, N2.
  pose proof (rip_ns_name_ntop_bound_aux (wire_of labels) dstsiz Hd) as B.
  pose proof (ntop_loop_bound dstsiz (wire_of labels) 0 [] ltac:(cbn; blia))
    as (_ & S & _).
  fold (rip_ns_name_ntop (wire_of labels) dstsiz) in S.
  pose proof (text_length labels) as Ht.
  split.
  - intros Hfit. rewrite (N1 Hfit).
    destruct (Z.of_nat (length (text_of labels)) <? 0) eqn:E1; [blia|].
    f_equal. f_equal. unfold u16. apply Z.mod_small. blia.
  - intros Hno.
    destruct (rip_ns_name_ntop (wire_of labels) dstsiz) as [ret_c d] eqn:En.
    cbn [fst snd] in *.
    destruct N2 as [N2|N2].
    + inversion N2; subst. rewrite length_app in B. cbn [length] in B. blia.
    + subst ret_c. change (-1 <? 0) with true. cbv iota. exists d. reflexivity.
Qed.

Lemma rip_rr_name_get_uncompressed_witness :
  name_valid www_example_com = true
  /\ rip_rr_name_get
       (repeat 0 12 ++ wire_of www_example_com ++ [0; 1; 0; 1]) 32 12 [] 256 0
     = Some (17, text_of www_example_com ++ [0], 15).
Proof.
  assert (V : name_valid www_example_com = true) by (vm_compute; reflexivity).
  split; [exact V|].
  assert (E : Z.of_nat (length (repeat 0 12))
              + Z.of_nat (length (wire_of www_example_com)) <= 32)
    by (vm_compute; discriminate).
  assert (D : 0 <= 256) by blia.
  pose proof (rip_rr_name_get_uncompressed www_example_com (repeat 0 12)
                [0; 1; 0; 1] [] 32 256 0 V E D) as [H _].
  apply H. vm_compute. reflexivity.
Defined.

End NameInMessage.

(* --------------------------------------------------------------------- *)
(** ** query_parse *)
(* --------------------------------------------------------------------- *)

Section QueryParseProps.
Import Wire Header Query QueryParse QueryInit NameSpec Scenario.





(** X9. query_parse leaves end_code at -1 (the query goes on to be
    resolved) only for a request of at least 12 bytes whose header is a
    standard query: TC 0, opcode 0, QR 0, QDCOUNT 1, ANCOUNT 0, NSCOUNT 0. *)
Theorem query_parse_resolves_standard_queries_only (q q' : query_t) :
  query_parse q = Some q' ->
  end_code q' = -1 ->
  let msg := request_msg q in
  HFIXEDSZ <= request_buffer_len q
  /\ hdr_tc msg 0 = 0 /\ hdr_opcode msg 0 = rip_ns_o_query
  /\ hdr_qr msg 0 = 0 /\ hdr_qdcount msg 0 = 1
  /\ hdr_ancount msg 0 = 0 /\ hdr_nscount msg 0 = 0.
Proof.
  intros H He. cbv zeta. unfold query_parse in H. cbv zeta in H.
  change (request_buffer_len (set_end_code (-1) q))
    with (request_buffer_len q) in H.
  assert (Rej : forall c (x : query_t),
            Some (set_end_code c x) = Some q' -> c <> -1 -> False).
  { intros c x Hx Hc. inversion Hx; subst. cbn in He. contradiction. }
  destruct (request_buffer_len q <? HFIXEDSZ) eqn:E1;
    [exfalso; eapply Rej; [exact H|done]|].
  destruct (hdr_tc (request_msg q) 0 =? 0) eqn:E2; cbn [negb] in H;
    [|exfalso; eapply Rej; [exact H|done]].
  destruct (hdr_opcode (request_msg q) 0 =? rip_ns_o_query) eqn:E3;
    cbn [negb] in H; [|exfalso; eapply Rej; [exact H|done]].
  destruct (hdr_qr (request_msg q) 0 =? 0) eqn:E4; cbn [negb] in H;
    [|exfalso; eapply Rej; [exact H|done]].
  destruct (hdr_qdcount (request_msg q) 0 =? 1) eqn:E5; cbn [negb] in H.
  2:{ destruct (hdr_qdcount (request_msg q) 0 =? 0);
        exfalso; eapply Rej; [exact H|done|exact H|done]. }
  destruct (hdr_ancount (request_msg q) 0 =? 0) eqn:E6; cbn [negb orb] in H;
    [|exfalso; eapply Rej; [exact H|done]].
  destruct (hdr_nscount (request_msg q) 0 =? 0) eqn:E7; cbn [negb] in H;
    [|exfalso; eapply Rej; [exact H|done]].
  clear H Rej. zbool. repeat split; assumption.
Qed.

Lemma query_parse_resolves_standard_queries_only_witness :
  exists q',
    query_parse (with_request (www_question 0) 33
                   (query_reset (query_init 1542 0))) = Some q'
    /\ end_code q' = -1
    /\ hdr_qdcount (www_question 0) 0 = 1.
Proof.
  destruct (query_parse (with_request (www_question 0) 33
                           (query_reset (query_init 1542 0))))
    as [q'|] eqn:E; [|vm_compute in E; discriminate].
  exists q'.
  assert (He : end_code q' = -1).
  { vm_compute in E. injection E as <-. reflexivity. }
  pose proof (query_parse_resolves_standard_queries_only _ q' E He)
    as (_ & _ & _ & _ & H & _).
  split; [reflexivity|]. split; [exact He|exact H].
Defined.

Lemma edns_ext_loop_keeps (fuel : nat) :
  forall (q : query_t) (buf eobuf : Z) r q',
  query_parse_edns_ext_loop fuel q buf eobuf = Some (r, q') ->
  udp_resp_len (edns q') = udp_resp_len (edns q)
  /\ version (edns q') = version (edns q)
  /\ edns_valid (edns q') = edns_valid (edns q)
  /\ end_code q' = end_code q
  /\ request_msg q' = request_msg q.
Proof.
  induction fuel as [|fuel IH]; intros q buf eobuf r q' H; [discriminate|].
  cbn [query_parse_edns_ext_loop] in H.
  destruct (buf <? eobuf); [|inversion H; subst; repeat split; reflexivity].
  destruct (buf + 3 >? eobuf);
    [inversion H; subst; repeat split; reflexivity|].
  cbv zeta in H.
  destruct (buf + 4 + RIP_NS_GET16 (request_msg q) (buf + 2) - 1 >? eobuf);
    [inversion H; subst; repeat split; reflexivity|].
  destruct (RIP_NS_GET16 (request_msg q) buf =? rip_ns_ext_opt_c_cs).
  - destruct (query_parse_edns_ext_cs _ _) as [rc cs'].
    destruct (negb (rc =? 0)).
    + inversion H; subst. repeat split; reflexivity.
    + apply IH in H. exact H.
  - apply IH in H. exact H.
Qed.

(** X10. Whenever the OPT record is parsed, the advertised UDP response
    size kept in the query lies between RIP_NS_PACKETSZ (512) and
    RIP_NS_UDP_MAXMSG (4096), whatever the request says.  On return value 0
    the version byte read is 0 and EDNS is marked valid; on -1 the end code
    is BADVERS with the size forced to 512, or FORMERR. *)
Theorem parse_opt_rr_clamps_udp_size (q : query_t) (eom ptr unpack : Z)
    r q' ptr' :
  parse_opt_rr q eom ptr unpack = Some (r, q', ptr') ->
  RIP_NS_PACKETSZ <= udp_resp_len (edns q') <= RIP_NS_UDP_MAXMSG
  /\ (r = 0 /\ edns_valid (edns q') = true /\ version (edns q') = 0
       /\ end_code q' = end_code q
      \/ r = -1 /\ end_code q' = rip_ns_r_badvers
         /\ udp_resp_len (edns q') = 512
      \/ r = -1 /\ end_code q' = rip_ns_r_formerr).
Proof.
  intros H. unfold parse_opt_rr in H. cbv zeta in H.
  unfold RIP_NS_PACKETSZ, RIP_NS_UDP_MAXMSG in *.
  set (len := RIP_NS_GET16 (request_msg q) (ptr + 2)) in *.
  set (clamped := if len <? 512 then 512
                  else if len >? 4096 then 4096 else len) in *.
  assert (Hc : 512 <= clamped <= 4096).
  { unfold clamped. destruct (len <? 512) eqn:E1; [lia|].
    destruct (len >? 4096) eqn:E2; blia. }
  cbn [version edns set_edns set_version] in H.
  destruct (rd (request_msg q) (ptr + 2 + 2) =? 0) eqn:Ev; cbn [negb] in H.
  2:{ inversion H; subst. cbn. split; [lia|]. right. left. done. }
  apply Z.eqb_eq in Ev.
  match type of H with
    context [query_parse_edns_ext ?x _ _] => set (q2 := x) in *
  end.
  assert (F : udp_resp_len (edns q2) = clamped /\ version (edns q2) = 0
              /\ end_code q2 = end_code q).
  { unfold q2.
    destruct (Z.land (rd (request_msg q) (ptr + 2 + 2 + 2)) 128 =? 128);
      cbn; rewrite Ev; done. }
  destruct F as (F1 & F2 & F3). clearbody q2.
  destruct (RIP_NS_GET16 (request_msg q) (ptr + 2 + 2 + 2 + 2) >? 0).
  - match type of H with (if ?c then _ else _) = _ => destruct c end.
    + inversion H; subst. cbn. rewrite F1. split; [lia|]. right. right. done.
    + destruct (query_parse_edns_ext q2 _ _) as [[r1 q1]|] eqn:Ex;
        [|discriminate].
      cbn [mbind option_bind] in H.
      unfold query_parse_edns_ext in Ex. apply edns_ext_loop_keeps in Ex.
      destruct Ex as (X1 & X2 & X3 & X4 & X5).
      destruct (negb (r1 =? 0)); inversion H; subst; cbn;
        rewrite X1, F1; (split; [lia|]).
      * right. right. done.
      * left. rewrite X2, X4. done.
  - inversion H; subst. cbn. rewrite F1. split; [lia|]. left. done.
Qed.

Lemma parse_opt_rr_clamps_udp_size_witness :
  exists q' ptr',
    parse_opt_rr (with_request (www_question 1 ++ [0; 0; 41; 255; 255;
                                                   0; 0; 0; 0; 0; 0]) 44
                    (query_reset (query_init 1542 0))) 43 34 1
    = Some (0, q', ptr')
    /\ udp_resp_len (edns q') = 4096.
Proof.
  destruct (parse_opt_rr _ 43 34 1) as [[[r q'] ptr']|] eqn:E;
    [|vm_compute in E; discriminate].
  exists q', ptr'.
  pose proof (parse_opt_rr_clamps_udp_size _ _ _ _ _ _ _ E) as [[_ Hb] _].
  assert (r = 0 /\ 4096 <= udp_resp_len (edns q')) as [-> Hu].
  { vm_compute in E. injection E as <- <- _. split; [reflexivity|].
    vm_compute. discriminate. }
  split; [reflexivity|]. unfold RIP_NS_UDP_MAXMSG in Hb. lia.
Defined.

End QueryParseProps.

(* --------------------------------------------------------------------- *)
(** ** query_pack_edns and query_pack_rr *)
(* --------------------------------------------------------------------- *)

Section PackRecords.
Import Wire Header Query QueryPack.

Lemma confined_put16 (lo hi p v : Z) (buf : list Z) :
  lo <= p -> p + 2 <= hi -> confined lo hi buf (RIP_NS_PUT16 v buf p).
Proof.
  intros H1 H2. unfold RIP_NS_PUT16. cbv zeta.
  eapply confined_trans; apply confined_wr; lia.
Qed.

Lemma confined_put32 (lo hi p v : Z) (buf : list Z) :
  lo <= p -> p + 4 <= hi -> confined lo hi buf (RIP_NS_PUT32 v buf p).
Proof.
  intros H1 H2. unfold RIP_NS_PUT32. cbv zeta.
  repeat (eapply confined_trans; [|apply confined_wr; lia]).
  apply confined_refl.
Qed.

Lemma confined_mono (lo hi lo' hi' : Z) (a b : list Z) :
  lo' <= lo -> hi <= hi' -> confined lo hi a b -> confined lo' hi' a b.
Proof. intros H1 H2 [L R]. split; [done|]. intros j Hj. apply R. lia. Qed.

Lemma get16_confined (lo hi p : Z) (a b : list Z) :
  confined lo hi a b -> p + 2 <= lo \/ hi <= p ->
  RIP_NS_GET16 b p = RIP_NS_GET16 a p.
Proof.
  intros [_ R] Hp. unfold RIP_NS_GET16. rewrite !R by lia. reflexivity.
Qed.

(** The lengths query_pack_edns computes for a client subnet whose source
    mask is a uint8_t. *)
Lemma edns_opts_len_range (e : edns_t) :
  0 <= source_mask (client_subnet e) < 256 ->
  let cs := client_subnet e in
  let cs_ip_len :=
    if edns_cs_valid cs then
      let l := u8 (source_mask cs / 8) in
      if u8 (source_mask cs mod 8) >? 0 then u8 (l + 1) else l
    else 0 in
  let cs_opt_len := if edns_cs_valid cs then u8 (4 + cs_ip_len) else 0 in
  0 <= cs_ip_len <= 32
  /\ cs_opt_len = (if edns_cs_valid cs then 4 + cs_ip_len else 0).
Proof.
  intros Hs. cbv zeta. destruct (edns_cs_valid (client_subnet e)); [|lia].
  set (s := source_mask (client_subnet e)) in *.
  assert (H8 : u8 (s / 8) = s / 8) by (unfold u8; apply Z.mod_small; dlia).
  rewrite H8.
  assert (H9 : u8 (s / 8 + 1) = s / 8 + 1)
    by (unfold u8; apply Z.mod_small; dlia).
  rewrite H9.
  destruct (u8 (s mod 8) >? 0).
  - split; [dlia|]. unfold u8. apply Z.mod_small. dlia.
  - split; [dlia|]. unfold u8. apply Z.mod_small. dlia.
Qed.

(** X11. query_pack_edns, by its input.  The record takes 11 bytes, or
    19 bytes and the address bytes of the source mask when the Client
    Subnet option is valid.  The function returns 0 without touching the
    buffer when the EDNS object is not valid, and -1 without touching it
    when the object is valid and [buf_len] is less than the record.
    Otherwise it returns the length of the record and changes the buffer
    inside those bytes only; where they lie inside the buffer the record
    reads back as the root name, TYPE OPT, the advertised UDP size as
    CLASS, the extended rcode and version 0 as the first TTL bytes, and
    the length of the options as RDLENGTH. *)
Theorem query_pack_edns_record (buf : list Z) (p buf_len : Z) (e : edns_t) :
  0 <= p ->
  0 <= source_mask (client_subnet e) < 256 ->
  let len := if edns_cs_valid (client_subnet e)
             then 19 + (source_mask (client_subnet e) + 7) / 8 else 11 in
  let r := query_pack_edns buf p buf_len e in
  (edns_valid e = false -> r = (0, buf))
  /\ (edns_valid e = true -> buf_len < len -> r = (-1, buf))
  /\ (edns_valid e = true -> len <= buf_len ->
      fst r = len
      /\ confined p (p + len) buf (snd r)
      /\ (p + len <= Z.of_nat (length buf) ->
          rd (snd r) p = 0
          /\ RIP_NS_GET16 (snd r) (p + 1) = rip_ns_t_opt
          /\ RIP_NS_GET16 (snd r) (p + 3) = u16 (udp_resp_len e)
          /\ rd (snd r) (p + 5) = u8 (extended_rcode e)
          /\ rd (snd r) (p + 6) = 0
          /\ RIP_NS_GET16 (snd r) (p + 9) = len - 11)).
Proof.
  intros Hp Hs. cbv zeta. unfold query_pack_edns.
  destruct (edns_valid e) eqn:Ev; cbn [negb].
  2:{ split; [done|]. split; discriminate. }
  split; [discriminate|]. cbv zeta.
  pose proof (edns_opts_len_range e Hs) as R. cbv zeta in R.
  set (cs := client_subnet e) in *.
  assert (Hip : (if u8 (source_mask cs mod 8) >? 0
                 then u8 (u8 (source_mask cs / 8) + 1)
                 else u8 (source_mask cs / 8))
                = (source_mask cs + 7) / 8).
  { set (s := source_mask cs) in *.
    assert (H8 : u8 (s / 8) = s / 8) by (unfold u8; apply Z.mod_small; dlia).
    assert (H9 : u8 (s / 8 + 1) = s / 8 + 1)
      by (unfold u8; apply Z.mod_small; dlia).
    assert (H7 : u8 (s mod 8) = s mod 8)
      by (unfold u8; apply Z.mod_small; dlia).
    rewrite H8, H9, H7. destruct (s mod 8 >? 0) eqn:E; dlia. }
  set (cs_ip_len := if edns_cs_valid cs
                    then if u8 (source_mask cs mod 8) >? 0
                         then u8 (u8 (source_mask cs / 8) + 1)
                         else u8 (source_mask cs / 8)
                    else 0) in *.
  set (cs_opt_len := if edns_cs_valid cs then u8 (4 + cs_ip_len) else 0) in *.
  destruct R as [R1 R2].
  unfold RIP_NS_RRFIXEDSZ.
  set (opts_len := if edns_cs_valid cs then u16 (u16 (1 + 10) + (4 + cs_opt_len))
                   else u16 (1 + 10)).
  set (len := if edns_cs_valid cs then 19 + (source_mask cs + 7) / 8 else 11).
  assert (Ho : opts_len = len /\ 11 <= len
               /\ (edns_cs_valid cs = true -> len = 19 + cs_ip_len)).
  { unfold opts_len, len, u16. unfold cs_ip_len in *.
    destruct (edns_cs_valid cs).
    - change ((1 + 10) mod 65536) with 11. rewrite Hip in *.
      rewrite R2. rewrite Z.mod_small by lia. lia.
    - change ((1 + 10) mod 65536) with 11. split; [reflexivity|].
      split; [lia|discriminate]. }
  destruct Ho as (Ho1 & Ho2 & Ho3). rewrite Ho1. clearbody opts_len.
  clearbody cs_opt_len.
  split.
  { intros _ Hlt. assert ((buf_len <? len) = true) as -> by lia.
    reflexivity. }
  intros _ Hge. assert ((buf_len <? len) = false) as -> by lia.
  cbn [fst snd]. split; [reflexivity|].
  (* the eleven bytes of the record proper *)
  set (b1 := RIP_NS_PUT16 (len - 1 - 10)
               (wr (wr (wr (wr (RIP_NS_PUT16 (udp_resp_len e)
                  (RIP_NS_PUT16 rip_ns_t_opt (wr buf p 0) (p + 1)) (p + 3))
                  (p + 5) (u8 (extended_rcode e))) (p + 6) 0)
                  (p + 7) (u8 (Z.shiftl (if dnssec e then 1 else 0) 7)))
                  (p + 8) 0) (p + 9)).
  assert (C1 : confined p (p + 11) buf b1).
  { unfold b1, RIP_NS_PUT16. cbv zeta.
    repeat (eapply confined_trans; [|apply confined_wr; lia]).
    apply confined_refl. }
  assert (F : p + len <= Z.of_nat (length buf) ->
              rd b1 p = 0
              /\ RIP_NS_GET16 b1 (p + 1) = rip_ns_t_opt
              /\ RIP_NS_GET16 b1 (p + 3) = u16 (udp_resp_len e)
              /\ rd b1 (p + 5) = u8 (extended_rcode e)
              /\ rd b1 (p + 6) = 0
              /\ RIP_NS_GET16 b1 (p + 9) = len - 11).
  { intros Hl.
    set (c0 := wr buf p 0).
    set (c1 := RIP_NS_PUT16 rip_ns_t_opt c0 (p + 1)).
    set (c2 := RIP_NS_PUT16 (udp_resp_len e) c1 (p + 3)).
    set (c3 := wr c2 (p + 5) (u8 (extended_rcode e))).
    set (c4 := wr c3 (p + 6) 0).
    set (c5 := wr c4 (p + 7)
                 (u8 (Z.shiftl (if dnssec e then 1 else 0) 7))).
    set (c6 := wr c5 (p + 8) 0).
    assert (L0 : length c0 = length buf) by apply wr_length.
    assert (L1 : length c1 = length buf)
      by (unfold c1; rewrite put16_length; exact L0).
    assert (L2 : length c2 = length buf)
      by (unfold c2; rewrite put16_length; exact L1).
    assert (L3 : length c3 = length buf)
      by (unfold c3; rewrite wr_length; exact L2).
    assert (L6 : length c6 = length buf).
    { unfold c6, c5, c4. rewrite !wr_length. exact L3. }
    assert (K0 : confined (p + 1) (p + 11) c0 b1).
    { unfold b1, RIP_NS_PUT16. cbv zeta.
      repeat (eapply confined_trans; [|apply confined_wr; lia]).
      apply confined_refl. }
    assert (K1 : confined (p + 3) (p + 11) c1 b1).
    { unfold b1, RIP_NS_PUT16. cbv zeta.
      repeat (eapply confined_trans; [|apply confined_wr; lia]).
      apply confined_refl. }
    assert (K2 : confined (p + 5) (p + 11) c2 b1).
    { unfold b1, RIP_NS_PUT16. cbv zeta.
      repeat (eapply confined_trans; [|apply confined_wr; lia]).
      apply confined_refl. }
    assert (K3 : confined (p + 6) (p + 11) c3 b1).
    { unfold b1, RIP_NS_PUT16. cbv zeta.
      repeat (eapply confined_trans; [|apply confined_wr; lia]).
      apply confined_refl. }
    assert (K4 : confined (p + 7) (p + 11) c4 b1).
    { unfold b1, RIP_NS_PUT16. cbv zeta.
      repeat (eapply confined_trans; [|apply confined_wr; lia]).
      apply confined_refl. }
    split; [|split; [|split; [|split; [|split]]]].
    - destruct K0 as [_ K]. rewrite K by lia. apply rd_wr_eq. lia.
    - rewrite (get16_confined _ _ _ _ _ K1) by lia.
      unfold c1. rewrite get16_put16 by lia. reflexivity.
    - rewrite (get16_confined _ _ _ _ _ K2) by lia.
      unfold c2. rewrite get16_put16 by lia. reflexivity.
    - destruct K3 as [_ K]. rewrite K by lia. apply rd_wr_eq. lia.
    - destruct K4 as [_ K]. rewrite K by lia. apply rd_wr_eq. lia.
    - change b1 with (RIP_NS_PUT16 (len - 1 - 10) c6 (p + 9)).
      rewrite get16_put16 by lia.
      replace (len - 1 - 10) with (len - 11) by ring.
      unfold u16. apply Z.mod_small.
      unfold len. destruct (edns_cs_valid cs); dlia. }
  destruct (edns_cs_valid cs) eqn:Ecs.
  - specialize (Ho3 eq_refl).
    set (b2 := wr_bytes _ (p + 19) _).
    assert (C2 : confined (p + 11) (p + len) b1 b2).
    { unfold b2.
      eapply confined_trans; [|apply confined_wr_bytes;
                                [lia|rewrite rd_bytes_length; lia]].
      unfold RIP_NS_PUT16. cbv zeta.
      repeat (eapply confined_trans; [|apply confined_wr; lia]).
      apply confined_refl. }
    split.
    { eapply confined_trans;
        [eapply confined_mono; [| |exact C1]; lia
        |eapply confined_mono; [| |exact C2]; lia]. }
    intros Hl. destruct C2 as [_ R2'].
    destruct (F Hl) as (F1 & F2 & F3 & F4 & F5 & F6).
    unfold RIP_NS_GET16 in *.
    rewrite !R2' by lia. repeat split; assumption.
  - split; [|exact F].
    eapply confined_mono; [| |exact C1]; lia.
Qed.

Lemma query_pack_edns_record_witness :
  let e := set_udp_resp_len 1232 (set_edns_valid true QueryInit.edns_zero) in
  0 <= 14
  /\ fst (query_pack_edns (repeat 7 40) 14 20 e) = 11
  /\ RIP_NS_GET16 (snd (query_pack_edns (repeat 7 40) 14 20 e)) (14 + 3)
     = 1232
  /\ query_pack_edns (repeat 7 40) 14 10 e = (-1, repeat 7 40).
Proof.
  intros e.
  assert (H0 : 0 <= 14) by lia.
  assert (H2 : 0 <= source_mask (client_subnet e) < 256) by (cbn; lia).
  pose proof (query_pack_edns_record (repeat 7 40) 14 20 e H0 H2)
    as (_ & _ & H).
  pose proof (query_pack_edns_record (repeat 7 40) 14 10 e H0 H2)
    as (_ & G & _).
  cbv zeta in H, G.
  change (edns_cs_valid (client_subnet e)) with false in H, G.
  cbv iota in H, G.
  destruct (H eq_refl ltac:(lia)) as (E & _ & F).
  destruct F as (_ & _ & F3 & _); [vm_compute; discriminate|].
  split; [exact H0|]. split; [exact E|]. split; [|exact (G eq_refl ltac:(lia))].
  rewrite F3. reflexivity.
Defined.

(** query_pack_rr for a record whose rdata length is a uint16_t: whatever
    it returns, the message is changed inside the [buf_len] bytes at [p]
    only.  The return value is -3 or the count of bytes packed, which is
    the packed name, the 10 fixed bytes and the rdata, and does not exceed
    [buf_len]; where the bytes packed lie inside the buffer, the type,
    class and rdata length stored after the name read back as the
    record's. *)
Lemma query_pack_rr_window (rr : rr_record_t) (buf : list Z)
    (p buf_len : Z) (arr : list (option Z)) ret buf' arr' :
  rr_wf rr = true ->
  0 <= p ->
  query_pack_rr rr buf p buf_len arr = Some (ret, buf', arr') ->
  confined p (p + buf_len) buf buf'
  /\ (ret = -3
      \/ exists pnl,
           1 <= pnl /\ ret = pnl + RIP_NS_RRFIXEDSZ + rdata_len rr
           /\ ret <= buf_len
           /\ (p + ret <= Z.of_nat (length buf) ->
               RIP_NS_GET16 buf' (p + pnl) = u16 (type rr)
               /\ RIP_NS_GET16 buf' (p + pnl + 2) = u16 (class rr)
               /\ RIP_NS_GET16 buf' (p + pnl + 8) = rdata_len rr)).
Proof.
  intros Hw Hp H. unfold query_pack_rr in H.
  unfold rr_wf in Hw. apply andb_true_iff in Hw. destruct Hw as [Hw1 Hw2].
  apply Z.leb_le in Hw1. apply Z.ltb_lt in Hw2.
  unfold RIP_NS_RRFIXEDSZ in *.
  destruct (rip_ns_name_put (name rr) buf p buf_len arr
              (Z.to_nat (DNS_RESPONSE_COMPRESSED_NAMES_MAX - 1)))
    as [[[pnl b1] a1]|] eqn:En; [|discriminate].
  apply name_put_confined in En. destruct En as [Cn Bn].
  cbn [mbind option_bind] in H.
  destruct (pnl <? 0) eqn:Ep.
  { inversion H; subst. split; [exact Cn|left; reflexivity]. }
  apply Z.ltb_ge in Ep. destruct Bn as [Bn|Bn]; [lia|].
  cbv zeta in H.
  destruct (pnl + 10 + rdata_len rr >? buf_len) eqn:Eg.
  { inversion H; subst. split; [exact Cn|left; reflexivity]. }
  rewrite Z.gtb_ltb in Eg. apply Z.ltb_ge in Eg.
  inversion H; subst ret buf' arr'. clear H.
  destruct Cn as [Ln Rn].
  set (c1 := RIP_NS_PUT16 (type rr) b1 (p + pnl)).
  set (c2 := RIP_NS_PUT16 (class rr) c1 (p + pnl + 2)).
  set (c3 := RIP_NS_PUT32 (ttl rr) c2 (p + pnl + 4)).
  set (c4 := RIP_NS_PUT16 (rdata_len rr) c3 (p + pnl + 8)).
  set (c5 := wr_bytes c4 (p + pnl + 10)
               (rd_bytes (rdata rr) 0 (rdata_len rr))).
  assert (L1 : length c1 = length buf)
    by (unfold c1; rewrite put16_length; exact Ln).
  assert (L2 : length c2 = length buf)
    by (unfold c2; rewrite put16_length; exact L1).
  assert (L3 : length c3 = length buf).
  { unfold c3, RIP_NS_PUT32. cbv zeta. rewrite !wr_length. exact L2. }
  assert (K5 : confined (p + pnl + 10) (p + buf_len) c4 c5).
  { unfold c5. apply confined_wr_bytes; [lia|].
    rewrite rd_bytes_length. lia. }
  assert (K4 : confined (p + pnl + 8) (p + buf_len) c3 c5).
  { apply (confined_trans _ _ _ c4); [apply confined_put16; lia|].
    eapply confined_mono; [| |exact K5]; lia. }
  assert (K3 : confined (p + pnl + 4) (p + buf_len) c2 c5).
  { apply (confined_trans _ _ _ c3); [apply confined_put32; lia|].
    eapply confined_mono; [| |exact K4]; lia. }
  assert (K2 : confined (p + pnl + 2) (p + buf_len) c1 c5).
  { apply (confined_trans _ _ _ c2); [apply confined_put16; lia|].
    eapply confined_mono; [| |exact K3]; lia. }
  assert (K1 : confined p (p + buf_len) b1 c5).
  { apply (confined_trans _ _ _ c1); [apply confined_put16; lia|].
    eapply confined_mono; [| |exact K2]; lia. }
  split.
  { eapply confined_trans; [split; [exact Ln|exact Rn]|exact K1]. }
  right. exists pnl.
  split; [lia|]. split; [reflexivity|]. split; [lia|].
  intros Hl. split; [|split].
  - rewrite (get16_confined _ _ _ _ _ K2) by lia.
    unfold c1. apply get16_put16; lia.
  - rewrite (get16_confined _ _ _ _ _ K3) by lia.
    unfold c2. apply get16_put16; lia.
  - rewrite (get16_confined _ _ _ _ _ K5) by lia.
    unfold c4. rewrite get16_put16 by lia.
    unfold u16. apply Z.mod_small. lia.
Qed.

End PackRecords.

(* --------------------------------------------------------------------- *)
(** ** EDNS Client Subnet, write classification, connection ids *)
(* --------------------------------------------------------------------- *)

Section ClientSubnetWitness.
Import Wire Query QueryParse CsSpec.

Lemma cs_parse_matches_spec_below_260_witness :
  bytes [0; 1; 24; 0; 192; 0; 2] /\ 0 <= 7 < 260
  /\ fst (query_parse_edns_ext_cs [0; 1; 24; 0; 192; 0; 2] (cs_at 0 7)) = 0
  /\ spec_cs_accepts [0; 1; 24; 0; 192; 0; 2] 0 7 = true.
Proof.
  assert (B : bytes [0; 1; 24; 0; 192; 0; 2]).
  { unfold bytes. repeat (apply Forall_cons; split; [lia|]). apply Forall_nil_2. }
  assert (R : 0 <= 7 < 260) by lia.
  pose proof (cs_parse_matches_spec_below_260 [0; 1; 24; 0; 192; 0; 2] 0 7 B R)
    as [H _].
  assert (E : fst (query_parse_edns_ext_cs [0; 1; 24; 0; 192; 0; 2]
                     (cs_at 0 7)) = 0) by (vm_compute; reflexivity).
  split; [exact B|]. split; [exact R|]. split; [exact E|].
  apply H. exact E.
Defined.

End ClientSubnetWitness.

Section WriteClassification.
Import Conn Vectorloop.

(** X14. How vl_fn_tcp_write reads the result [ret] of write() for
    [write_len] bytes to write (both in the range of ssize_t): the whole
    response was written when they are equal, a part when [ret] is
    positive, the peer closed when it is 0, and every negative result is a
    write error: no result is read as would-block. *)
Theorem classify_write_cases (ret write_len : Z) :
  - 2 ^ 63 <= ret < 2 ^ 63 -> 0 <= write_len < 2 ^ 63 ->
  classify_write ret write_len
  = (if ret =? write_len then WriteFull
     else if 0 <? ret then WritePartial
     else if ret =? 0 then WriteClosed
     else WriteErr)
  /\ classify_write ret write_len <> WriteWouldBlock.
Proof.
  intros Hr Hw.
  assert (E : classify_write ret write_len
              = (if ret =? write_len then WriteFull
                 else if 0 <? ret then WritePartial
                 else if ret =? 0 then WriteClosed
                 else WriteErr)).
  { unfold classify_write, u64, EAGAIN, EWOULDBLOCK.
    destruct (Z.ltb_spec ret 0) as [Hn|Hn].
    - assert (ret mod 18446744073709551616 = ret + 18446744073709551616)
        as ->.
      { symmetry. apply (Z.mod_unique _ _ (-1)); lia. }
      destruct (Z.eqb_spec (ret + 18446744073709551616) write_len); [lia|].
      destruct (Z.eqb_spec ret write_len); [lia|].
      destruct (Z.gtb_spec ret 0); [lia|].
      destruct (Z.ltb_spec 0 ret); [lia|].
      destruct (Z.eqb_spec ret 0); [lia|].
      destruct (Z.eqb_spec ret 11); [lia|]. reflexivity.
    - rewrite Z.mod_small by lia.
      destruct (Z.eqb_spec ret write_len); [reflexivity|].
      destruct (Z.gtb_spec ret 0); destruct (Z.ltb_spec 0 ret); try lia;
        [reflexivity|].
      destruct (Z.eqb_spec ret 0); [reflexivity|lia]. }
  split; [exact E|]. rewrite E.
  destruct (ret =? write_len); [discriminate|].
  destruct (0 <? ret); [discriminate|].
  destruct (ret =? 0); discriminate.
Qed.

Lemma classify_write_cases_witness :
  - 2 ^ 63 <= -1 < 2 ^ 63 /\ 0 <= 120 < 2 ^ 63
  /\ classify_write (-1) 120 = WriteErr.
Proof.
  assert (H1 : - 2 ^ 63 <= -1 < 2 ^ 63) by lia.
  assert (H2 : 0 <= 120 < 2 ^ 63) by lia.
  split; [exact H1|]. split; [exact H2|].
  exact (proj1 (classify_write_cases (-1) 120 H1 H2)).
Defined.

End WriteClassification.

Section ConnectionIds.
Import Conn.

Lemma lru_find_some_key (lru : lru_cache) (id : Z) (c : nat) :
  lru_find lru id = Some c -> In id (map fst lru).
Proof.
  unfold lru_find. induction lru as [|[k v] lru IH]; [discriminate|].
  cbn [find fst]. destruct (Z.eqb_spec k id) as [->|Hne].
  - intros _. left. reflexivity.
  - intros H. right. apply IH. exact H.
Qed.

(** A scan that gives up has seen a key of the cache at every id it
    looked at. *)
Lemma id_scan_none (fuel : nat) (lru : lru_cache) :
  forall i limit,
  id_scan fuel lru i limit = None ->
  limit <= i + Z.of_nat fuel ->
  forall j, i <= j < limit -> In j (map fst lru).
Proof.
  induction fuel as [|fuel IH]; intros i limit H Hl j Hj; [lia|].
  cbn [id_scan] in H.
  destruct (Z.ltb_spec i limit) as [Hlt|Hge]; [|lia].
  destruct (lru_find lru i) as [c|] eqn:Ef; [|discriminate].
  destruct (Z.eq_dec j i) as [->|Hne].
  - eapply lru_find_some_key. exact Ef.
  - apply (IH (i + 1) limit H); lia.
Qed.

(** With more ids to look at than the fuel, a scan that gives up has seen
    [fuel] different keys. *)
Lemma id_scan_none_fuel (fuel : nat) (lru : lru_cache) :
  forall i limit,
  id_scan fuel lru i limit = None ->
  i + Z.of_nat fuel <= limit ->
  forall j, i <= j < i + Z.of_nat fuel -> In j (map fst lru).
Proof.
  induction fuel as [|fuel IH]; intros i limit H Hl j Hj; [lia|].
  cbn [id_scan] in H.
  destruct (Z.ltb_spec i limit) as [Hlt|Hge]; [|lia].
  destruct (lru_find lru i) as [c|] eqn:Ef; [|discriminate].
  destruct (Z.eq_dec j i) as [->|Hne].
  - eapply lru_find_some_key. exact Ef.
  - apply (IH (i + 1) limit H); lia.
Qed.

Lemma shifted_seq_NoDup (i : Z) (n : nat) :
  List.NoDup (map (fun k => i + Z.of_nat k) (seq 0 n)).
Proof.
  apply Finite.Injective_map_NoDup; [|apply seq_NoDup].
  intros a b Hab. lia.
Qed.

Lemma shifted_seq_In (i : Z) (n : nat) (x : Z) :
  In x (map (fun k => i + Z.of_nat k) (seq 0 n)) <-> i <= x < i + Z.of_nat n.
Proof.
  rewrite in_map_iff. split.
  - intros (k & <- & Hk). apply in_seq in Hk. lia.
  - intros Hx. exists (Z.to_nat (x - i)). split; [lia|]. apply in_seq. lia.
Qed.

Lemma range_in_keys_short (lru : lru_cache) (i : Z) (n : nat) :
  (forall j, i <= j < i + Z.of_nat n -> In j (map fst lru)) ->
  (n <= length lru)%nat.
Proof.
  intros H.
  assert (Hi : incl (map (fun k => i + Z.of_nat k) (seq 0 n)) (map fst lru)).
  { intros x Hx. apply shifted_seq_In in Hx. apply H. exact Hx. }
  pose proof (NoDup_incl_length (shifted_seq_NoDup i n) Hi) as Hlen.
  rewrite !length_map, length_seq in Hlen. exact Hlen.
Qed.

(** When every id below [m] other than [base] is a key, the cache has at
    least [m - 1] entries. *)
Lemma all_but_base_short (lru : lru_cache) (base m : Z) :
  0 <= base <= m ->
  (forall j, 0 <= j < m -> j <> base -> In j (map fst lru)) ->
  m - 1 <= Z.of_nat (length lru).
Proof.
  intros Hb K.
  remember (Z.to_nat base) as n1 eqn:E1.
  remember (Z.to_nat (m - base - 1)) as n2 eqn:E2.
  set (l1 := map (fun k => 0 + Z.of_nat k) (seq 0 n1)).
  set (l2 := map (fun k => base + 1 + Z.of_nat k) (seq 0 n2)).
  assert (Hn : List.NoDup (l1 ++ l2)).
  { apply List.NoDup_app; [apply shifted_seq_NoDup|apply shifted_seq_NoDup|].
    intros x Hx1 Hx2. apply shifted_seq_In in Hx1, Hx2. lia. }
  assert (Hi : incl (l1 ++ l2) (map fst lru)).
  { intros x Hx. apply in_app_iff in Hx.
    destruct Hx as [Hx|Hx]; apply shifted_seq_In in Hx; apply K; lia. }
  pose proof (NoDup_incl_length Hn Hi) as Hlen.
  unfold l1, l2 in Hlen.
  rewrite length_app, !length_map, !length_seq in Hlen. lia.
Qed.

Lemma id_scan_some (fuel : nat) (lru : lru_cache) :
  forall i limit id,
  id_scan fuel lru i limit = Some id ->
  i <= id < limit /\ lru_find lru id = None.
Proof.
  induction fuel as [|fuel IH]; intros i limit id H; [discriminate|].
  cbn [id_scan] in H.
  destruct (Z.ltb_spec i limit) as [Hlt|Hge]; [|discriminate].
  destruct (lru_find lru i) as [c|] eqn:Ef.
  - apply IH in H. destruct H as [H1 H2]. split; [lia|exact H2].
  - inversion H; subst. split; [lia|exact Ef].
Qed.

(** A scan with more fuel than the cache has entries gives up only at the
    limit: it never runs out of fuel. *)
Lemma id_scan_fuel_enough (lru : lru_cache) (i limit : Z) :
  id_scan (S (length lru)) lru i limit = None ->
  forall j, i <= j < limit -> In j (map fst lru).
Proof.
  intros H.
  destruct (Z.le_gt_cases limit (i + Z.of_nat (S (length lru)))) as [Hl|Hl].
  - apply (id_scan_none _ _ _ _ H Hl).
  - pose proof (id_scan_none_fuel _ _ _ _ H ltac:(lia)) as Hk.
    apply range_in_keys_short in Hk. lia.
Qed.

(** X15. conn_tcp_id_assign: the id assigned is not a key of the cache,
    lies below UINTMAX_MAX and differs from the base; the function fails
    only when every id other than the base (and below UINTMAX_MAX) is a
    key, so it succeeds whenever the cache has fewer than 2^64 - 2
    entries. *)
Theorem conn_tcp_id_assign_fresh (lru : lru_cache) (base : Z) :
  0 <= base <= UINTMAX_MAX ->
  match conn_tcp_id_assign lru base with
  | Some id =>
    lru_find lru id = None /\ 0 <= id < UINTMAX_MAX /\ id <> base
  | None =>
    (forall j, 0 <= j < UINTMAX_MAX -> j <> base -> In j (map fst lru))
    /\ UINTMAX_MAX - 1 <= Z.of_nat (length lru)
  end.
Proof.
  intros Hb. unfold conn_tcp_id_assign, UINTMAX_MAX, u64 in *.
  assert (Hu : 0 <= (base + 1) mod 18446744073709551616
               /\ (base < 18446744073709551615 ->
                   (base + 1) mod 18446744073709551616 = base + 1)
               /\ (base = 18446744073709551615 ->
                   (base + 1) mod 18446744073709551616 = 0)).
  { split; [apply Z.mod_pos_bound; lia|]. split.
    - intros. apply Z.mod_small. lia.
    - intros ->. reflexivity. }
  destruct Hu as (U0 & U1 & U2).
  destruct (id_scan (S (length lru)) lru
              ((base + 1) mod 18446744073709551616) 18446744073709551615)
    as [id|] eqn:E1.
  - apply id_scan_some in E1. destruct E1 as [R F].
    split; [exact F|]. split; [lia|].
    destruct (Z.eq_dec base 18446744073709551615) as [He|Hne]; [lia|].
    rewrite U1 in R by lia. lia.
  - destruct (id_scan (S (length lru)) lru 0 base) as [id|] eqn:E2.
    + apply id_scan_some in E2. destruct E2 as [R F].
      split; [exact F|]. split; lia.
    + pose proof (id_scan_fuel_enough _ _ _ E1) as K1.
      pose proof (id_scan_fuel_enough _ _ _ E2) as K2.
      assert (K : forall j, 0 <= j < 18446744073709551615 -> j <> base ->
                  In j (map fst lru)).
      { intros j Hj Hne. destruct (Z.lt_ge_cases j base) as [Hlt|Hge].
        - apply K2. lia.
        - apply K1. destruct (Z.eq_dec base 18446744073709551615); [lia|].
          rewrite U1 by lia. lia. }
      split; [exact K|].
      apply (all_but_base_short lru base 18446744073709551615 Hb K).
Qed.

Lemma conn_tcp_id_assign_fresh_witness :
  0 <= 1 <= UINTMAX_MAX
  /\ conn_tcp_id_assign [(2, 5%nat); (3, 6%nat)] 1 = Some 4
  /\ lru_find [(2, 5%nat); (3, 6%nat)] 4 = None.
Proof.
  assert (H : 0 <= 1 <= UINTMAX_MAX) by (unfold UINTMAX_MAX; lia).
  pose proof (conn_tcp_id_assign_fresh [(2, 5%nat); (3, 6%nat)] 1 H) as F.
  assert (E : conn_tcp_id_assign [(2, 5%nat); (3, 6%nat)] 1 = Some 4)
    by reflexivity.
  rewrite E in F. split; [exact H|]. split; [exact E|]. exact (proj1 F).
Defined.

End ConnectionIds.

(* --------------------------------------------------------------------- *)
(** ** conn.c: the FIFO queues *)
(* --------------------------------------------------------------------- *)

Section FifoQueues.
Import Conn QueueSpec VlScenario.

(** Changing connections outside [l], or in a way that keeps the read
    handle, keeps the chain. *)
Lemma read_chain_ext (h h' : heap) (l : list nat) :
  read_chain h l ->
  (forall a c, a ∈ l -> h !! a = Some c ->
     exists c', h' !! a = Some c' /\ read_q_handle c' = read_q_handle c) ->
  read_chain h' l.
Proof.
  intros Hc He i a Hi. destruct (Hc i a Hi) as (c & Hl & Hn).
  destruct (He a c (list_elem_of_lookup_2 _ _ _ Hi) Hl) as (c' & Hl' & Hh).
  exists c'. split; [exact Hl'|]. intros b Hb. rewrite Hh. apply Hn. exact Hb.
Qed.

Lemma read_chain_tail (h : heap) (a : nat) (l : list nat) :
  read_chain h (a :: l) -> read_chain h l.
Proof. intros Hc i b Hi. apply (Hc (S i) b). exact Hi. Qed.

(** X16. conn_fifo_dequeue_read on a queue holding the connections
    [a :: l] returns [a], clears its in_read_queue flag and leaves a queue
    holding [l]; on an empty queue it returns NULL and changes nothing. *)
Theorem conn_fifo_dequeue_read_front (h : heap) (queue : conn_fifo_queue_t)
    (l : list nat) :
  read_queue_is h queue l ->
  match l with
  | [] => conn_fifo_dequeue_read h queue = Some (None, h, queue)
  | a :: l' =>
    exists h' queue',
      conn_fifo_dequeue_read h queue = Some (Some a, h', queue')
      /\ read_queue_is h' queue' l'
      /\ (in_read_queue <$> h' !! a) = Some false
      /\ (forall b, b <> a -> h' !! b = h !! b)
  end.
Proof.
  intros (Hnd & Hc & Hh & Ht). unfold conn_fifo_dequeue_read.
  destruct l as [|a l'].
  - cbn in Hh, Ht. destruct queue as [hd tl]. cbn in *. subst.
    cbn. reflexivity.
  - cbn [lookup list_lookup] in Hh.
    destruct (Hc 0%nat a eq_refl) as (c & Hl & Hn).
    assert (Hq : forall b, b <> a ->
              alter (set_in_read_queue false) a h !! b = h !! b).
    { intros b Hb. apply lookup_alter_ne. congruence. }
    assert (Ha : (in_read_queue <$> alter (set_in_read_queue false) a h !! a)
                 = Some false).
    { rewrite lookup_alter_eq, Hl. reflexivity. }
    apply NoDup_cons in Hnd. destruct Hnd as [Hna Hnd].
    assert (Hc' : read_chain (alter (set_in_read_queue false) a h) l').
    { apply (read_chain_ext h); [eapply read_chain_tail; exact Hc|].
      intros b cb Hb Hlb. exists cb. split; [|reflexivity].
      rewrite Hq; [exact Hlb|]. intros ->. contradiction. }
    rewrite Hh.
    destruct l' as [|b l''].
    + cbn in Ht. rewrite Ht.
      destruct (decide (Some a = Some a)) as [_|Hne]; [|congruence].
      cbn [mbind option_bind]. rewrite Hl. cbn [mbind option_bind].
      eexists _, _. split; [reflexivity|].
      split; [|split; [exact Ha|exact Hq]].
      split; [apply NoDup_nil_2|]. split; [exact Hc'|]. split; reflexivity.
    + assert (Htl : tail queue <> Some a).
      { rewrite Ht. change (last (a :: b :: l'')) with (last (b :: l'')).
        intros Hla. apply Hna. apply last_Some_elem_of. exact Hla. }
      destruct (decide (Some a = tail queue)) as [He|_]; [congruence|].
      cbn [mbind option_bind]. rewrite Hl. cbn [mbind option_bind].
      rewrite (Hn b eq_refl).
      eexists _, _. split; [reflexivity|].
      split; [|split; [exact Ha|exact Hq]].
      split; [exact Hnd|]. split; [exact Hc'|]. split; [reflexivity|].
      cbn [tail]. rewrite Ht. reflexivity.
Qed.

Lemma read_chain_snoc (h h' : heap) (l : list nat) (c : nat) :
  NoDup l ->
  read_chain h l ->
  (forall a ca, a ∈ l -> last l <> Some a -> h !! a = Some ca ->
     exists ca', h' !! a = Some ca' /\ read_q_handle ca' = read_q_handle ca) ->
  (forall t, last l = Some t ->
     exists ct, h' !! t = Some ct /\ read_q_handle ct = Some c) ->
  (exists cc, h' !! c = Some cc) ->
  read_chain h' (l ++ [c]).
Proof.
  intros Hnd Hc Hkeep Hlast (cc & Hcc) i a Hi.
  destruct (decide (i < length l)%nat) as [Hlt|Hge].
  - rewrite lookup_app_l in Hi by done.
    destruct (decide (S i < length l)%nat) as [Hlt'|Hge'].
    + destruct (Hc i a Hi) as (ca & Ha & Hnext).
      assert (Hnl : last l <> Some a).
      { rewrite last_lookup. intros Hla.
        pose proof (NoDup_lookup _ _ _ _ Hnd Hi Hla). lia. }
      destruct (Hkeep a ca (list_elem_of_lookup_2 _ _ _ Hi) Hnl Ha)
        as (ca' & Ha' & Hh).
      exists ca'. split; [exact Ha'|]. intros b Hb.
      rewrite lookup_app_l in Hb by done. rewrite Hh. apply Hnext. exact Hb.
    + assert (Hla : last l = Some a).
      { rewrite last_lookup. replace (pred (length l)) with i by lia.
        exact Hi. }
      destruct (Hlast a Hla) as (ct & Ht & Hh).
      exists ct. split; [exact Ht|]. intros b Hb.
      assert (S i = length l) as Hs by lia.
      rewrite Hs, lookup_app_r, Nat.sub_diag in Hb by lia.
      cbn in Hb. inversion Hb; subst b. exact Hh.
  - rewrite lookup_app_r in Hi by lia.
    destruct (i - length l)%nat as [|k] eqn:Ek; [|destruct k; discriminate].
    cbn in Hi. inversion Hi; subst a.
    exists cc. split; [exact Hcc|]. intros b Hb.
    apply lookup_lt_Some in Hb. rewrite length_app in Hb. cbn in Hb. lia.
Qed.

(** X17. conn_fifo_enqueue_read of a connection that is not in the queue
    (flag clear) puts it at the back: a queue holding [l] holds
    [l ++ [conn]] afterwards and the in_read_queue flag of the connection
    is set.  A connection whose flag is already set is not enqueued and
    nothing changes. *)
Theorem conn_fifo_enqueue_read_back (h : heap) (queue : conn_fifo_queue_t)
    (l : list nat) (conn : nat) (c : conn_t) :
  read_queue_is h queue l ->
  h !! conn = Some c ->
  conn ∉ l ->
  if in_read_queue c
  then conn_fifo_enqueue_read h queue conn = Some (h, queue)
  else
    exists h' queue',
      conn_fifo_enqueue_read h queue conn = Some (h', queue')
      /\ read_queue_is h' queue' (l ++ [conn])
      /\ (in_read_queue <$> h' !! conn) = Some true.
Proof.
  intros (Hnd & Hc & Hh & Ht) Hl Hn. unfold conn_fifo_enqueue_read.
  rewrite Hl. cbn [mbind option_bind].
  destruct (in_read_queue c) eqn:Ef; cbn [negb]; [reflexivity|].
  assert (Hnd' : NoDup (l ++ [conn])).
  { apply NoDup_app. split; [exact Hnd|]. split; [|apply NoDup_singleton].
    intros x Hx Hx'. apply list_elem_of_singleton in Hx'. subst. contradiction. }
  destruct l as [|a l'].
  - cbn in Hh, Ht. rewrite Hh. cbn [mbind option_bind].
    eexists _, _. split; [reflexivity|]. split.
    + split; [exact Hnd'|]. split; [|split; reflexivity].
      intros i x Hi. destruct i as [|i]; [|discriminate].
      cbn in Hi. inversion Hi; subst x.
      rewrite lookup_alter_eq, lookup_alter_eq, Hl. cbn.
      eexists. split; [reflexivity|]. intros b Hb. discriminate.
    + rewrite lookup_alter_eq, lookup_alter_eq, Hl. reflexivity.
  - cbn [lookup list_lookup] in Hh. rewrite Hh.
    destruct (last (a :: l')) as [t|] eqn:Elast.
    2:{ apply last_None in Elast. discriminate. }
    rewrite Ht. cbn [mbind option_bind].
    assert (Htl : t ∈ a :: l') by (apply last_Some_elem_of; exact Elast).
    assert (Htc : t <> conn) by (intros ->; contradiction).
    destruct (list_elem_of_lookup_1 _ _ Htl) as (it & Hit).
    destruct (Hc it t Hit) as (ct & Hlt & _).
    rewrite lookup_alter_ne by congruence. rewrite Hlt.
    cbn [mbind option_bind].
    eexists _, _. split; [reflexivity|]. split.
    + split; [exact Hnd'|]. split.
      * apply (read_chain_snoc h); [exact Hnd|exact Hc| | |].
        -- intros x cx Hx Hxl Hlx.
           assert (x <> conn) by (intros ->; contradiction).
           assert (x <> t) by congruence.
           rewrite lookup_alter_ne by congruence.
           rewrite lookup_alter_ne by congruence.
           rewrite lookup_alter_ne by congruence.
           exists cx. split; [exact Hlx|reflexivity].
        -- intros t' Ht'. assert (t' = t) as -> by congruence.
           rewrite lookup_alter_ne by congruence.
           rewrite lookup_alter_eq, lookup_alter_ne, Hlt by congruence.
           eexists. split; [reflexivity|]. reflexivity.
        -- rewrite lookup_alter_eq, lookup_alter_ne, lookup_alter_eq, Hl
             by congruence.
           eexists. reflexivity.
      * split; [reflexivity|]. cbn [tail]. symmetry. apply last_snoc.
    + rewrite lookup_alter_eq, lookup_alter_ne, lookup_alter_eq, Hl
        by congruence.
      reflexivity.
Qed.

Lemma queue_two_holds : read_queue_is heap_two_queued queue_two [1; 2]%nat.
Proof.
  split; [|split; [|split; reflexivity]].
  - apply NoDup_cons. split; [|apply NoDup_singleton].
    intros H. apply list_elem_of_singleton in H. discriminate.
  - intros i a Hi. destruct i as [|[|i]]; cbn in Hi; inversion Hi; subst.
    + eexists. split; [reflexivity|]. intros b Hb. cbn in Hb.
      inversion Hb. reflexivity.
    + eexists. split; [reflexivity|]. intros b Hb. discriminate.
Qed.

Lemma conn_fifo_dequeue_read_front_witness :
  read_queue_is heap_two_queued queue_two [1; 2]%nat
  /\ exists h' queue',
       conn_fifo_dequeue_read heap_two_queued queue_two
       = Some (Some 1%nat, h', queue')
       /\ read_queue_is h' queue' [2%nat].
Proof.
  split; [exact queue_two_holds|].
  destruct (conn_fifo_dequeue_read_front heap_two_queued queue_two [1; 2]%nat
              queue_two_holds) as (h' & q' & H1 & H2 & _).
  exists h', q'. split; [exact H1|exact H2].
Defined.

Lemma conn_fifo_enqueue_read_back_witness :
  read_queue_is heap_two_queued queue_two [1; 2]%nat
  /\ heap_two_queued !! 3%nat = Some (set_in_read_queue false listener)
  /\ (3%nat ∉ [1; 2]%nat)
  /\ exists h' queue',
       conn_fifo_enqueue_read heap_two_queued queue_two 3
       = Some (h', queue')
       /\ read_queue_is h' queue' [1; 2; 3]%nat.
Proof.
  assert (L : heap_two_queued !! 3%nat
              = Some (set_in_read_queue false listener)) by reflexivity.
  assert (N : 3%nat ∉ [1; 2]%nat).
  { intros H. apply elem_of_cons in H. destruct H as [H|H]; [discriminate|].
    apply list_elem_of_singleton in H. discriminate. }
  split; [exact queue_two_holds|]. split; [exact L|]. split; [exact N|].
  pose proof (conn_fifo_enqueue_read_back heap_two_queued queue_two
                [1; 2]%nat 3 _ queue_two_holds L N) as H.
  cbn [in_read_queue set_in_read_queue] in H.
  destruct H as (h' & q' & H1 & H2 & _).
  exists h', q'. split; [exact H1|exact H2].
Defined.

(** One pass of the loop of conn_fifo_remove_from_read_queue over a queue
    whose only member is [b]: the connection is taken out and put back. *)
Lemma remove_read_pass_other (h : heap) (b : nat) (cb : conn_t) :
  h !! b = Some cb ->
  exists h1 h2 cb',
    conn_fifo_dequeue_read h {| head := Some b; tail := Some b |}
    = Some (Some b, h1, queue_empty)
    /\ conn_fifo_enqueue_read h1 queue_empty b
       = Some (h2, {| head := Some b; tail := Some b |})
    /\ h2 !! b = Some cb'.
Proof.
  intros Hb. unfold conn_fifo_dequeue_read, conn_fifo_enqueue_read.
  cbn [head tail].
  destruct (decide (Some b = Some b)) as [_|Hne]; [|congruence].
  cbn [mbind option_bind]. rewrite Hb. cbn [mbind option_bind].
  eexists _, _, _. split; [reflexivity|].
  rewrite lookup_alter_eq, Hb. cbn [fmap option_fmap option_map mbind option_bind].
  cbn [in_read_queue set_in_read_queue negb queue_empty head].
  cbn [mbind option_bind].
  split; [reflexivity|].
  rewrite lookup_alter_eq, lookup_alter_eq, lookup_alter_eq, Hb. reflexivity.
Qed.

Lemma remove_read_loop_other (fuel : nat) (rm b : nat) :
  rm <> b ->
  forall (h : heap) (cb : conn_t),
  h !! b = Some cb ->
  remove_from_read_loop fuel h {| head := Some b; tail := Some b |} rm = None.
Proof.
  intros Hne. induction fuel as [|fuel IH]; intros h cb Hb; [reflexivity|].
  cbn [remove_from_read_loop].
  destruct (remove_read_pass_other h b cb Hb) as (h1 & h2 & cb' & D & E & L).
  rewrite D. cbn [mbind option_bind].
  destruct (decide (b = rm)) as [->|_]; [contradiction|].
  rewrite E. cbn [mbind option_bind]. apply (IH h2 cb' L).
Qed.

Lemma remove_read_loop_only (fuel : nat) (h : heap)
    (queue : conn_fifo_queue_t) (rm : nat) (c : conn_t) :
  h !! rm = Some c ->
  head queue = Some rm -> tail queue = Some rm ->
  remove_from_read_loop (S (S fuel)) h queue rm
  = Some (alter (set_in_read_queue false) rm h, queue_empty).
Proof.
  intros Hl Hh Ht.
  cbn [remove_from_read_loop]. unfold conn_fifo_dequeue_read.
  rewrite Hh, Ht.
  destruct (decide (Some rm = Some rm)) as [_|Hne]; [|congruence].
  cbn [mbind option_bind]. rewrite Hl. cbn [mbind option_bind].
  destruct (decide (rm = rm)) as [_|Hne]; [|congruence].
  cbn [queue_empty head tail].
  destruct (decide (@None nat = None)) as [_|Hne]; [|congruence].
  cbn [mbind option_bind]. reflexivity.
Qed.

(** X18. conn_fifo_remove_from_read_queue does nothing when the
    in_read_queue flag of the connection is clear; when the connection is
    the only member of the queue it is taken out: the queue is empty
    afterwards and the flag is clear. *)
Theorem conn_fifo_remove_from_read_queue_only_member (h : heap)
    (queue : conn_fifo_queue_t) (rm : nat) (c : conn_t) :
  h !! rm = Some c ->
  (in_read_queue c = false ->
   conn_fifo_remove_from_read_queue h queue rm = Some (h, queue))
  /\ (in_read_queue c = true ->
      head queue = Some rm -> tail queue = Some rm ->
      conn_fifo_remove_from_read_queue h queue rm
      = Some (alter (set_in_read_queue false) rm h, queue_empty)).
Proof.
  intros Hl. unfold conn_fifo_remove_from_read_queue.
  rewrite Hl. cbn [mbind option_bind]. split.
  - intros ->. reflexivity.
  - intros -> Hh Ht.
    change remove_fuel with (S (S 4094)).
    apply (remove_read_loop_only 4094 h queue rm c Hl Hh Ht).
Qed.

Lemma conn_fifo_remove_from_read_queue_only_member_witness :
  heap_two_queued !! 2%nat = Some (conn_queued None)
  /\ conn_fifo_remove_from_read_queue heap_two_queued
       {| head := Some 2%nat; tail := Some 2%nat |} 2
     = Some (alter (set_in_read_queue false) 2%nat heap_two_queued,
             queue_empty).
Proof.
  assert (L : heap_two_queued !! 2%nat = Some (conn_queued None))
    by reflexivity.
  split; [exact L|].
  apply (proj2 (conn_fifo_remove_from_read_queue_only_member heap_two_queued
                  {| head := Some 2%nat; tail := Some 2%nat |} 2 _ L));
    reflexivity.
Defined.

(** X19. conn_fifo_remove_from_read_queue puts every other connection it
    takes out back into the queue it is emptying.  With the connection to
    remove at the front and one other connection [b] behind it, the first
    pass drops the connection and every pass after that takes [b] out and
    puts it back, each call returning normally: the loop has not ended
    after any number of passes. *)
Theorem conn_fifo_remove_from_read_queue_cycles (h : heap)
    (queue : conn_fifo_queue_t) (rm b : nat) (c cb : conn_t) :
  rm <> b ->
  h !! rm = Some c -> h !! b = Some cb ->
  in_read_queue c = true -> read_q_handle c = Some b ->
  head queue = Some rm -> tail queue = Some b ->
  conn_fifo_dequeue_read h queue
  = Some (Some rm, alter (set_in_read_queue false) rm h,
          {| head := Some b; tail := Some b |})
  /\ (forall h' cb', h' !! b = Some cb' ->
      exists h1 h2 cb'',
        conn_fifo_dequeue_read h' {| head := Some b; tail := Some b |}
        = Some (Some b, h1, queue_empty)
        /\ conn_fifo_enqueue_read h1 queue_empty b
           = Some (h2, {| head := Some b; tail := Some b |})
        /\ h2 !! b = Some cb'')
  /\ (forall fuel, remove_from_read_loop fuel h queue rm = None)
  /\ conn_fifo_remove_from_read_queue h queue rm = None.
Proof.
  intros Hne Hl Hb Hf Hh Hhead Htail.
  assert (D : conn_fifo_dequeue_read h queue
              = Some (Some rm, alter (set_in_read_queue false) rm h,
                      {| head := Some b; tail := Some b |})).
  { unfold conn_fifo_dequeue_read. rewrite Hhead, Htail.
    destruct (decide (Some rm = Some b)) as [He|_]; [congruence|].
    cbn [mbind option_bind]. rewrite Hl. cbn [mbind option_bind].
    rewrite Hh. reflexivity. }
  assert (Lp : forall fuel, remove_from_read_loop fuel h queue rm = None).
  { intros [|fuel]; [reflexivity|]. cbn [remove_from_read_loop].
    rewrite D. cbn [mbind option_bind].
    destruct (decide (rm = rm)) as [_|Hx]; [|congruence].
    apply (remove_read_loop_other fuel rm b Hne _ cb).
    rewrite lookup_alter_ne by congruence. exact Hb. }
  split; [exact D|]. split; [intros h' cb'; apply remove_read_pass_other|].
  split; [exact Lp|].
  unfold conn_fifo_remove_from_read_queue. rewrite Hl.
  cbn [mbind option_bind]. rewrite Hf. apply Lp.
Qed.

Lemma conn_fifo_remove_from_read_queue_cycles_witness :
  1%nat <> 2%nat
  /\ heap_two_queued !! 1%nat = Some (conn_queued (Some 2%nat))
  /\ conn_fifo_remove_from_read_queue heap_two_queued queue_two 1 = None.
Proof.
  assert (N : 1%nat <> 2%nat) by discriminate.
  assert (L : heap_two_queued !! 1%nat = Some (conn_queued (Some 2%nat)))
    by reflexivity.
  split; [exact N|]. split; [exact L|].
  apply (conn_fifo_remove_from_read_queue_cycles heap_two_queued queue_two
           1 2 _ (conn_queued None) N L); reflexivity.
Defined.

End FifoQueues.

(* --------------------------------------------------------------------- *)
(** ** vectorloop.c: the accept stage *)
(* --------------------------------------------------------------------- *)

Section AcceptStage.
Import Conn Vectorloop VlScenario.

Lemma accept4_keeps (vl : vectorloop_t) (lfd : Z) :
  cfg (snd (accept4 vl lfd)) = cfg vl
  /\ conns_tcp_active (snd (accept4 vl lfd)) = conns_tcp_active vl.
Proof.
  unfold accept4.
  destruct (backlog vl !! lfd) as [[|[pc|e] rest]|]; split; reflexivity.
Qed.

Lemma accept_one_keeps (vl vl' : vectorloop_t) (pc : pending_conn) :
  accept_one vl pc = Some vl' ->
  0 <= conns_tcp_active vl < UINTMAX_MAX ->
  cfg vl' = cfg vl
  /\ conns_tcp_active vl <= conns_tcp_active vl' <= conns_tcp_active vl + 1.
Proof.
  intros H Ha. unfold accept_one in H. cbv zeta in H.
  destruct (negb _) in H; [inversion H; subst; cbn; split; [reflexivity|lia]|].
  destruct (pc_getsockname pc); [inversion H; subst; cbn; split; [reflexivity|lia]|].
  destruct (_ && _) in H; [inversion H; subst; cbn; split; [reflexivity|lia]|].
  cbn [tcp conn_new_tcp mbind option_bind] in H.
  cbn [conn_tcp_lru_cache conn_tcp_id_base set_next_addr] in H.
  destruct (conn_tcp_id_assign _ _) as [id|] in H.
  - inversion H; subst. cbn. unfold u64, UINTMAX_MAX in *.
    rewrite Z.mod_small by lia. split; [reflexivity|lia].
  - match type of H with
      (mbind _ ?f) = _ => destruct f as [[h rq]|]
    end; [|discriminate].
    cbn [mbind option_bind] in H. inversion H; subst. cbn.
    split; [reflexivity|lia].
Qed.

Lemma accept_inner_bound (fuel : nat) :
  forall (vl : vectorloop_t) (lfd count : Z) fd count' vl',
  accept_inner fuel vl lfd count = Some (fd, count', vl') ->
  0 <= conns_tcp_active vl ->
  conns_tcp_active vl
    + (Z.max count (tcp_listener_max_accept_new_conn (cfg vl)) - count)
    < UINTMAX_MAX ->
  cfg vl' = cfg vl
  /\ count <= count'
  /\ count' <= Z.max count (tcp_listener_max_accept_new_conn (cfg vl))
  /\ conns_tcp_active vl <= conns_tcp_active vl'
  /\ conns_tcp_active vl' - count' <= conns_tcp_active vl - count.
Proof.
  induction fuel as [|fuel IH]; intros vl lfd count fd count' vl' H Ha Hb;
    [discriminate|].
  cbn [accept_inner] in H.
  pose proof (accept4_keeps vl lfd) as [K1 K2].
  destruct (accept4 vl lfd) as [[fd1 pc] vl1]. cbn [snd] in K1, K2.
  destruct ((fd1 >? -1)
            && (count <? tcp_listener_max_accept_new_conn (cfg vl1))) eqn:E.
  - apply andb_true_iff in E. destruct E as [_ E]. apply Z.ltb_lt in E.
    rewrite K1 in E.
    destruct pc as [pc|]; [|discriminate]. cbn [mbind option_bind] in H.
    destruct (accept_one vl1 pc) as [vl2|] eqn:E1; [|discriminate].
    cbn [mbind option_bind] in H.
    apply accept_one_keeps in E1; [|lia]. destruct E1 as [C1 A1].
    apply IH in H; [|lia|rewrite C1, K1; lia].
    rewrite C1, K1 in H. destruct H as (H1 & H2 & H3 & H4 & H5).
    split; [exact H1|]. lia.
  - inversion H; subst. split; [exact K1|]. lia.
Qed.

Lemma accept_outer_bound (fuel : nat) :
  forall (vl : vectorloop_t) (count : Z) (nq : conn_fifo_queue_t) r,
  accept_outer fuel vl count nq = Some r ->
  0 <= conns_tcp_active vl ->
  conns_tcp_active vl
    + (Z.max count (tcp_listener_max_accept_new_conn (cfg vl)) - count)
    < UINTMAX_MAX ->
  let vl' := match r with inl v => v | inr (v, _, _) => v end in
  cfg vl' = cfg vl
  /\ conns_tcp_active vl <= conns_tcp_active vl'
  /\ conns_tcp_active vl'
     <= conns_tcp_active vl
        + (Z.max count (tcp_listener_max_accept_new_conn (cfg vl)) - count)
  /\ match r with
     | inr (_, count', _) =>
       count <= count'
       <= Z.max count (tcp_listener_max_accept_new_conn (cfg vl))
     | inl _ => True
     end.
Proof.
  induction fuel as [|fuel IH]; intros vl count nq r H Ha Hb; [discriminate|].
  cbn [accept_outer] in H.
  destruct (conn_fifo_dequeue_read (conns vl) (conn_tcp_accept_conns_queue vl))
    as [[[conn h] aq]|]; [|discriminate].
  cbn [mbind option_bind] in H. cbv zeta in H.
  set (vl1 := set_conn_tcp_accept_conns_queue aq (set_conns h vl)) in *.
  assert (C1 : cfg vl1 = cfg vl) by reflexivity.
  assert (A1 : conns_tcp_active vl1 = conns_tcp_active vl) by reflexivity.
  clearbody vl1.
  destruct conn as [conn|].
  2:{ inversion H; subst. cbv zeta. rewrite C1, A1.
      split; [reflexivity|]. lia. }
  destruct (conns vl1 !! conn) as [l|]; [|discriminate].
  cbn [mbind option_bind] in H.
  destruct (accept_inner _ vl1 (fd l) count) as [[[fd2 count2] vl2]|] eqn:Ei;
    [|discriminate].
  cbn [mbind option_bind] in H.
  apply accept_inner_bound in Ei; [|lia|rewrite C1, A1; exact Hb].
  rewrite C1, A1 in Ei. destruct Ei as (C2 & I1 & I2 & I3 & I4).
  assert (Step : forall (vl3 : vectorloop_t) nq3 r3,
            cfg vl3 = cfg vl2 -> conns_tcp_active vl3 = conns_tcp_active vl2 ->
            accept_outer fuel vl3 count2 nq3 = Some r3 ->
            let vl' := match r3 with inl v => v | inr (v, _, _) => v end in
            cfg vl' = cfg vl
            /\ conns_tcp_active vl <= conns_tcp_active vl'
            /\ conns_tcp_active vl'
               <= conns_tcp_active vl
                  + (Z.max count (tcp_listener_max_accept_new_conn (cfg vl))
                     - count)
            /\ match r3 with
               | inr (_, count', _) =>
                 count <= count'
                 <= Z.max count (tcp_listener_max_accept_new_conn (cfg vl))
               | inl _ => True
               end).
  { intros vl3 nq3 r3 C3 A3 H3.
    apply IH in H3; [|lia|rewrite C3, C2, A3; lia].
    cbv zeta in H3 |- *. rewrite C3, C2, A3 in H3.
    destruct H3 as (H31 & H32 & H33 & H34).
    split; [exact H31|]. split; [lia|]. split; [lia|].
    destruct r3 as [v|[[v c'] q']]; [exact I|]. lia. }
  destruct ((fd2 <? 0) || _) in H.
  - destruct ((errno vl2 =? EWOULDBLOCK) || (errno vl2 =? EAGAIN)) in H.
    + apply Step in H; [exact H|reflexivity|reflexivity].
    + inversion H; subst. cbv zeta.
      change (cfg (log_send APP_LOG_MSG_CUSTOM true vl2)) with (cfg vl2).
      change (conns_tcp_active (log_send APP_LOG_MSG_CUSTOM true vl2))
        with (conns_tcp_active vl2).
      split; [exact C2|]. split; [lia|]. split; [lia|exact I].
  - destruct (conn_fifo_enqueue_read (conns vl2) nq conn) as [[h2 nq2]|];
      [|discriminate].
    cbn [mbind option_bind] in H.
    apply Step in H; [exact H|reflexivity|reflexivity].
Qed.

(** X20. One run of vl_fn_tcp_accept_conns creates at most
    tcp_listener_max_accept_new_conn connections, over all listeners
    together: the count it returns and the growth of conns_tcp_active both
    stay within that setting. *)
Theorem vl_fn_tcp_accept_conns_per_run_cap (vl vl' : vectorloop_t) (ret : Z) :
  vl_fn_tcp_accept_conns vl = Some (ret, vl') ->
  0 <= tcp_listener_max_accept_new_conn (cfg vl) ->
  0 <= conns_tcp_active vl ->
  conns_tcp_active vl + tcp_listener_max_accept_new_conn (cfg vl)
    < UINTMAX_MAX ->
  0 <= ret <= tcp_listener_max_accept_new_conn (cfg vl)
  /\ conns_tcp_active vl <= conns_tcp_active vl'
     <= conns_tcp_active vl + tcp_listener_max_accept_new_conn (cfg vl)
  /\ cfg vl' = cfg vl.
Proof.
  unfold vl_fn_tcp_accept_conns. generalize remove_fuel. intros fuel.
  destruct (accept_outer fuel vl 0 queue_empty) as [r|] eqn:E;
    [|discriminate].
  change (Some r ≫= ?f) with (f r). cbv beta.
  intros H Hm Ha Hb.
  pose proof (accept_outer_bound fuel vl 0 queue_empty r E Ha) as B.
  cbv zeta in B. rewrite Z.max_r in B by exact Hm.
  replace (tcp_listener_max_accept_new_conn (cfg vl) - 0)
    with (tcp_listener_max_accept_new_conn (cfg vl)) in B by ring.
  destruct (B Hb) as (E1 & E2 & E3 & E4). clear B.
  destruct r as [v|[[v c] q]].
  - injection H as <- <-. split; [split; [reflexivity|exact Hm]|].
    split; [split; [exact E2|exact E3]|exact E1].
  - injection H as <- <-. destruct E4 as [E4 E5].
    split; [split; [exact E4|exact E5]|].
    destruct (head q) as [x|].
    + change (conns_tcp_active (set_conn_tcp_accept_conns_queue q v))
        with (conns_tcp_active v).
      change (cfg (set_conn_tcp_accept_conns_queue q v)) with (cfg v).
      split; [split; [exact E2|exact E3]|exact E1].
    + split; [split; [exact E2|exact E3]|exact E1].
Qed.

Lemma vl_fn_tcp_accept_conns_per_run_cap_witness :
  exists vl',
    vl_fn_tcp_accept_conns (vl_listening 100 8 20) = Some (8, vl')
    /\ conns_tcp_active vl' <= 8.
Proof.
  destruct (vl_fn_tcp_accept_conns (vl_listening 100 8 20))
    as [[ret vl']|] eqn:E; [|vm_compute in E; discriminate].
  exists vl'.
  assert (ret = 8) as ->.
  { vm_compute in E. injection E as E _. symmetry. exact E. }
  split; [reflexivity|].
  pose proof (vl_fn_tcp_accept_conns_per_run_cap _ _ _ E) as H.
  destruct H as (_ & [_ H] & _); cbn; unfold UINTMAX_MAX; try lia.
  cbn in H. exact H.
Defined.

End AcceptStage.

(* --------------------------------------------------------------------- *)
(** ** query_pack.c: the complete response *)
(* --------------------------------------------------------------------- *)

Section PackComplete.
Import Wire Header Query QueryInit QueryPack Scenario.

Lemma rd_set_bits_eq (buf : list Z) (p lo w v : Z) :
  0 <= p < Z.of_nat (length buf) ->
  rd (set_bits buf p lo w v) p
  = Z.lor (Z.land (rd buf p) (255 - Z.shiftl (Z.ones w) lo))
          (Z.shiftl (Z.land v (Z.ones w)) lo).
Proof. intros H. unfold set_bits. cbv zeta. apply rd_wr_eq. exact H. Qed.

Lemma get_bit0_cases (m : list Z) (p : Z) :
  get_bits m p 0 1 = 0 \/ get_bits m p 0 1 = 1.
Proof.
  unfold get_bits. rewrite Z.shiftr_0_r. rewrite Z.land_ones by lia.
  change (2 ^ 1) with 2. dlia.
Qed.

(** The first four bytes of the header that query_response_pack builds:
    the id of the request, then the flags QR 1, opcode QUERY, AA 1, TC 0
    and the RD bit of the request. *)
Lemma pack_header_fixed (q : query_t) :
  0 <= response_hdr q ->
  response_hdr q + HFIXEDSZ <= Z.of_nat (length (response_buffer q)) ->
  rd (pack_header q) (response_hdr q) = rd (request_msg q) 0
  /\ rd (pack_header q) (response_hdr q + 1) = rd (request_msg q) 1
  /\ rd (pack_header q) (response_hdr q + 2)
     = 132 + hdr_rd (request_msg q) 0.
Proof.
  intros H0 Hl. unfold HFIXEDSZ in Hl. unfold pack_header. cbv zeta.
  set (h := response_hdr q) in *.
  set (z := wr_bytes (response_buffer q) h (repeat 0 (Z.to_nat HFIXEDSZ))).
  set (i := wr_bytes z h (rd_bytes (request_msg q) 0 2)).
  assert (Ei : rd_bytes (request_msg q) 0 2
               = [rd (request_msg q) 0; rd (request_msg q) 1])
    by reflexivity.
  assert (Lz : length z = length (response_buffer q))
    by apply wr_bytes_length.
  assert (Li : length i = length (response_buffer q)).
  { unfold i. rewrite wr_bytes_length. exact Lz. }
  assert (I0 : rd i h = rd (request_msg q) 0).
  { unfold i. rewrite Ei. cbn [wr_bytes].
    rewrite rd_wr_ne by lia. rewrite rd_wr_eq by lia. reflexivity. }
  assert (I1 : rd i (h + 1) = rd (request_msg q) 1).
  { unfold i. rewrite Ei. cbn [wr_bytes].
    rewrite rd_wr_eq by (rewrite wr_length; lia). reflexivity. }
  assert (I2 : rd i (h + 2) = 0).
  { unfold i. rewrite Ei. rewrite rd_wr_bytes_ge by (cbn [length]; lia).
    unfold z. change (Z.to_nat HFIXEDSZ) with 12%nat.
    cbn [repeat wr_bytes].
    rewrite !rd_wr_ne by lia.
    replace (h + 1 + 1) with (h + 2) by ring.
    rewrite rd_wr_eq by (rewrite !wr_length; lia).
    reflexivity. }
  set (f := set_hdr_qr 1 _ h).
  assert (Lf : length f = length (response_buffer q)).
  { unfold f, set_hdr_qr, set_hdr_opcode, set_hdr_aa, set_hdr_tc, set_hdr_rd.
    rewrite !set_bits_length. exact Li. }
  assert (F0 : rd f h = rd (request_msg q) 0).
  { unfold f, set_hdr_qr, set_hdr_opcode, set_hdr_aa, set_hdr_tc, set_hdr_rd.
    rewrite !rd_set_bits_other by lia. exact I0. }
  assert (F1 : rd f (h + 1) = rd (request_msg q) 1).
  { unfold f, set_hdr_qr, set_hdr_opcode, set_hdr_aa, set_hdr_tc, set_hdr_rd.
    rewrite !rd_set_bits_other by lia. exact I1. }
  assert (F2 : rd f (h + 2) = 132 + hdr_rd (request_msg q) 0).
  { unfold f, set_hdr_qr, set_hdr_opcode, set_hdr_aa, set_hdr_tc, set_hdr_rd.
    rewrite !rd_set_bits_eq by (rewrite ?set_bits_length; lia).
    rewrite I2. unfold hdr_rd.
    destruct (get_bit0_cases (request_msg q) (0 + 2)) as [-> | ->];
      reflexivity. }
  assert (G : forall j, j < h + 3 ->
    rd (set_hdr_arcount 0 (set_hdr_nscount 0 (set_hdr_ancount 0
         (set_hdr_rcode 0 f h) h) h) h) j = rd f j).
  { intros j Hj. unfold set_hdr_arcount, set_hdr_nscount, set_hdr_ancount,
      set_hdr_rcode.
    rewrite !rd_put16_other by lia. rewrite rd_set_bits_other by lia.
    reflexivity. }
  assert (G' : forall j, j < h + 3 ->
    rd (if end_code q <? 16
        then set_hdr_rcode (end_code q)
               (set_hdr_arcount 0 (set_hdr_nscount 0 (set_hdr_ancount 0
                  (set_hdr_rcode 0 f h) h) h) h) h
        else set_hdr_arcount 0 (set_hdr_nscount 0 (set_hdr_ancount 0
               (set_hdr_rcode 0 f h) h) h) h) j = rd f j).
  { intros j Hj. destruct (end_code q <? 16); [|apply G; exact Hj].
    unfold set_hdr_rcode at 1. rewrite rd_set_bits_other by lia.
    apply G. exact Hj. }
  rewrite !G' by lia. split; [exact F0|]. split; [exact F1|exact F2].
Qed.

(** The flags read from such a byte. *)
Lemma flags_of_byte (b : list Z) (h r : Z) :
  r = 0 \/ r = 1 ->
  rd b (h + 2) = 132 + r ->
  hdr_qr b h = 1 /\ hdr_opcode b h = rip_ns_o_query /\ hdr_aa b h = 1
  /\ hdr_tc b h = 0 /\ hdr_rd b h = r.
Proof.
  intros Hr Hb. unfold hdr_qr, hdr_opcode, hdr_aa, hdr_tc, hdr_rd, get_bits.
  rewrite Hb. destruct Hr as [-> | ->]; repeat split; reflexivity.
Qed.

(** query_pack_edns packs a record exactly when the EDNS object is valid
    and the record fits. *)
Lemma query_pack_edns_ret (buf : list Z) (p buf_len : Z) (e : edns_t)
    ret buf' :
  query_pack_edns buf p buf_len e = (ret, buf') ->
  (ret <? 0) = false -> (ret >? 0) = edns_valid e.
Proof.
  unfold query_pack_edns. destruct (edns_valid e); cbn [negb].
  2:{ intros [= <- <-] _. reflexivity. }
  cbv zeta.
  match goal with
    |- (if buf_len <? ?o then _ else _) = _ -> _ => set (opts_len := o)
  end.
  assert (Ho : 11 <= opts_len).
  { unfold opts_len, RIP_NS_RRFIXEDSZ. change (u16 (1 + 10)) with 11.
    destruct (edns_cs_valid (client_subnet e)); [|lia].
    set (c := u8 _).
    assert (0 <= c < 256) by (unfold c, u8; apply Z.mod_pos_bound; lia).
    unfold u16. rewrite Z.mod_small by lia. lia. }
  destruct (buf_len <? opts_len).
  - intros [= <- <-] Hn. discriminate.
  - intros [= <- <-] _. lia.
Qed.

Lemma pack_extended_rcode_edns_valid (q : query_t) :
  edns_valid (edns (pack_extended_rcode q)) = edns_valid (edns q).
Proof. unfold pack_extended_rcode. destruct (end_code q <? 16); reflexivity. Qed.

(** query_response_pack up to END, by the exit taken: either the whole
    response was packed, or the TC bit is set. *)
Lemma pack_sections_done (q : query_t) ret q1 n e :
  pack_ready q = true ->
  pack_sections q = Some (ret, q1, n, e) ->
  (e = ExitDone /\ ret = 0
   /\ (forall j, j < response_hdr q + 6 ->
         rd (response_buffer q1) j = rd (pack_header q) j)
   /\ hdr_ancount (response_buffer q1) (response_hdr q)
      = answer_section_count q
   /\ hdr_nscount (response_buffer q1) (response_hdr q)
      = authority_section_count q
   /\ additional_section_count q1
      = (if edns_valid (edns q) then u8 (additional_section_count q + 1)
         else additional_section_count q))
  \/ (e <> ExitDone /\ ret = -1
      /\ hdr_tc (response_buffer q1) (response_hdr q) = 1).
Proof.
  intros Hr H. apply pack_ready_elim in Hr.
  destruct Hr as (H0 & Hp2 & Hl & Han & Hns & Har & W1 & W2 & W3).
  unfold pack_sections in H. cbv zeta in H.
  destruct (pack_extended_rcode_fields q)
    as (E1 & E2 & E3 & E4 & E5 & E6 & E7 & E8).
  cbv zeta in E1, E2, E3, E4, E5, E6, E7, E8.
  pose proof (pack_extended_rcode_edns_valid q) as Ev.
  set (q0 := pack_extended_rcode q) in *.
  rewrite E1, E2, E3, E4, E5, E6 in H.
  set (h := response_hdr q) in *.
  set (size := response_buffer_size q) in *.
  pose proof (pack_header_length q) as Lh.
  unfold HFIXEDSZ in Hl.
  (* the header with ANCOUNT written *)
  set (b1 := set_hdr_ancount (answer_section_count q) (pack_header q) h).
  assert (Lb1 : length b1 = length (response_buffer q)).
  { unfold b1, set_hdr_ancount. rewrite put16_length. done. }
  assert (Ab1 : hdr_ancount b1 h = answer_section_count q).
  { unfold b1, hdr_ancount, set_hdr_ancount. rewrite get16_put16 by lia.
    apply Z.mod_small. lia. }
  assert (Rb1 : forall j, j < h + 6 -> rd b1 j = rd (pack_header q) j).
  { intros j Hj. unfold b1, set_hdr_ancount. apply rd_put16_other; lia. }
  (* answer section *)
  match type of H with (mbind _ ?f) = _ => destruct f as [r1|] eqn:R1 end;
    [|discriminate].
  cbn [mbind option_bind] in H.
  apply pack_section_spec in R1;
    [|apply sect_wf; exact W1|cbn [ps_len st_set_ancount]; lia].
  destruct R1 as (c1 & s1 & F1 & G1 & S1 & M1).
  cbn [st_set_ancount ps_buf ps_len] in F1, G1, S1. fold b1 in F1.
  assert (Lc1 : length c1 = length (response_buffer q)).
  { destruct F1 as [L _]. congruence. }
  destruct r1 as [st1|[st1 k1]].
  2:{ destruct M1 as (-> & Bs & Kr).
      apply pack_fin_spec in H.
      destruct H as (-> & -> & -> & Hb & Hh & Hp).
      right. split; [discriminate|]. split; [reflexivity|].
      rewrite Hb, Bs. apply hdr_tc_set. lia. }
  destruct M1 as (-> & Bs1).
  (* authority section *)
  set (b2 := set_hdr_nscount (authority_section_count q) (ps_buf s1) h) in *.
  assert (L1 : length (ps_buf s1) = length (response_buffer q)).
  { rewrite Bs1. exact Lc1. }
  assert (Lb2 : length b2 = length (response_buffer q)).
  { unfold b2, set_hdr_nscount. rewrite put16_length. done. }
  assert (Ab2 : hdr_ancount b2 h = answer_section_count q).
  { unfold b2, hdr_ancount, set_hdr_nscount.
    rewrite get16_put16_other by lia. rewrite Bs1.
    destruct (framed_counts b1 c1 h F1) as [A _].
    unfold hdr_ancount in A. rewrite A. exact Ab1. }
  assert (Nb2 : hdr_nscount b2 h = authority_section_count q).
  { unfold b2, hdr_nscount, set_hdr_nscount. rewrite get16_put16 by lia.
    apply Z.mod_small. lia. }
  assert (Rb2 : forall j, j < h + 6 -> rd b2 j = rd (pack_header q) j).
  { intros j Hj. unfold b2, set_hdr_nscount.
    rewrite rd_put16_other by lia. rewrite Bs1.
    destruct F1 as [_ F1]. rewrite F1 by (unfold HFIXEDSZ; lia).
    apply Rb1. exact Hj. }
  match type of H with (mbind _ ?f) = _ => destruct f as [r2|] eqn:R2 end;
    [|discriminate].
  cbn [mbind option_bind] in H.
  apply pack_section_spec in R2;
    [|apply sect_wf; exact W2|cbn [ps_len st_set_nscount]; exact G1].
  destruct R2 as (c2 & s2 & F2 & G2 & S2 & M2).
  cbn [st_set_nscount ps_buf ps_len] in F2, G2, S2. fold b2 in F2.
  assert (Lc2 : length c2 = length (response_buffer q)).
  { destruct F2 as [L _]. congruence. }
  destruct r2 as [st2|[st2 k2]].
  2:{ destruct M2 as (-> & Bs & Kr).
      apply pack_fin_spec in H.
      destruct H as (-> & -> & -> & Hb & Hh & Hp).
      right. split; [discriminate|]. split; [reflexivity|].
      rewrite Hb, Bs. apply hdr_tc_set. lia. }
  destruct M2 as (-> & Bs2).
  assert (L2 : length (ps_buf s2) = length (response_buffer q)).
  { rewrite Bs2. exact Lc2. }
  (* additional section *)
  match type of H with (mbind _ ?f) = _ => destruct f as [r3|] eqn:R3 end;
    [|discriminate].
  cbn [mbind option_bind] in H.
  apply pack_section_spec in R3; [|apply sect_wf; exact W3|lia].
  destruct R3 as (c3 & s3 & F3 & G3 & S3 & M3).
  assert (Lc3 : length c3 = length (response_buffer q)).
  { destruct F3 as [L _]. congruence. }
  destruct r3 as [st3|[st3 k3]].
  2:{ destruct M3 as (-> & Bs & Kr).
      apply pack_fin_spec in H.
      destruct H as (-> & -> & -> & Hb & Hh & Hp).
      right. split; [discriminate|]. split; [reflexivity|].
      rewrite Hb, Bs. apply hdr_tc_set. lia. }
  destruct M3 as (-> & Bs3).
  assert (L3 : length (ps_buf s3) = length (response_buffer q)).
  { rewrite Bs3. exact Lc3. }
  (* EDNS *)
  unfold pack_edns_step in H.
  destruct (query_pack_edns (ps_buf s3) (h + ps_len s3)
              (u16 (size - ps_len s3)) (edns q0)) as [pl be] eqn:Ee.
  pose proof (query_pack_edns_ret _ _ _ _ _ _ Ee) as Pv.
  apply query_pack_edns_spec in Ee. destruct Ee as [Fe _].
  apply (frame_mono _ (h + HFIXEDSZ)) in Fe; [|lia].
  destruct (pl <? 0) eqn:Epl.
  - apply pack_fin_spec in H.
    destruct H as (-> & -> & -> & Hb & Hh & Hp).
    right. split; [discriminate|]. split; [reflexivity|].
    rewrite Hb. cbn [ps_buf]. apply hdr_tc_set.
    destruct Fe as [Le _]. lia.
  - specialize (Pv eq_refl). rewrite Ev in Pv.
    cbv zeta in H. pose proof H as Hq. unfold pack_fin in Hq.
    injection Hq as _ Hq _ _.
    apply pack_fin_spec in H.
    destruct H as (-> & -> & -> & Hb & Hh & Hp).
    left. split; [reflexivity|]. split; [reflexivity|].
    rewrite Hb. cbn [ps_buf].
    assert (F23 : frame_from (h + HFIXEDSZ) b2 be).
    { eapply frame_trans; [exact F2|]. rewrite <- Bs2.
      eapply frame_trans; [exact F3|]. rewrite <- Bs3. exact Fe. }
    destruct (framed_counts b2 be h F23) as [A N].
    split.
    { intros j Hj. destruct F23 as [_ R].
      rewrite R by (unfold HFIXEDSZ; lia). apply Rb2. exact Hj. }
    split; [congruence|]. split; [congruence|].
    rewrite <- Hq, Pv. destruct (edns_valid (edns q)).
    + change (additional_section_count
                (set_dnptrs (ps_dnptrs s3)
                   (set_response_buffer be
                      (set_additional_section_count
                         (u8 (additional_section_count q0 + 1)) q0))))
        with (u8 (additional_section_count q0 + 1)).
      rewrite E6. reflexivity.
    + exact E6.
Qed.

(** The part of query_response_pack after END. *)
Lemma query_response_pack_parts (q : query_t) ret q' :
  query_response_pack q = Some (ret, q') ->
  exists q1 n e,
    pack_sections q = Some (ret, q1, n, e)
    /\ additional_section_count q' = additional_section_count q1
    /\ response_buffer q'
       = (let b1 := set_hdr_arcount (additional_section_count q1)
                      (response_buffer q1) (response_hdr q1) in
          if protocol q1 =? 1 then rip_ns_put16 b1 0 (u16 n) else b1).
Proof.
  unfold query_response_pack, query_response_pack_exit. intros H.
  destruct (pack_sections q) as [[[[r q1] n] e1]|]; [|discriminate].
  cbn [mbind option_bind] in H. cbv zeta in H.
  exists q1, n, e1.
  assert (Hp : forall b l, protocol (set_response_buffer_len l
                             (set_response_buffer b q1)) = protocol q1)
    by reflexivity.
  rewrite Hp in H.
  destruct (protocol q1 =? 1); inversion H; subst; repeat split; reflexivity.
Qed.

(** What query_response_pack has put in the response header when it
    returns. *)
Lemma query_response_pack_header (q : query_t) ret q' :
  pack_ready q = true ->
  query_response_pack q = Some (ret, q') ->
  let h := response_hdr q in
  let b := response_buffer q' in
  (ret = 0 \/ ret = -1)
  /\ hdr_tc b h = (if ret =? 0 then 0 else 1)
  /\ (ret = 0 ->
      rd b h = rd (request_msg q) 0
      /\ rd b (h + 1) = rd (request_msg q) 1
      /\ hdr_qr b h = 1 /\ hdr_opcode b h = rip_ns_o_query
      /\ hdr_aa b h = 1
      /\ hdr_rd b h = hdr_rd (request_msg q) 0
      /\ hdr_ancount b h = answer_section_count q
      /\ hdr_nscount b h = authority_section_count q
      /\ hdr_arcount b h = additional_section_count q'
      /\ additional_section_count q'
         = (if edns_valid (edns q) then u8 (additional_section_count q + 1)
            else additional_section_count q)).
Proof.
  intros Hr H h b.
  destruct (query_response_pack_parts q ret q' H)
    as (q1 & n & e & Hs & Hc & Hb).
  destruct (pack_sections_spec q ret q1 n e Hr Hs)
    as (Lq1 & Hh1 & Hp1 & _).
  pose proof (pack_sections_done q ret q1 n e Hr Hs) as D.
  pose proof (pack_ready_elim q Hr)
    as (H0 & Hp2 & Hl & Han & Hns & Har & _).
  fold h in H0, Hl, Hp2, D. unfold HFIXEDSZ in Hl.
  cbv zeta in Hb. rewrite Hh1, Hp1 in Hb. fold h in Hb.
  assert (Ht : (protocol q =? 1) = true -> 2 <= h).
  { intros Hp. apply Hp2. lia. }
  destruct (pack_end_keeps_counts (response_buffer q1) h
              (additional_section_count q1) (u16 n) (protocol q =? 1) Ht)
    as (Kt & Ka & Kn).
  cbv zeta in Kt, Ka, Kn. rewrite <- Hb in Kt, Ka, Kn. fold b in Kt, Ka, Kn.
  assert (Kb : forall j, h <= j < h + 10 -> rd b j = rd (response_buffer q1) j).
  { intros j Hj. unfold b. rewrite Hb.
    assert (rd (set_hdr_arcount (additional_section_count q1)
                  (response_buffer q1) h) j = rd (response_buffer q1) j) as E1.
    { unfold set_hdr_arcount. apply rd_put16_other; lia. }
    destruct (protocol q =? 1); [|exact E1].
    specialize (Ht eq_refl).
    change (rip_ns_put16 ?x 0 ?w) with (RIP_NS_PUT16 w x 0).
    rewrite rd_put16_other by lia. exact E1. }
  destruct D as [(-> & -> & Rh & Da & Dn & Dc)|(_ & -> & Dt)].
  2:{ split; [right; reflexivity|]. split; [|intros; lia].
      rewrite Kt. exact Dt. }
  destruct (pack_header_fixed q H0 ltac:(unfold HFIXEDSZ; lia))
    as (P0 & P1 & P2).
  fold h in P0, P1, P2.
  assert (B2 : rd b (h + 2) = 132 + hdr_rd (request_msg q) 0).
  { rewrite Kb by lia. rewrite Rh by lia. exact P2. }
  destruct (flags_of_byte b h (hdr_rd (request_msg q) 0)
              (get_bit0_cases _ _) B2) as (Fq & Fo & Fa & Ft & Fr).
  split; [left; reflexivity|]. split; [exact Ft|]. intros _.
  split; [rewrite Kb by lia; rewrite Rh by lia; exact P0|].
  split; [rewrite Kb by lia; rewrite Rh by lia; exact P1|].
  split; [exact Fq|]. split; [exact Fo|]. split; [exact Fa|].
  split; [exact Fr|].
  split; [rewrite Ka; exact Da|]. split; [rewrite Kn; exact Dn|].
  split; [|rewrite Hc; exact Dc].
  rewrite Hc. unfold b. rewrite Hb. unfold hdr_arcount.
  assert (Cr : 0 <= additional_section_count q1 < 256).
  { rewrite Dc. destruct (edns_valid (edns q)); [|exact Har].
    unfold u8. apply Z.mod_pos_bound. lia. }
  assert (E1 : RIP_NS_GET16 (set_hdr_arcount (additional_section_count q1)
                  (response_buffer q1) h) (h + 10)
               = additional_section_count q1).
  { unfold set_hdr_arcount. rewrite get16_put16 by lia.
    unfold u16. apply Z.mod_small. lia. }
  destruct (protocol q =? 1); [|exact E1].
  specialize (Ht eq_refl).
  change (rip_ns_put16 ?x 0 ?w) with (RIP_NS_PUT16 w x 0).
  rewrite get16_put16_other by lia. exact E1.
Qed.

End PackComplete.

(* --------------------------------------------------------------------- *)
(** ** vectorloop.c: the TCP write stage and its queue *)
(* --------------------------------------------------------------------- *)

Section WriteStage.
Import Query Conn Vectorloop VlScenario.

Lemma sys_write_keeps_queue (vl : vectorloop_t) :
  conn_tcp_write_queue (snd (sys_write vl)) = conn_tcp_write_queue vl.
Proof.
  unfold sys_write. destruct (write_results vl) as [|[ret e] rest];
    [reflexivity|].
  cbn [snd]. destruct (ret <? 0); reflexivity.
Qed.

(** Dequeuing NULL leaves the queue empty. *)
Lemma dequeue_write_none (h h' : heap) (queue wq : conn_fifo_queue_t) :
  conn_fifo_dequeue_write h queue = Some (None, h', wq) -> wq = queue_empty.
Proof.
  unfold conn_fifo_dequeue_write. cbv zeta.
  destruct (decide (head queue = tail queue)) as [E|E].
  - cbn [mbind option_bind]. destruct (head queue) as [p|].
    + destruct (h !! p); cbn [mbind option_bind]; [|discriminate].
      intros [= ]. 
    + intros [= _ <-]. reflexivity.
  - destruct (head queue) as [p|]; [|discriminate].
    cbn [mbind option_bind].
    destruct (h !! p); cbn [mbind option_bind]; [|discriminate].
    intros [= ].
Qed.

(** The loop over the queries of a connection does not touch the write
    queue of the shard; what it requeues goes to [new_queue]. *)
Lemma tcp_write_queries_keeps_queue (fuel : nat) :
  forall (vl : vectorloop_t) (conn : nat) (i count : Z)
         (nq : conn_fifo_queue_t) d count' nq' vl',
  tcp_write_queries fuel vl conn i count nq = Some (d, count', nq', vl') ->
  conn_tcp_write_queue vl' = conn_tcp_write_queue vl /\ count <= count'.
Proof.
  induction fuel as [|fuel IH]; intros vl conn i count nq d count' nq' vl' H;
    [discriminate|].
  cbn [tcp_write_queries] in H.
  destruct (conns vl !! conn) as [c|]; [|discriminate].
  cbn [mbind option_bind] in H.
  destruct (tcp c) as [t|]; [|discriminate].
  cbn [mbind option_bind] in H.
  destruct (i <? queries_count t).
  2:{ injection H as _ <- _ <-. split; [reflexivity|lia]. }
  destruct (queries t !! Z.to_nat i) as [query|]; [|discriminate].
  cbn [mbind option_bind] in H. cbv zeta in H.
  destruct (end_code query >=? 0).
  2:{ apply IH in H. destruct H as [H1 H2]. split; [exact H1|lia]. }
  pose proof (sys_write_keeps_queue vl) as K.
  destruct (sys_write vl) as [ret vl1]. cbn [snd] in K.
  destruct (classify_write ret _).
  - apply IH in H. destruct H as [H1 H2]. split; [|lia].
    rewrite H1. exact K.
  - match type of H with
      (mbind _ ?f) = _ => destruct f as [[h' q']|]
    end; [|discriminate].
    cbn [mbind option_bind] in H. injection H as _ <- _ <-.
    split; [exact K|lia].
  - injection H as _ <- _ <-. split; [exact K|lia].
  - injection H as _ <- _ <-. split; [exact K|lia].
  - injection H as _ <- _ <-. split; [exact K|lia].
Qed.

(** When the loop over the write queue ends the queue is empty. *)
Lemma tcp_write_loop_empties (fuel : nat) :
  forall (vl : vectorloop_t) (count : Z) (nq : conn_fifo_queue_t)
         vl' count' nq',
  tcp_write_loop fuel vl count nq = Some (vl', count', nq') ->
  conn_tcp_write_queue vl' = queue_empty /\ count <= count'.
Proof.
  induction fuel as [|fuel IH]; intros vl count nq vl' count' nq' H;
    [discriminate|].
  cbn [tcp_write_loop] in H.
  destruct (conn_fifo_dequeue_write (conns vl) (conn_tcp_write_queue vl))
    as [[[conn h] wq]|] eqn:Ed; [|discriminate].
  cbn [mbind option_bind] in H.
  destruct conn as [conn|].
  2:{ apply dequeue_write_none in Ed. injection H as <- <- _.
      split; [exact Ed|lia]. }
  match type of H with
    (mbind _ ?f) = _ => destruct f as [c|]
  end; [|discriminate].
  cbn [mbind option_bind] in H.
  destruct (tcp c) as [t|]; [|discriminate].
  cbn [mbind option_bind] in H.
  match type of H with
    (mbind _ ?f) = _ => destruct f as [[[[d c1] nq1] vl1]|] eqn:Eq
  end; [|discriminate].
  cbn [mbind option_bind] in H.
  apply tcp_write_queries_keeps_queue in Eq. destruct Eq as [_ Hc].
  destruct d.
  - apply IH in H. destruct H as [H1 H2]. split; [exact H1|lia].
  - match type of H with
      (mbind _ ?f) = _ => destruct f as [[h' lq]|]
    end; [|discriminate].
    cbn [mbind option_bind] in H.
    apply IH in H. destruct H as [H1 H2]. split; [exact H1|lia].
Qed.

(** X22. After a run of vl_fn_tcp_write the head and the tail of the TCP
    write queue of the shard are the same connection (or both NULL): of
    the connections requeued after a partial write the queue holds the
    first one only.  The count returned is not negative. *)
Theorem vl_fn_tcp_write_queue_head_is_tail (vl vl' : vectorloop_t)
    (count : Z) :
  vl_fn_tcp_write vl = Some (count, vl') ->
  head (conn_tcp_write_queue vl') = tail (conn_tcp_write_queue vl')
  /\ 0 <= count.
Proof.
  unfold vl_fn_tcp_write. generalize remove_fuel. intros fuel.
  destruct (tcp_write_loop fuel vl 0 queue_empty) as [[[v c] nq]|] eqn:E;
    [|discriminate].
  change (Some (v, c, nq) ≫= ?f) with (f (v, c, nq)). cbv beta iota zeta.
  apply tcp_write_loop_empties in E. destruct E as [E1 E2].
  destruct (head nq) as [x|]; intros [= <- <-].
  - split; [reflexivity|exact E2].
  - rewrite E1. split; [reflexivity|exact E2].
Qed.

Lemma vl_fn_tcp_write_queue_head_is_tail_witness :
  exists vl',
    vl_fn_tcp_write (vl_writing [(10, 0)]) = Some (1, vl')
    /\ tail (conn_tcp_write_queue vl') = Some 1%nat.
Proof.
  destruct (vl_fn_tcp_write (vl_writing [(10, 0)])) as [[count vl']|] eqn:E;
    [|vm_compute in E; discriminate].
  assert (count = 1) as ->.
  { vm_compute in E. injection E as E _. symmetry. exact E. }
  exists vl'. split; [reflexivity|].
  destruct (vl_fn_tcp_write_queue_head_is_tail _ _ _ E) as [H _].
  rewrite <- H. vm_compute in E. injection E as <-. reflexivity.
Defined.

End WriteStage.

(* --------------------------------------------------------------------- *)
(** ** ripples.c: collecting the acknowledgements of the shards *)
(* --------------------------------------------------------------------- *)

Section ResourceAcks.
Import Resource ResScenario.

(** X23. resource_vls_notified on arrays of the same size keeps their
    sizes, never clears a notification flag, and returns true exactly when
    every flag is set afterwards.  It takes at most one reply from the
    reply queue of each channel and leaves the queues towards the shards
    alone. *)
Theorem resource_vls_notified_flags (chans : list channel_bss_t) :
  forall (notifs : list bool) r cs ns,
  length chans = length notifs ->
  resource_vls_notified chans notifs = (r, cs, ns) ->
  length cs = length chans /\ length ns = length notifs
  /\ (forall i, notifs !! i = Some true -> ns !! i = Some true)
  /\ (r = true <-> Forall (fun b => b = true) ns)
  /\ (forall i ch ch', chans !! i = Some ch -> cs !! i = Some ch' ->
        ch_bss ch' = ch_bss ch
        /\ (ch_vl ch' = ch_vl ch \/ exists m, ch_vl ch = m :: ch_vl ch')).
Proof.
  induction chans as [|ch chans IH]; intros [|n notifs] r cs ns Hl H;
    try discriminate.
  - injection H as <- <- <-. repeat split; done.
  - cbn [resource_vls_notified] in H. cbn [length] in Hl.
    injection Hl as Hl.
    destruct n; cbn [negb] in H.
    + destruct (resource_vls_notified chans notifs) as [[r1 cs1] ns1] eqn:E.
      injection H as <- <- <-.
      destruct (IH _ _ _ _ Hl E) as (L1 & L2 & M & A & Q).
      split; [cbn [length]; congruence|].
      split; [cbn [length]; congruence|].
      split.
      { intros [|i] Hi; [reflexivity|]. cbn in *. apply M. exact Hi. }
      split.
      { rewrite A. split; [intros F; constructor; [reflexivity|exact F]|].
        intros F. inversion F; subst. assumption. }
      intros [|i] c c' H1 H2; cbn in H1, H2.
      * injection H1 as <-. injection H2 as <-.
        split; [reflexivity|left; reflexivity].
      * apply (Q i); assumption.
    + unfold channel_bssvl_recv in H.
      destruct (ch_vl ch) as [|m rest] eqn:Ev.
      * injection H as <- <- <-.
        split; [reflexivity|]. split; [reflexivity|].
        split; [intros i Hi; exact Hi|].
        split.
        { split; [discriminate|]. intros F. inversion F; subst.
          discriminate. }
        intros i c c' H1 H2. rewrite H1 in H2. injection H2 as <-.
        split; [reflexivity|left; reflexivity].
      * destruct (resource_vls_notified chans notifs)
          as [[r1 cs1] ns1] eqn:E.
        injection H as <- <- <-.
        destruct (IH _ _ _ _ Hl E) as (L1 & L2 & M & A & Q).
        split; [cbn [length]; congruence|].
        split; [cbn [length]; congruence|].
        split.
        { intros [|i] Hi; [reflexivity|]. cbn in *. apply M. exact Hi. }
        split.
        { rewrite A. split; [intros F; constructor; [reflexivity|exact F]|].
          intros F. inversion F; subst. assumption. }
        intros [|i] c c' H1 H2; cbn in H1, H2.
        -- injection H1 as <-. injection H2 as <-. cbn [ch_bss ch_vl].
           split; [reflexivity|]. right. exists m. exact Ev.
        -- apply (Q i); assumption.
Qed.

Lemma resource_vls_notified_flags_witness :
  let reply := {| msg_id := 1; msg_op := 1; msg_p := Some 7;
                  msg_result := 0 |} in
  resource_vls_notified
    [ {| ch_bss := []; ch_vl := [reply] |}; {| ch_bss := []; ch_vl := [] |} ]
    [false; false]
  = (false,
     [ {| ch_bss := []; ch_vl := [] |}; {| ch_bss := []; ch_vl := [] |} ],
     [true; false])
  /\ ~ Forall (fun b => b = true) [true; false].
Proof.
  intros reply. split; [reflexivity|].
  pose proof (resource_vls_notified_flags
                [ {| ch_bss := []; ch_vl := [reply] |};
                  {| ch_bss := []; ch_vl := [] |} ]
                [false; false] _ _ _ eq_refl eq_refl) as (_ & _ & _ & A & _).
  intros F. apply A in F. discriminate.
Defined.

(** When a reply waits in the channel of every shard that has not yet
    acknowledged, resource_vls_notified returns true. *)
Lemma resource_vls_notified_all_replied (chans : list channel_bss_t) :
  forall (notifs : list bool),
  length chans = length notifs ->
  (forall i ch, chans !! i = Some ch -> notifs !! i = Some false ->
     ch_vl ch <> []) ->
  (resource_vls_notified chans notifs).1.1 = true
  /\ Forall (fun b => b = true) (resource_vls_notified chans notifs).2.
Proof.
  induction chans as [|ch chans IH]; intros [|n notifs] Hl Hr;
    try discriminate.
  - split; [reflexivity|constructor].
  - cbn [length] in Hl. injection Hl as Hl.
    assert (Hr' : forall i c, chans !! i = Some c ->
              notifs !! i = Some false -> ch_vl c <> []).
    { intros i c H1 H2. apply (Hr (S i) c); assumption. }
    destruct (IH notifs Hl Hr') as [I1 I2].
    cbn [resource_vls_notified].
    destruct n; cbn [negb].
    + destruct (resource_vls_notified chans notifs) as [[r1 cs1] ns1].
      cbn in *. split; [exact I1|constructor; [reflexivity|exact I2]].
    + unfold channel_bssvl_recv.
      destruct (ch_vl ch) as [|m rest] eqn:Ev.
      { exfalso. apply (Hr 0%nat ch); [reflexivity|reflexivity|exact Ev]. }
      destruct (resource_vls_notified chans notifs) as [[r1 cs1] ns1].
      cbn in *. split; [exact I1|constructor; [reflexivity|exact I2]].
Qed.

(** X24. One pass through case WAIT_FOR_RESOURCE_UPDATE when a reply waits
    in the channel of every shard that has not yet acknowledged: the state
    becomes GET_NEXT_RESOURCE, every notification flag is set, nothing is
    logged and the loop does not sleep. *)
Theorem wait_for_resource_update_completes (st : resource_loop_t) :
  length (resource_channels st) = length (vl_notifications st) ->
  (forall i ch, resource_channels st !! i = Some ch ->
     vl_notifications st !! i = Some false -> ch_vl ch <> []) ->
  let st' := wait_for_resource_update st in
  state st' = GET_NEXT_RESOURCE
  /\ Forall (fun b => b = true) (vl_notifications st')
  /\ app_log st' = app_log st
  /\ slept_ns st' = slept_ns st.
Proof.
  intros Hl Hr.
  destruct (resource_vls_notified_all_replied _ _ Hl Hr) as [H1 H2].
  unfold wait_for_resource_update.
  destruct (resource_vls_notified (resource_channels st)
              (vl_notifications st)) as [[r cs] ns].
  cbn in H1, H2. subst r. cbn. repeat split; try reflexivity. exact H2.
Qed.

Lemma wait_for_resource_update_completes_witness :
  let reply := {| msg_id := 1; msg_op := 1; msg_p := Some 7;
                  msg_result := 0 |} in
  let st := {| state := WAIT_FOR_RESOURCE_UPDATE;
               vl_notifications := [false; true];
               vectorloop_update_wait_time := 0;
               channel_msg_id_base := 2;
               current_resource := None;
               incoming_resource := Some 7;
               released := [];
               resource_channels :=
                 [ {| ch_bss := []; ch_vl := [reply] |};
                   {| ch_bss := []; ch_vl := [] |} ];
               app_log := [];
               slept_ns := 3000 |} in
  state (wait_for_resource_update st) = GET_NEXT_RESOURCE
  /\ slept_ns (wait_for_resource_update st) = 3000.
Proof.
  intros reply st.
  assert (Hl : length (resource_channels st) = length (vl_notifications st))
    by reflexivity.
  assert (Hr : forall i ch, resource_channels st !! i = Some ch ->
            vl_notifications st !! i = Some false -> ch_vl ch <> []).
  { intros [|[|i]] ch H1 H2; cbn in H1, H2; try discriminate.
    injection H1 as <-. discriminate. }
  destruct (wait_for_resource_update_completes st Hl Hr) as (S1 & _ & _ & S2).
  split; [exact S1|exact S2].
Defined.

End ResourceAcks.

(* --------------------------------------------------------------------- *)
(** ** query.c, query_resolve.c: a query made ready for packing *)
(* --------------------------------------------------------------------- *)

Section QueryCycle.
Import Wire Query QueryInit QueryResolve QueryPack Scenario.

(** query_init places the response header inside the response buffer,
    after the two length bytes when the transport is TCP. *)
Lemma query_init_header_in_buffer (w p : Z) :
  p = 0 \/ HFIXEDSZ + 2 <= w ->
  let q := query_init w p in
  0 <= response_hdr q
  /\ (protocol q = 1 -> 2 <= response_hdr q)
  /\ response_hdr q + HFIXEDSZ <= Z.of_nat (length (response_buffer q)).
Proof.
  intros H. unfold query_init. cbv zeta.
  cbn [response_hdr protocol response_buffer].
  rewrite repeat_length. unfold HFIXEDSZ, RIP_NS_UDP_MAXMSG in *.
  destruct (p =? 0) eqn:E; [lia|].
  assert (p <> 0) by lia. lia.
Qed.

(** X25. A query whose response header lies inside its response buffer
    (after the two length bytes for TCP), whatever its sections and counts
    hold from an earlier use, is ready to be packed once query_reset and
    query_resolve have run: the answer and authority sections hold one
    record, the additional section two, end_code is NOERROR and the
    response is empty. *)
Theorem query_reset_resolve_pack_ready (q0 : query_t) (label : list Z)
    (len : Z) :
  0 <= response_hdr q0 ->
  (protocol q0 = 1 -> 2 <= response_hdr q0) ->
  response_hdr q0 + HFIXEDSZ <= Z.of_nat (length (response_buffer q0)) ->
  let q := query_resolve label len (query_reset q0) in
  pack_ready q = true
  /\ sect (answer_section q) (answer_section_count q)
     = [example_com_rr_A label len]
  /\ sect (authority_section q) (authority_section_count q)
     = [example_com_rr_NS label len]
  /\ sect (additional_section q) (additional_section_count q)
     = [example_com_rr_NS_A; example_com_rr_NS_AAAA]
  /\ end_code q = rip_ns_r_noerror
  /\ response_buffer_len q = 0
  /\ response_hdr q = response_hdr q0
  /\ response_buffer q = response_buffer q0.
Proof.
  intros H0 Hp Hl q.
  assert (Ea : answer_section q = [example_com_rr_A label len])
    by reflexivity.
  assert (En : authority_section q = [example_com_rr_NS label len])
    by reflexivity.
  assert (Ed : additional_section q
               = [example_com_rr_NS_A; example_com_rr_NS_AAAA])
    by reflexivity.
  assert (Ca : answer_section_count q = 1) by reflexivity.
  assert (Cn : authority_section_count q = 1) by reflexivity.
  assert (Cd : additional_section_count q = 2) by reflexivity.
  assert (Eh : response_hdr q = response_hdr q0) by reflexivity.
  assert (Eb : response_buffer q = response_buffer q0) by reflexivity.
  assert (Ep : protocol q = protocol q0) by reflexivity.
  split.
  { unfold pack_ready. rewrite Ea, En, Ed, Ca, Cn, Cd, Eh, Eb, Ep.
    assert ((0 <=? response_hdr q0) = true) as -> by lia.
    assert ((response_hdr q0 + HFIXEDSZ
             <=? Z.of_nat (length (response_buffer q0))) = true) as ->
      by (apply Z.leb_le; exact Hl).
    assert (implb (protocol q0 =? 1) (2 <=? response_hdr q0) = true) as ->.
    { destruct (protocol q0 =? 1) eqn:E; [|reflexivity].
      cbn [implb]. apply Z.leb_le, Hp. lia. }
    reflexivity. }
  rewrite Ea, En, Ed, Ca, Cn, Cd.
  repeat split; reflexivity.
Qed.

Lemma query_reset_resolve_pack_ready_witness :
  pack_ready query_resolved_tcp = true
  /\ response_hdr query_resolved_tcp = 2.
Proof.
  assert (I0 : 0 <= response_hdr (query_init 1542 1)) by (cbn; lia).
  assert (Ip : protocol (query_init 1542 1) = 1 ->
               2 <= response_hdr (query_init 1542 1)) by (intros _; cbn; lia).
  assert (Il : response_hdr (query_init 1542 1) + HFIXEDSZ
               <= Z.of_nat (length (response_buffer (query_init 1542 1))))
    by (vm_compute; discriminate).
  destruct (query_reset_resolve_pack_ready (query_init 1542 1)
              [119;119;119;46;101;120;97;109;112;108;101;46;99;111;109] 15
              I0 Ip Il) as (R & _ & _ & _ & _ & _ & Rh & _).
  split; [exact R|exact Rh].
Defined.

End QueryCycle.

(* --------------------------------------------------------------------- *)
(** ** rip_ns_utils.c: packed names and the search for compression *)
(* --------------------------------------------------------------------- *)

Section PackedNames.
Import Wire MsgSpec.

Lemma label_no_flags (n : Z) :
  1 <= n <= 63 -> Z.land n RIP_NS_CMPRSFLGS = 0 /\ (n =? 0) = false.
Proof.
  intros Hn.
  pose proof (range_forallb
                (fun n => (Z.land n RIP_NS_CMPRSFLGS =? 0) && negb (n =? 0))
                1 63 ltac:(vm_compute; reflexivity) n ltac:(lia)) as H.
  cbv beta in H. apply andb_true_iff in H. destruct H as [H1 H2].
  split; [lia|]. destruct (n =? 0); [discriminate|reflexivity].
Qed.

Lemma pointer_flags (n : Z) :
  Z.land n RIP_NS_CMPRSFLGS = RIP_NS_CMPRSFLGS ->
  (n =? 0) = false
  /\ (Z.land n RIP_NS_CMPRSFLGS =? 0) = false
  /\ (Z.land n RIP_NS_CMPRSFLGS =? RIP_NS_CMPRSFLGS) = true.
Proof.
  intros H. rewrite H. unfold RIP_NS_CMPRSFLGS in *.
  split; [|split; reflexivity].
  destruct (Z.eqb_spec n 0) as [->|]; [discriminate|reflexivity].
Qed.

(** The two bytes of a compression pointer to offset [v]. *)
Lemma pointer_bytes (v : Z) :
  0 <= v < 16384 ->
  let b0 := u8 (Z.lor (Z.shiftr v 8) RIP_NS_CMPRSFLGS) in
  let b1 := u8 (v mod 256) in
  Z.land b0 RIP_NS_CMPRSFLGS = RIP_NS_CMPRSFLGS
  /\ Z.lor (Z.shiftl (Z.land b0 63) 8) b1 = v.
Proof.
  intros Hv. cbv zeta.
  rewrite Z.shiftr_div_pow2 by lia. change (2 ^ 8) with 256.
  set (h := v / 256). assert (Hh : 0 <= h < 64) by (unfold h; dlia).
  pose proof (range_forallb
                (fun h => (Z.land (u8 (Z.lor h RIP_NS_CMPRSFLGS))
                             RIP_NS_CMPRSFLGS =? RIP_NS_CMPRSFLGS)
                          && (Z.land (u8 (Z.lor h RIP_NS_CMPRSFLGS)) 63 =? h))
                0 64 ltac:(vm_compute; reflexivity) h ltac:(lia)) as H.
  cbv beta in H. apply andb_true_iff in H. destruct H as [H1 H2].
  apply Z.eqb_eq in H1, H2. split; [exact H1|].
  rewrite H2. unfold u8. rewrite Z.mod_mod by lia.
  rewrite be16_bytes by dlia. unfold h. dlia.
Qed.

Lemma rd_nonzero_in_range (l : list Z) (p : Z) :
  rd l p <> 0 -> 0 <= p < Z.of_nat (length l).
Proof.
  unfold rd. destruct (p <? 0) eqn:E; [congruence|].
  destruct (l !! Z.to_nat p) as [x|] eqn:El; [|simpl; congruence].
  intros _. apply lookup_lt_Some in El. lia.
Qed.

Lemma name_at_bounds (buf : list Z) (msg lo p e : Z) :
  name_at buf msg lo p e -> lo <= p < e.
Proof. induction 1; lia. Qed.

(** A packed name is the same in every buffer that holds the same bytes
    from [lo] to its end. *)
Lemma name_at_ext (buf buf' : list Z) (msg lo p e : Z) :
  name_at buf msg lo p e ->
  (forall j, lo <= j < e -> rd buf' j = rd buf j) ->
  name_at buf' msg lo p e.
Proof.
  induction 1 as [p Hlo H0|p e Hlo Hn Hr IH|p t e' Hlo Hf Ht Hl Hr IH He];
    intros Hx.
  - apply name_at_end; [exact Hlo|]. rewrite Hx by lia. exact H0.
  - pose proof (name_at_bounds _ _ _ _ _ Hr) as Hb.
    assert (E : rd buf' p = rd buf p) by (apply Hx; lia).
    apply name_at_label; rewrite ?E; [exact Hlo|exact Hn|].
    apply IH. exact Hx.
  - pose proof (name_at_bounds _ _ _ _ _ Hr) as Hb.
    assert (E0 : rd buf' p = rd buf p) by (apply Hx; lia).
    assert (E1 : rd buf' (p + 1) = rd buf (p + 1)) by (apply Hx; lia).
    assert (Et : rd buf' t = rd buf t) by (apply Hx; lia).
    apply (name_at_ptr buf' msg lo p t e'); rewrite ?E0, ?E1, ?Et;
      try assumption.
    apply IH. intros j Hj. apply Hx. lia.
Qed.

Lemma name_at_lower (buf : list Z) (msg lo lo' p e : Z) :
  name_at buf msg lo p e -> lo' <= lo -> name_at buf msg lo' p e.
Proof.
  induction 1; intros Hl.
  - apply name_at_end; [lia|assumption].
  - apply name_at_label; [lia|assumption|auto].
  - eapply name_at_ptr; eauto; lia.
Qed.


End PackedNames.

Section DnFind.
Import Wire MsgSpec.

Lemma hop_fuel_two : (2 <= hop_fuel)%nat.
Proof. unfold hop_fuel. lia. Qed.

(** At a label or at the end of a packed name one pass is enough. *)
Lemma dn_hops_at_label (next : Z -> Z -> option dn_match_t) (hfuel : nat)
    (buf : list Z) (msg : Z) (domain : list Z) (dn cp : Z) :
  (1 <= hfuel)%nat ->
  rd buf cp = 0 \/ 1 <= rd buf cp <= 63 ->
  (forall dn', 1 <= rd buf cp <= 63 -> dn < dn' -> rd domain dn' <> 0 ->
     is_Some (next dn' (cp + 1 + rd buf cp))) ->
  is_Some (dn_hops next hfuel buf msg domain dn cp).
Proof.
  intros Hf Hn Hk. destruct hfuel as [|hfuel]; [lia|].
  cbn [dn_hops]. cbv zeta. destruct Hn as [Hn|Hn].
  { rewrite Hn. eexists. reflexivity. }
  destruct (label_no_flags _ Hn) as [F1 F2]. rewrite F2, F1.
  change (0 =? 0) with true. cbv iota.
  destruct (negb (rd buf cp =? rd domain dn)); [eexists; reflexivity|].
  destruct (negb (bytes_eqb _ _)); [eexists; reflexivity|].
  destruct (_ && _); [eexists; reflexivity|].
  destruct (negb (rd domain (dn + 1 + rd buf cp) =? 0)) eqn:E;
    [|eexists; reflexivity].
  apply Hk; [exact Hn|lia|]. apply negb_true_iff, Z.eqb_neq in E. exact E.
Qed.

(** On a packed name the pointers followed in a row are one at most. *)
Lemma dn_hops_some (next : Z -> Z -> option dn_match_t) (hfuel : nat)
    (buf : list Z) (msg lo : Z) (domain : list Z) (dn cp e : Z) :
  (2 <= hfuel)%nat ->
  name_at buf msg lo cp e ->
  (forall dn' cp' e', name_at buf msg lo cp' e' -> dn < dn' ->
     rd domain dn' <> 0 -> is_Some (next dn' cp')) ->
  is_Some (dn_hops next hfuel buf msg domain dn cp).
Proof.
  intros Hf Hn Hk.
  inversion Hn as [p Hlo H0|p e0 Hlo Hl Hr|p t e' Hlo Hfl Ht Hl Hr He]; subst.
  - apply dn_hops_at_label; [lia|left; exact H0|].
    intros dn' Hl. rewrite H0 in Hl. lia.
  - apply dn_hops_at_label; [lia|right; exact Hl|].
    intros dn' _ Hd Hz. eapply Hk; eauto.
  - destruct hfuel as [|hfuel]; [lia|].
    cbn [dn_hops]. cbv zeta.
    destruct (pointer_flags _ Hfl) as (F1 & F2 & F3). rewrite F1, F2, F3.
    inversion Hr as [p Hlo' H0|p e0 Hlo' Hl' Hr'|p t' e'' Hlo' Hfl' Ht' Hl' Hr' He'];
      subst.
    + lia.
    + apply dn_hops_at_label; [lia|right; exact Hl|].
      intros dn' _ Hd Hz. eapply Hk; eauto.
    + destruct (label_no_flags _ Hl) as [G1 _].
      rewrite G1 in Hfl'. discriminate.
Qed.

(** The comparison with one packed name ends. *)
Lemma dn_match_some (buf : list Z) (msg lo : Z) (domain : list Z)
    (lfuel : nat) :
  forall dn cp e,
  name_at buf msg lo cp e ->
  (1 <= lfuel)%nat ->
  Z.of_nat (length domain) - dn < Z.of_nat lfuel ->
  is_Some (dn_match lfuel buf msg domain dn cp).
Proof.
  induction lfuel as [|lfuel IH]; intros dn cp e Hn H1 Hf; [lia|].
  cbn [dn_match].
  apply (dn_hops_some _ _ buf msg lo domain dn cp e hop_fuel_two Hn).
  intros dn' cp' e' Hn' Hd Hz. apply rd_nonzero_in_range in Hz.
  apply (IH dn' cp' e' Hn'); lia.
Qed.

(** The search through one packed name ends; an offset it returns is the
    offset of a label of that name, below 0x4000. *)
Lemma dn_find_name_spec (buf : list Z) (msg lo : Z) (domain : list Z)
    (fuel : nat) :
  forall sp e,
  name_at buf msg lo sp e ->
  1 + Z.max 0 (16384 - (sp - msg)) <= Z.of_nat fuel ->
  exists r,
    dn_find_name fuel buf msg domain sp = Some r
    /\ match r with
       | Some v =>
         v = -1
         \/ (v < 16384 /\ 1 <= rd buf (msg + v) <= 63
             /\ name_at buf msg lo (msg + v) e)
       | None => True
       end.
Proof.
  induction fuel as [|fuel IH]; intros sp e Hn Hf; [lia|].
  cbn [dn_find_name].
  destruct (negb (rd buf sp =? 0)
            && (Z.land (rd buf sp) RIP_NS_CMPRSFLGS =? 0)
            && (sp - msg <? 16384)) eqn:E; [|exists None; done].
  apply andb_true_iff in E. destruct E as [E E3].
  apply andb_true_iff in E. destruct E as [E1 E2].
  apply negb_true_iff, Z.eqb_neq in E1. apply Z.eqb_eq in E2.
  apply Z.ltb_lt in E3.
  assert (Hl : 1 <= rd buf sp <= 63
               /\ name_at buf msg lo (sp + 1 + rd buf sp) e).
  { inversion Hn as [p Hlo H0|p e0 Hlo Hl Hr|p t e' Hlo Hfl Ht Hl Hr He];
      subst.
    - congruence.
    - split; assumption.
    - rewrite Hfl in E2. discriminate. }
  destruct Hl as [Hl Hr].
  destruct (dn_match_some buf msg lo domain (S (length domain)) 0 sp e Hn)
    as [m Hm]; [lia|lia|].
  rewrite Hm. cbn [mbind option_bind].
  destruct m.
  - exists (Some (sp - msg)). split; [reflexivity|]. right.
    replace (msg + (sp - msg)) with sp by ring.
    split; [lia|]. split; [exact Hl|exact Hn].
  - replace (sp + (rd buf sp + 1)) with (sp + 1 + rd buf sp) by ring.
    apply IH; [exact Hr|lia].
  - exists (Some (-1)). split; [reflexivity|]. left. reflexivity.
Qed.

(** The search through the array ends when every entry searched is a
    packed name. *)
Lemma dn_find_entries_spec (buf : list Z) (msg lo hi : Z) (domain : list Z)
    (entries : list (option Z)) :
  (forall e0, e0 ∈ entries ->
     exists sp e, e0 = Some sp /\ name_at buf msg lo sp e /\ e <= hi) ->
  exists v,
    dn_find_entries buf msg domain entries = Some v
    /\ (v = -1
        \/ (v < 16384 /\ 1 <= rd buf (msg + v) <= 63
            /\ exists e, name_at buf msg lo (msg + v) e /\ e <= hi)).
Proof.
  induction entries as [|e0 rest IH]; intros He.
  - exists (-1). split; [reflexivity|left; reflexivity].
  - destruct (He e0 ltac:(left)) as (sp & e & -> & Hn & Hh).
    cbn [dn_find_entries].
    destruct (dn_find_name_spec buf msg lo domain
                (S (Z.to_nat (16384 - (sp - msg)))) sp e Hn ltac:(lia))
      as (r & Hr & Hp).
    rewrite Hr. cbn [mbind option_bind].
    destruct r as [v|].
    + exists v. split; [reflexivity|].
      destruct Hp as [Hp|(H1 & H2 & H3)]; [left; exact Hp|right].
      split; [exact H1|]. split; [exact H2|]. exists e. split; assumption.
    + apply IH. intros e1 H1. apply He. right. exact H1.
Qed.

Lemma rip_dn_find_spec (buf : list Z) (msg lo hi : Z) (domain : list Z)
    (arr : list (option Z)) (lpp : nat) :
  names_ok buf msg lo hi arr lpp ->
  exists v,
    rip_dn_find buf msg domain arr lpp = Some v
    /\ (v = -1
        \/ (v < 16384 /\ 1 <= rd buf (msg + v) <= 63
            /\ exists e, name_at buf msg lo (msg + v) e /\ e <= hi)).
Proof.
  intros Hok. unfold rip_dn_find. apply dn_find_entries_spec.
  intros e0 He. apply list_elem_of_lookup_1 in He. destruct He as [j Hj].
  rewrite lookup_drop in Hj.
  assert (Hlt : (1 + j < lpp)%nat).
  { destruct (decide (1 + j < lpp)%nat) as [|Hge]; [assumption|].
    rewrite lookup_take_ge in Hj by lia. discriminate. }
  rewrite lookup_take_lt in Hj by lia.
  destruct (Hok (1 + j)%nat ltac:(lia)) as (sp & e & Ha & Hn & Hh).
  rewrite Ha in Hj. injection Hj as <-. exists sp, e. done.
Qed.

End DnFind.

Section NamePackSpec.
Import Wire MsgSpec.

Lemma labels_to_bounds (src : list Z) (p e : Z) : labels_to src p e -> p < e.
Proof. induction 1; lia. Qed.

Lemma rd_bytes_cons (b : list Z) (p n : Z) :
  0 <= n -> rd_bytes b p (n + 1) = rd b p :: rd_bytes b (p + 1) n.
Proof.
  intros Hn. unfold rd_bytes.
  replace (Z.to_nat (n + 1)) with (S (Z.to_nat n)) by lia.
  cbn [seq map]. f_equal; [f_equal; lia|].
  rewrite <- seq_shift, map_map. apply map_ext. intros i. f_equal. lia.
Qed.

Lemma rd_wr_bytes_first (buf : list Z) (p b : Z) (l : list Z) :
  0 <= p < Z.of_nat (length buf) -> rd (wr_bytes buf p (b :: l)) p = b.
Proof.
  intros Hp. cbn [wr_bytes]. rewrite rd_wr_bytes_lt by lia.
  apply rd_wr_eq. exact Hp.
Qed.

(** The legality test of rip_ns_name_pack ends, and a name it accepts is
    a row of labels that ends within 255 bytes. *)
Lemma name_pack_legal_spec (src : list Z) (fuel : nat) :
  forall srcp l,
  bytes src -> 0 <= l <= 255 -> 256 - l <= Z.of_nat fuel ->
  exists b,
    name_pack_legal fuel src srcp l = Some b
    /\ (b = true ->
        exists e, labels_to src srcp e /\ l + (e - srcp) <= 255).
Proof.
  induction fuel as [|fuel IH]; intros srcp l Hb Hl Hf; [lia|].
  cbn [name_pack_legal]. cbv zeta.
  pose proof (rd_byte src srcp Hb) as Hn.
  destruct (rd src srcp >=? 64) eqn:E1; [exists false; done|].
  destruct (l + (rd src srcp + 1) >? RIP_NS_MAXCDNAME) eqn:E2;
    [exists false; done|].
  unfold RIP_NS_MAXCDNAME in E2.
  destruct (negb (rd src srcp =? 0)) eqn:E3.
  - apply negb_true_iff, Z.eqb_neq in E3.
    destruct (IH (srcp + (rd src srcp + 1)) (l + (rd src srcp + 1)) Hb)
      as (b & Hr & Hp); [lia|lia|].
    exists b. split; [exact Hr|]. intros ->.
    destruct (Hp eq_refl) as (e & He & Hle).
    exists e. split; [|lia].
    apply labels_to_label; [lia|].
    replace (srcp + 1 + rd src srcp) with (srcp + (rd src srcp + 1)) by ring.
    exact He.
  - apply negb_false_iff, Z.eqb_eq in E3.
    exists true. split; [reflexivity|]. intros _.
    exists (srcp + 1). split; [apply labels_to_end; exact E3|lia].
Qed.

(** Names and the array outside what is written stay as they are. *)
Lemma names_ok_ext (buf buf' : list Z) (msg lo hi : Z)
    (arr arr' : list (option Z)) (lpp : nat) :
  names_ok buf msg lo hi arr lpp ->
  (forall j, lo <= j < hi -> rd buf' j = rd buf j) ->
  (forall i, (i < lpp)%nat -> arr' !! i = arr !! i) ->
  names_ok buf' msg lo hi arr' lpp.
Proof.
  intros Hok Hb Ha i Hi. destruct (Hok i Hi) as (sp & e & H1 & H2 & H3).
  exists sp, e. split; [rewrite Ha by lia; exact H1|]. split; [|exact H3].
  apply (name_at_ext buf); [exact H2|]. intros j Hj. apply Hb. lia.
Qed.

(** The second loop of rip_ns_name_pack, when it succeeds: what it wrote
    from [dstp] on is a packed name, no longer than what is left of the
    source, and the array has at most gained the address of one of its
    labels. *)
Lemma name_pack_loop_spec (fuel : nat) :
  forall (src buf : list Z) (dst eob m : Z) (arr : list (option Z))
         (lpp lastdnptr : nat) (srcp dstp : Z) (cpp : nat) (first : bool)
         (es lo hi : Z) ret buf' arr',
  labels_to src srcp es ->
  names_ok buf m lo hi arr lpp ->
  hi <= dstp -> lo <= dstp -> 0 <= dstp -> dst <= dstp ->
  dstp + (es - srcp) <= Z.of_nat (length buf) ->
  (lpp <= cpp)%nat -> (lastdnptr < length arr)%nat ->
  name_pack_loop fuel src buf dst eob (Some m) arr lpp lastdnptr
    srcp dstp cpp first = Some (ret, buf', arr') ->
  0 <= ret ->
  dstp < dst + ret
  /\ dst + ret - dstp <= es - srcp
  /\ name_at buf' m lo dstp (dst + ret)
  /\ confined dstp (dst + ret) buf buf'
  /\ (arr' = arr
      \/ (first = true
          /\ exists d, arr' = <[S cpp := None]> (<[cpp := Some d]> arr)
                       /\ (S cpp < length arr)%nat
                       /\ name_at buf' m lo d (dst + ret))).
Proof.
  induction fuel as [|fuel IH]; intros src buf dst eob m arr lpp lastdnptr
    srcp dstp cpp first es lo hi ret buf' arr' Hl Hok Hhi Hlo Hd0 Hd Hroom
    Hcpp Hlast H Hret; [discriminate|].
  cbn [name_pack_loop] in H.
  assert (Hcases : (rd src srcp = 0 /\ es = srcp + 1)
                   \/ (1 <= rd src srcp <= 63
                       /\ labels_to src (srcp + 1 + rd src srcp) es)).
  { inversion Hl; subst; [left|right]; done. }
  destruct Hcases as [[Hn0 He]|[Hn Hr]].
  - (* the zero byte that ends the name *)
    rewrite Hn0 in H. change (negb (0 =? 0)) with false in H.
    cbn [mbind option_bind] in H. change (-1 >=? 0) with false in H.
    cbv zeta in H. cbn [andb] in H. change (0 >=? 64) with false in H.
    cbv iota in H.
    destruct (0 + 1 >? eob - dstp); [inversion H; subst; lia|].
    destruct (dstp + (0 + 1) >? eob); [inversion H; subst; lia|].
    inversion H; subst ret buf' arr'. clear H.
    replace (srcp + Z.of_nat 0) with srcp by lia. rewrite Hn0.
    replace (dst + (dstp + (0 + 1) - dst)) with (dstp + 1) by ring.
    split; [lia|]. split; [lia|].
    split; [apply name_at_end; [exact Hlo|apply rd_wr_eq; lia]|].
    split; [apply confined_wr; lia|]. left. reflexivity.
  - (* a label *)
    pose proof (labels_to_bounds _ _ _ Hr) as Hb.
    destruct (label_no_flags _ Hn) as [_ Fz]. rewrite Fz in H.
    cbn [negb] in H.
    destruct (rip_dn_find_spec buf m lo hi (drop (Z.to_nat srcp) src) arr lpp
                Hok) as (v & Hv & Hvp).
    rewrite Hv in H. cbn [mbind option_bind] in H.
    destruct (v >=? 0) eqn:Ev.
    + (* a compression pointer *)
      destruct Hvp as [->|(V1 & V2 & et & Vn & Ve)]; [discriminate|].
      assert (V0 : 0 <= v) by lia.
      destruct (eob - dstp <=? 1); [inversion H; subst; lia|].
      inversion H; subst ret buf' arr'. clear H.
      replace (dst + (dstp + 2 - dst)) with (dstp + 2) by ring.
      pose proof (name_at_bounds _ _ _ _ _ Vn) as Vb.
      set (b0 := u8 (Z.lor (Z.shiftr v 8) RIP_NS_CMPRSFLGS)).
      set (b1 := u8 (v mod 256)).
      set (buf' := wr (wr buf dstp b0) (dstp + 1) b1).
      assert (C : confined dstp (dstp + 2) buf buf').
      { unfold buf'. eapply confined_trans; apply confined_wr; lia. }
      assert (R0 : rd buf' dstp = b0).
      { unfold buf'. rewrite rd_wr_ne by lia. apply rd_wr_eq. lia. }
      assert (R1 : rd buf' (dstp + 1) = b1).
      { unfold buf'. apply rd_wr_eq. rewrite wr_length. lia. }
      destruct (pointer_bytes v ltac:(lia)) as [P1 P2].
      cbv zeta in P1, P2. fold b0 in P1, P2. fold b1 in P2.
      split; [lia|]. split; [lia|].
      split; [|split; [exact C|left; reflexivity]].
      destruct C as [_ C].
      apply (name_at_ptr buf' m lo dstp (m + v) et).
      * exact Hlo.
      * rewrite R0. exact P1.
      * rewrite R0, R1, P2. reflexivity.
      * rewrite C by lia. exact V2.
      * apply (name_at_ext buf); [exact Vn|]. intros j Hj. apply C. lia.
      * lia.
    + (* the label is copied *)
      cbv zeta in H.
      set (n := rd src srcp) in *.
      match type of H with
        context [if ?s then <[S cpp:=None]> _ else arr] => set (save := s) in *
      end.
      assert ((n >=? 64) = false) as Fn by lia. rewrite Fn in H.
      destruct (n + 1 >? eob - dstp); [inversion H; subst; lia|].
      set (buf1 := wr_bytes buf dstp (rd_bytes src srcp (n + 1))) in *.
      set (arr1 := if save then <[S cpp:=None]> (<[cpp:=Some dstp]> arr)
                   else arr) in *.
      assert (C1 : confined dstp (dstp + (n + 1)) buf buf1).
      { unfold buf1. apply confined_wr_bytes; [lia|].
        rewrite rd_bytes_length. lia. }
      assert (L1 : length buf1 = length buf) by apply C1.
      assert (A1 : forall i, (i < lpp)%nat -> arr1 !! i = arr !! i).
      { intros i Hi. unfold arr1. destruct save; [|reflexivity].
        rewrite !list_lookup_insert_ne by lia. reflexivity. }
      assert (La : length arr1 = length arr).
      { unfold arr1. destruct save; [|reflexivity].
        rewrite !length_insert. reflexivity. }
      assert (Hok1 : names_ok buf1 m lo hi arr1 lpp).
      { apply (names_ok_ext buf _ _ _ _ arr); [exact Hok| |exact A1].
        intros j Hj. apply C1. lia. }
      apply (IH src buf1 dst eob m arr1 lpp lastdnptr _ _ _ _ es lo hi)
        in H; try lia; try assumption.
      2:{ replace (srcp + (n + 1)) with (srcp + 1 + n) by ring. exact Hr. }
      2:{ destruct save; lia. }
      destruct H as (H1 & H2 & H3 & H4 & H5).
      assert (R0 : rd buf' dstp = n).
      { destruct H4 as [_ H4]. rewrite H4 by lia. unfold buf1.
        rewrite rd_bytes_cons by lia. apply rd_wr_bytes_first. lia. }
      assert (N : name_at buf' m lo dstp (dst + ret)).
      { apply name_at_label; [exact Hlo|rewrite R0; exact Hn|].
        rewrite R0.
        replace (dstp + 1 + n) with (dstp + (n + 1)) by ring. exact H3. }
      split; [lia|]. split; [lia|]. split; [exact N|].
      split.
      { apply (confined_trans _ _ _ buf1).
        - eapply confined_mono; [| |exact C1]; lia.
        - eapply confined_mono; [| |exact H4]; lia. }
      unfold arr1 in H5. destruct save eqn:Es.
      * right.
        assert (first = true /\ (S cpp < length arr)%nat) as [Hf Hs].
        { unfold save in Es. rewrite !andb_true_iff in Es.
          destruct Es as [[[_ Es] _] Ef]. apply Nat.ltb_lt in Es.
          split; [exact Ef|lia]. }
        split; [exact Hf|]. exists dstp.
        destruct H5 as [->|[Hf' _]]; [|discriminate].
        split; [reflexivity|]. split; [exact Hs|exact N].
      * destruct H5 as [->|(Hf & d & Ha & Hs & Hn')]; [left; reflexivity|].
        right. split; [exact Hf|]. exists d. done.
Qed.

(** The second loop of rip_ns_name_pack ends. *)
Lemma name_pack_loop_some (fuel : nat) :
  forall (src buf : list Z) (dst eob m : Z) (arr : list (option Z))
         (lpp lastdnptr : nat) (srcp dstp : Z) (cpp : nat) (first : bool)
         (es lo hi : Z),
  labels_to src srcp es ->
  names_ok buf m lo hi arr lpp ->
  hi <= dstp -> (lpp <= cpp)%nat ->
  es - srcp <= Z.of_nat fuel ->
  is_Some (name_pack_loop fuel src buf dst eob (Some m) arr lpp lastdnptr
             srcp dstp cpp first).
Proof.
  induction fuel as [|fuel IH]; intros src buf dst eob m arr lpp lastdnptr
    srcp dstp cpp first es lo hi Hl Hok Hhi Hcpp Hf.
  { apply labels_to_bounds in Hl. lia. }
  cbn [name_pack_loop].
  assert (Hcases : (rd src srcp = 0 /\ es = srcp + 1)
                   \/ (1 <= rd src srcp <= 63
                       /\ labels_to src (srcp + 1 + rd src srcp) es)).
  { inversion Hl; subst; [left|right]; done. }
  destruct Hcases as [[Hn0 He]|[Hn Hr]].
  - rewrite Hn0. change (negb (0 =? 0)) with false.
    cbn [mbind option_bind]. change (-1 >=? 0) with false.
    cbv zeta. cbn [andb]. change (0 >=? 64) with false. cbv iota.
    destruct (0 + 1 >? eob - dstp); [eexists; reflexivity|].
    destruct (dstp + (0 + 1) >? eob); eexists; reflexivity.
  - pose proof (labels_to_bounds _ _ _ Hr) as Hb.
    destruct (label_no_flags _ Hn) as [_ Fz]. rewrite Fz. cbn [negb].
    destruct (rip_dn_find_spec buf m lo hi (drop (Z.to_nat srcp) src) arr lpp
                Hok) as (v & Hv & _).
    rewrite Hv. cbn [mbind option_bind].
    destruct (v >=? 0).
    { destruct (eob - dstp <=? 1); eexists; reflexivity. }
    cbv zeta.
    set (n := rd src srcp) in *.
    match goal with
      |- context [if ?s then <[S cpp:=None]> _ else arr] => set (save := s)
    end.
    assert ((n >=? 64) = false) as Fn by lia. rewrite Fn.
    destruct (n + 1 >? eob - dstp); [eexists; reflexivity|].
    apply (IH _ _ _ _ _ _ _ _ _ _ _ _ es lo hi).
    + replace (srcp + (n + 1)) with (srcp + 1 + n) by ring. exact Hr.
    + apply (names_ok_ext buf _ _ _ _ arr); [exact Hok| |].
      * intros j Hj. apply rd_wr_bytes_lt. lia.
      * intros i Hi. destruct save; [|reflexivity].
        rewrite !list_lookup_insert_ne by lia. reflexivity.
    + lia.
    + destruct save; lia.
    + lia.
Qed.

Lemma first_null_spec (l : list (option Z)) :
  forall i,
  (i <= first_null l i)%nat
  /\ (forall j, (j < first_null l i - i)%nat ->
        exists x, l !! j = Some (Some x))
  /\ ((first_null l i - i < length l)%nat ->
      l !! (first_null l i - i)%nat = Some None).
Proof.
  induction l as [|[x|] l IH]; intros i; cbn [first_null].
  - split; [lia|]. split; [intros j Hj; lia|]. cbn [length]. lia.
  - destruct (IH (S i)) as (H1 & H2 & H3).
    split; [lia|]. split.
    + intros [|j] Hj; [exists x; reflexivity|]. cbn. apply H2. lia.
    + intros Hl. cbn [length] in Hl.
      replace (first_null l (S i) - i)%nat
        with (S (first_null l (S i) - S i)) by lia.
      cbn. apply H3. lia.
  - split; [lia|]. split; [intros j Hj; lia|].
    intros _. rewrite Nat.sub_diag. reflexivity.
Qed.

Lemma first_null_char (l : list (option Z)) :
  forall i k,
  (forall j, (j < k)%nat -> exists x, l !! j = Some (Some x)) ->
  l !! k = Some None ->
  first_null l i = (i + k)%nat.
Proof.
  induction l as [|[x|] l IH]; intros i k Hs Hn; cbn [first_null].
  - rewrite lookup_nil in Hn. discriminate.
  - destruct k as [|k]; [cbn in Hn; discriminate|].
    rewrite (IH (S i) k); [lia| |exact Hn].
    intros j Hj. apply (Hs (S j)). lia.
  - destruct k as [|k]; [lia|].
    destruct (Hs 0%nat ltac:(lia)) as [x Hx]. cbn in Hx. discriminate.
Qed.

(** The array of packed names after a name has been packed. *)
Lemma names_inv_kept (buf buf' : list Z) (msg lo hi hi' : Z)
    (arr : list (option Z)) :
  names_inv buf msg lo hi arr ->
  (forall j, lo <= j < hi -> rd buf' j = rd buf j) -> hi <= hi' ->
  names_inv buf' msg lo hi' arr.
Proof.
  intros [H0 Hok] Hb Hh. split; [exact H0|].
  intros i Hi. destruct (Hok i Hi) as (sp & e & H1 & H2 & H3).
  exists sp, e. split; [exact H1|]. split; [|lia].
  apply (name_at_ext buf); [exact H2|]. intros j Hj. apply Hb. lia.
Qed.

Lemma names_inv_added (buf buf' : list Z) (msg lo hi hi' d e : Z)
    (arr : list (option Z)) :
  names_inv buf msg lo hi arr ->
  (forall j, lo <= j < hi -> rd buf' j = rd buf j) -> hi <= hi' ->
  (S (first_null (drop 1 arr) 1) < length arr)%nat ->
  name_at buf' msg lo d e -> e <= hi' ->
  names_inv buf' msg lo hi'
    (<[S (first_null (drop 1 arr) 1) := None]>
       (<[first_null (drop 1 arr) 1 := Some d]> arr)).
Proof.
  intros [H0 Hok] Hb Hh Hs Hn He.
  set (k := first_null (drop 1 arr) 1) in *.
  destruct (first_null_spec (drop 1 arr) 1) as (K1 & K2 & _). fold k in K1, K2.
  set (arr' := <[S k := None]> (<[k := Some d]> arr)).
  assert (Hk : first_null (drop 1 arr') 1 = S k).
  { rewrite (first_null_char (drop 1 arr') 1 k); [lia| |].
    - intros j Hj. rewrite lookup_drop. unfold arr'.
      rewrite list_lookup_insert_ne by lia.
      destruct (decide (1 + j = k)%nat) as [E|E].
      + rewrite E, list_lookup_insert_eq by lia. exists d. reflexivity.
      + rewrite list_lookup_insert_ne by lia.
        destruct (K2 j ltac:(lia)) as [x Hx]. rewrite lookup_drop in Hx.
        exists x. exact Hx.
    - rewrite lookup_drop. unfold arr'.
      replace (1 + k)%nat with (S k) by lia.
      apply list_lookup_insert_eq. rewrite length_insert. lia. }
  split.
  { unfold arr'. rewrite !list_lookup_insert_ne by lia. exact H0. }
  rewrite Hk. intros i Hi.
  destruct (decide (i = k)) as [->|Hik].
  - exists d, e. split; [|split; [exact Hn|exact He]].
    unfold arr'. rewrite list_lookup_insert_ne by lia.
    apply list_lookup_insert_eq. lia.
  - destruct (Hok i ltac:(lia)) as (sp & e0 & A1 & A2 & A3).
    exists sp, e0. split; [|split; [|lia]].
    + unfold arr'. rewrite !list_lookup_insert_ne by lia. exact A1.
    + apply (name_at_ext buf); [exact A2|]. intros j Hj. apply Hb. lia.
Qed.

Lemma name_fuel_value : Z.of_nat name_fuel = 257.
Proof. reflexivity. Qed.

(** rip_ns_name_pack in a message whose array points to packed names, with
    room for the longest name: it returns, and when it succeeds it has
    written a packed name of at most 255 bytes and kept the array in
    order. *)
Lemma name_pack_spec (src buf : list Z) (dst dstsiz m lo hi : Z)
    (arr : list (option Z)) (lastdnptr : nat) :
  bytes src ->
  names_inv buf m lo hi arr ->
  hi <= dst -> lo <= dst -> 0 <= dst ->
  dst + RIP_NS_MAXCDNAME <= Z.of_nat (length buf) ->
  (lastdnptr < length arr)%nat ->
  exists ret buf' arr',
    rip_ns_name_pack src buf dst dstsiz arr lastdnptr = Some (ret, buf', arr')
    /\ (ret < 0
        \/ (1 <= ret <= RIP_NS_MAXCDNAME
            /\ name_at buf' m lo dst (dst + ret)
            /\ confined dst (dst + ret) buf buf'
            /\ names_inv buf' m lo (dst + ret) arr')).
Proof.
  intros Hb [H0 Hok] Hhi Hlo Hd0 Hroom Hlast. unfold RIP_NS_MAXCDNAME in *.
  unfold rip_ns_name_pack. rewrite H0. cbn [default]. cbv zeta.
  pose proof name_fuel_value as Hfv. revert Hfv.
  generalize name_fuel. intros fuel Hfv.
  set (lpp := first_null (drop 1 arr) 1) in *.
  destruct (name_pack_legal_spec src fuel 0 0 Hb ltac:(lia) ltac:(lia))
    as (b & Hlg & Hle).
  rewrite Hlg. cbn [mbind option_bind].
  destruct b; cbn [negb].
  2:{ exists (-1), buf, arr. split; [reflexivity|left; lia]. }
  destruct (Hle eq_refl) as (es & Hl & Hes).
  destruct (name_pack_loop_some fuel src buf dst (dst + dstsiz) m arr lpp
              lastdnptr 0 dst lpp true es lo hi Hl Hok Hhi ltac:(lia)
              ltac:(lia)) as [[[ret buf'] arr'] Hr].
  exists ret, buf', arr'. split; [exact Hr|].
  destruct (Z.ltb_spec ret 0) as [Hneg|Hpos]; [left; exact Hneg|right].
  destruct (name_pack_loop_spec fuel src buf dst (dst + dstsiz) m arr lpp
              lastdnptr 0 dst lpp true es lo hi ret buf' arr' Hl Hok Hhi Hlo
              Hd0 ltac:(lia) ltac:(lia) ltac:(lia) Hlast Hr Hpos)
    as (S1 & S2 & S3 & S4 & S5).
  split; [lia|]. split; [exact S3|]. split; [exact S4|].
  assert (Ha : forall j, lo <= j < hi -> rd buf' j = rd buf j).
  { intros j Hj. apply S4. lia. }
  destruct S5 as [->|(_ & d & -> & Hs & Hn)].
  - apply (names_inv_kept buf _ _ _ hi); [split; assumption|exact Ha|lia].
  - apply (names_inv_added buf _ _ _ hi _ d (dst + ret));
      [split; assumption|exact Ha|lia|exact Hs|exact Hn|lia].
Qed.

(** rip_ns_name_put under the same conditions. *)
Lemma name_put_spec (src buf : list Z) (dst dstsiz m lo hi : Z)
    (arr : list (option Z)) (lastdnptr : nat) :
  names_inv buf m lo hi arr ->
  hi <= dst -> lo <= dst -> 0 <= dst ->
  dst + RIP_NS_MAXCDNAME <= Z.of_nat (length buf) ->
  (lastdnptr < length arr)%nat ->
  exists ret buf' arr',
    rip_ns_name_put src buf dst dstsiz arr lastdnptr = Some (ret, buf', arr')
    /\ (ret < 0
        \/ (1 <= ret <= RIP_NS_MAXCDNAME
            /\ name_at buf' m lo dst (dst + ret)
            /\ confined dst (dst + ret) buf buf'
            /\ names_inv buf' m lo (dst + ret) arr')).
Proof.
  intros Hi Hhi Hlo Hd0 Hroom Hlast. unfold rip_ns_name_put.
  pose proof (pton_bytes src RIP_NS_CDNAME_COMP_BUF_LEN) as Hb.
  destruct (rip_ns_name_pton src RIP_NS_CDNAME_COMP_BUF_LEN) as [ret_c cn].
  cbn [snd] in Hb.
  destruct (ret_c <? 0) eqn:E.
  - exists ret_c, buf, arr. split; [reflexivity|left; lia].
  - apply (name_pack_spec cn buf dst dstsiz m lo hi); assumption.
Qed.

End NamePackSpec.

(* --------------------------------------------------------------------- *)
(** ** query_pack.c: the records of the response, read back *)
(* --------------------------------------------------------------------- *)

Section PackedRecords.
Import Wire Header Query QueryInit QueryPack MsgSpec.

Lemma rrs_at_le (buf : list Z) (msg lo : Z) (k : nat) (p e : Z) :
  rrs_at buf msg lo k p e -> p <= e.
Proof.
  induction 1 as [|k p e e1 Hr IH Hn Hl Hg]; [lia|].
  apply name_at_bounds in Hn. unfold RIP_NS_RRFIXEDSZ. lia.
Qed.

Lemma rrs_at_ext (buf buf' : list Z) (msg lo : Z) (k : nat) (p e : Z) :
  rrs_at buf msg lo k p e -> lo <= p ->
  (forall j, lo <= j < e -> rd buf' j = rd buf j) ->
  rrs_at buf' msg lo k p e.
Proof.
  induction 1 as [|k p e e1 Hr IH Hn Hl Hg]; intros Hlo Hx;
    [apply rrs_at_nil|].
  pose proof (rrs_at_le _ _ _ _ _ _ Hr) as Hle.
  pose proof (name_at_bounds _ _ _ _ _ Hn) as Hb.
  unfold RIP_NS_RRFIXEDSZ in *.
  assert (G : RIP_NS_GET16 buf' (e1 + 8) = RIP_NS_GET16 buf (e1 + 8)).
  { unfold RIP_NS_GET16. rewrite !Hx by lia. reflexivity. }
  rewrite <- G. apply (rrs_at_snoc buf' msg lo k p e e1).
  - apply IH; [exact Hlo|]. intros j Hj. apply Hx. lia.
  - apply (name_at_ext buf); [exact Hn|]. intros j Hj. apply Hx. lia.
  - exact Hl.
  - rewrite G. exact Hg.
Qed.



(** query_pack_rr where there is room for the longest name and the rdata:
    it returns, and a record it has packed is a packed name followed by the
    fixed fields and the rdata, within [buf_len] bytes. *)
Lemma query_pack_rr_packed (rr : rr_record_t) (buf : list Z)
    (p buf_len m lo hi : Z) (arr : list (option Z)) :
  rr_wf rr = true ->
  names_inv buf m lo hi arr ->
  hi <= p -> lo <= p -> 0 <= p ->
  p + rr_room rr <= Z.of_nat (length buf) ->
  (Z.to_nat (DNS_RESPONSE_COMPRESSED_NAMES_MAX - 1) < length arr)%nat ->
  exists ret buf' arr',
    query_pack_rr rr buf p buf_len arr = Some (ret, buf', arr')
    /\ (ret = -3
        \/ exists e1,
             name_at buf' m lo p e1
             /\ 1 <= e1 - p <= RIP_NS_MAXCDNAME
             /\ ret = e1 - p + RIP_NS_RRFIXEDSZ + rdata_len rr
             /\ ret <= buf_len
             /\ RIP_NS_GET16 buf' e1 = u16 (type rr)
             /\ RIP_NS_GET16 buf' (e1 + 2) = u16 (class rr)
             /\ RIP_NS_GET16 buf' (e1 + 8) = rdata_len rr
             /\ confined p (p + ret) buf buf'
             /\ names_inv buf' m lo (p + ret) arr').
Proof.
  intros Hw Hi Hhi Hlo Hp Hroom Hlast. unfold query_pack_rr.
  unfold rr_wf in Hw. apply andb_true_iff in Hw. destruct Hw as [Hw1 Hw2].
  apply Z.leb_le in Hw1. apply Z.ltb_lt in Hw2.
  unfold rr_room, RIP_NS_RRFIXEDSZ, RIP_NS_MAXCDNAME in *.
  destruct (name_put_spec (name rr) buf p buf_len m lo hi arr _ Hi Hhi Hlo Hp
              ltac:(unfold RIP_NS_MAXCDNAME; lia) Hlast)
    as (pnl & b1 & a1 & En & Hn).
  rewrite En. cbn [mbind option_bind].
  destruct (pnl <? 0) eqn:Ep.
  { exists (-3), b1, a1. split; [reflexivity|left; reflexivity]. }
  apply Z.ltb_ge in Ep.
  destruct Hn as [Hn|(N1 & N2 & N3 & N4)]; [lia|].
  unfold RIP_NS_MAXCDNAME in N1.
  cbv zeta.
  destruct (pnl + 10 + rdata_len rr >? buf_len) eqn:Eg.
  { exists (-3), b1, a1. split; [reflexivity|left; reflexivity]. }
  rewrite Z.gtb_ltb in Eg. apply Z.ltb_ge in Eg.
  eexists _, _, a1. split; [reflexivity|right].
  exists (p + pnl).
  destruct N3 as [Ln Rn].
  set (c1 := RIP_NS_PUT16 (type rr) b1 (p + pnl)).
  set (c2 := RIP_NS_PUT16 (class rr) c1 (p + pnl + 2)).
  set (c3 := RIP_NS_PUT32 (ttl rr) c2 (p + pnl + 4)).
  set (c4 := RIP_NS_PUT16 (rdata_len rr) c3 (p + pnl + 8)).
  set (c5 := wr_bytes c4 (p + pnl + 10)
               (rd_bytes (rdata rr) 0 (rdata_len rr))).
  set (hi' := p + (pnl + 10 + rdata_len rr)).
  assert (L1 : length c1 = length buf)
    by (unfold c1; rewrite put16_length; exact Ln).
  assert (L2 : length c2 = length buf)
    by (unfold c2; rewrite put16_length; exact L1).
  assert (L3 : length c3 = length buf).
  { unfold c3, RIP_NS_PUT32. cbv zeta. rewrite !wr_length. exact L2. }
  assert (K5 : confined (p + pnl + 10) hi' c4 c5).
  { unfold c5. apply confined_wr_bytes; [lia|].
    rewrite rd_bytes_length. unfold hi'. lia. }
  assert (K4 : confined (p + pnl + 8) hi' c3 c5).
  { apply (confined_trans _ _ _ c4); [apply confined_put16; unfold hi'; lia|].
    eapply confined_mono; [| |exact K5]; lia. }
  assert (K3 : confined (p + pnl + 4) hi' c2 c5).
  { apply (confined_trans _ _ _ c3); [apply confined_put32; unfold hi'; lia|].
    eapply confined_mono; [| |exact K4]; lia. }
  assert (K2 : confined (p + pnl + 2) hi' c1 c5).
  { apply (confined_trans _ _ _ c2); [apply confined_put16; unfold hi'; lia|].
    eapply confined_mono; [| |exact K3]; lia. }
  assert (K1 : confined (p + pnl) hi' b1 c5).
  { apply (confined_trans _ _ _ c1); [apply confined_put16; unfold hi'; lia|].
    eapply confined_mono; [| |exact K2]; lia. }
  assert (Ha : forall j, lo <= j < p + pnl -> rd c5 j = rd b1 j).
  { intros j Hj. apply K1. lia. }
  split; [apply (name_at_ext b1); [exact N2|exact Ha]|].
  split; [lia|]. split; [lia|]. split; [lia|].
  split; [|split; [|split]].
  - rewrite (get16_confined _ _ _ _ _ K2) by lia.
    unfold c1. apply get16_put16; lia.
  - rewrite (get16_confined _ _ _ _ _ K3) by lia.
    unfold c2. replace (p + pnl + 2) with (p + pnl + 2) by ring.
    apply get16_put16; lia.
  - rewrite (get16_confined _ _ _ _ _ K5) by lia.
    unfold c4. rewrite get16_put16 by lia.
    unfold u16. apply Z.mod_small. lia.
  - split.
    + replace (p + (p + pnl - p + 10 + rdata_len rr)) with hi'
        by (unfold hi'; ring).
      apply (confined_trans _ _ _ b1).
      * eapply confined_mono; [| |split; [exact Ln|exact Rn]]; unfold hi'; lia.
      * eapply confined_mono; [| |exact K1]; lia.
    + replace (p + (p + pnl - p + 10 + rdata_len rr)) with hi'
        by (unfold hi'; ring).
      apply (names_inv_kept b1 _ _ _ (p + pnl)); [exact N4|exact Ha|].
      unfold hi'. lia.
Qed.

Lemma name_pack_loop_arr_length (fuel : nat) :
  forall (src buf : list Z) (dst eob : Z) (msg : option Z)
         (arr : list (option Z)) (lpp lastdnptr : nat) (srcp dstp : Z)
         (cpp : nat) (first : bool) ret buf' arr',
  name_pack_loop fuel src buf dst eob msg arr lpp lastdnptr srcp dstp cpp first
  = Some (ret, buf', arr') ->
  length arr' = length arr.
Proof.
  induction fuel as [|fuel IH]; intros src buf dst eob msg arr lpp lastdnptr
    srcp dstp cpp first ret buf' arr' H; [discriminate|].
  cbn [name_pack_loop] in H.
  match type of H with (mbind _ ?f) = _ => destruct f as [found|] end;
    [|discriminate].
  cbn [mbind option_bind] in H.
  assert (Li : forall a : list (option Z),
            length (if msg is Some _ then <[lpp:=None]> a else a) = length a).
  { intros a. destruct msg; [apply length_insert|reflexivity]. }
  destruct (found >=? 0).
  - destruct (eob - dstp <=? 1); inversion H; subst; [apply Li|reflexivity].
  - cbv zeta in H.
    match type of H with
      context [if ?s then <[S cpp:=None]> _ else arr] => set (save := s) in *
    end.
    assert (La : length (if save then <[S cpp:=None]> (<[cpp:=Some dstp]> arr)
                         else arr) = length arr).
    { destruct save; [rewrite !length_insert|]; reflexivity. }
    destruct (rd src srcp >=? 64); [inversion H; subst; rewrite Li; exact La|].
    destruct (rd src srcp + 1 >? eob - dstp);
      [inversion H; subst; rewrite Li; exact La|].
    destruct (negb (rd src srcp =? 0)).
    + apply IH in H. rewrite H. exact La.
    + destruct (dstp + (rd src srcp + 1) >? eob); inversion H; subst;
        [rewrite Li|]; exact La.
Qed.

Lemma query_pack_rr_arr_length (rr : rr_record_t) (buf : list Z)
    (p buf_len : Z) (arr : list (option Z)) ret buf' arr' :
  query_pack_rr rr buf p buf_len arr = Some (ret, buf', arr') ->
  length arr' = length arr.
Proof.
  unfold query_pack_rr, rip_ns_name_put, rip_ns_name_pack. intros H.
  destruct (rip_ns_name_pton (name rr) RIP_NS_CDNAME_COMP_BUF_LEN)
    as [ret_c cn].
  assert (E : forall x b a,
            (if x <? 0 then Some (-3, b, a)
             else let p0 := p + x in
                  let packed_len := x + RIP_NS_RRFIXEDSZ + rdata_len rr in
                  if packed_len >? buf_len then Some (-3, b, a)
                  else Some (packed_len,
                             wr_bytes
                               (RIP_NS_PUT16 (rdata_len rr)
                                  (RIP_NS_PUT32 (ttl rr)
                                     (RIP_NS_PUT16 (class rr)
                                        (RIP_NS_PUT16 (type rr) b p0)
                                        (p0 + 2)) (p0 + 4)) (p0 + 8))
                               (p0 + 10)
                               (rd_bytes (rdata rr) 0 (rdata_len rr)), a))
            = Some (ret, buf', arr') -> arr' = a).
  { intros x b a. cbv zeta. destruct (x <? 0); [intros [= _ _ <-]; done|].
    destruct (_ >? _); intros [= _ _ <-]; done. }
  destruct (ret_c <? 0).
  - cbn [mbind option_bind] in H. apply E in H. subst. reflexivity.
  - revert H. generalize name_fuel. intros fuel H. cbv zeta in H.
    destruct (name_pack_legal fuel cn 0 0) as [legal|]; [|discriminate].
    cbn [mbind option_bind] in H.
    destruct (negb legal).
    + cbn [mbind option_bind] in H. apply E in H. subst. reflexivity.
    + match type of H with
        (mbind _ ?f) = _ => destruct f as [[[x b] a]|] eqn:El
      end; [|discriminate].
      cbn [mbind option_bind] in H. apply E in H. subst arr'.
      apply name_pack_loop_arr_length in El. exact El.
Qed.

Lemma rr_wf_range (rr : rr_record_t) :
  rr_wf rr = true -> 0 <= rdata_len rr < 65536.
Proof.
  unfold rr_wf. intros H. apply andb_true_iff in H. destruct H as [H1 H2].
  apply Z.leb_le in H1. apply Z.ltb_lt in H2. lia.
Qed.

Lemma section_room_nonneg (rrs : list rr_record_t) :
  forallb rr_wf rrs = true -> 0 <= section_room rrs.
Proof.
  induction rrs as [|r rrs IH]; intros H; [cbn; lia|].
  cbn [forallb] in H. apply andb_true_iff in H. destruct H as [Hw Hws].
  specialize (IH Hws). apply rr_wf_range in Hw.
  cbn [section_room fold_right]. fold (section_room rrs).
  unfold rr_room, RIP_NS_MAXCDNAME, RIP_NS_RRFIXEDSZ. lia.
Qed.

(** One section loop where there is room for every record of the section:
    it returns, the records packed so far are read back one after the
    other, and the array of packed names stays in order. *)
Lemma pack_section_packed (rrs : list rr_record_t) :
  forall (i size hdr : Z) (st : pack_st) (k : nat),
  forallb rr_wf rrs = true ->
  0 <= hdr -> HFIXEDSZ <= ps_len st ->
  names_inv (ps_buf st) hdr (hdr + HFIXEDSZ) (hdr + ps_len st) (ps_dnptrs st) ->
  rrs_at (ps_buf st) hdr (hdr + HFIXEDSZ) k (hdr + HFIXEDSZ)
    (hdr + ps_len st) ->
  hdr + ps_len st + section_room rrs <= Z.of_nat (length (ps_buf st)) ->
  (Z.to_nat (DNS_RESPONSE_COMPRESSED_NAMES_MAX - 1)
   < length (ps_dnptrs st))%nat ->
  exists r,
    pack_section rrs i size hdr st = Some r
    /\ match r with
       | inl st' =>
         names_inv (ps_buf st') hdr (hdr + HFIXEDSZ) (hdr + ps_len st')
           (ps_dnptrs st')
         /\ rrs_at (ps_buf st') hdr (hdr + HFIXEDSZ) (k + length rrs)
              (hdr + HFIXEDSZ) (hdr + ps_len st')
         /\ ps_len st <= ps_len st' <= ps_len st + section_room rrs
         /\ confined (hdr + ps_len st) (hdr + ps_len st')
              (ps_buf st) (ps_buf st')
         /\ length (ps_dnptrs st') = length (ps_dnptrs st)
       | inr (st', j) =>
         (exists k', rrs_at (ps_buf st') hdr (hdr + HFIXEDSZ) k'
                       (hdr + HFIXEDSZ) (hdr + ps_len st')
                     /\ (k <= k' < k + length rrs)%nat)
         /\ ps_len st <= ps_len st' <= ps_len st + section_room rrs
         /\ length (ps_buf st') = length (ps_buf st)
         /\ (forall j0, j0 < hdr + HFIXEDSZ -> j0 <> hdr + 2 ->
               rd (ps_buf st') j0 = rd (ps_buf st) j0)
       end.
Proof.
  induction rrs as [|rr rest IH]; intros i size hdr st k Hw H0 Hlen Hi Hr
    Hroom Hlast.
  - exists (inl st). split; [reflexivity|].
    split; [exact Hi|]. rewrite Nat.add_0_r. split; [exact Hr|].
    cbn [section_room fold_right]. split; [lia|].
    split; [apply confined_refl|reflexivity].
  - cbn [pack_section].
    cbn [forallb] in Hw. apply andb_true_iff in Hw. destruct Hw as [Hw Hws].
    cbn [section_room fold_right] in Hroom.
    fold (section_room rest) in Hroom.
    pose proof (section_room_nonneg rest Hws) as Rr.
    pose proof (rr_wf_range rr Hw) as Rd0.
    assert (Rw : 265 <= rr_room rr).
    { unfold rr_room, RIP_NS_MAXCDNAME, RIP_NS_RRFIXEDSZ. lia. }
    unfold HFIXEDSZ in *.
    destruct (query_pack_rr_packed rr (ps_buf st) (hdr + ps_len st)
                (u16 (size - ps_len st)) hdr (hdr + 12) (hdr + ps_len st)
                (ps_dnptrs st) Hw Hi ltac:(lia) ltac:(lia) ltac:(lia)
                ltac:(lia) Hlast)
      as (ret & buf' & arr' & Eq & Hq).
    rewrite Eq. cbn [mbind option_bind].
    pose proof (query_pack_rr_arr_length _ _ _ _ _ _ _ _ Eq) as La.
    pose proof (query_pack_rr_spec _ _ _ _ _ _ _ _ Hw Eq) as [Fq _].
    destruct Hq as [->|(e1 & N1 & N2 & N3 & N4 & _ & _ & N5 & N6 & N7)].
    + change (-3 <? 0) with true. cbv iota.
      eexists (inr (_, i)). split; [reflexivity|].
      cbn [ps_buf ps_len]. cbn [section_room fold_right].
      fold (section_room rest).
      destruct Fq as [Lq Rq].
      split.
      { exists k. split; [|cbn [length]; lia].
        apply (rrs_at_ext (ps_buf st)); [exact Hr|lia|].
        intros j Hj. unfold set_hdr_tc.
        rewrite rd_set_bits_other by lia. apply Rq. lia. }
      split; [lia|].
      split; [unfold set_hdr_tc; rewrite set_bits_length; exact Lq|].
      intros j0 Hj0 Hne. unfold set_hdr_tc.
      rewrite rd_set_bits_other by lia. apply Rq. lia.
    + unfold RIP_NS_RRFIXEDSZ, RIP_NS_MAXCDNAME in *.
      assert (Hpos : (ret <? 0) = false) by lia. rewrite Hpos.
      set (st1 := {| ps_buf := buf'; ps_dnptrs := arr';
                     ps_len := ps_len st + ret |}).
      assert (Hr1 : rrs_at buf' hdr (hdr + 12) (S k) (hdr + 12)
                      (hdr + (ps_len st + ret))).
      { replace (hdr + (ps_len st + ret))
          with (e1 + RIP_NS_RRFIXEDSZ + RIP_NS_GET16 buf' (e1 + 8))
          by (rewrite N5; unfold RIP_NS_RRFIXEDSZ; lia).
        apply (rrs_at_snoc buf' hdr (hdr + 12) k (hdr + 12) (hdr + ps_len st)).
        - apply (rrs_at_ext (ps_buf st)); [exact Hr|lia|].
          intros j Hj. apply N6. lia.
        - exact N1.
        - unfold RIP_NS_MAXCDNAME. lia.
        - rewrite N5. lia. }
      destruct (IH (i + 1) size hdr st1 (S k) Hws H0) as (r & Er & Hp).
      * cbn [ps_len st1]. lia.
      * cbn [ps_buf ps_len ps_dnptrs st1].
        replace (hdr + (ps_len st + ret)) with (hdr + ps_len st + ret) by ring.
        exact N7.
      * exact Hr1.
      * cbn [ps_buf ps_len st1]. destruct N6 as [L6 _]. rewrite L6.
        unfold rr_room, RIP_NS_MAXCDNAME, RIP_NS_RRFIXEDSZ in Hroom. lia.
      * cbn [ps_dnptrs st1]. rewrite La. exact Hlast.
      * exists r. split; [exact Er|].
        cbn [ps_buf ps_len ps_dnptrs st1] in Hp.
        cbn [section_room fold_right]. fold (section_room rest).
        unfold rr_room, RIP_NS_MAXCDNAME, RIP_NS_RRFIXEDSZ.
        destruct r as [st'|[st' j]].
        -- destruct Hp as (P1 & P2 & P3 & P4 & P5).
           split; [exact P1|].
           split.
           { replace (k + length (rr :: rest))%nat
               with (S k + length rest)%nat by (cbn [length]; lia).
             exact P2. }
           split; [lia|].
           split; [|congruence].
           apply (confined_trans _ _ _ buf').
           ++ eapply confined_mono; [| |exact N6]; lia.
           ++ eapply confined_mono; [| |exact P4]; lia.
        -- destruct Hp as ((k' & P1 & P2) & P3 & P4 & P5).
           split; [exists k'; split; [exact P1|cbn [length]; lia]|].
           split; [lia|].
           destruct N6 as [L6 R6].
           split; [congruence|].
           intros j0 Hj0 Hne. rewrite P5 by assumption. apply R6. lia.
Qed.

(** The OPT record query_pack_edns packs: the root name, and an RDLENGTH
    that accounts for the rest of the bytes it returns. *)
Lemma query_pack_edns_root_record (buf : list Z) (p buf_len : Z) (e : edns_t)
    ret buf' :
  0 <= p -> p + 11 <= Z.of_nat (length buf) ->
  query_pack_edns buf p buf_len e = (ret, buf') -> 0 < ret ->
  11 <= ret <= edns_room
  /\ rd buf' p = 0
  /\ RIP_NS_GET16 buf' (p + 9) = ret - 11.
Proof.
  intros Hp Hl H Hr. unfold query_pack_edns in H.
  destruct (negb (edns_valid e)); [injection H as <- _; lia|].
  cbv zeta in H. unfold edns_room in *. unfold RIP_NS_RRFIXEDSZ in *.
  set (cs := client_subnet e) in *.
  match type of H with
    context [if edns_cs_valid cs then u8 (4 + ?l) else 0] =>
      set (cs_ip_len := l) in *
  end.
  set (cs_opt_len := if edns_cs_valid cs then u8 (4 + cs_ip_len) else 0) in *.
  assert (Hc : 0 <= cs_opt_len < 256).
  { unfold cs_opt_len. destruct (edns_cs_valid cs); [|lia].
    unfold u8. apply Z.mod_pos_bound. lia. }
  clearbody cs_opt_len. clearbody cs_ip_len.
  set (opts_len := if edns_cs_valid cs
                   then u16 (u16 (1 + 10) + (4 + cs_opt_len))
                   else u16 (1 + 10)) in *.
  assert (Ho : 11 <= opts_len <= 270).
  { unfold opts_len, u16. change ((1 + 10) mod 65536) with 11.
    destruct (edns_cs_valid cs); [rewrite Z.mod_small by lia|]; lia. }
  clearbody opts_len.
  destruct (buf_len <? opts_len); [injection H as <- _; lia|].
  injection H as <- <-.
  set (c6 := wr (wr (wr (wr (RIP_NS_PUT16 (udp_resp_len e)
                  (RIP_NS_PUT16 rip_ns_t_opt (wr buf p 0) (p + 1)) (p + 3))
                  (p + 5) (u8 (extended_rcode e))) (p + 6) 0)
                  (p + 7) (u8 (Z.shiftl (if dnssec e then 1 else 0) 7)))
                  (p + 8) 0).
  set (b1 := RIP_NS_PUT16 (opts_len - 1 - 10) c6 (p + 9)).
  assert (L6 : length c6 = length buf).
  { unfold c6. rewrite !wr_length, !put16_length, wr_length. reflexivity. }
  assert (R6 : rd c6 p = 0).
  { unfold c6, RIP_NS_PUT16. cbv zeta. rewrite !rd_wr_ne by lia.
    apply rd_wr_eq. lia. }
  assert (F1 : rd b1 p = 0).
  { unfold b1. rewrite rd_put16_other by lia. exact R6. }
  assert (F2 : RIP_NS_GET16 b1 (p + 9) = opts_len - 11).
  { unfold b1. rewrite get16_put16 by lia.
    replace (opts_len - 1 - 10) with (opts_len - 11) by ring.
    unfold u16. apply Z.mod_small. lia. }
  split; [lia|].
  match goal with
    |- rd ?x p = 0 /\ _ => assert (Fr : frame_from (p + 11) b1 x)
  end.
  { destruct (edns_cs_valid cs); [|apply frame_refl].
    repeat first
      [ apply frame_refl
      | eapply frame_trans; [|apply frame_wr; lia]
      | eapply frame_trans; [|apply frame_put16; lia]
      | eapply frame_trans; [|apply frame_wr_bytes; lia] ]. }
  destruct Fr as [_ Fr]. unfold RIP_NS_GET16 in *.
  rewrite !Fr by lia. split; assumption.
Qed.

Lemma names_inv_init (buf : list Z) (h lo hi : Z) :
  names_inv buf h lo hi (dnptrs_init h)
  /\ (Z.to_nat (DNS_RESPONSE_COMPRESSED_NAMES_MAX - 1)
      < length (dnptrs_init h))%nat.
Proof.
  split.
  - split; [reflexivity|]. intros i Hi. exfalso.
    change (first_null (drop 1 (dnptrs_init h)) 1) with 1%nat in Hi. lia.
  - unfold dnptrs_init. cbn [length]. rewrite repeat_length. lia.
Qed.

Lemma pack_extended_rcode_dnptrs (q : query_t) :
  dnptrs (pack_extended_rcode q) = dnptrs q.
Proof. unfold pack_extended_rcode. destruct (end_code q <? 16); reflexivity. Qed.

(** query_response_pack up to END, on a query whose array of packed names
    is the one query_reset leaves and whose response buffer has room for
    the longest response: it reaches END, the message is no longer than
    that, and the records it holds are read back one after the other, all
    of them when the packing was not cut short. *)
Lemma pack_sections_packed (q : query_t) :
  pack_ready q = true ->
  dnptrs q = dnptrs_init (response_hdr q) ->
  response_hdr q + pack_room q
    <= Z.of_nat (length (response_buffer q)) ->
  exists ret q1 n e,
    pack_sections q = Some (ret, q1, n, e)
    /\ HFIXEDSZ <= n <= pack_room q
    /\ exists k,
         rrs_at (response_buffer q1) (response_hdr q)
           (response_hdr q + HFIXEDSZ) k (response_hdr q + HFIXEDSZ)
           (response_hdr q + n)
         /\ let total :=
              (length (sect (answer_section q) (answer_section_count q))
               + length (sect (authority_section q)
                           (authority_section_count q))
               + length (sect (additional_section q)
                           (additional_section_count q))
               + (if edns_valid (edns q) then 1 else 0))%nat in
            (e = ExitDone -> k = total) /\ (k <= total)%nat.
Proof.
  intros Hr Hdn Hroom. pose proof Hr as Hr0. apply pack_ready_elim in Hr.
  destruct Hr as (H0 & Hp2 & Hl & Han & Hns & Har & W1 & W2 & W3).
  unfold pack_sections. cbv zeta.
  destruct (pack_extended_rcode_fields q)
    as (E1 & E2 & E3 & E4 & E5 & E6 & E7 & E8).
  cbv zeta in E1, E2, E3, E4, E5, E6, E7, E8.
  pose proof (pack_extended_rcode_edns_valid q) as Ev.
  pose proof (pack_extended_rcode_dnptrs q) as Ed.
  set (q0 := pack_extended_rcode q) in *.
  rewrite E1, E2, E3, E4, E5, E6, Ed, Hdn.
  set (h := response_hdr q) in *.
  set (size := response_buffer_size q) in *.
  pose proof (pack_header_length q) as Lh.
  set (sa := sect (answer_section q) (answer_section_count q)) in *.
  set (sn := sect (authority_section q) (authority_section_count q)) in *.
  set (sd := sect (additional_section q) (additional_section_count q)) in *.
  pose proof (section_room_nonneg sa (sect_wf _ _ W1)) as Ra.
  pose proof (section_room_nonneg sn (sect_wf _ _ W2)) as Rn.
  pose proof (section_room_nonneg sd (sect_wf _ _ W3)) as Rd.
  unfold pack_room in *. fold sa sn sd in Hroom |- *.
  unfold edns_room, RIP_NS_RRFIXEDSZ in *. unfold HFIXEDSZ in *.
  destruct (names_inv_init
              (set_hdr_ancount (answer_section_count q) (pack_header q) h)
              h (h + 12) (h + 12)) as [Hi0 Hla].
  (* answer section *)
  destruct (pack_section_packed sa 0 size h
              (st_set_ancount (answer_section_count q) h
                 {| ps_buf := pack_header q; ps_dnptrs := dnptrs_init h;
                    ps_len := 12 |}) 0 (sect_wf _ _ W1) H0)
    as (r1 & R1 & P1).
  { cbn [st_set_ancount ps_len]. unfold HFIXEDSZ. lia. }
  { cbn [st_set_ancount ps_len ps_buf ps_dnptrs]. exact Hi0. }
  { cbn [st_set_ancount ps_len ps_buf]. apply rrs_at_nil. }
  { cbn [st_set_ancount ps_len ps_buf]. unfold set_hdr_ancount.
    rewrite put16_length, Lh. lia. }
  { cbn [st_set_ancount ps_dnptrs]. exact Hla. }
  rewrite R1. cbn [mbind option_bind].
  cbn [st_set_ancount ps_buf ps_len ps_dnptrs] in P1. unfold HFIXEDSZ in P1.
  assert (Lb1 : length (set_hdr_ancount (answer_section_count q)
                          (pack_header q) h) = length (response_buffer q)).
  { unfold set_hdr_ancount. rewrite put16_length. exact Lh. }
  destruct r1 as [s1|[s1 j1]].
  2:{ destruct P1 as ((k' & K1 & K2) & K3 & K4 & _).
      eexists _, _, _, _. split; [reflexivity|].
      cbn [response_buffer set_dnptrs set_response_buffer].
      split; [lia|]. exists k'. split; [exact K1|].
      cbv zeta. split; [discriminate|lia]. }
  destruct P1 as (I1 & K1 & G1 & C1 & A1). rewrite Nat.add_0_l in K1.
  assert (L1 : length (ps_buf s1) = length (response_buffer q)).
  { destruct C1 as [L _]. congruence. }
  (* authority section *)
  destruct (pack_section_packed sn 0 size h
              (st_set_nscount (authority_section_count q) h s1) (length sa)
              (sect_wf _ _ W2) H0)
    as (r2 & R2 & P2).
  { cbn [st_set_nscount ps_len]. unfold HFIXEDSZ. lia. }
  { cbn [st_set_nscount ps_len ps_buf ps_dnptrs].
    apply (names_inv_kept (ps_buf s1) _ _ _ (h + ps_len s1));
      [exact I1| |lia].
    intros j Hj. unfold set_hdr_nscount. unfold HFIXEDSZ in Hj.
    apply rd_put16_other; lia. }
  { cbn [st_set_nscount ps_len ps_buf].
    apply (rrs_at_ext (ps_buf s1)); [exact K1|unfold HFIXEDSZ; lia|].
    intros j Hj. unfold set_hdr_nscount. unfold HFIXEDSZ in Hj.
    apply rd_put16_other; lia. }
  { cbn [st_set_nscount ps_len ps_buf]. unfold set_hdr_nscount.
    rewrite put16_length, L1. lia. }
  { cbn [st_set_nscount ps_dnptrs]. rewrite A1. exact Hla. }
  rewrite R2. cbn [mbind option_bind].
  cbn [st_set_nscount ps_buf ps_len ps_dnptrs] in P2. unfold HFIXEDSZ in P2.
  destruct r2 as [s2|[s2 j2]].
  2:{ destruct P2 as ((k' & K2 & K2') & K3 & K4 & _).
      eexists _, _, _, _. split; [reflexivity|].
      cbn [response_buffer set_dnptrs set_response_buffer].
      split; [lia|]. exists k'. split; [exact K2|].
      cbv zeta. split; [discriminate|lia]. }
  destruct P2 as (I2 & K2 & G2 & C2 & A2).
  assert (L2 : length (ps_buf s2) = length (response_buffer q)).
  { destruct C2 as [L _]. unfold set_hdr_nscount in L.
    rewrite put16_length in L. congruence. }
  (* additional section *)
  destruct (pack_section_packed sd 0 size h s2 (length sa + length sn)
              (sect_wf _ _ W3) H0)
    as (r3 & R3 & P3).
  { unfold HFIXEDSZ. lia. }
  { exact I2. }
  { exact K2. }
  { rewrite L2. lia. }
  { rewrite A2, A1. exact Hla. }
  rewrite R3. cbn [mbind option_bind]. unfold HFIXEDSZ in P3.
  destruct r3 as [s3|[s3 j3]].
  2:{ destruct P3 as ((k' & K3 & K3') & K4 & K5 & _).
      eexists _, _, _, _. split; [reflexivity|].
      cbn [response_buffer set_dnptrs set_response_buffer].
      split; [lia|]. exists k'. split; [exact K3|].
      cbv zeta. split; [discriminate|lia]. }
  destruct P3 as (I3 & K3 & G3 & C3 & A3).
  assert (L3 : length (ps_buf s3) = length (response_buffer q)).
  { destruct C3 as [L _]. congruence. }
  (* EDNS *)
  unfold pack_edns_step.
  destruct (query_pack_edns (ps_buf s3) (h + ps_len s3)
              (u16 (size - ps_len s3)) (edns q0)) as [pl be] eqn:Ee.
  pose proof (query_pack_edns_ret _ _ _ _ _ _ Ee) as Pv.
  pose proof (query_pack_edns_spec _ _ _ _ _ _ Ee) as [Fe _].
  destruct (pl <? 0) eqn:Epl.
  - eexists _, _, _, _. split; [reflexivity|].
    cbn [response_buffer set_dnptrs set_response_buffer ps_buf ps_len].
    split; [lia|]. exists (length sa + length sn + length sd)%nat.
    split; [|cbv zeta; split; [discriminate|lia]].
    apply (rrs_at_ext (ps_buf s3)); [exact K3|lia|].
    intros j Hj. unfold set_hdr_tc. rewrite rd_set_bits_other by lia.
    apply Fe. pose proof (rrs_at_le _ _ _ _ _ _ K3). lia.
  - specialize (Pv eq_refl). rewrite Ev in Pv. cbv zeta.
    assert (Kb : rrs_at be h (h + 12) (length sa + length sn + length sd)
                   (h + 12) (h + ps_len s3)).
    { apply (rrs_at_ext (ps_buf s3)); [exact K3|lia|].
      intros j Hj. apply Fe. lia. }
    destruct (pl >? 0) eqn:Eg.
    + assert (Hpl : 0 < pl) by lia.
      assert (Q0 : 0 <= h + ps_len s3) by lia.
      assert (Q1 : h + ps_len s3 + 11 <= Z.of_nat (length (ps_buf s3)))
        by (rewrite L3; lia).
      destruct (query_pack_edns_root_record _ _ _ _ _ _ Q0 Q1 Ee Hpl)
        as (B1 & B2 & B3).
      unfold edns_room, RIP_NS_RRFIXEDSZ in B1.
      eexists _, _, _, _. split; [reflexivity|].
      cbn [response_buffer set_dnptrs set_response_buffer ps_buf ps_len].
      split; [lia|]. exists (S (length sa + length sn + length sd)).
      rewrite <- Pv. split; [|cbv zeta; split; [intros _|]; lia].
      replace (h + (ps_len s3 + pl))
        with (h + ps_len s3 + 1 + RIP_NS_RRFIXEDSZ
              + RIP_NS_GET16 be (h + ps_len s3 + 1 + 8)).
      2:{ replace (h + ps_len s3 + 1 + 8) with (h + ps_len s3 + 9) by ring.
          rewrite B3. unfold RIP_NS_RRFIXEDSZ. ring. }
      apply (rrs_at_snoc be h (h + 12) _ (h + 12) (h + ps_len s3)).
      * exact Kb.
      * apply name_at_end; [lia|exact B2].
      * unfold RIP_NS_MAXCDNAME. lia.
      * replace (h + ps_len s3 + 1 + 8) with (h + ps_len s3 + 9) by ring.
        rewrite B3. lia.
    + assert (pl = 0) by lia. subst pl.
      eexists _, _, _, _. split; [reflexivity|].
      cbn [response_buffer set_dnptrs set_response_buffer ps_buf ps_len].
      split; [lia|]. exists (length sa + length sn + length sd)%nat.
      rewrite <- Pv. rewrite Z.add_0_r.
      split; [exact Kb|cbv zeta; split; [intros _|]; lia].
Qed.

(** X12. query_pack_rr for a record whose rdata length is a uint16_t.
    Whatever it returns, the message is changed inside the [buf_len] bytes
    at [p] only; the return value is -3 or the count of bytes packed, which
    is the packed name, the 10 fixed bytes and the rdata, and does not
    exceed [buf_len]; where the bytes packed lie inside the buffer, the
    type, class and rdata length stored after the name read back as the
    record's.  And query_pack_rr does return when the array of packed
    names holds the start of the message followed by names packed below
    [p], and the buffer has room at [p] for the longest name, the fixed
    bytes and the rdata. *)
Theorem query_pack_rr_record (rr : rr_record_t) (buf : list Z)
    (p buf_len : Z) (arr : list (option Z)) :
  rr_wf rr = true ->
  0 <= p ->
  (forall ret buf' arr',
     query_pack_rr rr buf p buf_len arr = Some (ret, buf', arr') ->
     confined p (p + buf_len) buf buf'
     /\ (ret = -3
         \/ exists pnl,
              1 <= pnl /\ ret = pnl + RIP_NS_RRFIXEDSZ + rdata_len rr
              /\ ret <= buf_len
              /\ (p + ret <= Z.of_nat (length buf) ->
                  RIP_NS_GET16 buf' (p + pnl) = u16 (type rr)
                  /\ RIP_NS_GET16 buf' (p + pnl + 2) = u16 (class rr)
                  /\ RIP_NS_GET16 buf' (p + pnl + 8) = rdata_len rr)))
  /\ (forall m lo hi,
        names_inv buf m lo hi arr ->
        hi <= p -> lo <= p ->
        p + rr_room rr <= Z.of_nat (length buf) ->
        (Z.to_nat (DNS_RESPONSE_COMPRESSED_NAMES_MAX - 1) < length arr)%nat ->
        is_Some (query_pack_rr rr buf p buf_len arr)).
Proof.
  intros Hw Hp. split.
  - intros ret buf' arr' H.
    exact (query_pack_rr_window rr buf p buf_len arr ret buf' arr' Hw Hp H).
  - intros m lo hi Hi Hhi Hlo Hroom Hlast.
    destruct (query_pack_rr_packed rr buf p buf_len m lo hi arr
                Hw Hi Hhi Hlo Hp Hroom Hlast) as (ret & b & a & E & _).
    rewrite E. eexists. reflexivity.
Qed.

Lemma query_pack_rr_record_witness :
  exists buf' arr',
    query_pack_rr (QueryResolve.example_com_rr_A [119; 119; 119] 3)
      (repeat 7 300) 12 28 (dnptrs_init 0) = Some (19, buf', arr')
    /\ RIP_NS_GET16 buf' (12 + 5) = rip_ns_t_a.
Proof.
  assert (W : rr_wf (QueryResolve.example_com_rr_A [119; 119; 119] 3) = true)
    by reflexivity.
  assert (P0 : 0 <= 12) by lia.
  destruct (query_pack_rr_record
              (QueryResolve.example_com_rr_A [119; 119; 119] 3)
              (repeat 7 300) 12 28 (dnptrs_init 0) W P0) as [A B].
  destruct (names_inv_init (repeat 7 300) 0 12 12) as [I L].
  assert (R : 12 + rr_room (QueryResolve.example_com_rr_A [119; 119; 119] 3)
              <= Z.of_nat (length (repeat 7 300)))
    by (vm_compute; discriminate).
  destruct (B 0 12 12 I ltac:(lia) ltac:(lia) R L) as [[[ret buf'] arr'] E].
  exists buf', arr'.
  assert (ret = 19) as ->.
  { pose proof E as E'. vm_compute in E'. injection E' as E' _ _.
    symmetry. exact E'. }
  split; [exact E|].
  assert (P1 : 12 + 19 <= Z.of_nat (length (repeat 7 300)))
    by (vm_compute; discriminate).
  destruct (A _ _ _ E) as [C [H|(pnl & _ & H1 & _ & H2)]]; [discriminate|].
  unfold RIP_NS_RRFIXEDSZ in H1. cbn in H1.
  assert (pnl = 5) as -> by lia.
  destruct (H2 P1) as [H3 _]. exact H3.
Defined.

End PackedRecords.

(* --------------------------------------------------------------------- *)
(** ** query_pack.c: the response as a DNS message *)
(* --------------------------------------------------------------------- *)

Section ResponseMessage.
Import Wire Header Query QueryInit QueryResolve QueryPack MsgSpec Scenario.

(** From END to the return of query_response_pack. *)
Lemma query_response_pack_end (q : query_t) ret q1 n e :
  pack_sections q = Some (ret, q1, n, e) ->
  exists q',
    query_response_pack q = Some (ret, q')
    /\ query_response_pack_exit q = Some (ret, q', e).
Proof.
  intros H. unfold query_response_pack, query_response_pack_exit.
  rewrite H. cbn [mbind option_bind]. cbv zeta.
  eexists. split; reflexivity.
Qed.

(** query_response_pack returns on every query whose array of packed
    names is the one query_reset leaves and whose response buffer has
    room for the longest response. *)
Lemma query_response_pack_returns (q : query_t) :
  pack_ready q = true ->
  dnptrs q = dnptrs_init (response_hdr q) ->
  response_hdr q + pack_room q <= Z.of_nat (length (response_buffer q)) ->
  exists ret q', query_response_pack q = Some (ret, q').
Proof.
  intros Hr Hd Hroom.
  destruct (pack_sections_packed q Hr Hd Hroom)
    as (ret & q1 & n & e & Hs & _).
  destruct (query_response_pack_end q ret q1 n e Hs) as (q' & Hq & _).
  exists ret, q'. exact Hq.
Qed.

(** X21. query_response_pack on a query as query_reset leaves it, in a
    response buffer with room for the longest response, returns 0 or -1,
    and the TC bit of the response header is set exactly when it returns
    -1.  When it returns 0 the response header carries the id and the RD
    bit of the request, QR 1, opcode QUERY and AA 1; ANCOUNT and NSCOUNT
    are the counts of the answer and authority sections, and ARCOUNT is
    the count of the additional section, which has grown by one (as a
    uint8_t) when the EDNS object is valid. *)
Theorem query_response_pack_complete_or_truncated (q : query_t) :
  pack_ready q = true ->
  dnptrs q = dnptrs_init (response_hdr q) ->
  response_hdr q + pack_room q <= Z.of_nat (length (response_buffer q)) ->
  exists ret q',
    query_response_pack q = Some (ret, q')
    /\ let h := response_hdr q in
       let b := response_buffer q' in
       (ret = 0 \/ ret = -1)
       /\ hdr_tc b h = (if ret =? 0 then 0 else 1)
       /\ (ret = 0 ->
           rd b h = rd (request_msg q) 0
           /\ rd b (h + 1) = rd (request_msg q) 1
           /\ hdr_qr b h = 1 /\ hdr_opcode b h = rip_ns_o_query
           /\ hdr_aa b h = 1
           /\ hdr_rd b h = hdr_rd (request_msg q) 0
           /\ hdr_ancount b h = answer_section_count q
           /\ hdr_nscount b h = authority_section_count q
           /\ hdr_arcount b h = additional_section_count q'
           /\ additional_section_count q'
              = (if edns_valid (edns q)
                 then u8 (additional_section_count q + 1)
                 else additional_section_count q)).
Proof.
  intros Hr Hd Hroom.
  destruct (query_response_pack_returns q Hr Hd Hroom) as (ret & q' & Hq).
  exists ret, q'. split; [exact Hq|].
  exact (query_response_pack_header q ret q' Hr Hq).
Qed.

Lemma query_response_pack_complete_or_truncated_witness :
  exists q',
    query_response_pack query_resolved_tcp = Some (0, q')
    /\ hdr_tc (response_buffer q') 2 = 0
    /\ hdr_ancount (response_buffer q') 2 = 1
    /\ hdr_arcount (response_buffer q') 2 = 2.
Proof.
  assert (Hr : pack_ready query_resolved_tcp = true) by reflexivity.
  assert (Hd : dnptrs query_resolved_tcp
               = dnptrs_init (response_hdr query_resolved_tcp))
    by reflexivity.
  assert (Hm : response_hdr query_resolved_tcp + pack_room query_resolved_tcp
               <= Z.of_nat (length (response_buffer query_resolved_tcp)))
    by (vm_compute; discriminate).
  destruct (query_response_pack_complete_or_truncated _ Hr Hd Hm)
    as (ret & q' & Hq & H).
  assert (ret = 0) as ->.
  { vm_compute in Hq. injection Hq as Hq _. symmetry. exact Hq. }
  exists q'. split; [exact Hq|].
  cbv zeta in H. destruct H as (_ & Ht & Hd0).
  destruct (Hd0 eq_refl) as (_ & _ & _ & _ & _ & _ & Ha & _ & Hc & Hv).
  change (response_hdr query_resolved_tcp) with 2 in Ht, Ha, Hc.
  split; [exact Ht|]. split; [exact Ha|]. rewrite Hc, Hv. reflexivity.
Defined.







(** Every TCP query that query_resolve has filled after query_reset, in
    buffers of at least 1384 bytes (the default is 1542), has the header
    at offset 2, the array of packed names as query_reset leaves it, its
    sections filled, and room for the longest response, whatever the name
    asked and whatever the sections held before. *)
Lemma query_resolve_tcp_room (w : Z) (q0 : query_t) (label : list Z)
    (len : Z) :
  1384 <= w ->
  protocol q0 = 1 ->
  response_hdr q0 = response_hdr (query_init w 1) ->
  Z.of_nat (length (response_buffer q0)) = w ->
  let q := query_resolve label len (query_reset q0) in
  protocol q = 1
  /\ response_hdr q = 2
  /\ dnptrs q = dnptrs (query_reset q)
  /\ pack_ready q = true
  /\ sections_filled q = true
  /\ pack_room q = 1382
  /\ response_hdr q + pack_room q <= Z.of_nat (length (response_buffer q)).
Proof.
  intros Hw Hp Hh Hl q.
  assert (Eh : response_hdr q = response_hdr q0) by reflexivity.
  assert (Eb : response_buffer q = response_buffer q0) by reflexivity.
  assert (Ep : protocol q = protocol q0) by reflexivity.
  assert (H2 : response_hdr q0 = 2) by (rewrite Hh; reflexivity).
  assert (Er : pack_room q = 1382) by reflexivity.
  split; [rewrite Ep; exact Hp|]. split; [rewrite Eh; exact H2|].
  split; [reflexivity|].
  split.
  { unfold pack_ready. rewrite Eh, Eb, Ep, H2, Hp.
    assert ((2 + HFIXEDSZ <=? Z.of_nat (length (response_buffer q0))) = true)
      as -> by (apply Z.leb_le; unfold HFIXEDSZ; lia).
    reflexivity. }
  split; [reflexivity|]. split; [exact Er|].
  rewrite Er, Eh, Eb, H2. lia.
Qed.

End ResponseMessage.
